(** * Sparse score tensor and interaction-strength scorer

    A shallow embedding of [Tensor.cpp] (libebm) and of
    [CalculateInteractionScore.cpp] (ebm_native), with the properties that
    the design document states about them.

    Conventions of the embedding:
    - [size_t] values are integers in [Z]; every [size_t] addition,
      subtraction and multiplication wraps modulo [2^64];
    - a C array is a list, a pointer into an array is the [Z] offset from the
      array's base, so that pointer comparison and pointer difference are
      comparison and difference of offsets;
    - [double] values are [spec_float] at the binary64 format;
    - a loop whose trip count is not evident from its syntax takes a fuel
      argument and returns [None] when the fuel runs out; the callers supply
      enough fuel and the theorems show it. *)

From Stdlib Require Import ZArith Bool Lia.
From Stdlib Require Import Floats.SpecFloat.
From stdpp Require Import base tactics option list.

Local Open Scope Z_scope.

(** ** Machine integers *)

Definition SIZE_MOD : Z := 2 ^ 64.
Definition SIZE_MAX : Z := SIZE_MOD - 1.

Definition size_wrap (x : Z) : Z := x mod SIZE_MOD.
Definition size_add (a b : Z) : Z := size_wrap (a + b).
Definition size_sub (a b : Z) : Z := size_wrap (a - b).
Definition size_mul (a b : Z) : Z := size_wrap (a * b).

(** Modelled from the spec: [IsAddError] and [IsMultiplyError] are declared
    in a header outside src/; the design document describes them as the
    overflow checks of [size_t] addition and multiplication. *)
Definition IsAddError (a b : Z) : bool := SIZE_MAX <? a + b.
Definition IsMultiplyError (a b : Z) : bool := SIZE_MAX <? a * b.

(** [IntEbmType] is a signed 64-bit integer. *)
Definition INT_EBM_MAX : Z := 2 ^ 63 - 1.
Definition INT_EBM_MIN : Z := - 2 ^ 63.

Inductive ErrorEbm : Set :=
| Error_None
| Error_OutOfMemory
| Error_IllegalParamValue.

Definition ErrorEbm_eqb (a b : ErrorEbm) : bool :=
  match a, b with
  | Error_None, Error_None => true
  | Error_OutOfMemory, Error_OutOfMemory => true
  | Error_IllegalParamValue, Error_IllegalParamValue => true
  | _, _ => false
  end.

(** ** Floating point: binary64 *)

Definition prec : Z := 53.
Definition emax : Z := 1024.

Abbreviation FloatScore := spec_float (only parsing).
Abbreviation FloatEbmType := spec_float (only parsing).

Definition float_add : spec_float -> spec_float -> spec_float := SFadd prec emax.
Definition float_mul : spec_float -> spec_float -> spec_float := SFmul prec emax.
Definition float_div : spec_float -> spec_float -> spec_float := SFdiv prec emax.
Definition float_le : spec_float -> spec_float -> bool := SFleb.
Definition float_lt : spec_float -> spec_float -> bool := SFltb.
Definition float_eq : spec_float -> spec_float -> bool := SFeqb.

Definition float_zero : spec_float := S754_zero false.
(** [std::numeric_limits<double>::max()] and [lowest()]. *)
Definition float_max : spec_float := SFmax_float prec emax.
Definition float_lowest : spec_float := SFopp float_max.
Definition float_infinity : spec_float := S754_infinity false.

Definition isnan (x : spec_float) : bool :=
  match x with S754_nan => true | _ => false end.
Definition isinf (x : spec_float) : bool :=
  match x with S754_infinity _ => true | _ => false end.
(** A finite value: neither NaN nor an infinity. *)
Definition isfinite (x : spec_float) : bool := negb (isnan x) && negb (isinf x).

(** [sizeof(FloatScore)]: a [double] takes 8 bytes. *)
Definition sizeof_FloatScore : Z := 8.

(** Two infinities of opposite signs. *)
Definition opposite_infinities (x y : spec_float) : bool :=
  match x, y with
  | S754_infinity sx, S754_infinity sy => xorb sx sy
  | _, _ => false
  end.

(** ** Arrays *)

Definition rd {A} (d : A) (l : list A) (i : Z) : A :=
  if i <? 0 then d else nth (Z.to_nat i) l d.

Definition wr {A} (l : list A) (i : Z) (v : A) : list A :=
  if i <? 0 then l else <[Z.to_nat i := v]> l.

(** [memcpy(dst, src, n * sizeof(elt))] *)
Fixpoint memcpy_from {A} (d : A) (n : nat) (i : Z) (dst src : list A) : list A :=
  match n with
  | O => dst
  | S n' => memcpy_from d n' (i + 1) (wr dst i (rd d src i)) src
  end.
Definition memcpy {A} (d : A) (dst src : list A) (n : Z) : list A :=
  memcpy_from d (Z.to_nat n) 0 dst src.

(** A reallocated block of [n] elements: the old contents up to the smaller
    of the two sizes, then uninitialised cells. *)
Definition resize {A} (fresh : A) (l : list A) (n : Z) : list A :=
  take (Z.to_nat n) (l ++ replicate (Z.to_nat n) fresh).

(** ** The tensor *)

Record DimensionInfo : Set := mkDimensionInfo {
  m_cSlices : Z;
  m_cSliceCapacity : Z;
  m_aSplits : list Z
}.

Record Tensor : Set := mkTensor {
  m_cScores : Z;
  m_cDimensionsMax : Z;
  m_cDimensions : Z;
  m_cTensorScoreCapacity : Z;
  m_bExpanded : bool;
  m_aTensorScores : list FloatScore;
  m_aDimensions : list DimensionInfo
}.

Definition DimensionInfo_null : DimensionInfo := mkDimensionInfo 0 0 [].

Definition GetDimension (t : Tensor) (i : Z) : DimensionInfo :=
  rd DimensionInfo_null (m_aDimensions t) i.

Definition with_cSlices (d : DimensionInfo) (c : Z) : DimensionInfo :=
  mkDimensionInfo c (m_cSliceCapacity d) (m_aSplits d).
Definition with_aSplits (d : DimensionInfo) (a : list Z) : DimensionInfo :=
  mkDimensionInfo (m_cSlices d) (m_cSliceCapacity d) a.

Definition with_dimensions (t : Tensor) (ds : list DimensionInfo) : Tensor :=
  mkTensor (m_cScores t) (m_cDimensionsMax t) (m_cDimensions t)
    (m_cTensorScoreCapacity t) (m_bExpanded t) (m_aTensorScores t) ds.
Definition with_dimension (t : Tensor) (i : Z) (d : DimensionInfo) : Tensor :=
  with_dimensions t (wr (m_aDimensions t) i d).
Definition with_scores (t : Tensor) (a : list FloatScore) : Tensor :=
  mkTensor (m_cScores t) (m_cDimensionsMax t) (m_cDimensions t)
    (m_cTensorScoreCapacity t) (m_bExpanded t) a (m_aDimensions t).
Definition with_score_buffer (t : Tensor) (a : list FloatScore) (cBytes : Z) : Tensor :=
  mkTensor (m_cScores t) (m_cDimensionsMax t) (m_cDimensions t)
    cBytes (m_bExpanded t) a (m_aDimensions t).
Definition with_expanded (t : Tensor) (b : bool) : Tensor :=
  mkTensor (m_cScores t) (m_cDimensionsMax t) (m_cDimensions t)
    (m_cTensorScoreCapacity t) b (m_aTensorScores t) (m_aDimensions t).

(** ** The data model of the design document *)

(** The splits of a dimension that are in use: the first [m_cSlices - 1]
    cells of its split array. *)
Definition live_splits (d : DimensionInfo) : list Z :=
  take (Z.to_nat (m_cSlices d - 1)) (m_aSplits d).

(** The slice that contains bin [b]: the index of the first split above [b],
    so that [splits[k-1] <= b < splits[k]]. *)
Fixpoint slice_of (splits : list Z) (b : Z) : Z :=
  match splits with
  | [] => 0
  | s :: splits' => if s <=? b then 1 + slice_of splits' b else 0
  end.

(** The offset of the cell of the bin coordinates [c] in the score array:
    the slice indexes, row-major over the dimensions in declared order, with
    [stride] the stride of the first dimension. *)
Fixpoint cell_offset (c : list Z) (ds : list DimensionInfo) (stride : Z) : Z :=
  match c with
  | [] => 0
  | b :: c' =>
      let d := hd DimensionInfo_null ds in
      slice_of (live_splits d) b * stride + cell_offset c' (tl ds) (stride * m_cSlices d)
  end.

(** The [j]-th score of the tensor sampled at the bin coordinates [c]. *)
Definition sample (t : Tensor) (c : list Z) (j : Z) : FloatScore :=
  rd float_zero (m_aTensorScores t) (cell_offset c (m_aDimensions t) (m_cScores t) + j).

(** Strictly increasing splits, all strictly between [lo] and [hi]. *)
Fixpoint splits_ok (lo hi : Z) (l : list Z) : Prop :=
  match l with
  | [] => True
  | s :: l' => lo < s < hi /\ splits_ok s hi l'
  end.

(** The invariants of one dimension with [cBins] bins. *)
Definition Dimension_ok (cBins : Z) (d : DimensionInfo) : Prop :=
  1 <= cBins /\
  1 <= m_cSlices d <= m_cSliceCapacity d /\
  Z.of_nat (length (m_aSplits d)) = m_cSliceCapacity d - 1 /\
  splits_ok 0 cBins (live_splits d).

Fixpoint Dimensions_ok (bins : list Z) (ds : list DimensionInfo) : Prop :=
  match bins, ds with
  | [], _ => True
  | cBins :: bins', d :: ds' => Dimension_ok cBins d /\ Dimensions_ok bins' ds'
  | _ :: _, [] => False
  end.

(** The product of the slice counts of the first [n] dimensions. *)
Fixpoint slices_product (n : nat) (ds : list DimensionInfo) : Z :=
  match n with
  | O => 1
  | S n' => m_cSlices (hd DimensionInfo_null ds) * slices_product n' (tl ds)
  end.

(** The number of live scores, [S * prod slice_count]. *)
Definition live_scores (t : Tensor) : Z :=
  m_cScores t * slices_product (Z.to_nat (m_cDimensions t)) (m_aDimensions t).

(** The invariants of a tensor over features with the bin counts [bins]: at
    least one score per cell, one dimension per feature, the score array as
    long as its capacity in bytes says, long enough for the live scores, and
    a dense tensor that fits the address space. *)
Definition Tensor_ok (bins : list Z) (t : Tensor) : Prop :=
  1 <= m_cScores t /\
  m_cDimensions t = Z.of_nat (length bins) /\
  Dimensions_ok bins (m_aDimensions t) /\
  Z.of_nat (length (m_aTensorScores t)) = m_cTensorScoreCapacity t / sizeof_FloatScore /\
  live_scores t <= Z.of_nat (length (m_aTensorScores t)) /\
  sizeof_FloatScore * (m_cScores t * fold_right Z.mul 1 bins) <= SIZE_MAX.


(** [capacity_le t t']: the score capacity and the slice capacity of every
    dimension are at least as large in [t'] as in [t]. *)
Definition capacity_le (t t' : Tensor) : Prop :=
  m_cTensorScoreCapacity t <= m_cTensorScoreCapacity t' /\
  forall iDimension,
    m_cSliceCapacity (GetDimension t iDimension)
    <= m_cSliceCapacity (GetDimension t' iDimension).

(** A value of type [size_t]. *)
Definition is_size_t (x : Z) : Prop := 0 <= x <= SIZE_MAX.

(** The per-dimension cursors that [Expand] and [Add] keep on their stack.
    [m_pSplit1] and [m_pSplit2] are offsets into the split arrays of the
    same dimension of the left and right tensor. *)
Module DimensionInfoStackExpand.
Record t : Set := mk { m_pSplit1 : Z; m_iEdge2 : Z; m_cNewSlices : Z }.
End DimensionInfoStackExpand.

Module DimensionInfoStack.
Record t : Set := mk { m_pSplit1 : Z; m_pSplit2 : Z; m_cNewSlices : Z }.
End DimensionInfoStack.

(** Modelled from the spec: [Term] is declared outside src/. A term lists its
    features, of which [Expand] reads the bin counts only, and
    [GetCountTensorBins] is the product of these bin counts. *)
Record Term : Set := mkTerm { m_aTermFeatures : list Z }.

Definition GetCountDimensions (pTerm : Term) : Z :=
  Z.of_nat (length (m_aTermFeatures pTerm)).
Definition GetCountTensorBins (pTerm : Term) : Z :=
  fold_right Z.mul 1 (m_aTermFeatures pTerm).

(** ** Cells of a dense grid *)

(** The flat index of the coordinates [c] in a row-major grid with the
    extents [extents], first coordinate fastest, and the coordinates of a
    flat index. *)
Fixpoint flatten (extents c : list Z) : Z :=
  match extents, c with
  | e :: extents', b :: c' => b + e * flatten extents' c'
  | _, _ => 0
  end.

Fixpoint unflatten (extents : list Z) (n : Z) : list Z :=
  match extents with
  | [] => []
  | e :: extents' => n mod e :: unflatten extents' (n / e)
  end.

(** Bin coordinates within the bin counts. *)
Fixpoint coordinates_ok (bins c : list Z) : Prop :=
  match bins, c with
  | [], [] => True
  | cBins :: bins', b :: c' => 0 <= b < cBins /\ coordinates_ok bins' c'
  | _, _ => False
  end.

(** What [Expand] holds for the cell with the flat index [n] of the dense
    grid: the cursors of its stack, and the offset in the score array of the
    cell of the sparse tensor that covers it. *)
Fixpoint expand_stack (bins : list Z) (ds : list DimensionInfo) (n : Z)
  : list DimensionInfoStackExpand.t :=
  match bins with
  | [] => []
  | cBins :: bins' =>
      DimensionInfoStackExpand.mk
        (slice_of (live_splits (hd DimensionInfo_null ds)) (n mod cBins)) (n mod cBins + 1) cBins
      :: expand_stack bins' (tl ds) (n / cBins)
  end.

Fixpoint expand_source (bins : list Z) (ds : list DimensionInfo) (stride n : Z) : Z :=
  match bins with
  | [] => 0
  | cBins :: bins' =>
      let d := hd DimensionInfo_null ds in
      slice_of (live_splits d) (n mod cBins) * stride
      + expand_source bins' (tl ds) (stride * m_cSlices d) (n / cBins)
  end.

(** Dimensions that are dense over the bin counts: one slice per bin, with
    the splits 1, 2, 3 and so on. *)
Fixpoint Dimensions_dense (bins : list Z) (ds : list DimensionInfo) : Prop :=
  match bins, ds with
  | [], _ => True
  | cBins :: bins', d :: ds' =>
      (m_cSlices d = cBins /\
       cBins - 1 <= Z.of_nat (length (m_aSplits d)) /\
       forall k, 0 <= k < cBins - 1 -> rd 0 (m_aSplits d) k = k + 1) /\
      Dimensions_dense bins' ds'
  | _ :: _, [] => False
  end.

(** ** Cells of a sum *)

(** The sorted union of two strictly increasing lists, duplicates merged. *)
Fixpoint merge_union (l1 : list Z) : list Z -> list Z :=
  fix merge_with (l2 : list Z) : list Z :=
    match l1, l2 with
    | [], _ => l2
    | _, [] => l1
    | a :: l1', b :: l2' =>
        if a <? b then a :: merge_union l1' l2
        else if b <? a then b :: merge_with l2'
        else a :: merge_union l1' l2'
    end.

(** The first bin of slice [x] in the partition with the splits [splits]. *)
Definition lower_edge (splits : list Z) (x : Z) : Z := rd 0 splits (x - 1).

(** The splits of the sum in the first dimension of two lists of dimensions,
    and its slice count. *)
Definition merged_splits (ds1 ds2 : list DimensionInfo) : list Z :=
  merge_union (live_splits (hd DimensionInfo_null ds1)) (live_splits (hd DimensionInfo_null ds2)).
Definition merged_count (ds1 ds2 : list DimensionInfo) : Z :=
  Z.of_nat (length (merged_splits ds1 ds2)) + 1.

(** The slice counts of the sum, one per feature. *)
Fixpoint merged_slices (bins : list Z) (ds1 ds2 : list DimensionInfo) : list Z :=
  match bins with
  | [] => []
  | _ :: bins' => merged_count ds1 ds2 :: merged_slices bins' (tl ds1) (tl ds2)
  end.

(** What [Add] holds for the cell with the flat index [n] of the sum: the
    cursors of its stack, and the offset in the score array of the cell that
    covers it in the tensor with the dimensions [ds], which is either of the
    two tensors. *)
Fixpoint add_stack (bins : list Z) (ds1 ds2 : list DimensionInfo) (n : Z)
  : list DimensionInfoStack.t :=
  match bins with
  | [] => []
  | _ :: bins' =>
      let edge := lower_edge (merged_splits ds1 ds2) (n mod merged_count ds1 ds2) in
      DimensionInfoStack.mk
        (slice_of (live_splits (hd DimensionInfo_null ds1)) edge)
        (slice_of (live_splits (hd DimensionInfo_null ds2)) edge)
        (merged_count ds1 ds2)
      :: add_stack bins' (tl ds1) (tl ds2) (n / merged_count ds1 ds2)
  end.

Fixpoint add_source (bins : list Z) (ds ds1 ds2 : list DimensionInfo) (stride n : Z) : Z :=
  match bins with
  | [] => 0
  | _ :: bins' =>
      let d := hd DimensionInfo_null ds in
      let edge := lower_edge (merged_splits ds1 ds2) (n mod merged_count ds1 ds2) in
      slice_of (live_splits d) edge * stride
      + add_source bins' (tl ds) (tl ds1) (tl ds2) (stride * m_cSlices d)
          (n / merged_count ds1 ds2)
  end.

(** The dimensions of a sum: in every dimension the live splits are strictly
    increasing within the bins, they are the splits of either summand, and
    the slice count is one more than their number and at most the sum of the
    summands' slice counts less one. *)
Fixpoint Dimensions_merged (bins : list Z) (ds1 ds2 ds : list DimensionInfo) : Prop :=
  match bins, ds1, ds2, ds with
  | [], _, _, _ => True
  | cBins :: bins', d1 :: ds1', d2 :: ds2', d :: ds' =>
      (splits_ok 0 cBins (live_splits d) /\
       (forall v, In v (live_splits d) <-> In v (live_splits d1) \/ In v (live_splits d2)) /\
       m_cSlices d = Z.of_nat (length (live_splits d)) + 1 /\
       m_cSlices d <= m_cSlices d1 + m_cSlices d2 - 1) /\
      Dimensions_merged bins' ds1' ds2' ds'
  | _, _, _, _ => False
  end.

(** Dimensions that agree over the first [n] of them: the same slice counts
    and the same live splits. *)
Fixpoint Dimensions_same (n : nat) (ds1 ds2 : list DimensionInfo) : Prop :=
  match n with
  | O => True
  | S n' =>
      match ds1, ds2 with
      | d1 :: ds1', d2 :: ds2' =>
          (m_cSlices d1 = m_cSlices d2 /\ live_splits d1 = live_splits d2) /\
          Dimensions_same n' ds1' ds2'
      | _, _ => False
      end
  end.

(** ** The interaction-strength scorer *)

(** Modelled from the spec: [Feature], [DataSetInteraction], [InteractionCore],
    [InteractionShell] and [FeatureGroup] are declared outside src/. The
    records below hold what the scorer reads from them through their
    accessors: a feature's bin count, the data set's sample count and total
    weight, the core's features, data set and learning type, and the feature
    group's dimension counts and entries. A null handle, or one that
    [GetInteractionShellFromHandle] rejects, is [None]. *)
Record Feature : Set := mkFeature { GetCountBins : Z }.

Record DataSetInteraction : Set := mkDataSetInteraction {
  GetCountSamples : Z;
  GetWeightTotal : FloatEbmType
}.

Record InteractionCore : Set := mkInteractionCore {
  GetFeatures : list Feature;
  GetDataSetInteraction : DataSetInteraction;
  GetRuntimeLearningTypeOrCountTargetClasses : Z
}.

Definition GetCountFeatures (pInteractionCore : InteractionCore) : Z :=
  Z.of_nat (length (GetFeatures pInteractionCore)).

Record InteractionShell : Set := mkInteractionShell {
  GetInteractionCore : InteractionCore
}.

Module FeatureGroup.
Record t : Set := mk {
  GetCountDimensions : Z;
  GetCountSignificantDimensions : Z;
  GetFeatureGroupEntries : list Feature
}.
End FeatureGroup.

(** [IsConvertError<size_t>] of a value of [IntEbmType] *)
Definition IsConvertError_size_t (v : Z) : bool := (v <? 0) || (SIZE_MAX <? v).

(** The feature that an index of [featureIndexes] refers to. *)
Definition feature_at (pInteractionCore : InteractionCore) (index : Z) : Feature :=
  rd (mkFeature 0) (GetFeatures pInteractionCore) index.

(** An index that [CalcInteractionStrength] accepts without leaving early:
    in range, and of a feature with at least two bins. *)
Definition index_ok (pInteractionCore : InteractionCore) (index : Z) : Prop :=
  0 <= index < GetCountFeatures pInteractionCore /\
  2 <= GetCountBins (feature_at pInteractionCore index).

(** An index outside of the core's features. *)
Definition index_out_of_range (pInteractionCore : InteractionCore) (index : Z) : Prop :=
  index < 0 \/ GetCountFeatures pInteractionCore <= index.

(** The output cell after a store, which a null pointer skips. *)
Definition store (p : option spec_float) (v : spec_float) : option spec_float :=
  match p with
  | Some _ => Some v
  | None => None
  end.

(** ** Sample data *)

(** The [double] of an integer. *)
Definition float_of_Z (z : Z) : spec_float := binary_normalize prec emax z 0 false.

(** [lowest / 2] *)
Definition float_half_lowest : spec_float := S754_finite true 9007199254740991 970.

(** Scenario 3 of the design document: one dimension with room for four
    bins, one score per cell; [a] is split at 2 with the scores 1 and 2, [b]
    at 3 with the scores 10 and 20. *)
Definition example_a : Tensor :=
  mkTensor 1 1 1 16 false [float_of_Z 1; float_of_Z 2] [mkDimensionInfo 2 2 [2]].
Definition example_b : Tensor :=
  mkTensor 1 1 1 16 false [float_of_Z 10; float_of_Z 20] [mkDimensionInfo 2 2 [3]].

(** A tensor over 3 x 2 bins with 2 x 2 slices and the scores 1, 2, 3, 4. *)
Definition example_sparse : Tensor :=
  mkTensor 1 2 2 32 false [float_of_Z 1; float_of_Z 2; float_of_Z 3; float_of_Z 4]
    [mkDimensionInfo 2 2 [2]; mkDimensionInfo 2 2 [1]].

(** Scenario 4: an expanded 2 x 2 tensor whose scores are all [lowest / 2]. *)
Definition example_expanded : Tensor :=
  mkTensor 1 2 2 32 true
    [float_half_lowest; float_half_lowest; float_half_lowest; float_half_lowest]
    [mkDimensionInfo 2 2 [1]; mkDimensionInfo 2 2 [1]].

(** An expanded tensor without dimensions that holds [+infinity]. *)
Definition example_infinite : Tensor :=
  mkTensor 1 0 0 8 true [S754_infinity false] [].

(** A core with features of 3, 2, 1 and 2 bins, over six samples of total
    weight 6 and a target of two classes. *)
Definition example_core : InteractionCore :=
  mkInteractionCore [mkFeature 3; mkFeature 2; mkFeature 1; mkFeature 2]
    (mkDataSetInteraction 6 (float_of_Z 6)) 2.
Definition example_shell : InteractionShell := mkInteractionShell example_core.

(** A core with three features of [2^22] bins each. *)
Definition example_wide_core : InteractionCore :=
  mkInteractionCore [mkFeature 4194304; mkFeature 4194304; mkFeature 4194304]
    (mkDataSetInteraction 6 (float_of_Z 6)) 2.
Definition example_wide_shell : InteractionShell := mkInteractionShell example_wide_core.

(** The core of [example_core] over a data set without samples. *)
Definition example_empty_core : InteractionCore :=
  mkInteractionCore [mkFeature 3; mkFeature 2; mkFeature 1; mkFeature 2]
    (mkDataSetInteraction 0 float_zero) 2.
Definition example_empty_shell : InteractionShell := mkInteractionShell example_empty_core.

Section Model.

(** The parts of the platform that the two source files leave open. *)

(** [sizeof(UIntSplit)], the size of a split in bytes. *)
Variable sizeof_UIntSplit : Z.

(** Whether [realloc] of a split array to the given byte count succeeds, and
    whether the aligned allocator serves the given byte count. *)
Variable realloc_ok : Z -> bool.
Variable aligned_alloc_ok : Z -> bool.

(** The contents of memory that an allocator hands out. *)
Variable fresh_split : Z.
Variable fresh_score : FloatScore.

(** The byte count that [AlignedGrow] allocates for a required byte count;
    it is at least the required one. *)
Variable amortized_bytes : Z -> Z.
Hypothesis amortized_bytes_ge : forall cBytes, cBytes <= amortized_bytes cBytes.

(** *** [Tensor::Reset] *)

Fixpoint Reset_slices (n : nat) (i : Z) (ds : list DimensionInfo) : list DimensionInfo :=
  match n with
  | O => ds
  | S n' =>
      Reset_slices n' (i + 1) (wr ds i (with_cSlices (rd DimensionInfo_null ds i) 1))
  end.

Fixpoint Reset_scores (n : nat) (i : Z) (a : list FloatScore) : list FloatScore :=
  match n with
  | O => a
  | S n' => Reset_scores n' (i + 1) (wr a i float_zero)
  end.

Definition Reset (t : Tensor) : Tensor :=
  let t1 := with_dimensions t (Reset_slices (Z.to_nat (m_cDimensions t)) 0 (m_aDimensions t)) in
  let t2 := with_scores t1 (Reset_scores (Z.to_nat (m_cScores t)) 0 (m_aTensorScores t1)) in
  with_expanded t2 false.

(** *** [Tensor::SetCountSlices] *)

Definition SetCountSlices (t : Tensor) (iDimension cSlices : Z) : ErrorEbm * Tensor :=
  let pDimension := GetDimension t iDimension in
  if m_cSliceCapacity pDimension <? cSlices then
    let cSplits := size_sub cSlices 1 in
    if IsAddError cSplits (Z.shiftr cSplits 1) then (Error_OutOfMemory, t)
    else
      let cNewSplitCapacity := size_add cSplits (Z.shiftr cSplits 1) in
      if IsMultiplyError sizeof_UIntSplit cNewSplitCapacity then (Error_OutOfMemory, t)
      else
        let cBytes := size_mul sizeof_UIntSplit cNewSplitCapacity in
        if realloc_ok cBytes then
          let aNewSplits := resize fresh_split (m_aSplits pDimension) cNewSplitCapacity in
          (Error_None,
           with_dimension t iDimension
             (mkDimensionInfo cSlices (size_add cNewSplitCapacity 1) aNewSplits))
        else (Error_OutOfMemory, t)
  else (Error_None, with_dimension t iDimension (with_cSlices pDimension cSlices)).

(** *** [Tensor::EnsureTensorScoreCapacity] *)

(** Modelled from the spec: [AlignedGrow] is defined outside src/. The design
    document says that the score buffer is grown to hold at least the
    required number of floats, that growth is amortised, that the scores are
    kept, and that a failed grow preserves the old buffer. *)
Definition AlignedGrow (a : list FloatScore) (cOldBytes cRequiredBytes : Z)
  : ErrorEbm * (list FloatScore * Z) :=
  if cOldBytes <? cRequiredBytes then
    let cNewBytes := amortized_bytes cRequiredBytes in
    if aligned_alloc_ok cNewBytes then
      (Error_None, (resize fresh_score a (cNewBytes / sizeof_FloatScore), cNewBytes))
    else (Error_OutOfMemory, (a, cOldBytes))
  else (Error_None, (a, cOldBytes)).

Definition EnsureTensorScoreCapacity (t : Tensor) (cTensorScores : Z) : ErrorEbm * Tensor :=
  if IsMultiplyError sizeof_FloatScore cTensorScores then (Error_OutOfMemory, t)
  else
    let cBytes := size_mul sizeof_FloatScore cTensorScores in
    let '(error, (a, c)) := AlignedGrow (m_aTensorScores t) (m_cTensorScoreCapacity t) cBytes in
    (error, with_score_buffer t a c).

(** *** [Tensor::Copy] *)

Fixpoint Copy_dimensions (n : nat) (iDimension cTensorScores : Z) (t rhs : Tensor)
  : ErrorEbm * (Tensor * Z) :=
  match n with
  | O => (Error_None, (t, cTensorScores))
  | S n' =>
      let pDimension := GetDimension rhs iDimension in
      let cSlices := m_cSlices pDimension in
      let cTensorScores := size_mul cTensorScores cSlices in
      let '(error, t1) := SetCountSlices t iDimension cSlices in
      match error with
      | Error_None =>
          let pThis := GetDimension t1 iDimension in
          let aSplits :=
            memcpy 0 (m_aSplits pThis) (m_aSplits pDimension) (size_sub cSlices 1) in
          Copy_dimensions n' (iDimension + 1) cTensorScores
            (with_dimension t1 iDimension (with_aSplits pThis aSplits)) rhs
      | _ => (error, (t1, cTensorScores))
      end
  end.

Definition Copy (t rhs : Tensor) : ErrorEbm * Tensor :=
  let '(error, (t1, cTensorScores)) :=
    Copy_dimensions (Z.to_nat (m_cDimensions t)) 0 (m_cScores t) t rhs in
  match error with
  | Error_None =>
      let '(error, t2) := EnsureTensorScoreCapacity t1 cTensorScores in
      match error with
      | Error_None =>
          let a := memcpy float_zero (m_aTensorScores t2) (m_aTensorScores rhs) cTensorScores in
          (Error_None, with_expanded (with_scores t2 a) (m_bExpanded rhs))
      | _ => (error, t2)
      end
  | _ => (error, t1)
  end.

(** *** [Tensor::MultiplyAndCheckForIssues] *)

(** [cTensorScores *= aDimension[iDimension].m_cSlices] over the dimensions *)
Fixpoint CountTensorScores (n : nat) (iDimension cTensorScores : Z) (ds : list DimensionInfo) : Z :=
  match n with
  | O => cTensorScores
  | S n' =>
      CountTensorScores n' (iDimension + 1)
        (size_mul cTensorScores (m_cSlices (rd DimensionInfo_null ds iDimension))) ds
  end.

Fixpoint Multiply_loop (fuel : nat) (vFloat : FloatScore) (a : list FloatScore)
  (pCur pEnd : Z) (bBad : bool) : option (list FloatScore * bool) :=
  match fuel with
  | O => None
  | S fuel' =>
      let val := float_mul (rd float_zero a pCur) vFloat in
      let bBad := bBad || (isnan val || isinf val) in
      let a := wr a pCur val in
      let pCur := pCur + 1 in
      if negb (pEnd =? pCur) then Multiply_loop fuel' vFloat a pCur pEnd bBad
      else Some (a, bBad)
  end.

Definition MultiplyAndCheckForIssues (t : Tensor) (v : spec_float) : option (bool * Tensor) :=
  let vFloat : FloatScore := v in
  let cTensorScores :=
    CountTensorScores (Z.to_nat (m_cDimensions t)) 0 (m_cScores t) (m_aDimensions t) in
  match Multiply_loop (Z.to_nat cTensorScores) vFloat (m_aTensorScores t) 0 cTensorScores false with
  | None => None
  | Some (a, bBad) => Some (bBad, with_scores t a)
  end.

(** *** [Tensor::AddExpandedWithBadValueProtection] *)

(** The body of the loop, on the stored score and the score added to it. *)
Definition AddWithBadValueProtection (toScore fromScore : FloatScore) : FloatScore :=
  let score := fromScore in
  let score := if isnan score then float_zero else score in
  let score := float_add toScore score in
  let score := if float_le score float_lowest then float_lowest else score in
  let score := if float_le float_max score then float_max else score in
  score.

Fixpoint AddExpanded_loop (fuel : nat) (aFromScores a : list FloatScore)
  (pFromScore pToScore pToScoresEnd : Z) : option (list FloatScore) :=
  match fuel with
  | O => None
  | S fuel' =>
      let score :=
        AddWithBadValueProtection (rd float_zero a pToScore) (rd float_zero aFromScores pFromScore) in
      let a := wr a pToScore score in
      let pFromScore := pFromScore + 1 in
      let pToScore := pToScore + 1 in
      if negb (pToScoresEnd =? pToScore)
      then AddExpanded_loop fuel' aFromScores a pFromScore pToScore pToScoresEnd
      else Some a
  end.

Definition AddExpandedWithBadValueProtection (t : Tensor) (aFromScores : list FloatScore)
  : option Tensor :=
  let cItems :=
    CountTensorScores (Z.to_nat (m_cDimensions t)) 0 (m_cScores t) (m_aDimensions t) in
  match AddExpanded_loop (Z.to_nat cItems) aFromScores (m_aTensorScores t) 0 0 cItems with
  | None => None
  | Some a => Some (with_scores t a)
  end.

(** *** [Tensor::Expand] *)

(** The first loop: the count of scores before expansion and the initial
    cursors. [aDimensions] advances together with the term's features. *)
Fixpoint Expand_count (aTermFeatures : list Z) (aDimensions : list DimensionInfo)
  (cTensorScores1 : Z) : Z * list DimensionInfoStackExpand.t :=
  match aTermFeatures with
  | [] => (cTensorScores1, [])
  | cBins :: aTermFeatures' =>
      let pDimensionFirst1 := hd DimensionInfo_null aDimensions in
      let cSlices1 := m_cSlices pDimensionFirst1 in
      let cTensorScores1 := size_mul cTensorScores1 cSlices1 in
      let entry := DimensionInfoStackExpand.mk (size_sub cSlices1 1) cBins cBins in
      let '(c, stack) := Expand_count aTermFeatures' (tl aDimensions) cTensorScores1 in
      (c, entry :: stack)
  end.

(** The [do] loop that copies the [m_cScores] scores of one cell. *)
Fixpoint Expand_cell (fuel : nat) (aTensorScores : list FloatScore)
  (pTensorScore1Move pTensorScoreTop pTensorScoreTopEnd : Z) : option (list FloatScore * Z) :=
  match fuel with
  | O => None
  | S fuel' =>
      let pTensorScore1Move := pTensorScore1Move - 1 in
      let pTensorScoreTop := pTensorScoreTop - 1 in
      let aTensorScores :=
        wr aTensorScores pTensorScoreTop (rd float_zero aTensorScores pTensorScore1Move) in
      if negb (pTensorScoreTopEnd =? pTensorScoreTop)
      then Expand_cell fuel' aTensorScores pTensorScore1Move pTensorScoreTop pTensorScoreTopEnd
      else Some (aTensorScores, pTensorScoreTop)
  end.

(** The inner [while(true)] that steps the cursors to the previous cell. It
    returns the new stack and the new [pTensorScore1]; [None] stands for a
    walk past the last dimension of the stack. *)
Fixpoint Expand_step (stack : list DimensionInfoStackExpand.t) (aDimension : list DimensionInfo)
  (multiplication1 pTensorScore1 : Z) : option (list DimensionInfoStackExpand.t * Z) :=
  match stack with
  | [] => None
  | entry :: stack' =>
      let pDimensionSecond1 := hd DimensionInfo_null aDimension in
      let pSplit1 := DimensionInfoStackExpand.m_pSplit1 entry in
      let iEdge2 := DimensionInfoStackExpand.m_iEdge2 entry in
      let cNewSlices := DimensionInfoStackExpand.m_cNewSlices entry in
      let aSplits1 := m_aSplits pDimensionSecond1 in
      if 0 <? pSplit1 then
        let pSplit1MinusOne := pSplit1 - 1 in
        let d1 := rd 0 aSplits1 pSplit1MinusOne in
        let iEdge2 := size_sub iEdge2 1 in
        let bMove := iEdge2 <=? d1 in
        Some (DimensionInfoStackExpand.mk (if bMove then pSplit1MinusOne else pSplit1) iEdge2 cNewSlices
                :: stack',
              if bMove then pTensorScore1 - multiplication1 else pTensorScore1)
      else if 1 <? iEdge2 then
        Some (DimensionInfoStackExpand.mk pSplit1 (size_sub iEdge2 1) cNewSlices :: stack',
              pTensorScore1)
      else
        let pTensorScore1 := pTensorScore1 - multiplication1 in
        let cSlices1 := m_cSlices pDimensionSecond1 in
        let multiplication1 := size_mul multiplication1 cSlices1 in
        let pTensorScore1 := pTensorScore1 + multiplication1 in
        let entry' := DimensionInfoStackExpand.mk (size_sub cSlices1 1) cNewSlices cNewSlices in
        match Expand_step stack' (tl aDimension) multiplication1 pTensorScore1 with
        | None => None
        | Some (stack'', pTensorScore1) => Some (entry' :: stack'', pTensorScore1)
        end
  end.

(** The outer [while(true)]: one cell per turn, from the last to the first. *)
Fixpoint Expand_scores (fuel : nat) (cScores : Z) (aDimension1 : list DimensionInfo)
  (stack : list DimensionInfoStackExpand.t) (aTensorScores : list FloatScore)
  (pTensorScore1 pTensorScoreTop : Z) : option (list FloatScore) :=
  match fuel with
  | O => None
  | S fuel' =>
      let pTensorScoreTopEnd := pTensorScoreTop - cScores in
      match Expand_cell (Z.to_nat cScores) aTensorScores pTensorScore1 pTensorScoreTop
              pTensorScoreTopEnd with
      | None => None
      | Some (aTensorScores, pTensorScoreTop) =>
          if 0 =? pTensorScoreTop then Some aTensorScores
          else
            match Expand_step stack aDimension1 cScores pTensorScore1 with
            | None => None
            | Some (stack, pTensorScore1) =>
                Expand_scores fuel' cScores aDimension1 stack aTensorScores
                  pTensorScore1 pTensorScoreTop
            end
      end
  end.

(** [aSplit[iEdge - 1] = iEdge] for [iEdge] from 1 up to [cSlices - 1]. *)
Fixpoint Expand_edges (fuel : nat) (aSplit : list Z) (iEdge cSlices : Z) : option (list Z) :=
  match fuel with
  | O => None
  | S fuel' =>
      let aSplit := wr aSplit (iEdge - 1) iEdge in
      let iEdge := size_add iEdge 1 in
      if negb (cSlices =? iEdge) then Expand_edges fuel' aSplit iEdge cSlices
      else Some aSplit
  end.

(** The last loop: the splits of every dimension that is not yet dense. *)
Fixpoint Expand_splits (aTermFeatures : list Z) (iDimension : Z) (t : Tensor)
  : option (ErrorEbm * Tensor) :=
  match aTermFeatures with
  | [] => Some (Error_None, t)
  | cBins :: aTermFeatures' =>
      let cSlices := cBins in
      if negb (cSlices =? m_cSlices (GetDimension t iDimension)) then
        let '(error, t1) := SetCountSlices t iDimension cSlices in
        match error with
        | Error_None =>
            let pDimension := GetDimension t1 iDimension in
            match Expand_edges (Z.to_nat cSlices) (m_aSplits pDimension) 1 cSlices with
            | None => None
            | Some aSplit =>
                Expand_splits aTermFeatures' (iDimension + 1)
                  (with_dimension t1 iDimension (with_aSplits pDimension aSplit))
            end
        | _ => Some (error, t1)
        end
      else Expand_splits aTermFeatures' (iDimension + 1) t
  end.

Definition Expand (t : Tensor) (pTerm : Term) : option (ErrorEbm * Tensor) :=
  if m_bExpanded t then Some (Error_None, t)
  else
    let cDimensions := GetCountDimensions pTerm in
    if negb (0 =? cDimensions) then
      let '(cTensorScores1, stack) :=
        Expand_count (m_aTermFeatures pTerm) (m_aDimensions t) (m_cScores t) in
      let cNewTensorScores := size_mul (m_cScores t) (GetCountTensorBins pTerm) in
      let '(error, t1) := EnsureTensorScoreCapacity t cNewTensorScores in
      match error with
      | Error_None =>
          match Expand_scores (Z.to_nat cNewTensorScores) (m_cScores t1) (m_aDimensions t1)
                  stack (m_aTensorScores t1) cTensorScores1 cNewTensorScores with
          | None => None
          | Some aTensorScores =>
              match Expand_splits (m_aTermFeatures pTerm) 0 (with_scores t1 aTensorScores) with
              | None => None
              | Some (error, t2) =>
                  match error with
                  | Error_None => Some (Error_None, with_expanded t2 true)
                  | _ => Some (error, t2)
                  end
              end
          end
      | _ => Some (error, t1)
      end
    else Some (Error_None, with_expanded t true).

(** *** [Tensor::Add] *)

(** The zero-dimensional case: [*pTo += *pFrom] over the [m_cScores] scores. *)
Fixpoint Add_scalar (fuel : nat) (aTo aFrom : list FloatScore) (pTo pFrom pToEnd : Z)
  : option (list FloatScore) :=
  match fuel with
  | O => None
  | S fuel' =>
      let aTo := wr aTo pTo (float_add (rd float_zero aTo pTo) (rd float_zero aFrom pFrom)) in
      let pTo := pTo + 1 in
      let pFrom := pFrom + 1 in
      if negb (pToEnd =? pTo) then Add_scalar fuel' aTo aFrom pTo pFrom pToEnd
      else Some aTo
  end.

(** The forward merge that counts the slices of one dimension of the sum. *)
Fixpoint Add_count_slices (fuel : nat) (aSplits1 aSplits2 : list Z)
  (p1Cur p2Cur p1End p2End cNewSingleDimensionSlices : Z) : option Z :=
  match fuel with
  | O => None
  | S fuel' =>
      if p2End =? p2Cur then Some (size_add cNewSingleDimensionSlices (p1End - p1Cur))
      else if p1End =? p1Cur then Some (size_add cNewSingleDimensionSlices (p2End - p2Cur))
      else
        let cNewSingleDimensionSlices := size_add cNewSingleDimensionSlices 1 in
        let d1 := rd 0 aSplits1 p1Cur in
        let d2 := rd 0 aSplits2 p2Cur in
        let p1Cur' := if d1 <=? d2 then p1Cur + 1 else p1Cur in
        let p2Cur' := if d2 <=? d1 then p2Cur + 1 else p2Cur in
        Add_count_slices fuel' aSplits1 aSplits2 p1Cur' p2Cur' p1End p2End
          cNewSingleDimensionSlices
  end.

(** The first loop over the dimensions. It yields [cTensorScores1],
    [cTensorScores2], [cNewTensorScores] and the stack of cursors. *)
Fixpoint Add_count (n : nat) (aDimension1 aDimension2 : list DimensionInfo)
  (cTensorScores1 cTensorScores2 cNewTensorScores : Z)
  : option (Z * Z * Z * list DimensionInfoStack.t) :=
  match n with
  | O => Some (cTensorScores1, cTensorScores2, cNewTensorScores, [])
  | S n' =>
      let pDimensionFirst1 := hd DimensionInfo_null aDimension1 in
      let pDimensionFirst2 := hd DimensionInfo_null aDimension2 in
      let cSlices1 := m_cSlices pDimensionFirst1 in
      let cSlices2 := m_cSlices pDimensionFirst2 in
      let cTensorScores1 := size_mul cTensorScores1 cSlices1 in
      let cTensorScores2 := size_mul cTensorScores2 cSlices2 in
      let p1End := size_sub cSlices1 1 in
      let p2End := size_sub cSlices2 1 in
      match Add_count_slices (Z.to_nat (cSlices1 + cSlices2))
              (m_aSplits pDimensionFirst1) (m_aSplits pDimensionFirst2) 0 0 p1End p2End 1 with
      | None => None
      | Some cNewSingleDimensionSlices =>
          let entry := DimensionInfoStack.mk p1End p2End cNewSingleDimensionSlices in
          let cNewTensorScores := size_mul cNewTensorScores cNewSingleDimensionSlices in
          match Add_count n' (tl aDimension1) (tl aDimension2)
                  cTensorScores1 cTensorScores2 cNewTensorScores with
          | None => None
          | Some (c1, c2, cNew, stack) => Some (c1, c2, cNew, entry :: stack)
          end
      end
  end.

(** The [do] loop that adds the [m_cScores] scores of one cell. *)
Fixpoint Add_cell (fuel : nat) (aTensorScores aTensorScores2 : list FloatScore)
  (pTensorScore1Move pTensorScore2Move pTensorScoreTop pTensorScoreTopEnd : Z)
  : option (list FloatScore * Z) :=
  match fuel with
  | O => None
  | S fuel' =>
      let pTensorScore1Move := pTensorScore1Move - 1 in
      let pTensorScore2Move := pTensorScore2Move - 1 in
      let pTensorScoreTop := pTensorScoreTop - 1 in
      let aTensorScores :=
        wr aTensorScores pTensorScoreTop
          (float_add (rd float_zero aTensorScores pTensorScore1Move)
                     (rd float_zero aTensorScores2 pTensorScore2Move)) in
      if negb (pTensorScoreTopEnd =? pTensorScoreTop)
      then Add_cell fuel' aTensorScores aTensorScores2 pTensorScore1Move pTensorScore2Move
             pTensorScoreTop pTensorScoreTopEnd
      else Some (aTensorScores, pTensorScoreTop)
  end.

(** The inner [while(true)] that steps both tensors' cursors to the previous
    cell of the sum. It returns the new stack, [pTensorScore1] and
    [pTensorScore2]. *)
Fixpoint Add_step (stack : list DimensionInfoStack.t) (aDimension1 aDimension2 : list DimensionInfo)
  (multiplication1 multiplication2 pTensorScore1 pTensorScore2 : Z)
  : option (list DimensionInfoStack.t * Z * Z) :=
  match stack with
  | [] => None
  | entry :: stack' =>
      let pDimensionSecond1 := hd DimensionInfo_null aDimension1 in
      let pDimensionSecond2 := hd DimensionInfo_null aDimension2 in
      let pSplit1 := DimensionInfoStack.m_pSplit1 entry in
      let pSplit2 := DimensionInfoStack.m_pSplit2 entry in
      let cNewSlices := DimensionInfoStack.m_cNewSlices entry in
      let aSplits1 := m_aSplits pDimensionSecond1 in
      let aSplits2 := m_aSplits pDimensionSecond2 in
      if 0 <? pSplit1 then
        if 0 <? pSplit2 then
          let pSplit1MinusOne := pSplit1 - 1 in
          let pSplit2MinusOne := pSplit2 - 1 in
          let d1 := rd 0 aSplits1 pSplit1MinusOne in
          let d2 := rd 0 aSplits2 pSplit2MinusOne in
          let bMove1 := d2 <=? d1 in
          let bMove2 := d1 <=? d2 in
          Some (DimensionInfoStack.mk (if bMove1 then pSplit1MinusOne else pSplit1)
                  (if bMove2 then pSplit2MinusOne else pSplit2) cNewSlices :: stack',
                if bMove1 then pTensorScore1 - multiplication1 else pTensorScore1,
                if bMove2 then pTensorScore2 - multiplication2 else pTensorScore2)
        else
          Some (DimensionInfoStack.mk (pSplit1 - 1) pSplit2 cNewSlices :: stack',
                pTensorScore1 - multiplication1, pTensorScore2)
      else if 0 <? pSplit2 then
        Some (DimensionInfoStack.mk pSplit1 (pSplit2 - 1) cNewSlices :: stack',
              pTensorScore1, pTensorScore2 - multiplication2)
      else
        let pTensorScore1 := pTensorScore1 - multiplication1 in
        let pTensorScore2 := pTensorScore2 - multiplication2 in
        let cSlices1 := m_cSlices pDimensionSecond1 in
        let cSlices2 := m_cSlices pDimensionSecond2 in
        let multiplication1 := size_mul multiplication1 cSlices1 in
        let multiplication2 := size_mul multiplication2 cSlices2 in
        let pTensorScore1 := pTensorScore1 + multiplication1 in
        let pTensorScore2 := pTensorScore2 + multiplication2 in
        let entry' :=
          DimensionInfoStack.mk (size_sub cSlices1 1) (size_sub cSlices2 1) cNewSlices in
        match Add_step stack' (tl aDimension1) (tl aDimension2)
                multiplication1 multiplication2 pTensorScore1 pTensorScore2 with
        | None => None
        | Some (stack'', pTensorScore1, pTensorScore2) =>
            Some (entry' :: stack'', pTensorScore1, pTensorScore2)
        end
  end.

(** The outer [while(true)] over the cells of the sum, last cell first. *)
Fixpoint Add_scores (fuel : nat) (cScores : Z) (aDimension1 aDimension2 : list DimensionInfo)
  (stack : list DimensionInfoStack.t) (aTensorScores aTensorScores2 : list FloatScore)
  (pTensorScore1 pTensorScore2 pTensorScoreTop : Z) : option (list FloatScore) :=
  match fuel with
  | O => None
  | S fuel' =>
      let pTensorScoreTopEnd := pTensorScoreTop - cScores in
      match Add_cell (Z.to_nat cScores) aTensorScores aTensorScores2
              pTensorScore1 pTensorScore2 pTensorScoreTop pTensorScoreTopEnd with
      | None => None
      | Some (aTensorScores, pTensorScoreTop) =>
          if 0 =? pTensorScoreTop then Some aTensorScores
          else
            match Add_step stack aDimension1 aDimension2 cScores cScores
                    pTensorScore1 pTensorScore2 with
            | None => None
            | Some (stack, pTensorScore1, pTensorScore2) =>
                Add_scores fuel' cScores aDimension1 aDimension2 stack
                  aTensorScores aTensorScores2 pTensorScore1 pTensorScore2 pTensorScoreTop
            end
      end
  end.

(** The backward merge that writes the splits of one dimension of the sum
    into [aSplits1], the left tensor's own array. *)
Fixpoint Add_merge_splits (fuel : nat) (aSplits1 aSplits2 : list Z) (p1Cur p2Cur pTopCur : Z)
  : option (list Z) :=
  match fuel with
  | O => None
  | S fuel' =>
      if pTopCur =? p1Cur then Some aSplits1
      else if pTopCur =? p2Cur then Some (memcpy 0 aSplits1 aSplits2 pTopCur)
      else
        let p1CurMinusOne := p1Cur - 1 in
        let p2CurMinusOne := p2Cur - 1 in
        let d1 := rd 0 aSplits1 p1CurMinusOne in
        let d2 := rd 0 aSplits2 p2CurMinusOne in
        let p1Cur := if d2 <=? d1 then p1CurMinusOne else p1Cur in
        let p2Cur := if d1 <=? d2 then p2CurMinusOne else p2Cur in
        let d := if d1 <=? d2 then d2 else d1 in
        let pTopCur := pTopCur - 1 in
        Add_merge_splits fuel' (wr aSplits1 pTopCur d) aSplits2 p1Cur p2Cur pTopCur
  end.

(** The last loop over the dimensions. *)
Fixpoint Add_splits (stack : list DimensionInfoStack.t) (aDimension2 : list DimensionInfo)
  (iDimension : Z) (t : Tensor) : option (ErrorEbm * Tensor) :=
  match stack with
  | [] => Some (Error_None, t)
  | entry :: stack' =>
      let pDimension2Cur := hd DimensionInfo_null aDimension2 in
      let cNewSlices := DimensionInfoStack.m_cNewSlices entry in
      let cOriginalSlicesBeforeSetting := m_cSlices (GetDimension t iDimension) in
      let '(error, t1) := SetCountSlices t iDimension cNewSlices in
      match error with
      | Error_None =>
          let pDimension1Cur := GetDimension t1 iDimension in
          let p1Cur := size_sub cOriginalSlicesBeforeSetting 1 in
          let p2Cur := size_sub (m_cSlices pDimension2Cur) 1 in
          let pTopCur := size_sub cNewSlices 1 in
          match Add_merge_splits (Z.to_nat cNewSlices) (m_aSplits pDimension1Cur)
                  (m_aSplits pDimension2Cur) p1Cur p2Cur pTopCur with
          | None => None
          | Some aSplits =>
              Add_splits stack' (tl aDimension2) (iDimension + 1)
                (with_dimension t1 iDimension (with_aSplits pDimension1Cur aSplits))
          end
      | _ => Some (error, t1)
      end
  end.

Definition Add (t rhs : Tensor) : option (ErrorEbm * Tensor) :=
  if 0 =? m_cDimensions t then
    match Add_scalar (Z.to_nat (m_cScores t)) (m_aTensorScores t) (m_aTensorScores rhs)
            0 0 (m_cScores t) with
    | None => None
    | Some a => Some (Error_None, with_scores t a)
    end
  else
    match Add_count (Z.to_nat (m_cDimensions t)) (m_aDimensions t) (m_aDimensions rhs)
            (m_cScores t) (m_cScores t) (m_cScores t) with
    | None => None
    | Some (cTensorScores1, cTensorScores2, cNewTensorScores, dimensionStack) =>
        let '(error, t1) := EnsureTensorScoreCapacity t cNewTensorScores in
        match error with
        | Error_None =>
            match Add_scores (Z.to_nat cNewTensorScores) (m_cScores t1)
                    (m_aDimensions t1) (m_aDimensions rhs) dimensionStack
                    (m_aTensorScores t1) (m_aTensorScores rhs)
                    cTensorScores1 cTensorScores2 cNewTensorScores with
            | None => None
            | Some aTensorScores =>
                Add_splits dimensionStack (m_aDimensions rhs) 0 (with_scores t1 aTensorScores)
            end
        | _ => Some (error, t1)
        end
    end.

(** *** [Tensor::IsEqual] *)

(** The [do] loop over the splits of one dimension; it returns [false] at the
    first difference. *)
Fixpoint IsEqual_splits (fuel : nat) (aSplits1 aSplits2 : list Z) (pD1Cur pD2Cur pD1End : Z)
  : option bool :=
  match fuel with
  | O => None
  | S fuel' =>
      if negb (rd 0 aSplits1 pD1Cur =? rd 0 aSplits2 pD2Cur) then Some false
      else
        let pD1Cur := pD1Cur + 1 in
        let pD2Cur := pD2Cur + 1 in
        if negb (pD1End =? pD1Cur)
        then IsEqual_splits fuel' aSplits1 aSplits2 pD1Cur pD2Cur pD1End
        else Some true
  end.

(** The loop over the dimensions. [Some None] is the return of [false] from
    inside the loop, [Some (Some c)] the fall through with [cTensorScores]. *)
Fixpoint IsEqual_dimensions (n : nat) (iDimension cTensorScores : Z) (t rhs : Tensor)
  : option (option Z) :=
  match n with
  | O => Some (Some cTensorScores)
  | S n' =>
      let pDimension1 := GetDimension t iDimension in
      let pDimension2 := GetDimension rhs iDimension in
      let cSlices := m_cSlices pDimension1 in
      if negb (cSlices =? m_cSlices pDimension2) then Some None
      else if 1 <? cSlices then
        let cTensorScores := size_mul cTensorScores cSlices in
        match IsEqual_splits (Z.to_nat cSlices) (m_aSplits pDimension1) (m_aSplits pDimension2)
                0 0 (0 + cSlices - 1) with
        | None => None
        | Some false => Some None
        | Some true => IsEqual_dimensions n' (iDimension + 1) cTensorScores t rhs
        end
      else IsEqual_dimensions n' (iDimension + 1) cTensorScores t rhs
  end.

(** The [do] loop over the scores; [!=] on floats holds for a NaN on either
    side. *)
Fixpoint IsEqual_scores (fuel : nat) (a1 a2 : list FloatScore) (pV1Cur pV2Cur pV1End : Z)
  : option bool :=
  match fuel with
  | O => None
  | S fuel' =>
      if negb (float_eq (rd float_zero a1 pV1Cur) (rd float_zero a2 pV2Cur)) then Some false
      else
        let pV1Cur := pV1Cur + 1 in
        let pV2Cur := pV2Cur + 1 in
        if negb (pV1End =? pV1Cur) then IsEqual_scores fuel' a1 a2 pV1Cur pV2Cur pV1End
        else Some true
  end.

Definition IsEqual (t rhs : Tensor) : option bool :=
  if negb (m_cDimensions t =? m_cDimensions rhs) then Some false
  else
    match IsEqual_dimensions (Z.to_nat (m_cDimensions t)) 0 (m_cScores t) t rhs with
    | None => None
    | Some None => Some false
    | Some (Some cTensorScores) =>
        IsEqual_scores (Z.to_nat cTensorScores) (m_aTensorScores t) (m_aTensorScores rhs)
          0 0 (0 + cTensorScores)
    end.

(** *** [Tensor::Allocate] *)

(** Constants and collaborators of the allocation that are declared outside
    src/: the initial capacities, the layout of the tensor's header, the
    contents of a dimension that is not yet initialised, and [malloc].
    [malloc_ok n cBytes] tells whether the call number [n] that [Allocate]
    makes to [malloc], for [cBytes] bytes, succeeds: call 0 is for the
    tensor and call [i + 1] for the splits of dimension [i]. *)
Variable k_initialTensorCapacity : Z.
Variable k_initialSliceCapacity : Z.
Variable offsetof_m_aDimensions : Z.
Variable sizeof_DimensionInfo : Z.
Variable fresh_dimension : DimensionInfo.
Variable malloc_ok : Z -> Z -> bool.

(** [memset(a, 0, cBytes)] on an array of scores: a score of zero bits is
    [+0]. *)
Fixpoint memset_zero_from (n : nat) (i : Z) (a : list FloatScore) : list FloatScore :=
  match n with
  | O => a
  | S n' => memset_zero_from n' (i + 1) (wr a i float_zero)
  end.
Definition memset_zero (a : list FloatScore) (cBytes : Z) : list FloatScore :=
  memset_zero_from (Z.to_nat (cBytes / sizeof_FloatScore)) 0 a.

(** The first loop over the dimensions: one slice, the initial capacity and
    no split array. A null split array is the empty array. *)
Fixpoint Allocate_slices (fuel : nat) (pDimension iDimension cDimensionsMax : Z)
  (aDimensions : list DimensionInfo) : option (list DimensionInfo) :=
  match fuel with
  | O => None
  | S fuel' =>
      let aDimensions := wr aDimensions pDimension (mkDimensionInfo 1 k_initialSliceCapacity []) in
      let pDimension := pDimension + 1 in
      let iDimension := size_add iDimension 1 in
      if iDimension <? cDimensionsMax
      then Allocate_slices fuel' pDimension iDimension cDimensionsMax aDimensions
      else Some aDimensions
  end.

(** The second loop: the split array of every dimension. [Some None] is the
    return of [nullptr] after [Free]. *)
Fixpoint Allocate_splits (fuel : nat) (pDimension iDimension cDimensionsMax : Z)
  (aDimensions : list DimensionInfo) : option (option (list DimensionInfo)) :=
  match fuel with
  | O => None
  | S fuel' =>
      let cBytes := size_mul sizeof_UIntSplit (size_sub k_initialSliceCapacity 1) in
      if negb (malloc_ok (iDimension + 1) cBytes) then Some None
      else
        let aSplits := replicate (Z.to_nat (cBytes / sizeof_UIntSplit)) fresh_split in
        let aDimensions :=
          wr aDimensions pDimension
            (with_aSplits (rd DimensionInfo_null aDimensions pDimension) aSplits) in
        let pDimension := pDimension + 1 in
        let iDimension := size_add iDimension 1 in
        if iDimension <? cDimensionsMax
        then Allocate_splits fuel' pDimension iDimension cDimensionsMax aDimensions
        else Some (Some aDimensions)
  end.

(** The result is [Some None] for [nullptr]. The header holds
    [cDimensionsMax] dimensions. *)
Definition Allocate (cDimensionsMax cScores : Z) : option (option Tensor) :=
  if IsMultiplyError k_initialTensorCapacity cScores then Some None
  else
    let cTensorScoreCapacity :=
      size_mul (size_mul sizeof_FloatScore k_initialTensorCapacity) cScores in
    let cBytesTensor :=
      size_add offsetof_m_aDimensions (size_mul sizeof_DimensionInfo cDimensionsMax) in
    if negb (malloc_ok 0 cBytesTensor) then Some None
    else
      let aDimensions := replicate (Z.to_nat cDimensionsMax) fresh_dimension in
      if negb (aligned_alloc_ok cTensorScoreCapacity) then Some None
      else
        let aTensorScores :=
          replicate (Z.to_nat (cTensorScoreCapacity / sizeof_FloatScore)) fresh_score in
        let aTensorScores := memset_zero aTensorScores (size_mul sizeof_FloatScore cScores) in
        let pTensor :=
          mkTensor cScores cDimensionsMax cDimensionsMax cTensorScoreCapacity false
            aTensorScores aDimensions in
        if negb (0 =? cDimensionsMax) then
          match Allocate_slices (Z.to_nat cDimensionsMax) 0 0 cDimensionsMax aDimensions with
          | None => None
          | Some aDimensions =>
              match Allocate_splits (Z.to_nat cDimensionsMax) 0 0 cDimensionsMax aDimensions with
              | None => None
              | Some None => Some None
              | Some (Some aDimensions) => Some (Some (with_dimensions pTensor aDimensions))
              end
          end
        else Some (Some pTensor).

(** ** [CalcInteractionStrengthInternal] *)

(** Constants and collaborators of the scorer that are declared outside src/:
    the largest dimension count, the illegal-gain sentinel, the shape of a
    histogram bucket, the shell's bucket allocator, and the partitioner. The
    partitioner reads the histogram that [BinInteraction] and
    [TensorTotalsBuild] fill from the core and the feature group, so its
    result is a function of these and of its two scalar arguments. *)
Variable k_cDimensionsMax : Z.
Variable k_illegalGainDouble : spec_float.
Variable IsClassification : Z -> bool.
Variable GetVectorLength : Z -> Z.
Variable GetHistogramBucketSizeOverflow : bool -> Z -> bool.
Variable GetHistogramBucketSize : bool -> Z -> Z.
Variable GetHistogramBucketBase_ok : Z -> bool.
Variable PartitionTwoDimensionalInteraction :
  InteractionCore -> FeatureGroup.t -> Z -> Z -> FloatEbmType.

(** The build configuration: whether [NDEBUG] is defined. [EBM_ASSERT] is a
    macro declared outside src/. With [NDEBUG] it expands to nothing; without
    it, an assertion whose condition is false ends the process, so that the
    call does not return. [EBM_ASSERT(false)] fails on every call that
    reaches it, and it is the assertion that the model keeps; the other
    assertions of the file state preconditions and are left out. *)
Variable NDEBUG : bool.

(** The [do] loop over the feature group's entries. [None] is the return of
    [Error_OutOfMemory] from inside the loop. *)
Fixpoint CountBuckets (entries : list Feature)
  (cAuxillaryBucketsForBuildFastTotals cTotalBucketsMainSpace : Z) : option (Z * Z) :=
  match entries with
  | [] => Some (cAuxillaryBucketsForBuildFastTotals, cTotalBucketsMainSpace)
  | pFeature :: entries' =>
      let cBins := GetCountBins pFeature in
      let cAuxillaryBucketsForBuildFastTotals :=
        size_add cAuxillaryBucketsForBuildFastTotals cTotalBucketsMainSpace in
      if IsMultiplyError cTotalBucketsMainSpace cBins then None
      else
        let cTotalBucketsMainSpace := size_mul cTotalBucketsMainSpace cBins in
        CountBuckets entries' cAuxillaryBucketsForBuildFastTotals cTotalBucketsMainSpace
  end.

Record BucketSizes : Set := mkBucketSizes {
  cAuxillaryBucketsForBuildFastTotals : Z;
  cTotalBucketsMainSpace : Z;
  cAuxillaryBuckets : Z;
  cTotalBuckets : Z;
  cBytesPerHistogramBucket : Z;
  cBytesBuffer : Z
}.

(** The sizing of the histogram buffer, up to [cBytesBuffer]. [None] is the
    return of [Error_OutOfMemory]. *)
Definition SizeBuckets (pInteractionCore : InteractionCore) (pFeatureGroup : FeatureGroup.t)
  : option BucketSizes :=
  let runtimeLearningTypeOrCountTargetClasses :=
    GetRuntimeLearningTypeOrCountTargetClasses pInteractionCore in
  let bClassification := IsClassification runtimeLearningTypeOrCountTargetClasses in
  match CountBuckets (FeatureGroup.GetFeatureGroupEntries pFeatureGroup) 0 1 with
  | None => None
  | Some (cAuxFast, cMain) =>
      let cAuxillaryBucketsForSplitting := 4 in
      let cAux := if cAuxFast <? cAuxillaryBucketsForSplitting
                  then cAuxillaryBucketsForSplitting else cAuxFast in
      if IsAddError cMain cAux then None
      else
        let cTotal := size_add cMain cAux in
        let cVectorLength := GetVectorLength runtimeLearningTypeOrCountTargetClasses in
        if GetHistogramBucketSizeOverflow bClassification cVectorLength then None
        else
          let cBytesPer := GetHistogramBucketSize bClassification cVectorLength in
          if IsMultiplyError cBytesPer cTotal then None
          else Some (mkBucketSizes cAuxFast cMain cAux cTotal cBytesPer (size_mul cBytesPer cTotal))
  end.

(** The output pointer is [None] when null and [Some v] when it points to a
    cell that holds [v]; the second component of the result is the cell after
    the call. The result is [None] when the call does not return: a build
    with assertions has reached [EBM_ASSERT(false)]. *)
Definition CalcInteractionStrengthInternal (pInteractionCore : InteractionCore)
  (pFeatureGroup : FeatureGroup.t) (options cSamplesRequiredForChildSplitMin : Z)
  (pInteractionStrengthAvgOut : option spec_float) : option (ErrorEbm * option spec_float) :=
  match SizeBuckets pInteractionCore pFeatureGroup with
  | None => Some (Error_OutOfMemory, pInteractionStrengthAvgOut)
  | Some sizes =>
      if negb (GetHistogramBucketBase_ok (cBytesBuffer sizes))
      then Some (Error_OutOfMemory, pInteractionStrengthAvgOut)
      else if 2 =? FeatureGroup.GetCountSignificantDimensions pFeatureGroup then
        let bestGain :=
          PartitionTwoDimensionalInteraction pInteractionCore pFeatureGroup options
            cSamplesRequiredForChildSplitMin in
        match pInteractionStrengthAvgOut with
        | Some _ =>
            let pDataSet := GetDataSetInteraction pInteractionCore in
            let totalWeight := GetWeightTotal pDataSet in
            let bestGain := float_div bestGain totalWeight in
            let bestGainOut := bestGain in
            let bestGainOut :=
              if negb (float_le bestGain float_max) then k_illegalGainDouble
              else if float_lt bestGain float_zero then
                if float_le float_lowest bestGain then float_zero else k_illegalGainDouble
              else bestGainOut in
            Some (Error_None, Some bestGainOut)
        | None => Some (Error_None, None)
        end
      else if negb NDEBUG then None
      else
        match pInteractionStrengthAvgOut with
        | Some _ => Some (Error_None, Some k_illegalGainDouble)
        | None => Some (Error_None, None)
        end
  end.

(** ** [CalcInteractionStrength] *)

(** The [do] loop over [featureIndexes]. It either returns from the function
    ([inl], with the error code and the output cell) or falls through with the
    entries of the feature group ([inr]). The loop runs [cDimensions] times;
    [fuel] is that count. *)
Fixpoint CollectFeatures (fuel : nat) (pInteractionCore : InteractionCore)
  (featureIndexes : list Z) (pFeatureIndexes pFeatureIndexesEnd : Z)
  (entries : list Feature) (avgInteractionStrengthOut : option spec_float)
  : option ((ErrorEbm * option spec_float) + list Feature) :=
  match fuel with
  | O => None
  | S fuel' =>
      let aFeatures := GetFeatures pInteractionCore in
      let indexFeatureInterop := rd 0 featureIndexes pFeatureIndexes in
      if indexFeatureInterop <? 0
      then Some (inl (Error_IllegalParamValue, avgInteractionStrengthOut))
      else if GetCountFeatures pInteractionCore <=? indexFeatureInterop
      then Some (inl (Error_IllegalParamValue, avgInteractionStrengthOut))
      else
        let iFeature := indexFeatureInterop in
        let pFeature := rd (mkFeature 0) aFeatures iFeature in
        if GetCountBins pFeature <=? 1 then
          Some (inl (Error_None,
                     match avgInteractionStrengthOut with
                     | Some _ => Some float_zero
                     | None => None
                     end))
        else
          let entries := entries ++ [pFeature] in
          let pFeatureIndexes := pFeatureIndexes + 1 in
          if negb (pFeatureIndexesEnd =? pFeatureIndexes)
          then CollectFeatures fuel' pInteractionCore featureIndexes pFeatureIndexes
                 pFeatureIndexesEnd entries avgInteractionStrengthOut
          else Some (inr entries)
  end.

(** [interactionHandle] and [featureIndexes] are [None] when null. The result
    is [None] when the call does not return: the loop over the indexes has
    run out of fuel, or [CalcInteractionStrengthInternal] has not returned. *)
Definition CalcInteractionStrength (interactionHandle : option InteractionShell)
  (countDimensions : Z) (featureIndexes : option (list Z)) (options : Z)
  (countSamplesRequiredForChildSplitMin : Z) (avgInteractionStrengthOut : option spec_float)
  : option (ErrorEbm * option spec_float) :=
  let avgInteractionStrengthOut :=
    match avgInteractionStrengthOut with
    | Some _ => Some k_illegalGainDouble
    | None => None
    end in
  match interactionHandle with
  | None => Some (Error_IllegalParamValue, avgInteractionStrengthOut)
  | Some pInteractionShell =>
      let cSamplesRequiredForChildSplitMin :=
        if 1 <=? countSamplesRequiredForChildSplitMin then
          if IsConvertError_size_t countSamplesRequiredForChildSplitMin then SIZE_MAX
          else countSamplesRequiredForChildSplitMin
        else 1 in
      if countDimensions <=? 0 then
        if 0 =? countDimensions then
          Some (Error_None,
                match avgInteractionStrengthOut with
                | Some _ => Some float_zero
                | None => None
                end)
        else Some (Error_IllegalParamValue, avgInteractionStrengthOut)
      else
        match featureIndexes with
        | None => Some (Error_IllegalParamValue, avgInteractionStrengthOut)
        | Some aFeatureIndexes =>
            if k_cDimensionsMax <? countDimensions
            then Some (Error_OutOfMemory, avgInteractionStrengthOut)
            else
              let cDimensions := countDimensions in
              let pInteractionCore := GetInteractionCore pInteractionShell in
              match CollectFeatures (Z.to_nat cDimensions) pInteractionCore aFeatureIndexes
                      0 cDimensions [] avgInteractionStrengthOut with
              | None => None
              | Some (inl returned) => Some returned
              | Some (inr entries) =>
                  let featureGroup := FeatureGroup.mk cDimensions cDimensions entries in
                  if 0 =? GetCountSamples (GetDataSetInteraction pInteractionCore) then
                    Some (Error_None,
                          match avgInteractionStrengthOut with
                          | Some _ => Some float_zero
                          | None => None
                          end)
                  else if 1 =? GetRuntimeLearningTypeOrCountTargetClasses pInteractionCore then
                    Some (Error_None,
                          match avgInteractionStrengthOut with
                          | Some _ => Some float_zero
                          | None => None
                          end)
                  else
                    CalcInteractionStrengthInternal pInteractionCore featureGroup
                      options cSamplesRequiredForChildSplitMin avgInteractionStrengthOut
              end
        end
  end.

(** * Properties *)

(** ** Machine integers and arrays *)

Lemma size_wrap_small (x : Z) : 0 <= x <= SIZE_MAX -> size_wrap x = x.
Proof. intros H. unfold size_wrap. apply Z.mod_small. unfold SIZE_MAX in H. lia. Qed.

Lemma SIZE_MAX_eq : SIZE_MAX = 18446744073709551615.
Proof. reflexivity. Qed.

Lemma size_add_small (a b : Z) : 0 <= a + b <= SIZE_MAX -> size_add a b = a + b.
Proof. apply size_wrap_small. Qed.

Lemma size_sub_small (a b : Z) : 0 <= a - b <= SIZE_MAX -> size_sub a b = a - b.
Proof. apply size_wrap_small. Qed.

Lemma size_mul_small (a b : Z) : 0 <= a * b <= SIZE_MAX -> size_mul a b = a * b.
Proof. apply size_wrap_small. Qed.

Lemma length_wr {A} (l : list A) (i : Z) (v : A) : length (wr l i v) = length l.
Proof. unfold wr. destruct (i <? 0); [done | apply length_insert]. Qed.

Lemma rd_wr_eq {A} (d : A) (l : list A) (i : Z) (v : A) :
  0 <= i < Z.of_nat (length l) -> rd d (wr l i v) i = v.
Proof.
  intros H. unfold rd, wr. destruct (Z.ltb_spec i 0); [lia |].
  rewrite nth_lookup, list_lookup_insert_eq; [done | lia].
Qed.

Lemma rd_wr_ne {A} (d : A) (l : list A) (i j : Z) (v : A) :
  i <> j -> rd d (wr l i v) j = rd d l j.
Proof.
  intros H. unfold rd, wr. destruct (Z.ltb_spec j 0); [done |].
  destruct (Z.ltb_spec i 0); [done |].
  rewrite !nth_lookup, list_lookup_insert_ne; [done | lia].
Qed.

Lemma rd_lookup {A} (d : A) (l : list A) (i : Z) (v : A) :
  0 <= i -> l !! Z.to_nat i = Some v -> rd d l i = v.
Proof.
  intros H E. unfold rd. destruct (Z.ltb_spec i 0); [lia |].
  by rewrite nth_lookup, E.
Qed.

Lemma lookup_rd {A} (d : A) (l : list A) (i : Z) :
  0 <= i < Z.of_nat (length l) -> l !! Z.to_nat i = Some (rd d l i).
Proof.
  intros H. unfold rd. destruct (Z.ltb_spec i 0); [lia |].
  rewrite nth_lookup. destruct (lookup_lt_is_Some_2 l (Z.to_nat i)) as [x ->]; [lia | done].
Qed.

Lemma length_resize {A} (fresh : A) (l : list A) (n : Z) :
  length (resize fresh l n) = Z.to_nat n.
Proof.
  unfold resize. rewrite length_take, length_app, length_replicate. lia.
Qed.

Lemma rd_resize {A} (d fresh : A) (l : list A) (n i : Z) :
  0 <= i < n -> i < Z.of_nat (length l) -> rd d (resize fresh l n) i = rd d l i.
Proof.
  intros H1 H2. unfold rd, resize. destruct (Z.ltb_spec i 0); [lia |].
  rewrite !nth_lookup, lookup_take_lt, lookup_app_l by lia. done.
Qed.

(** ** [SetCountSlices] *)

Lemma GetDimension_with_dimension (t : Tensor) (i : Z) (d : DimensionInfo) :
  0 <= i < Z.of_nat (length (m_aDimensions t)) ->
  GetDimension (with_dimension t i d) i = d.
Proof. intros H. unfold GetDimension, with_dimension. simpl. by apply rd_wr_eq. Qed.

Lemma GetDimension_with_dimension_ne (t : Tensor) (i j : Z) (d : DimensionInfo) :
  i <> j -> GetDimension (with_dimension t i d) j = GetDimension t j.
Proof. intros H. unfold GetDimension, with_dimension. simpl. by apply rd_wr_ne. Qed.

(** C9. When [cSlices] exceeds the slice capacity of dimension [iDimension],
    [SetCountSlices] either fails, exactly when the sizing overflows or
    [realloc] fails, and then returns [Error_OutOfMemory] with the tensor as
    it was (split buffer, slice count and capacity included); or it returns
    [Error_None] with a split buffer of
    [max (cSlices - 1) ((cSlices - 1) + (cSlices - 1) / 2)] cells that keeps
    the old splits, the slice capacity one more than that, the slice count
    [cSlices], and every other dimension untouched. *)
Theorem SetCountSlices_grow_or_unchanged (t : Tensor) (iDimension cSlices : Z) :
  1 < sizeof_UIntSplit ->
  0 <= iDimension < Z.of_nat (length (m_aDimensions t)) ->
  0 <= m_cSliceCapacity (GetDimension t iDimension) < cSlices ->
  cSlices <= SIZE_MAX ->
  let pDimension := GetDimension t iDimension in
  let cSplits := cSlices - 1 in
  let cNewSplitCapacity := Z.max cSplits (cSplits + cSplits / 2) in
  let failed :=
    (SIZE_MAX <? cNewSplitCapacity)
    || (SIZE_MAX <? sizeof_UIntSplit * cNewSplitCapacity)
    || negb (realloc_ok (sizeof_UIntSplit * cNewSplitCapacity)) in
  if failed then SetCountSlices t iDimension cSlices = (Error_OutOfMemory, t)
  else
    exists t',
      SetCountSlices t iDimension cSlices = (Error_None, t') /\
      Z.of_nat (length (m_aSplits (GetDimension t' iDimension))) = cNewSplitCapacity /\
      m_cSliceCapacity (GetDimension t' iDimension) = cNewSplitCapacity + 1 /\
      m_cSlices (GetDimension t' iDimension) = cSlices /\
      (forall i, 0 <= i < Z.of_nat (length (m_aSplits pDimension)) -> i < cNewSplitCapacity ->
         rd 0 (m_aSplits (GetDimension t' iDimension)) i = rd 0 (m_aSplits pDimension) i) /\
      (forall j, j <> iDimension -> GetDimension t' j = GetDimension t j) /\
      m_aTensorScores t' = m_aTensorScores t /\
      m_cTensorScoreCapacity t' = m_cTensorScoreCapacity t.
Proof.
  intros Hsz Hi Hcap Hmax pDimension cSplits cNewSplitCapacity failed.
  assert (Hdiv : 0 <= cSplits / 2) by (apply Z.div_pos; unfold cSplits; lia).
  assert (HN : cNewSplitCapacity = cSplits + cSplits / 2)
    by (unfold cNewSplitCapacity; lia).
  assert (HS : 0 <= cSplits < SIZE_MAX) by (unfold cSplits; lia).
  unfold SetCountSlices. fold pDimension.
  destruct (Z.ltb_spec (m_cSliceCapacity pDimension) cSlices) as [_ | Hge];
    [| unfold pDimension in Hge; lia].
  rewrite size_sub_small by (fold cSplits; lia).
  fold cSplits. rewrite Z.shiftr_div_pow2 by lia. change (2 ^ 1) with 2.
  unfold IsAddError, IsMultiplyError, failed. rewrite <- HN.
  clearbody cNewSplitCapacity cSplits pDimension. clear failed.
  destruct (Z.ltb_spec SIZE_MAX cNewSplitCapacity) as [Hov | Hfit]; [done |].
  simpl orb.
  rewrite size_add_small by lia.
  rewrite <- HN.
  destruct (Z.ltb_spec SIZE_MAX (sizeof_UIntSplit * cNewSplitCapacity)) as [Hov | Hfit2];
    [done |].
  simpl orb.
  rewrite size_mul_small by nia.
  destruct (realloc_ok (sizeof_UIntSplit * cNewSplitCapacity)); [| done].
  simpl negb. cbv iota.
  eexists. split; [reflexivity |].
  rewrite GetDimension_with_dimension by done. simpl.
  rewrite length_resize.
  rewrite size_add_small by nia.
  repeat split; try lia.
  - intros i Hi1 Hi2. apply rd_resize; lia.
  - intros j Hj. by apply GetDimension_with_dimension_ne.
Qed.


(** ** Floating point *)

Lemma shr_1_nonneg (mrs : shr_record) : 0 <= shr_m mrs -> 0 <= shr_m (shr_1 mrs).
Proof.
  destruct mrs as [m r s]. simpl. intros H.
  destruct m as [| [p | p |] | p]; simpl; lia.
Qed.

Lemma iter_pos_shr_1_nonneg (p : positive) (mrs : shr_record) :
  0 <= shr_m mrs -> 0 <= shr_m (SpecFloat.iter_pos shr_1 p mrs).
Proof.
  revert mrs. induction p as [p IH | p IH |]; intros mrs H; simpl.
  - apply IH, IH. by apply shr_1_nonneg.
  - by apply IH, IH.
  - by apply shr_1_nonneg.
Qed.

Lemma shr_nonneg (mrs : shr_record) (e n : Z) :
  0 <= shr_m mrs -> 0 <= shr_m (fst (shr mrs e n)).
Proof.
  intros H. unfold shr. destruct n; simpl; try done.
  by apply iter_pos_shr_1_nonneg.
Qed.

Lemma shr_fexp_nonneg (m e : Z) (l : location) :
  0 <= m -> 0 <= shr_m (fst (shr_fexp prec emax m e l)).
Proof.
  intros H. unfold shr_fexp. apply shr_nonneg.
  destruct l as [| []]; simpl; done.
Qed.

Lemma round_nearest_even_nonneg (m : Z) (l : location) :
  0 <= m -> 0 <= round_nearest_even m l.
Proof.
  intros H. unfold round_nearest_even.
  destruct l as [| []]; try done; [destruct (Z.even m) |]; lia.
Qed.

Lemma binary_round_aux_not_nan (sx : bool) (mx ex : Z) (lx : location) :
  0 <= mx -> isnan (binary_round_aux prec emax sx mx ex lx) = false.
Proof.
  intros H. unfold binary_round_aux.
  pose proof (shr_fexp_nonneg mx ex lx H) as H1.
  destruct (shr_fexp prec emax mx ex lx) as [mrs' e']. simpl in H1.
  pose proof (shr_fexp_nonneg _ e' loc_Exact
                (round_nearest_even_nonneg _ (loc_of_shr_record mrs') H1)) as H2.
  destruct (shr_fexp prec emax _ e' loc_Exact) as [mrs'' e'']. simpl in H2.
  destruct (shr_m mrs'') as [| m | m]; [done | | lia].
  by destruct (e'' <=? emax - prec).
Qed.

Lemma binary_normalize_not_nan (m e : Z) (szero : bool) :
  isnan (binary_normalize prec emax m e szero) = false.
Proof.
  unfold binary_normalize, binary_round.
  destruct m as [| m | m]; [done | |];
    destruct (shl_align m e _) as [mz ez]; by apply binary_round_aux_not_nan.
Qed.

(** A sum is NaN exactly when a summand is, or when the summands are
    infinities of opposite signs. *)
Lemma float_add_nan (x y : spec_float) :
  isnan (float_add x y) = isnan x || isnan y || opposite_infinities x y.
Proof.
  unfold float_add.
  destruct x as [sx | sx | | sx mx ex], y as [sy | sy | | sy my ey];
    try done; try (by destruct sx, sy).
  unfold SFadd. by rewrite binary_normalize_not_nan.
Qed.

Lemma SFcompare_antisym (x y : spec_float) :
  SFcompare y x = option_map CompOpp (SFcompare x y).
Proof.
  destruct x as [sx | sx | | sx mx ex], y as [sy | sy | | sy my ey];
    try done; try (by destruct sx); try (by destruct sy); try (by destruct sx, sy).
  simpl. f_equal. destruct sx, sy; try done.
  - rewrite (Z.compare_antisym ey ex). destruct (ey ?= ex); simpl; try done.
    by rewrite (Pos.compare_cont_antisym mx my Eq).
  - rewrite (Z.compare_antisym ey ex). destruct (ey ?= ex); simpl; try done.
    by rewrite (Pos.compare_cont_antisym mx my Eq).
Qed.

Lemma float_le_false_lt (x y : spec_float) :
  isnan x = false -> isnan y = false -> float_le x y = false -> float_lt y x = true.
Proof.
  unfold float_le, float_lt, SFleb, SFltb. intros Hx Hy.
  rewrite (SFcompare_antisym x y).
  destruct x, y; try done; simpl; by repeat case_match.
Qed.

Lemma float_lt_le (x y : spec_float) : float_lt x y = true -> float_le x y = true.
Proof. unfold float_le, float_lt, SFleb, SFltb. by repeat case_match. Qed.

Lemma float_le_refl_finite (x : spec_float) : isnan x = false -> float_le x x = true.
Proof.
  unfold float_le, SFleb. destruct x as [s | s | | s m e]; try done; try (by destruct s).
  intros _. simpl. rewrite Z.compare_refl.
  destruct s; simpl; by rewrite Pos.compare_cont_refl.
Qed.

Lemma float_lowest_le_max : float_le float_lowest float_max = true.
Proof. reflexivity. Qed.

(** ** The invariants of the data model *)

Lemma splits_ok_length (lo hi : Z) (l : list Z) :
  lo < hi -> splits_ok lo hi l -> Z.of_nat (length l) <= hi - lo - 1.
Proof.
  revert lo. induction l as [| s l IH]; intros lo Hlt H; simpl in *; [lia |].
  destruct H as [Hs H]. specialize (IH s ltac:(lia) H). lia.
Qed.

Lemma length_live_splits (cBins : Z) (d : DimensionInfo) :
  Dimension_ok cBins d -> Z.of_nat (length (live_splits d)) = m_cSlices d - 1.
Proof.
  intros (HB & Hc & Hl & _). unfold live_splits. rewrite length_take. lia.
Qed.

Lemma Dimension_ok_slices_le (cBins : Z) (d : DimensionInfo) :
  Dimension_ok cBins d -> 1 <= m_cSlices d <= cBins.
Proof.
  intros H. pose proof (length_live_splits _ _ H) as Hlen.
  destruct H as (HB & Hc & Hl & Hs).
  pose proof (splits_ok_length 0 cBins _ ltac:(lia) Hs). lia.
Qed.

Lemma slices_product_bounds (bins : list Z) (ds : list DimensionInfo) :
  Dimensions_ok bins ds ->
  1 <= slices_product (length bins) ds <= fold_right Z.mul 1 bins.
Proof.
  revert ds. induction bins as [| cBins bins IH]; intros ds H; simpl in *; [lia |].
  destruct ds as [| d ds]; [done |]. destruct H as [Hd H]. simpl.
  specialize (IH ds H). pose proof (Dimension_ok_slices_le _ _ Hd). nia.
Qed.

Lemma bins_product_pos (bins : list Z) (ds : list DimensionInfo) :
  Dimensions_ok bins ds -> 1 <= fold_right Z.mul 1 bins.
Proof. intros H. pose proof (slices_product_bounds _ _ H). lia. Qed.

Lemma rd_drop {A} (d : A) (l : list A) (i : Z) (x : A) (l' : list A) :
  0 <= i -> drop (Z.to_nat i) l = x :: l' ->
  rd d l i = x /\ drop (Z.to_nat (i + 1)) l = l'.
Proof.
  intros Hi E. split.
  - apply rd_lookup; [done |].
    rewrite <- (Nat.add_0_r (Z.to_nat i)), <- lookup_drop, E. done.
  - replace (Z.to_nat (i + 1)) with (Z.to_nat i + 1)%nat by lia.
    by rewrite <- drop_drop, E.
Qed.

Lemma CountTensorScores_spec (bins : list Z) (ds : list DimensionInfo) (i c : Z) :
  0 <= i -> 0 <= c ->
  Dimensions_ok bins (drop (Z.to_nat i) ds) ->
  c * slices_product (length bins) (drop (Z.to_nat i) ds) <= SIZE_MAX ->
  CountTensorScores (length bins) i c ds
  = c * slices_product (length bins) (drop (Z.to_nat i) ds).
Proof.
  revert i c. induction bins as [| cBins bins IH]; intros i c Hi Hc Hok Hmax; simpl.
  - lia.
  - simpl in Hok, Hmax. destruct (drop (Z.to_nat i) ds) as [| d ds'] eqn:E; [done |].
    destruct Hok as [Hd Hok]. simpl in *.
    destruct (rd_drop DimensionInfo_null ds i d ds' Hi E) as [-> E'].
    pose proof (Dimension_ok_slices_le _ _ Hd).
    pose proof (slices_product_bounds _ _ Hok).
    rewrite size_mul_small by nia.
    rewrite IH; rewrite ?E'; try done; nia.
Qed.

Lemma live_scores_spec (bins : list Z) (t : Tensor) :
  Tensor_ok bins t ->
  CountTensorScores (Z.to_nat (m_cDimensions t)) 0 (m_cScores t) (m_aDimensions t)
  = live_scores t /\
  1 <= live_scores t <= m_cScores t * fold_right Z.mul 1 bins.
Proof.
  intros (HS & HD & Hds & Hlen & Hlive & Hfit).
  unfold live_scores. rewrite HD, Nat2Z.id.
  pose proof (slices_product_bounds _ _ Hds).
  split; [| nia].
  apply (CountTensorScores_spec bins (m_aDimensions t) 0); try done; try lia.
  change (drop (Z.to_nat 0) (m_aDimensions t)) with (m_aDimensions t).
  unfold sizeof_FloatScore in Hfit. nia.
Qed.

(** ** [AddExpandedWithBadValueProtection] *)

Lemma AddWithBadValueProtection_finite (toScore fromScore : FloatScore) :
  isnan toScore = false -> opposite_infinities toScore fromScore = false ->
  isfinite (AddWithBadValueProtection toScore fromScore) = true /\
  float_le float_lowest (AddWithBadValueProtection toScore fromScore) = true /\
  float_le (AddWithBadValueProtection toScore fromScore) float_max = true.
Proof.
  intros Hto Hopp. unfold AddWithBadValueProtection.
  set (addend := if isnan fromScore then float_zero else fromScore).
  assert (Hnan : isnan (float_add toScore addend) = false).
  { rewrite float_add_nan, Hto. unfold addend.
    destruct fromScore; simpl; try done; by destruct toScore. }
  destruct (float_le (float_add toScore addend) float_lowest) eqn:Hlow.
  - by vm_compute.
  - destruct (float_le float_max (float_add toScore addend)) eqn:Hhigh.
    + by vm_compute.
    + apply float_le_false_lt in Hlow; [| done | done].
      apply float_le_false_lt in Hhigh; [| done | done].
      repeat split; [| by apply float_lt_le | by apply float_lt_le].
      destruct (float_add toScore addend) as [| [] | |]; done.
Qed.

Lemma AddWithBadValueProtection_nan_stays (fromScore : FloatScore) :
  isnan (AddWithBadValueProtection S754_nan fromScore) = true.
Proof. unfold AddWithBadValueProtection. by destruct (isnan fromScore), fromScore. Qed.

Lemma AddExpanded_loop_spec (aFrom : list FloatScore) (fuel : nat) (a : list FloatScore)
  (p pEnd : Z) :
  0 <= p < pEnd -> pEnd <= Z.of_nat (length a) -> pEnd - p <= Z.of_nat fuel ->
  exists a',
    AddExpanded_loop fuel aFrom a p p pEnd = Some a' /\
    length a' = length a /\
    forall i,
      rd float_zero a' i
      = if (p <=? i) && (i <? pEnd)
        then AddWithBadValueProtection (rd float_zero a i) (rd float_zero aFrom i)
        else rd float_zero a i.
Proof.
  revert a p. induction fuel as [| fuel IH]; intros a p Hp Hlen Hfuel; [lia |].
  simpl. destruct (Z.eqb_spec pEnd (p + 1)) as [-> | Hne]; simpl.
  - eexists. split; [done |]. split; [apply length_wr |].
    intros i. destruct (Z.eq_dec i p) as [-> | Hi].
    + rewrite rd_wr_eq by lia.
      by destruct (Z.leb_spec p p), (Z.ltb_spec p (p + 1)); try lia.
    + rewrite rd_wr_ne by done.
      by destruct (Z.leb_spec p i), (Z.ltb_spec i (p + 1)); try lia.
  - edestruct (IH (wr a p (AddWithBadValueProtection (rd float_zero a p) (rd float_zero aFrom p)))
                 (p + 1)) as (a' & -> & Hl & Hrd);
      rewrite ?length_wr; try lia.
    eexists. split; [done |]. split; [by rewrite Hl, length_wr |].
    intros i. rewrite Hrd. destruct (Z.eq_dec i p) as [-> | Hi].
    + rewrite rd_wr_eq by lia.
      by destruct (Z.leb_spec (p + 1) p), (Z.leb_spec p p), (Z.ltb_spec p pEnd); try lia.
    + rewrite rd_wr_ne by done.
      by destruct (Z.leb_spec (p + 1) i), (Z.leb_spec p i), (Z.ltb_spec i pEnd); try lia.
Qed.

(** C3 (amended). On an expanded tensor, [AddExpandedWithBadValueProtection]
    returns, keeps every field but the scores, and replaces each of the
    [S * prod slice_count] live scores by the clamped sum of the stored score
    and the added score, a NaN addend counting as zero; the scores behind the
    live ones are untouched. A live score that was not NaN, and was not an
    infinity facing an added infinity of the opposite sign, is finite
    afterwards and lies between [lowest] and [max]. *)
Theorem AddExpandedWithBadValueProtection_clamps (bins : list Z) (t : Tensor)
  (aFromScores : list FloatScore) :
  Tensor_ok bins t -> m_bExpanded t = true ->
  exists a,
    AddExpandedWithBadValueProtection t aFromScores = Some (with_scores t a) /\
    length a = length (m_aTensorScores t) /\
    (forall i, 0 <= i < live_scores t ->
       rd float_zero a i
       = AddWithBadValueProtection (rd float_zero (m_aTensorScores t) i)
           (if isnan (rd float_zero aFromScores i) then float_zero
            else rd float_zero aFromScores i)) /\
    (forall i, live_scores t <= i -> rd float_zero a i = rd float_zero (m_aTensorScores t) i) /\
    (forall i, 0 <= i < live_scores t ->
       isnan (rd float_zero (m_aTensorScores t) i) = false ->
       opposite_infinities (rd float_zero (m_aTensorScores t) i) (rd float_zero aFromScores i)
       = false ->
       isfinite (rd float_zero a i) = true /\
       float_le float_lowest (rd float_zero a i) = true /\
       float_le (rd float_zero a i) float_max = true).
Proof.
  intros Hok _. destruct (live_scores_spec _ _ Hok) as [Hcount Hlive].
  destruct Hok as (HS & HD & Hds & Hlen & Hfit & Hmax).
  unfold AddExpandedWithBadValueProtection. rewrite Hcount.
  destruct (AddExpanded_loop_spec aFromScores (Z.to_nat (live_scores t)) (m_aTensorScores t)
              0 (live_scores t)) as (a & -> & Hl & Hrd); try lia.
  exists a. split; [done |]. split; [done |].
  assert (Hin : forall i, 0 <= i < live_scores t ->
            rd float_zero a i
            = AddWithBadValueProtection (rd float_zero (m_aTensorScores t) i)
                (rd float_zero aFromScores i)).
  { intros i Hi. rewrite Hrd.
    by destruct (Z.leb_spec 0 i), (Z.ltb_spec i (live_scores t)); try lia. }
  repeat split.
  - intros i Hi. rewrite Hin by done. unfold AddWithBadValueProtection.
    by destruct (rd float_zero aFromScores i).
  - intros i Hi. rewrite Hrd.
    by destruct (Z.leb_spec 0 i), (Z.ltb_spec i (live_scores t)); try lia.
  - rewrite Hin by done. by apply AddWithBadValueProtection_finite.
  - rewrite Hin by done. by apply AddWithBadValueProtection_finite.
  - rewrite Hin by done. by apply AddWithBadValueProtection_finite.
Qed.

(** ** Sizing of the histogram buckets *)





(** ** Classification of the gain *)

Lemma digits2_pos_bound (m : positive) : Z.pos m < 2 ^ Z.pos (digits2_pos m).
Proof.
  induction m as [m IH | m IH |]; simpl digits2_pos; [| | done];
    rewrite Pos2Z.inj_succ, Z.pow_succ_r by lia; lia.
Qed.

Lemma float_le_finite_pos (m1 m2 : positive) (e1 e2 : Z) :
  e1 < e2 \/ (e1 = e2 /\ Z.pos m1 <= Z.pos m2) ->
  float_le (S754_finite false m1 e1) (S754_finite false m2 e2) = true.
Proof.
  unfold float_le, SFleb, SFcompare. intros [Hlt | [-> Hle]].
  - by rewrite (proj2 (Z.compare_lt_iff e1 e2) Hlt).
  - rewrite Z.compare_refl.
    change (Pos.compare_cont Eq m1 m2) with (m1 ?= m2)%positive.
    by destruct (Pos.compare_spec m1 m2); [| | lia].
Qed.

Lemma float_max_eq : float_max = S754_finite false 9007199254740991 971.
Proof. reflexivity. Qed.

(** A valid finite [double] is at most [max]. *)
Lemma valid_le_float_max (x : spec_float) :
  valid_binary prec emax x = true -> isfinite x = true -> float_le x float_max = true.
Proof.
  rewrite float_max_eq.
  destruct x as [s | s | | s m e]; try done; intros Hv _.
  destruct s; [done |].
  unfold valid_binary, bounded, canonical_mantissa, fexp, emin in Hv.
  apply andb_true_iff in Hv as [Hc He].
  apply Z.eqb_eq in Hc. apply Z.leb_le in He.
  change (emax - prec) with 971 in He. change (3 - emax - prec) with (-1074) in Hc.
  unfold prec in Hc.
  apply float_le_finite_pos.
  destruct (Z.eq_dec e 971) as [-> | Hne]; [right | left; lia].
  split; [done |].
  assert (Hd : Z.pos (digits2_pos m) = 53) by lia.
  pose proof (digits2_pos_bound m) as Hb. rewrite Hd in Hb.
  clear Hc He Hd. change (2 ^ 53) with (9007199254740991 + 1) in Hb.
  by apply Z.lt_succ_r.
Qed.

Lemma float_lt_false_le (x y : spec_float) :
  isnan x = false -> isnan y = false -> float_lt x y = false -> float_le y x = true.
Proof.
  unfold float_le, float_lt, SFleb, SFltb. intros Hx Hy.
  rewrite (SFcompare_antisym x y).
  destruct x, y; try done; simpl; by repeat case_match.
Qed.

Lemma float_le_not_nan (x y : spec_float) :
  float_le x y = true -> isnan x = false /\ isnan y = false.
Proof. unfold float_le, SFleb. by destruct x, y. Qed.

Lemma float_lt_not_le (x y : spec_float) : float_lt x y = true -> float_le y x = false.
Proof.
  unfold float_le, float_lt, SFleb, SFltb. rewrite (SFcompare_antisym x y).
  destruct (SFcompare x y) as [[] |]; done.
Qed.

(** C4. Once the buckets are sized and allocated for a feature group of two
    significant dimensions, and the output pointer is not null,
    [CalcInteractionStrengthInternal] returns [Error_None] and stores a value
    that is decided by the partitioner's gain divided by the total weight: a
    NaN or [+infinity] quotient stores the sentinel, a quotient below
    [lowest] stores the sentinel, a quotient from [lowest] up to but
    excluding zero stores zero, and any other quotient, a finite one that is
    not negative, is stored itself. *)
Theorem CalcInteractionStrengthInternal_classifies (pInteractionCore : InteractionCore)
  (pFeatureGroup : FeatureGroup.t) (options cSamplesRequiredForChildSplitMin : Z)
  (sizes : BucketSizes) (old : spec_float) :
  SizeBuckets pInteractionCore pFeatureGroup = Some sizes ->
  GetHistogramBucketBase_ok (cBytesBuffer sizes) = true ->
  FeatureGroup.GetCountSignificantDimensions pFeatureGroup = 2 ->
  let bestGain :=
    float_div
      (PartitionTwoDimensionalInteraction pInteractionCore pFeatureGroup options
         cSamplesRequiredForChildSplitMin)
      (GetWeightTotal (GetDataSetInteraction pInteractionCore)) in
  exists stored,
    CalcInteractionStrengthInternal pInteractionCore pFeatureGroup options
      cSamplesRequiredForChildSplitMin (Some old) = Some (Error_None, Some stored) /\
    (isnan bestGain = true \/ bestGain = float_infinity -> stored = k_illegalGainDouble) /\
    (float_lt bestGain float_lowest = true -> stored = k_illegalGainDouble) /\
    (float_le float_lowest bestGain = true -> float_lt bestGain float_zero = true ->
     stored = float_zero) /\
    (valid_binary prec emax bestGain = true -> isfinite bestGain = true ->
     float_le float_zero bestGain = true -> stored = bestGain).
Proof.
  intros Hsize Halloc Hdims bestGain.
  unfold CalcInteractionStrengthInternal. rewrite Hsize, Halloc, Hdims. simpl.
  fold bestGain. eexists. split; [reflexivity |].
  repeat split.
  - intros [Hnan | ->]; [| done]. by destruct bestGain.
  - intros Hlt.
    destruct (float_le bestGain float_max) eqn:Hmax; [| done]. simpl.
    rewrite (float_lt_not_le _ _ Hlt).
    destruct bestGain as [s | [] | | [] m e]; try done.
  - intros Hlow Hneg.
    destruct (float_le bestGain float_max) eqn:Hmax; simpl.
    + by rewrite Hneg, Hlow.
    + destruct bestGain as [s | [] | | [] m e]; try done.
  - intros Hvalid Hfin Hpos.
    rewrite (valid_le_float_max _ Hvalid Hfin). simpl.
    destruct (float_lt bestGain float_zero) eqn:Hneg; [| done].
    apply float_lt_not_le in Hneg. congruence.
Qed.

(** ** Validation of the feature indexes *)

Lemma CollectFeatures_out_of_range (pInteractionCore : InteractionCore) (featureIndexes : list Z)
  (pEnd i : Z) (out : option spec_float) (fuel : nat) (p : Z) (entries : list Feature) :
  0 <= p <= i -> i - p < Z.of_nat fuel -> i < pEnd ->
  (forall k, p <= k < i -> index_ok pInteractionCore (rd 0 featureIndexes k)) ->
  index_out_of_range pInteractionCore (rd 0 featureIndexes i) ->
  CollectFeatures fuel pInteractionCore featureIndexes p pEnd entries out
  = Some (inl (Error_IllegalParamValue, out)).
Proof.
  revert p entries. induction fuel as [| fuel IH]; intros p entries Hp Hfuel Hend Hok Hbad;
    [lia |].
  simpl. destruct (Z.eq_dec p i) as [-> | Hne].
  - destruct Hbad as [Hneg | Hbig].
    + by destruct (Z.ltb_spec (rd 0 featureIndexes i) 0); [| lia].
    + destruct (Z.ltb_spec (rd 0 featureIndexes i) 0); [done |].
      by destruct (Z.leb_spec (GetCountFeatures pInteractionCore) (rd 0 featureIndexes i));
        [| lia].
  - destruct (Hok p ltac:(lia)) as [Hrange Hbins]. unfold feature_at in Hbins.
    destruct (Z.ltb_spec (rd 0 featureIndexes p) 0); [lia |].
    destruct (Z.leb_spec (GetCountFeatures pInteractionCore) (rd 0 featureIndexes p)); [lia |].
    destruct (Z.leb_spec
                (GetCountBins (rd (mkFeature 0) (GetFeatures pInteractionCore)
                                 (rd 0 featureIndexes p))) 1); [lia |].
    destruct (Z.eqb_spec pEnd (p + 1)); [lia |]. simpl.
    apply IH; try lia; [intros k Hk; apply Hok; lia | done].
Qed.

Lemma CollectFeatures_valid (pInteractionCore : InteractionCore) (featureIndexes : list Z)
  (out : option spec_float) (fuel : nat) (p : Z) (entries : list Feature) :
  let pEnd := Z.of_nat (length featureIndexes) in
  0 <= p < pEnd -> pEnd - p <= Z.of_nat fuel ->
  Forall (index_ok pInteractionCore) (drop (Z.to_nat p) featureIndexes) ->
  CollectFeatures fuel pInteractionCore featureIndexes p pEnd entries out
  = Some (inr (entries ++ map (feature_at pInteractionCore) (drop (Z.to_nat p) featureIndexes))).
Proof.
  intros pEnd. revert p entries.
  induction fuel as [| fuel IH]; intros p entries Hp Hfuel Hok; [lia |].
  simpl. destruct (drop (Z.to_nat p) featureIndexes) as [| index rest] eqn:E.
  { apply (f_equal length) in E. rewrite length_drop in E. simpl in E. lia. }
  destruct (rd_drop 0 featureIndexes p index rest ltac:(lia) E) as [-> E'].
  apply Forall_cons in Hok as [[Hrange Hbins] Hok]. unfold feature_at in Hbins.
  destruct (Z.ltb_spec index 0); [lia |].
  destruct (Z.leb_spec (GetCountFeatures pInteractionCore) index); [lia |].
  destruct (Z.leb_spec (GetCountBins (rd (mkFeature 0) (GetFeatures pInteractionCore) index)) 1);
    [lia |].
  destruct (Z.eqb_spec pEnd (p + 1)) as [Hlast | Hmore]; simpl.
  - assert (rest = []) as ->; [| done].
    apply length_zero_iff_nil. rewrite <- E', length_drop. lia.
  - rewrite IH by (rewrite ?E'; done || lia).
    by rewrite E', <- app_assoc.
Qed.

Lemma CollectFeatures_cases (pInteractionCore : InteractionCore) (featureIndexes : list Z)
  (pEnd : Z) (out : option spec_float) (fuel : nat) (p : Z) (entries : list Feature) :
  pEnd - p <= Z.of_nat fuel -> p < pEnd ->
  CollectFeatures fuel pInteractionCore featureIndexes p pEnd entries out
  = Some (inl (Error_IllegalParamValue, out)) \/
  CollectFeatures fuel pInteractionCore featureIndexes p pEnd entries out
  = Some (inl (Error_None, store out float_zero)) \/
  exists entries',
    CollectFeatures fuel pInteractionCore featureIndexes p pEnd entries out
    = Some (inr entries').
Proof.
  revert p entries. induction fuel as [| fuel IH]; intros p entries Hfuel Hp; [lia |].
  simpl.
  destruct (rd 0 featureIndexes p <? 0); [by left |].
  destruct (GetCountFeatures pInteractionCore <=? rd 0 featureIndexes p); [by left |].
  destruct (GetCountBins _ <=? 1); [by right; left |].
  destruct (Z.eqb_spec pEnd (p + 1)); simpl; [right; right; by eexists |].
  apply IH; lia.
Qed.

(** C5 (amended). With a valid handle, a dimension count between 1 and the
    largest one, and a non-null index array, [CalcInteractionStrength]
    returns [Error_IllegalParamValue], with the sentinel in the output, when
    an index is negative or at least the feature count, provided that every
    index before it is in range and refers to a feature with at least two
    bins. *)
Theorem CalcInteractionStrength_index_out_of_range (pInteractionShell : InteractionShell)
  (countDimensions : Z) (featureIndexes : list Z) (options countSamplesMin : Z)
  (out : option spec_float) (i : Z) :
  0 <= i < countDimensions -> countDimensions <= k_cDimensionsMax ->
  (forall k, 0 <= k < i ->
     index_ok (GetInteractionCore pInteractionShell) (rd 0 featureIndexes k)) ->
  index_out_of_range (GetInteractionCore pInteractionShell) (rd 0 featureIndexes i) ->
  CalcInteractionStrength (Some pInteractionShell) countDimensions (Some featureIndexes)
    options countSamplesMin out
  = Some (Error_IllegalParamValue, store out k_illegalGainDouble).
Proof.
  intros Hi Hmax Hok Hbad. unfold CalcInteractionStrength.
  destruct (Z.leb_spec countDimensions 0); [lia |].
  destruct (Z.ltb_spec k_cDimensionsMax countDimensions); [lia |].
  fold (store out k_illegalGainDouble).
  by rewrite (CollectFeatures_out_of_range _ _ countDimensions i) by (done || lia).
Qed.

(** ** The output of [CalcInteractionStrength] *)

Lemma CalcInteractionStrengthInternal_output (pInteractionCore : InteractionCore)
  (pFeatureGroup : FeatureGroup.t) (options cSamplesMin : Z) (old : spec_float) :
  (exists error stored,
     CalcInteractionStrengthInternal pInteractionCore pFeatureGroup options cSamplesMin
       (Some old)
     = Some (error, Some stored) /\
     ((error = Error_OutOfMemory /\ stored = old) \/
      (error = Error_None /\
       (stored = k_illegalGainDouble \/
        (float_le float_zero stored = true /\ float_le stored float_max = true))))) \/
  (NDEBUG = false /\
   FeatureGroup.GetCountSignificantDimensions pFeatureGroup <> 2 /\
   CalcInteractionStrengthInternal pInteractionCore pFeatureGroup options cSamplesMin
     (Some old)
   = None).
Proof.
  unfold CalcInteractionStrengthInternal.
  destruct (SizeBuckets pInteractionCore pFeatureGroup) as [sizes |];
    [| left; eexists _, _; split; [reflexivity |]; by left].
  destruct (GetHistogramBucketBase_ok (cBytesBuffer sizes)); simpl negb; cbv iota;
    [| left; eexists _, _; split; [reflexivity |]; by left].
  destruct (Z.eqb_spec 2 (FeatureGroup.GetCountSignificantDimensions pFeatureGroup))
    as [Hpair | Hpair].
  2: { destruct NDEBUG; simpl negb; cbv iota.
       - left. eexists _, _. split; [reflexivity |]. right. split; [done | by left].
       - right. split; [done |]. split; [congruence | done]. }
  set (bestGain := float_div _ _).
  left. eexists _, _. split; [done |]. right. split; [done |].
  destruct (float_le bestGain float_max) eqn:Hmax; simpl; [| by left].
  destruct (float_lt bestGain float_zero) eqn:Hneg.
  - destruct (float_le float_lowest bestGain); [by right | by left].
  - right. split; [| done].
    apply float_lt_false_le; [| done | done]. by apply float_le_not_nan in Hmax as [? ?].
Qed.

Lemma float_le_max_finite (x : spec_float) :
  float_le float_zero x = true -> float_le x float_max = true -> isfinite x = true.
Proof. rewrite float_max_eq. by destruct x as [| [] | |]. Qed.

(** C6. With a non-null output pointer, whatever the other arguments: when
    [CalcInteractionStrength] returns, the output holds the sentinel or a
    value from zero up to [max]; it holds the sentinel whenever the return
    code is not [Error_None]. As the sentinel is finite, the output is never
    NaN or an infinity. The call returns on every input in a build with
    [NDEBUG], and on every call for a pair in any build; the one call that
    does not return is a call for a dimension count other than 2 in a build
    with assertions, which ends at [EBM_ASSERT(false)]. *)
Theorem CalcInteractionStrength_output (interactionHandle : option InteractionShell)
  (countDimensions : Z) (featureIndexes : option (list Z)) (options countSamplesMin : Z)
  (old : spec_float) :
  isfinite k_illegalGainDouble = true ->
  (exists error stored,
     CalcInteractionStrength interactionHandle countDimensions featureIndexes options
       countSamplesMin (Some old) = Some (error, Some stored) /\
     (stored = k_illegalGainDouble \/
      (float_le float_zero stored = true /\ float_le stored float_max = true)) /\
     (error <> Error_None -> stored = k_illegalGainDouble) /\
     isfinite stored = true) \/
  (NDEBUG = false /\ countDimensions <> 2 /\
   CalcInteractionStrength interactionHandle countDimensions featureIndexes options
     countSamplesMin (Some old) = None).
Proof.
  intros Hsentinel.
  assert (Hzero : float_le float_zero float_zero = true /\ float_le float_zero float_max = true)
    by (by rewrite float_max_eq).
  enough ((exists error stored,
    CalcInteractionStrength interactionHandle countDimensions featureIndexes options
      countSamplesMin (Some old) = Some (error, Some stored) /\
    (stored = k_illegalGainDouble \/
     (float_le float_zero stored = true /\ float_le stored float_max = true)) /\
    (error <> Error_None -> stored = k_illegalGainDouble)) \/
    (NDEBUG = false /\ countDimensions <> 2 /\
     CalcInteractionStrength interactionHandle countDimensions featureIndexes options
       countSamplesMin (Some old) = None))
    as [(error & stored & E & Hs & He) | Habort]; [| by right |].
  { left. exists error, stored. repeat split; try done.
    destruct Hs as [-> | [H0 H1]]; [done | by apply float_le_max_finite]. }
  unfold CalcInteractionStrength.
  destruct interactionHandle as [pInteractionShell |];
    [| left; eexists _, _; split; [reflexivity |]; split; [by left | done]].
  destruct (countDimensions <=? 0) eqn:Hdim.
  { left. destruct (0 =? countDimensions); eexists _, _; (split; [reflexivity |]); split;
      try (by right); try (by left); done. }
  destruct featureIndexes as [aFeatureIndexes |];
    [| left; eexists _, _; split; [reflexivity |]; split; [by left | done]].
  destruct (k_cDimensionsMax <? countDimensions);
    [left; eexists _, _; split; [reflexivity |]; split; [by left | done] |].
  apply Z.leb_gt in Hdim.
  destruct (CollectFeatures_cases (GetInteractionCore pInteractionShell) aFeatureIndexes
              countDimensions (Some k_illegalGainDouble) (Z.to_nat countDimensions) 0 [])
    as [-> | [-> | [entries ->]]]; try lia.
  - left. eexists _, _; split; [reflexivity |]; split; [by left | done].
  - left. eexists _, _; split; [reflexivity |]; split; [by right | done].
  - destruct (0 =? GetCountSamples _);
      [left; eexists _, _; split; [reflexivity |]; split; [by right | done] |].
    destruct (1 =? GetRuntimeLearningTypeOrCountTargetClasses _);
      [left; eexists _, _; split; [reflexivity |]; split; [by right | done] |].
    destruct (CalcInteractionStrengthInternal_output (GetInteractionCore pInteractionShell)
                (FeatureGroup.mk countDimensions countDimensions entries) options
                (if 1 <=? countSamplesMin
                 then if IsConvertError_size_t countSamplesMin then SIZE_MAX else countSamplesMin
                 else 1) k_illegalGainDouble)
      as [(error & stored & -> & Hcases) | (Hdebug & Hpair & ->)].
    + left. exists error, stored. split; [done |].
      destruct Hcases as [[-> ->] | [-> Hs]]; [by split; [left |] | by split].
    + right. by split.
Qed.

(** C7 (amended). For a call with a valid handle and valid indexes, none of a
    single-bin feature, on a data set with samples and a target of more than
    one class, whose dimension count is not 2: when the buckets can be sized
    and allocated, the call reaches [EBM_ASSERT(false)]. In a build with
    [NDEBUG] [CalcInteractionStrength] returns [Error_None] and stores the
    sentinel; in a build with assertions the call does not return. *)
Theorem CalcInteractionStrength_not_a_pair (pInteractionShell : InteractionShell)
  (featureIndexes : list Z) (options countSamplesMin : Z) (old : spec_float)
  (sizes : BucketSizes) :
  let pInteractionCore := GetInteractionCore pInteractionShell in
  let countDimensions := Z.of_nat (length featureIndexes) in
  let featureGroup :=
    FeatureGroup.mk countDimensions countDimensions
      (map (feature_at pInteractionCore) featureIndexes) in
  0 < countDimensions <= k_cDimensionsMax -> countDimensions <> 2 ->
  Forall (index_ok pInteractionCore) featureIndexes ->
  GetCountSamples (GetDataSetInteraction pInteractionCore) <> 0 ->
  GetRuntimeLearningTypeOrCountTargetClasses pInteractionCore <> 1 ->
  SizeBuckets pInteractionCore featureGroup = Some sizes ->
  GetHistogramBucketBase_ok (cBytesBuffer sizes) = true ->
  CalcInteractionStrength (Some pInteractionShell) countDimensions (Some featureIndexes)
    options countSamplesMin (Some old)
  = if NDEBUG then Some (Error_None, Some k_illegalGainDouble) else None.
Proof.
  intros pInteractionCore countDimensions featureGroup Hdim Hne Hok Hsamples Hclasses
    Hsize Halloc.
  unfold CalcInteractionStrength. fold pInteractionCore.
  destruct (Z.leb_spec countDimensions 0); [lia |].
  destruct (Z.ltb_spec k_cDimensionsMax countDimensions); [lia |].
  unfold countDimensions at 2.
  rewrite CollectFeatures_valid by (done || lia).
  change (drop (Z.to_nat 0) featureIndexes) with featureIndexes. rewrite app_nil_l.
  fold countDimensions featureGroup.
  destruct (Z.eqb_spec 0 (GetCountSamples (GetDataSetInteraction pInteractionCore)));
    [congruence |].
  destruct (Z.eqb_spec 1 (GetRuntimeLearningTypeOrCountTargetClasses pInteractionCore));
    [congruence |].
  unfold CalcInteractionStrengthInternal. rewrite Hsize, Halloc. simpl negb. cbv iota.
  unfold featureGroup at 1. unfold FeatureGroup.GetCountSignificantDimensions.
  destruct (Z.eqb_spec 2 countDimensions); [congruence |]. by destruct NDEBUG.
Qed.

(** ** Capacities never shrink *)

Lemma wr_out_of_range {A} (l : list A) (i : Z) (v : A) :
  ~ (0 <= i < Z.of_nat (length l)) -> wr l i v = l.
Proof.
  intros H. unfold wr. destruct (Z.ltb_spec i 0); [done |].
  apply list_insert_ge. lia.
Qed.

Lemma rd_wr {A} (d : A) (l : list A) (i j : Z) (v : A) :
  rd d (wr l i v) j = v \/ rd d (wr l i v) j = rd d l j.
Proof.
  destruct (Z.eq_dec i j) as [-> | Hne]; [| right; by apply rd_wr_ne].
  destruct (Z_lt_dec j 0) as [Hneg | Hpos].
  - right. rewrite wr_out_of_range; [done | lia].
  - destruct (Z_lt_dec j (Z.of_nat (length l))).
    + left. apply rd_wr_eq. lia.
    + right. rewrite wr_out_of_range; [done | lia].
Qed.

Lemma capacity_le_refl (t : Tensor) : capacity_le t t.
Proof. split; [lia | intros; lia]. Qed.

Lemma capacity_le_trans (t1 t2 t3 : Tensor) :
  capacity_le t1 t2 -> capacity_le t2 t3 -> capacity_le t1 t3.
Proof.
  intros [H1 H2] [H3 H4]. split; [lia |].
  intros i. specialize (H2 i). specialize (H4 i). lia.
Qed.

Lemma capacity_le_with_dimension (t : Tensor) (i : Z) (d : DimensionInfo) :
  m_cSliceCapacity (GetDimension t i) <= m_cSliceCapacity d ->
  capacity_le t (with_dimension t i d).
Proof.
  intros H. split; [simpl; lia |].
  intros j. unfold GetDimension, with_dimension in *. simpl.
  destruct (Z.eq_dec i j) as [-> | Hne]; [| rewrite rd_wr_ne by done; lia].
  destruct (rd_wr DimensionInfo_null (m_aDimensions t) j j d) as [-> | ->]; lia.
Qed.

Lemma capacity_le_same_dimensions (t t' : Tensor) :
  m_cTensorScoreCapacity t <= m_cTensorScoreCapacity t' ->
  m_aDimensions t' = m_aDimensions t -> capacity_le t t'.
Proof.
  intros Hc Hd. split; [done |]. intros i. unfold GetDimension. rewrite Hd. lia.
Qed.

Lemma capacity_le_with_scores (t : Tensor) (a : list FloatScore) :
  capacity_le t (with_scores t a).
Proof. by apply capacity_le_same_dimensions. Qed.

Lemma capacity_le_with_expanded (t : Tensor) (b : bool) : capacity_le t (with_expanded t b).
Proof. by apply capacity_le_same_dimensions. Qed.

Lemma size_wrap_range (x : Z) : is_size_t (size_wrap x).
Proof.
  unfold is_size_t, size_wrap, SIZE_MAX.
  pose proof (Z.mod_pos_bound x SIZE_MOD ltac:(done)). lia.
Qed.

Lemma SetCountSlices_capacity (t : Tensor) (iDimension cSlices : Z) :
  1 < sizeof_UIntSplit -> is_size_t cSlices ->
  capacity_le t (snd (SetCountSlices t iDimension cSlices)).
Proof.
  intros Hsz [Hlo Hhi]. unfold SetCountSlices.
  destruct (Z.ltb_spec (m_cSliceCapacity (GetDimension t iDimension)) cSlices) as [Hlt | Hge];
    [| apply capacity_le_with_dimension; simpl; lia].
  unfold IsAddError, IsMultiplyError.
  remember (size_sub cSlices 1) as cSplits eqn:HcS.
  destruct (Z.ltb_spec SIZE_MAX (cSplits + Z.shiftr cSplits 1)) as [? | Hadd];
    [apply capacity_le_refl |].
  destruct (Z.ltb_spec SIZE_MAX (sizeof_UIntSplit * size_add cSplits (Z.shiftr cSplits 1)))
    as [? | Hmul]; [apply capacity_le_refl |].
  destruct (realloc_ok _); [| apply capacity_le_refl].
  simpl snd. apply capacity_le_with_dimension. simpl.
  assert (Hrange : 0 <= cSplits <= SIZE_MAX).
  { rewrite HcS. apply size_wrap_range. }
  assert (Hhalf : 0 <= Z.shiftr cSplits 1).
  { rewrite Z.shiftr_div_pow2 by lia. apply Z.div_pos; lia. }
  rewrite (size_add_small cSplits (Z.shiftr cSplits 1)) in Hmul |- * by lia.
  destruct (Z.eq_dec cSlices 0) as [-> | Hne].
  - exfalso. change (size_sub 0 1) with SIZE_MAX in HcS. subst cSplits.
    rewrite SIZE_MAX_eq in *.
    change (Z.shiftr 18446744073709551615 1) with 9223372036854775807 in *. lia.
  - assert (cSplits = cSlices - 1) as Hs by (rewrite HcS; apply size_sub_small; lia).
    rewrite size_add_small by nia. lia.
Qed.

Lemma AlignedGrow_capacity (a : list FloatScore) (cOldBytes cRequiredBytes : Z) :
  cOldBytes <= snd (snd (AlignedGrow a cOldBytes cRequiredBytes)).
Proof.
  unfold AlignedGrow.
  destruct (Z.ltb_spec cOldBytes cRequiredBytes); [| simpl; lia].
  destruct (aligned_alloc_ok _); simpl; [| lia].
  pose proof (amortized_bytes_ge cRequiredBytes). lia.
Qed.

Lemma EnsureTensorScoreCapacity_capacity (t : Tensor) (cTensorScores : Z) :
  capacity_le t (snd (EnsureTensorScoreCapacity t cTensorScores)).
Proof.
  unfold EnsureTensorScoreCapacity.
  destruct (IsMultiplyError _ _); [apply capacity_le_refl |].
  pose proof (AlignedGrow_capacity (m_aTensorScores t) (m_cTensorScoreCapacity t)
                (size_mul sizeof_FloatScore cTensorScores)) as H.
  destruct (AlignedGrow _ _ _) as [error [a c]]. simpl in *.
  by apply capacity_le_same_dimensions.
Qed.

Lemma Reset_slices_capacity (n : nat) (i : Z) (ds : list DimensionInfo) (j : Z) :
  m_cSliceCapacity (rd DimensionInfo_null (Reset_slices n i ds) j)
  = m_cSliceCapacity (rd DimensionInfo_null ds j).
Proof.
  revert i ds. induction n as [| n IH]; intros i ds; simpl; [done |].
  rewrite IH.
  destruct (Z.eq_dec i j) as [-> | Hne]; [| by rewrite rd_wr_ne].
  by destruct (rd_wr DimensionInfo_null ds j j
                 (with_cSlices (rd DimensionInfo_null ds j) 1)) as [-> | ->].
Qed.

Lemma Reset_capacity (t : Tensor) : capacity_le t (Reset t).
Proof.
  split; [simpl; lia |]. intros j. unfold Reset, GetDimension. simpl.
  rewrite Reset_slices_capacity. lia.
Qed.

Lemma Copy_dimensions_capacity (rhs : Tensor) (n : nat) (i c : Z) (t : Tensor) :
  1 < sizeof_UIntSplit ->
  (forall j, is_size_t (m_cSlices (GetDimension rhs j))) ->
  capacity_le t (fst (snd (Copy_dimensions n i c t rhs))).
Proof.
  intros Hsz Hrhs. revert i c t.
  induction n as [| n IH]; intros i c t; simpl; [apply capacity_le_refl |].
  pose proof (SetCountSlices_capacity t i (m_cSlices (GetDimension rhs i)) Hsz (Hrhs i)) as H1.
  destruct (SetCountSlices t i (m_cSlices (GetDimension rhs i))) as [error t1]. simpl in H1.
  destruct error; try done.
  eapply capacity_le_trans; [exact H1 |].
  eapply capacity_le_trans; [| apply IH].
  apply capacity_le_with_dimension. simpl. lia.
Qed.

Lemma Copy_capacity (t rhs : Tensor) :
  1 < sizeof_UIntSplit ->
  (forall j, is_size_t (m_cSlices (GetDimension rhs j))) ->
  capacity_le t (snd (Copy t rhs)).
Proof.
  intros Hsz Hrhs. unfold Copy.
  pose proof (Copy_dimensions_capacity rhs (Z.to_nat (m_cDimensions t)) 0 (m_cScores t) t
                Hsz Hrhs) as H1.
  destruct (Copy_dimensions _ _ _ _ _) as [error [t1 c]]. simpl in H1.
  destruct error; try done.
  pose proof (EnsureTensorScoreCapacity_capacity t1 c) as H2.
  destruct (EnsureTensorScoreCapacity t1 c) as [error t2]. simpl in H2.
  destruct error; simpl.
  - eapply capacity_le_trans; [exact H1 |]. eapply capacity_le_trans; [exact H2 |].
    by apply capacity_le_same_dimensions.
  - by eapply capacity_le_trans.
  - by eapply capacity_le_trans.
Qed.

Lemma Expand_splits_capacity (features : list Z) (i : Z) (t : Tensor)
  (r : ErrorEbm * Tensor) :
  1 < sizeof_UIntSplit -> Forall is_size_t features ->
  Expand_splits features i t = Some r -> capacity_le t (snd r).
Proof.
  intros Hsz Hf. revert i t.
  induction Hf as [| cBins features Hb _ IH]; intros i t E; simpl in E.
  - injection E as <-. apply capacity_le_refl.
  - destruct (negb (cBins =? m_cSlices (GetDimension t i))); [| by apply IH in E].
    pose proof (SetCountSlices_capacity t i cBins Hsz Hb) as H1.
    destruct (SetCountSlices t i cBins) as [error t1]. simpl in H1.
    destruct error; try (by injection E as <-).
    destruct (Expand_edges _ _ _ _) as [aSplit |]; [| done].
    apply IH in E.
    eapply capacity_le_trans; [exact H1 |]. eapply capacity_le_trans; [| exact E].
    apply capacity_le_with_dimension. simpl. lia.
Qed.

Lemma Expand_capacity (t : Tensor) (pTerm : Term) (r : ErrorEbm * Tensor) :
  1 < sizeof_UIntSplit -> Forall is_size_t (m_aTermFeatures pTerm) ->
  Expand t pTerm = Some r -> capacity_le t (snd r).
Proof.
  intros Hsz Hf E. unfold Expand in E.
  destruct (m_bExpanded t); [injection E as <-; apply capacity_le_refl |].
  destruct (negb (0 =? GetCountDimensions pTerm));
    [| injection E as <-; apply capacity_le_with_expanded].
  destruct (Expand_count _ _ _) as [c1 stack].
  pose proof (EnsureTensorScoreCapacity_capacity t
                (size_mul (m_cScores t) (GetCountTensorBins pTerm))) as H1.
  destruct (EnsureTensorScoreCapacity t _) as [error t1]. simpl in H1.
  destruct error; try (by injection E as <-).
  destruct (Expand_scores _ _ _ _ _ _ _) as [a |]; [| done].
  destruct (Expand_splits _ _ _) as [[error t2] |] eqn:E2; [| done].
  apply Expand_splits_capacity in E2; [| done | done]. simpl in E2.
  assert (capacity_le t t2) as H2.
  { eapply capacity_le_trans; [exact H1 |]. eapply capacity_le_trans; [| exact E2].
    apply capacity_le_with_scores. }
  destruct error; injection E as <-; simpl.
  - eapply capacity_le_trans; [exact H2 | apply capacity_le_with_expanded].
  - exact H2.
  - exact H2.
Qed.

Lemma Add_count_slices_range (fuel : nat) (a1 a2 : list Z) (p1 p2 e1 e2 c r : Z) :
  Add_count_slices fuel a1 a2 p1 p2 e1 e2 c = Some r -> is_size_t r.
Proof.
  revert p1 p2 c. induction fuel as [| fuel IH]; intros p1 p2 c E; simpl in E; [done |].
  destruct (e2 =? p2); [injection E as <-; apply size_wrap_range |].
  destruct (e1 =? p1); [injection E as <-; apply size_wrap_range |].
  by apply IH in E.
Qed.

Lemma Add_count_range (n : nat) (ds1 ds2 : list DimensionInfo) (c1 c2 c : Z)
  (r1 r2 r : Z) (stack : list DimensionInfoStack.t) :
  Add_count n ds1 ds2 c1 c2 c = Some (r1, r2, r, stack) ->
  Forall (fun entry => is_size_t (DimensionInfoStack.m_cNewSlices entry)) stack.
Proof.
  revert ds1 ds2 c1 c2 c r1 r2 r stack.
  induction n as [| n IH]; intros ds1 ds2 c1 c2 c r1 r2 r stack E; simpl in E.
  - injection E as <- <- <- <-. constructor.
  - destruct (Add_count_slices _ _ _ _ _ _ _ _) as [cNew |] eqn:E1; [| done].
    destruct (Add_count n _ _ _ _ _) as [[[[? ?] ?] stack'] |] eqn:E2; [| done].
    injection E as <- <- <- <-. constructor.
    + simpl. by apply Add_count_slices_range in E1.
    + by apply IH in E2.
Qed.

Lemma Add_splits_capacity (stack : list DimensionInfoStack.t) (ds2 : list DimensionInfo)
  (i : Z) (t : Tensor) (r : ErrorEbm * Tensor) :
  1 < sizeof_UIntSplit ->
  Forall (fun entry => is_size_t (DimensionInfoStack.m_cNewSlices entry)) stack ->
  Add_splits stack ds2 i t = Some r -> capacity_le t (snd r).
Proof.
  intros Hsz Hstack. revert ds2 i t.
  induction Hstack as [| entry stack He _ IH]; intros ds2 i t E; simpl in E.
  - injection E as <-. apply capacity_le_refl.
  - pose proof (SetCountSlices_capacity t i (DimensionInfoStack.m_cNewSlices entry) Hsz He)
      as H1.
    destruct (SetCountSlices t i _) as [error t1]. simpl in H1.
    destruct error; try (by injection E as <-).
    destruct (Add_merge_splits _ _ _ _ _ _) as [aSplits |]; [| done].
    apply IH in E.
    eapply capacity_le_trans; [exact H1 |]. eapply capacity_le_trans; [| exact E].
    apply capacity_le_with_dimension. simpl. lia.
Qed.

Lemma Add_capacity (t rhs : Tensor) (r : ErrorEbm * Tensor) :
  1 < sizeof_UIntSplit -> Add t rhs = Some r -> capacity_le t (snd r).
Proof.
  intros Hsz E. unfold Add in E.
  destruct (0 =? m_cDimensions t).
  { destruct (Add_scalar _ _ _ _ _ _); [| done].
    injection E as <-. apply capacity_le_with_scores. }
  destruct (Add_count _ _ _ _ _ _) as [[[[c1 c2] c] stack] |] eqn:E1; [| done].
  apply Add_count_range in E1.
  pose proof (EnsureTensorScoreCapacity_capacity t c) as H1.
  destruct (EnsureTensorScoreCapacity t c) as [error t1]. simpl in H1.
  destruct error; try (by injection E as <-).
  destruct (Add_scores _ _ _ _ _ _ _ _ _ _) as [a |]; [| done].
  apply Add_splits_capacity in E; [| done | done].
  eapply capacity_le_trans; [exact H1 |]. eapply capacity_le_trans; [| exact E].
  apply capacity_le_with_scores.
Qed.

(** C10. No operation shrinks a buffer: after [Reset], [SetCountSlices],
    [EnsureTensorScoreCapacity], [Copy], [MultiplyAndCheckForIssues],
    [Expand], [Add] and [AddExpandedWithBadValueProtection], whatever the
    operation returns, the score capacity and the slice capacity of every
    dimension are at least what they were. Slice counts and bin counts are
    values of [size_t], a split takes more than one byte, and [AlignedGrow]
    allocates at least what is required of it. *)
Theorem capacity_never_shrinks (t : Tensor) :
  1 < sizeof_UIntSplit ->
  capacity_le t (Reset t) /\
  (forall iDimension cSlices, is_size_t cSlices ->
     capacity_le t (snd (SetCountSlices t iDimension cSlices))) /\
  (forall cTensorScores, capacity_le t (snd (EnsureTensorScoreCapacity t cTensorScores))) /\
  (forall rhs, (forall j, is_size_t (m_cSlices (GetDimension rhs j))) ->
     capacity_le t (snd (Copy t rhs))) /\
  (forall v r, MultiplyAndCheckForIssues t v = Some r -> capacity_le t (snd r)) /\
  (forall pTerm r, Forall is_size_t (m_aTermFeatures pTerm) ->
     Expand t pTerm = Some r -> capacity_le t (snd r)) /\
  (forall rhs r, Add t rhs = Some r -> capacity_le t (snd r)) /\
  (forall aFromScores t',
     AddExpandedWithBadValueProtection t aFromScores = Some t' -> capacity_le t t').
Proof.
  intros Hsz.
  split; [apply Reset_capacity |].
  split; [intros; by apply SetCountSlices_capacity |].
  split; [intros; apply EnsureTensorScoreCapacity_capacity |].
  split; [intros; by apply Copy_capacity |].
  split.
  { intros v r E. unfold MultiplyAndCheckForIssues in E.
    destruct (Multiply_loop _ _ _ _ _ _) as [[a b] |]; [| done].
    injection E as <-. apply capacity_le_with_scores. }
  split; [intros pTerm r Hf E; by apply (Expand_capacity t pTerm) |].
  split; [intros rhs r E; by apply (Add_capacity t rhs) |].
  intros aFromScores t' E. unfold AddExpandedWithBadValueProtection in E.
  destruct (AddExpanded_loop _ _ _ _ _ _); [| done].
  injection E as <-. apply capacity_le_with_scores.
Qed.

(** ** Slices and splits *)

Lemma rd_cons {A} (d x : A) (l : list A) (i : Z) : 0 < i -> rd d (x :: l) i = rd d l (i - 1).
Proof.
  intros H. unfold rd.
  destruct (Z.ltb_spec i 0), (Z.ltb_spec (i - 1) 0); try lia.
  replace (Z.to_nat i) with (S (Z.to_nat (i - 1))) by lia. done.
Qed.

Lemma rd_cons_0 {A} (d x : A) (l : list A) : rd d (x :: l) 0 = x.
Proof. done. Qed.

Lemma rd_take {A} (d : A) (l : list A) (n : nat) (i : Z) :
  0 <= i < Z.of_nat n -> rd d (take n l) i = rd d l i.
Proof.
  intros H. unfold rd. destruct (Z.ltb_spec i 0); [done |].
  rewrite !nth_lookup, lookup_take_lt by lia. done.
Qed.

Lemma rd_out_of_range {A} (d : A) (l : list A) (i : Z) :
  Z.of_nat (length l) <= i -> rd d l i = d.
Proof.
  intros H. unfold rd. destruct (Z.ltb_spec i 0); [done |].
  rewrite nth_lookup, lookup_ge_None_2; [done | lia].
Qed.

Lemma slice_of_range (l : list Z) (b : Z) : 0 <= slice_of l b <= Z.of_nat (length l).
Proof.
  induction l as [| s l IH]; simpl; [lia |].
  destruct (s <=? b); lia.
Qed.

Lemma slice_of_below (lo hi : Z) (l : list Z) (b : Z) :
  splits_ok lo hi l -> b <= lo -> slice_of l b = 0.
Proof.
  destruct l as [| s l]; simpl; [done |]. intros [Hs _] Hb.
  by destruct (Z.leb_spec s b); [lia |].
Qed.

Lemma slice_of_above (lo hi : Z) (l : list Z) (b : Z) :
  splits_ok lo hi l -> hi - 1 <= b -> slice_of l b = Z.of_nat (length l).
Proof.
  revert lo. induction l as [| s l IH]; intros lo H Hb; simpl in *; [done |].
  destruct H as [Hs H]. destruct (Z.leb_spec s b); [| lia].
  rewrite (IH s) by done. lia.
Qed.

Lemma slice_of_le (lo hi : Z) (l : list Z) (b : Z) :
  splits_ok lo hi l -> lo <= b -> slice_of l b <= b - lo.
Proof.
  revert lo. induction l as [| s l IH]; intros lo H Hb; simpl in *; [lia |].
  destruct H as [Hs H]. destruct (Z.leb_spec s b); [| lia].
  specialize (IH s H ltac:(lia)). lia.
Qed.

(** The slice of the bin below [b], from the slice [k] of [b] and the split
    under it: this is the decision that [Expand] takes on [iEdge2 <= d1]. *)
Lemma slice_of_pred (lo hi : Z) (l : list Z) (b : Z) :
  splits_ok lo hi l ->
  slice_of l (b - 1)
  = if 0 <? slice_of l b
    then if b <=? rd 0 l (slice_of l b - 1) then slice_of l b - 1 else slice_of l b
    else 0.
Proof.
  revert lo. induction l as [| s l IH]; intros lo H; simpl in *; [done |].
  destruct H as [Hs H]. specialize (IH s H).
  pose proof (slice_of_range l b) as Hr.
  destruct (Z.leb_spec s b) as [Hsb | Hsb].
  - destruct (Z.ltb_spec 0 (1 + slice_of l b)); [| lia].
    replace (1 + slice_of l b - 1) with (slice_of l b) by lia.
    destruct (Z.ltb_spec 0 (slice_of l b)) as [Hk | Hk].
    + rewrite rd_cons by done.
      assert (s <= b - 1) as Hs1.
      { destruct l as [| s' l']; simpl in *; [lia |].
        destruct (Z.leb_spec s' b); lia. }
      destruct (Z.leb_spec s (b - 1)); [| lia]. rewrite IH.
      destruct (b <=? rd 0 l (slice_of l b - 1)); lia.
    + assert (slice_of l b = 0) as Hz by lia. rewrite Hz in *. rewrite rd_cons_0.
      destruct (Z.leb_spec b s), (Z.leb_spec s (b - 1)); lia.
  - destruct (Z.leb_spec s (b - 1)); [lia | done].
Qed.

Lemma slice_of_identity (l : list Z) (o b : Z) :
  (forall k, 0 <= k < Z.of_nat (length l) -> rd 0 l k = k + o) ->
  o - 1 <= b < o + Z.of_nat (length l) -> slice_of l b = b - o + 1.
Proof.
  revert o. induction l as [| s l IH]; intros o H Hb; simpl in *; [lia |].
  pose proof (H 0 ltac:(lia)) as H0. rewrite rd_cons_0 in H0.
  destruct (Z.leb_spec s b); [| lia].
  rewrite (IH (o + 1)); [lia | | lia].
  intros k Hk. specialize (H (k + 1) ltac:(lia)).
  rewrite rd_cons in H by lia. replace (k + 1 - 1) with k in H by lia. lia.
Qed.

Lemma splits_ok_full (lo hi : Z) (l : list Z) (k : Z) :
  splits_ok lo hi l -> Z.of_nat (length l) = hi - lo - 1 ->
  0 <= k < Z.of_nat (length l) -> rd 0 l k = lo + 1 + k.
Proof.
  revert lo k. induction l as [| s l IH]; intros lo k H Hlen Hk; simpl in *; [lia |].
  destruct H as [Hs H].
  pose proof (splits_ok_length s hi l ltac:(lia) H) as Hl.
  assert (s = lo + 1) as -> by lia.
  destruct (Z.eq_dec k 0) as [-> | Hne]; [rewrite rd_cons_0; lia |].
  rewrite rd_cons by lia. rewrite (IH (lo + 1)); [lia | done | lia | lia].
Qed.

(** ** Flat indexes *)

Lemma pred_mod_pos (n e : Z) :
  0 < e -> 0 < n mod e -> (n - 1) mod e = n mod e - 1 /\ (n - 1) / e = n / e.
Proof.
  intros He Hm. pose proof (Z.mod_pos_bound n e He) as Hb.
  pose proof (Z.div_mod n e ltac:(lia)) as Hdm.
  assert ((n - 1) / e = n / e) as Hq.
  { symmetry. apply (Z.div_unique_pos (n - 1) e (n / e) (n mod e - 1)); lia. }
  split; [| done].
  symmetry. apply (Z.mod_unique_pos (n - 1) e (n / e) (n mod e - 1)); lia.
Qed.

Lemma pred_mod_zero (n e : Z) :
  0 < e -> n mod e = 0 -> (n - 1) mod e = e - 1 /\ (n - 1) / e = n / e - 1.
Proof.
  intros He Hm. pose proof (Z.div_mod n e ltac:(lia)) as Hdm.
  assert ((n - 1) / e = n / e - 1) as Hq.
  { symmetry. apply (Z.div_unique_pos (n - 1) e (n / e - 1) (e - 1)); lia. }
  split; [| done].
  symmetry. apply (Z.mod_unique_pos (n - 1) e (n / e - 1) (e - 1)); lia.
Qed.

Lemma div_range (n e p : Z) : 0 < e -> 0 <= n < e * p -> 0 <= n / e < p.
Proof.
  intros He Hn. split; [apply Z.div_pos; lia |].
  apply Z.div_lt_upper_bound; lia.
Qed.

Lemma flatten_range (bins c : list Z) :
  coordinates_ok bins c -> 0 <= flatten bins c < fold_right Z.mul 1 bins.
Proof.
  revert c. induction bins as [| e bins IH]; intros [| b c] H; simpl in *; try done; try lia.
  destruct H as [Hb H]. specialize (IH c H). nia.
Qed.

Lemma unflatten_flatten (bins c : list Z) :
  coordinates_ok bins c -> unflatten bins (flatten bins c) = c.
Proof.
  revert c. induction bins as [| e bins IH]; intros [| b c] H; simpl in *; try done.
  destruct H as [Hb H].
  replace (b + e * flatten bins c) with (b + flatten bins c * e) by lia.
  rewrite Z.mod_add, Z.div_add by lia.
  rewrite (Z.mod_small b e), (Z.div_small b e) by lia.
  f_equal. by apply IH.
Qed.

(** ** [Expand]: the scores *)

Lemma Expand_cell_spec (fuel : nat) (a : list FloatScore) (p1 top topEnd : Z) :
  0 <= topEnd < top -> top - topEnd <= Z.of_nat fuel ->
  top <= Z.of_nat (length a) -> p1 <= top ->
  exists a',
    Expand_cell fuel a p1 top topEnd = Some (a', topEnd) /\
    length a' = length a /\
    forall i,
      rd float_zero a' i
      = if (topEnd <=? i) && (i <? top) then rd float_zero a (i - (top - p1))
        else rd float_zero a i.
Proof.
  revert a p1 top. induction fuel as [| fuel IH]; intros a p1 top Htop Hfuel Hlen Hp; [lia |].
  simpl. destruct (Z.eqb_spec topEnd (top - 1)) as [-> | Hne]; simpl.
  - eexists. split; [done |]. split; [apply length_wr |].
    intros i. destruct (Z.eq_dec i (top - 1)) as [-> | Hi].
    + rewrite rd_wr_eq by lia.
      destruct (Z.leb_spec (top - 1) (top - 1)), (Z.ltb_spec (top - 1) top); try lia.
      simpl. f_equal. lia.
    + rewrite rd_wr_ne by done.
      by destruct (Z.leb_spec (top - 1) i), (Z.ltb_spec i top); try lia.
  - edestruct (IH (wr a (top - 1) (rd float_zero a (p1 - 1))) (p1 - 1) (top - 1))
      as (a' & -> & Hl & Hrd); rewrite ?length_wr; try lia.
    eexists. split; [done |]. split; [by rewrite Hl, length_wr |].
    intros i. rewrite Hrd.
    replace (top - 1 - (p1 - 1)) with (top - p1) by lia.
    destruct (Z.leb_spec topEnd i), (Z.ltb_spec i (top - 1)), (Z.ltb_spec i top);
      try lia; simpl.
    + apply rd_wr_ne. lia.
    + assert (i = top - 1) as -> by lia. rewrite rd_wr_eq by lia. f_equal. lia.
    + apply rd_wr_ne. lia.
    + apply rd_wr_ne. lia.
Qed.

Lemma product_bounds (c s b P : Z) :
  1 <= c -> 1 <= s <= b -> 1 <= P ->
  1 <= c * s /\ c * s <= c * (b * P) /\ b <= c * (b * P) /\ c * s * P <= c * (b * P).
Proof.
  intros Hc Hs HP.
  assert (1 * 1 <= c * s) by (apply Z.mul_le_mono_nonneg; lia).
  assert (s * 1 <= b * P) by (apply Z.mul_le_mono_nonneg; lia).
  assert (c * s <= c * (b * P)) by (apply Z.mul_le_mono_nonneg_l; lia).
  assert (1 * (b * 1) <= c * (b * P))
    by (apply Z.mul_le_mono_nonneg; try lia; apply Z.mul_le_mono_nonneg; lia).
  assert (s * P <= b * P) by (apply Z.mul_le_mono_nonneg_r; lia).
  assert (c * (s * P) <= c * (b * P)) by (apply Z.mul_le_mono_nonneg_l; lia).
  lia.
Qed.

Lemma Expand_step_spec (bins : list Z) (ds : list DimensionInfo) (mult p n : Z) :
  Dimensions_ok bins ds -> 1 <= mult -> mult * fold_right Z.mul 1 bins <= SIZE_MAX ->
  0 < n < fold_right Z.mul 1 bins ->
  Expand_step (expand_stack bins ds n) ds mult p
  = Some (expand_stack bins ds (n - 1),
          p + expand_source bins ds mult (n - 1) - expand_source bins ds mult n).
Proof.
  revert ds mult p n.
  induction bins as [| cBins bins IH]; intros ds mult p n Hok Hmult Hmax Hn; simpl in *; [lia |].
  destruct ds as [| d ds]; [done |]. destruct Hok as [Hd Hok]. simpl.
  pose proof (bins_product_pos _ _ Hok) as Hprod.
  pose proof (Dimension_ok_slices_le _ _ Hd) as Hslices.
  pose proof (length_live_splits _ _ Hd) as Hlive.
  destruct Hd as (HB & Hcap & Hlen & Hsplits).
  pose proof (Z.mod_pos_bound n cBins ltac:(lia)) as Hx.
  pose proof (slice_of_range (live_splits d) (n mod cBins)) as Hk.
  pose proof (slice_of_pred _ _ _ (n mod cBins) Hsplits) as Hpred.
  pose proof (product_bounds mult (m_cSlices d) cBins (fold_right Z.mul 1 bins)
                Hmult Hslices Hprod) as (Hb0 & Hb1 & Hb2 & Hb3).
  destruct (Z.ltb_spec 0 (slice_of (live_splits d) (n mod cBins))) as [Hpos | Hzero].
  - assert (0 < n mod cBins) as Hxpos.
    { destruct (Z_lt_dec 0 (n mod cBins)); [done |].
      rewrite (slice_of_below 0 cBins) in Hpos by (done || lia). lia. }
    destruct (pred_mod_pos n cBins ltac:(lia) Hxpos) as [-> ->].
    rewrite size_sub_small by nia.
    replace (n mod cBins + 1 - 1) with (n mod cBins) by lia.
    replace (n mod cBins - 1 + 1) with (n mod cBins) by lia.
    assert (rd 0 (live_splits d) (slice_of (live_splits d) (n mod cBins) - 1)
            = rd 0 (m_aSplits d) (slice_of (live_splits d) (n mod cBins) - 1)) as Hrd.
    { unfold live_splits at 1. apply rd_take. lia. }
    rewrite Hpred, Hrd.
    destruct (n mod cBins <=? rd 0 (m_aSplits d) (slice_of (live_splits d) (n mod cBins) - 1));
      do 2 f_equal; lia.
  - assert (slice_of (live_splits d) (n mod cBins) = 0) as Hz by lia.
    rewrite Hz in *.
    destruct (Z.ltb_spec 1 (n mod cBins + 1)) as [Hxpos | Hxzero].
    + destruct (pred_mod_pos n cBins ltac:(lia) ltac:(lia)) as [-> ->].
      rewrite size_sub_small by nia.
      replace (n mod cBins + 1 - 1) with (n mod cBins) by lia.
      replace (n mod cBins - 1 + 1) with (n mod cBins) by lia.
      rewrite Hpred. do 2 f_equal. lia.
    + assert (n mod cBins = 0) as Hx0 by lia.
      destruct (pred_mod_zero n cBins ltac:(lia) Hx0) as [-> ->].
      pose proof (Z.div_mod n cBins ltac:(lia)) as Hdm.
      pose proof (div_range n cBins (fold_right Z.mul 1 bins) ltac:(lia) ltac:(lia)).
      rewrite size_mul_small, size_sub_small by lia.
      rewrite IH by (done || lia).
      rewrite (slice_of_above 0 cBins) by (done || lia).
      rewrite Hlive. replace (cBins - 1 + 1) with cBins by lia.
      do 2 f_equal. lia.
Qed.

Lemma expand_source_bounds (bins : list Z) (ds : list DimensionInfo) (mult n : Z) :
  Dimensions_ok bins ds -> 0 <= mult -> 0 <= n ->
  0 <= expand_source bins ds mult n <= mult * n.
Proof.
  revert ds mult n.
  induction bins as [| cBins bins IH]; intros ds mult n Hok Hmult Hn; simpl in *; [lia |].
  destruct ds as [| d ds]; [done |]. destruct Hok as [Hd Hok]. simpl.
  pose proof (Dimension_ok_slices_le _ _ Hd) as Hslices.
  destruct Hd as (HB & Hcap & Hlen & Hsplits).
  pose proof (Z.mod_pos_bound n cBins ltac:(lia)) as Hx.
  pose proof (slice_of_range (live_splits d) (n mod cBins)) as Hk.
  pose proof (slice_of_le 0 cBins _ (n mod cBins) Hsplits ltac:(lia)) as Hle.
  pose proof (Z.div_mod n cBins ltac:(lia)) as Hdm.
  assert (0 <= n / cBins) as Hq by (apply Z.div_pos; lia).
  specialize (IH ds (mult * m_cSlices d) (n / cBins) Hok ltac:(nia) Hq).
  split; [nia |].
  assert (mult * m_cSlices d * (n / cBins) <= mult * cBins * (n / cBins)) by nia.
  nia.
Qed.

Lemma expand_source_last (bins : list Z) (ds : list DimensionInfo) (mult : Z) :
  Dimensions_ok bins ds ->
  mult + expand_source bins ds mult (fold_right Z.mul 1 bins - 1)
  = mult * slices_product (length bins) ds.
Proof.
  revert ds mult.
  induction bins as [| cBins bins IH]; intros ds mult Hok; simpl in *; [lia |].
  destruct ds as [| d ds]; [done |]. destruct Hok as [Hd Hok]. simpl.
  pose proof (length_live_splits _ _ Hd) as Hlive.
  destruct Hd as (HB & Hcap & Hlen & Hsplits).
  destruct (pred_mod_zero (cBins * fold_right Z.mul 1 bins) cBins ltac:(lia)) as [-> ->].
  { rewrite Z.mul_comm. apply Z_mod_mult. }
  rewrite (Z.mul_comm cBins (fold_right Z.mul 1 bins)), Z_div_mult by lia.
  rewrite (slice_of_above 0 cBins) by (done || lia).
  specialize (IH ds (mult * m_cSlices d) Hok). nia.
Qed.

Lemma Expand_count_spec (bins : list Z) (ds : list DimensionInfo) (c : Z) :
  Dimensions_ok bins ds -> 1 <= c -> c * fold_right Z.mul 1 bins <= SIZE_MAX ->
  Expand_count bins ds c
  = (c * slices_product (length bins) ds,
     expand_stack bins ds (fold_right Z.mul 1 bins - 1)).
Proof.
  revert ds c.
  induction bins as [| cBins bins IH]; intros ds c Hok Hc Hmax; simpl in *;
    [f_equal; lia |].
  destruct ds as [| d ds]; [done |]. destruct Hok as [Hd Hok]. simpl.
  pose proof (bins_product_pos _ _ Hok) as Hprod.
  pose proof (Dimension_ok_slices_le _ _ Hd) as Hslices.
  pose proof (length_live_splits _ _ Hd) as Hlive.
  destruct Hd as (HB & Hcap & Hlen & Hsplits).
  pose proof (product_bounds c (m_cSlices d) cBins (fold_right Z.mul 1 bins)
                Hc Hslices Hprod) as (Hb0 & Hb1 & Hb2 & Hb3).
  rewrite size_mul_small, size_sub_small by lia.
  rewrite IH by (done || lia).
  destruct (pred_mod_zero (cBins * fold_right Z.mul 1 bins) cBins ltac:(lia)) as [-> ->].
  { rewrite Z.mul_comm. apply Z_mod_mult. }
  rewrite (Z.mul_comm cBins (fold_right Z.mul 1 bins)), Z_div_mult by lia.
  rewrite (slice_of_above 0 cBins) by (done || lia).
  rewrite Hlive. replace (cBins - 1 + 1) with cBins by lia.
  f_equal. lia.
Qed.

Lemma Expand_scores_spec (bins : list Z) (ds : list DimensionInfo) (cScores : Z)
  (a0 : list FloatScore) :
  Dimensions_ok bins ds -> 1 <= cScores ->
  cScores * fold_right Z.mul 1 bins <= SIZE_MAX ->
  cScores * fold_right Z.mul 1 bins <= Z.of_nat (length a0) ->
  forall (fuel : nat) (n : Z) (a : list FloatScore),
    0 <= n < fold_right Z.mul 1 bins -> n + 1 <= Z.of_nat fuel ->
    length a = length a0 ->
    (forall i, i < cScores * (n + 1) -> rd float_zero a i = rd float_zero a0 i) ->
    (forall m j, n < m < fold_right Z.mul 1 bins -> 0 <= j < cScores ->
       rd float_zero a (cScores * m + j)
       = rd float_zero a0 (expand_source bins ds cScores m + j)) ->
    exists a',
      Expand_scores fuel cScores ds (expand_stack bins ds n) a
        (cScores + expand_source bins ds cScores n) (cScores * (n + 1)) = Some a' /\
      length a' = length a0 /\
      forall m j, 0 <= m < fold_right Z.mul 1 bins -> 0 <= j < cScores ->
        rd float_zero a' (cScores * m + j)
        = rd float_zero a0 (expand_source bins ds cScores m + j).
Proof.
  intros Hok HS Hmax Hlen0.
  induction fuel as [| fuel IH]; intros n a Hn Hfuel Hlen Hlow Hhigh; [lia |].
  cbn [Expand_scores].
  pose proof (expand_source_bounds bins ds cScores n Hok ltac:(lia) ltac:(lia)) as Hsrc.
  destruct (Expand_cell_spec (Z.to_nat cScores) a (cScores + expand_source bins ds cScores n)
              (cScores * (n + 1)) (cScores * (n + 1) - cScores))
    as (a1 & -> & Hl1 & Hrd1); try nia.
  assert (Hcell : forall j, 0 <= j < cScores ->
            rd float_zero a1 (cScores * n + j)
            = rd float_zero a0 (expand_source bins ds cScores n + j)).
  { intros j Hj. rewrite Hrd1.
    destruct (Z.leb_spec (cScores * (n + 1) - cScores) (cScores * n + j)),
      (Z.ltb_spec (cScores * n + j) (cScores * (n + 1))); try nia.
    simpl. rewrite Hlow by nia. f_equal. nia. }
  assert (Hother : forall i, i < cScores * n \/ cScores * (n + 1) <= i ->
            rd float_zero a1 i = rd float_zero a i).
  { intros i Hi. rewrite Hrd1.
    by destruct (Z.leb_spec (cScores * (n + 1) - cScores) i),
      (Z.ltb_spec i (cScores * (n + 1))); try nia. }
  assert (Hdone : forall m j, n <= m < fold_right Z.mul 1 bins -> 0 <= j < cScores ->
            rd float_zero a1 (cScores * m + j)
            = rd float_zero a0 (expand_source bins ds cScores m + j)).
  { intros m j Hm Hj. destruct (Z.eq_dec m n) as [-> | Hne]; [by apply Hcell |].
    rewrite Hother by nia. apply Hhigh; lia. }
  destruct (Z.eqb_spec 0 (cScores * (n + 1) - cScores)) as [Hlast | Hmore].
  - exists a1. split; [done |]. split; [congruence |].
    intros m j Hm Hj. apply Hdone; [nia | done].
  - rewrite Expand_step_spec by (done || nia).
    replace (cScores + expand_source bins ds cScores n
             + expand_source bins ds cScores (n - 1) - expand_source bins ds cScores n)
      with (cScores + expand_source bins ds cScores (n - 1)) by lia.
    replace (cScores * (n + 1) - cScores) with (cScores * (n - 1 + 1)) by lia.
    apply IH; try lia; try congruence.
    + intros i Hi. rewrite Hother by nia. apply Hlow. nia.
    + intros m j Hm Hj. apply Hdone; [lia | done].
Qed.

(** ** [Expand]: the splits *)

Lemma rd_app_middle {A} (d x : A) (pre r : list A) (i : Z) :
  i = Z.of_nat (length pre) -> rd d (pre ++ x :: r) i = x.
Proof.
  intros ->. apply rd_lookup; [lia |].
  rewrite Nat2Z.id. apply list_lookup_middle. done.
Qed.

Lemma wr_app_middle {A} (x v : A) (pre r : list A) (i : Z) :
  i = Z.of_nat (length pre) -> wr (pre ++ x :: r) i v = pre ++ v :: r.
Proof.
  intros ->. unfold wr. destruct (Z.ltb_spec (Z.of_nat (length pre)) 0); [lia |].
  rewrite Nat2Z.id. replace (length pre) with (length pre + 0)%nat at 1 by lia.
  by rewrite insert_app_r.
Qed.

(** The two outcomes of [SetCountSlices] on a dimension that is in range:
    out of memory with the tensor untouched, or the new slice count in a
    dimension whose split array is long enough for it and keeps its cells. *)
Lemma SetCountSlices_cases (t : Tensor) (pre r : list DimensionInfo) (d : DimensionInfo)
  (iDimension cSlices : Z) :
  1 < sizeof_UIntSplit ->
  m_aDimensions t = pre ++ d :: r -> iDimension = Z.of_nat (length pre) ->
  Z.of_nat (length (m_aSplits d)) = m_cSliceCapacity d - 1 ->
  1 <= cSlices <= SIZE_MAX ->
  SetCountSlices t iDimension cSlices = (Error_OutOfMemory, t) \/
  exists d1,
    SetCountSlices t iDimension cSlices = (Error_None, with_dimensions t (pre ++ d1 :: r)) /\
    m_cSlices d1 = cSlices /\
    cSlices <= m_cSliceCapacity d1 /\
    Z.of_nat (length (m_aSplits d1)) = m_cSliceCapacity d1 - 1 /\
    forall k, 0 <= k < Z.of_nat (length (m_aSplits d)) ->
      rd 0 (m_aSplits d1) k = rd 0 (m_aSplits d) k.
Proof.
  intros Hsz Hds Hi Hlen Hc. unfold SetCountSlices, GetDimension, with_dimension.
  rewrite Hds, (rd_app_middle _ d pre r iDimension Hi), !(wr_app_middle d _ pre r iDimension Hi).
  destruct (Z.ltb_spec (m_cSliceCapacity d) cSlices) as [Hlt | Hge].
  - rewrite size_sub_small by lia.
    assert (0 <= Z.shiftr (cSlices - 1) 1) as Hhalf.
    { rewrite Z.shiftr_div_pow2 by lia. apply Z.div_pos; lia. }
    unfold IsAddError, IsMultiplyError.
    destruct (Z.ltb_spec SIZE_MAX (cSlices - 1 + Z.shiftr (cSlices - 1) 1)); [by left |].
    rewrite size_add_small by lia.
    destruct (Z.ltb_spec SIZE_MAX
                (sizeof_UIntSplit * (cSlices - 1 + Z.shiftr (cSlices - 1) 1))); [by left |].
    destruct (realloc_ok _); [| by left].
    right. eexists. split; [reflexivity |]. simpl.
    rewrite length_resize. rewrite size_add_small by nia.
    repeat split; try lia.
    intros k Hk. apply rd_resize; lia.
  - right. exists (with_cSlices d cSlices). split; [done |]. simpl.
    repeat split; try lia.
Qed.

Lemma Expand_edges_spec (cSlices : Z) (fuel : nat) (aSplit : list Z) (iEdge : Z) :
  1 <= iEdge < cSlices -> cSlices <= SIZE_MAX ->
  cSlices - iEdge <= Z.of_nat fuel -> cSlices - 1 <= Z.of_nat (length aSplit) ->
  exists aSplit',
    Expand_edges fuel aSplit iEdge cSlices = Some aSplit' /\
    length aSplit' = length aSplit /\
    forall k,
      rd 0 aSplit' k
      = if (iEdge - 1 <=? k) && (k <? cSlices - 1) then k + 1 else rd 0 aSplit k.
Proof.
  revert aSplit iEdge.
  induction fuel as [| fuel IH]; intros aSplit iEdge Hi Hmax Hfuel Hlen; [lia |].
  cbn [Expand_edges]. rewrite size_add_small by lia.
  destruct (Z.eqb_spec cSlices (iEdge + 1)) as [-> | Hne]; simpl negb; cbv iota.
  - eexists. split; [done |]. split; [apply length_wr |].
    intros k. destruct (Z.eq_dec k (iEdge - 1)) as [-> | Hk].
    + rewrite rd_wr_eq by lia.
      destruct (Z.leb_spec (iEdge - 1) (iEdge - 1)), (Z.ltb_spec (iEdge - 1) (iEdge + 1 - 1));
        simpl; lia.
    + rewrite rd_wr_ne by done.
      by destruct (Z.leb_spec (iEdge - 1) k), (Z.ltb_spec k (iEdge + 1 - 1)); try lia.
  - edestruct (IH (wr aSplit (iEdge - 1) iEdge) (iEdge + 1)) as (a' & -> & Hl & Hrd);
      rewrite ?length_wr; try lia.
    eexists. split; [done |]. split; [by rewrite Hl, length_wr |].
    intros k. rewrite Hrd. replace (iEdge + 1 - 1) with iEdge by lia.
    destruct (Z.eq_dec k (iEdge - 1)) as [-> | Hk].
    + rewrite rd_wr_eq by lia.
      destruct (Z.leb_spec iEdge (iEdge - 1)), (Z.leb_spec (iEdge - 1) (iEdge - 1)),
        (Z.ltb_spec (iEdge - 1) (cSlices - 1)); simpl; lia.
    + rewrite rd_wr_ne by done.
      by destruct (Z.leb_spec iEdge k), (Z.leb_spec (iEdge - 1) k),
        (Z.ltb_spec k (cSlices - 1)); try lia.
Qed.

Lemma Dimension_ok_dense (cBins : Z) (d : DimensionInfo) :
  Dimension_ok cBins d -> m_cSlices d = cBins ->
  cBins - 1 <= Z.of_nat (length (m_aSplits d)) /\
  forall k, 0 <= k < cBins - 1 -> rd 0 (m_aSplits d) k = k + 1.
Proof.
  intros Hd Hc. pose proof (length_live_splits _ _ Hd) as Hlive.
  destruct Hd as (HB & Hcap & Hlen & Hsplits). split; [lia |].
  intros k Hk.
  pose proof (splits_ok_full 0 cBins (live_splits d) k Hsplits ltac:(lia) ltac:(lia)) as Hfull.
  unfold live_splits in Hfull at 1. rewrite rd_take in Hfull by lia. lia.
Qed.

Lemma Expand_splits_spec (bins : list Z) (ds pre : list DimensionInfo) (i : Z) (t : Tensor) :
  1 < sizeof_UIntSplit ->
  Dimensions_ok bins ds -> fold_right Z.mul 1 bins <= SIZE_MAX ->
  m_aDimensions t = pre ++ ds -> i = Z.of_nat (length pre) ->
  exists error t',
    Expand_splits bins i t = Some (error, t') /\
    (error = Error_None \/ error = Error_OutOfMemory) /\
    m_aTensorScores t' = m_aTensorScores t /\
    m_cScores t' = m_cScores t /\
    m_cDimensions t' = m_cDimensions t /\
    (error = Error_None ->
     exists ds', m_aDimensions t' = pre ++ ds' /\ Dimensions_dense bins ds').
Proof.
  intros Hsz. revert ds pre i t.
  induction bins as [| cBins bins IH]; intros ds pre i t Hok Hmax Hds Hi; simpl in *.
  { exists Error_None, t. split; [done |]. split; [by left |]. repeat split; try done.
    intros _. by exists ds. }
  destruct ds as [| d ds]; [done |]. destruct Hok as [Hd Hok].
  pose proof (bins_product_pos _ _ Hok) as Hprod.
  pose proof (Dimension_ok_slices_le _ _ Hd) as Hslices.
  assert (cBins <= SIZE_MAX) as HB by nia.
  assert (fold_right Z.mul 1 bins <= SIZE_MAX) as Hmax' by nia.
  unfold GetDimension at 1. rewrite Hds, (rd_app_middle _ d pre ds i Hi).
  destruct (Z.eqb_spec cBins (m_cSlices d)) as [Heq | Hne]; simpl negb; cbv iota.
  - destruct (IH ds (pre ++ [d]) (i + 1) t Hok Hmax')
      as (error & t' & E & Herr & Hs & HS & HD & Hdense).
    { by rewrite <- app_assoc. }
    { rewrite length_app. simpl. lia. }
    exists error, t'. repeat split; try done.
    intros He. destruct (Hdense He) as (ds' & Hds' & Hdense').
    exists (d :: ds'). split; [by rewrite Hds', <- app_assoc |].
    simpl. split; [| done]. split; [done |]. by apply Dimension_ok_dense.
  - destruct Hd as (HB1 & Hcap & Hlen & Hsplits).
    destruct (SetCountSlices_cases t pre ds d i cBins Hsz Hds Hi Hlen ltac:(lia))
      as [-> | (d1 & -> & Hc1 & Hcap1 & Hlen1 & Hkeep)].
    { exists Error_OutOfMemory, t. split; [done |]. split; [by right |]. by repeat split. }
    unfold GetDimension. simpl m_aDimensions.
    rewrite (rd_app_middle _ d1 pre ds i Hi).
    destruct (Expand_edges_spec cBins (Z.to_nat cBins) (m_aSplits d1) 1)
      as (aSplit & -> & Hl & Hrd); try lia.
    unfold with_dimension. simpl m_aDimensions.
    rewrite (wr_app_middle d1 _ pre ds i Hi).
    destruct (IH ds (pre ++ [with_aSplits d1 aSplit]) (i + 1)
                (with_dimensions (with_dimensions t (pre ++ d1 :: ds))
                   (pre ++ with_aSplits d1 aSplit :: ds)) Hok Hmax')
      as (error & t' & E & Herr & Hs & HS & HD & Hdense).
    { simpl. by rewrite <- app_assoc. }
    { rewrite length_app. simpl. lia. }
    exists error, t'. repeat split; try done.
    intros He. destruct (Hdense He) as (ds' & Hds' & Hdense').
    exists (with_aSplits d1 aSplit :: ds'). split; [by rewrite Hds', <- app_assoc |].
    simpl. split; [| done]. split; [done |]. split; [lia |].
    intros k Hk. rewrite Hrd.
    by destruct (Z.leb_spec (1 - 1) k), (Z.ltb_spec k (cBins - 1)); try lia.
Qed.

(** ** [Expand] *)

Lemma EnsureTensorScoreCapacity_cases (t : Tensor) (cTensorScores : Z) :
  0 <= cTensorScores -> sizeof_FloatScore * cTensorScores <= SIZE_MAX ->
  Z.of_nat (length (m_aTensorScores t)) = m_cTensorScoreCapacity t / sizeof_FloatScore ->
  EnsureTensorScoreCapacity t cTensorScores = (Error_OutOfMemory, t) \/
  exists a c,
    EnsureTensorScoreCapacity t cTensorScores = (Error_None, with_score_buffer t a c) /\
    Z.of_nat (length a) = c / sizeof_FloatScore /\
    cTensorScores <= Z.of_nat (length a) /\
    forall i, i < Z.of_nat (length (m_aTensorScores t)) ->
      rd float_zero a i = rd float_zero (m_aTensorScores t) i.
Proof.
  intros Hk Hfit Hlen. unfold EnsureTensorScoreCapacity, IsMultiplyError, AlignedGrow.
  destruct (Z.ltb_spec SIZE_MAX (sizeof_FloatScore * cTensorScores)); [lia |].
  rewrite size_mul_small by (unfold sizeof_FloatScore in *; lia).
  unfold sizeof_FloatScore in *.
  destruct (Z.ltb_spec (m_cTensorScoreCapacity t) (8 * cTensorScores)) as [Hlt | Hge].
  - destruct (aligned_alloc_ok _); [| left; by destruct t].
    right. eexists _, _. split; [reflexivity |].
    pose proof (amortized_bytes_ge (8 * cTensorScores)) as Hge.
    assert (cTensorScores <= amortized_bytes (8 * cTensorScores) / 8)
      by (apply Z.div_le_lower_bound; lia).
    assert (m_cTensorScoreCapacity t / 8 <= cTensorScores).
    { apply Z.lt_succ_r. apply Z.div_lt_upper_bound; lia. }
    rewrite length_resize. repeat split; try lia.
    intros i Hi. destruct (Z_lt_dec i 0) as [Hneg | Hpos].
    + unfold rd. by destruct (Z.ltb_spec i 0); [| lia].
    + apply rd_resize; lia.
  - right. exists (m_aTensorScores t), (m_cTensorScoreCapacity t).
    split; [by destruct t |]. split; [done |]. split; [| done].
    rewrite Hlen. apply Z.div_le_lower_bound; lia.
Qed.

Lemma cell_offset_dense (bins c : list Z) (ds : list DimensionInfo) (stride : Z) :
  Dimensions_dense bins ds -> coordinates_ok bins c ->
  cell_offset c ds stride
  = stride * flatten bins c /\
  slices_product (length bins) ds = fold_right Z.mul 1 bins.
Proof.
  revert c ds stride.
  induction bins as [| cBins bins IH]; intros [| b c] ds stride Hdense Hc; simpl in *;
    try done; [split; lia |].
  destruct ds as [| d ds]; [done |].
  destruct Hdense as [(Hslices & Hlen & Hsplits) Hdense]. destruct Hc as [Hb Hc]. simpl.
  destruct (IH c ds (stride * m_cSlices d) Hdense Hc) as [-> ->].
  rewrite (slice_of_identity (live_splits d) 1 b).
  - split; [rewrite Hslices; lia | by rewrite Hslices].
  - intros k Hk. unfold live_splits in *. rewrite length_take in Hk.
    rewrite rd_take by lia. apply Hsplits. lia.
  - unfold live_splits. rewrite length_take. lia.
Qed.

Lemma expand_source_flatten (bins c : list Z) (ds : list DimensionInfo) (stride : Z) :
  coordinates_ok bins c ->
  expand_source bins ds stride (flatten bins c) = cell_offset c ds stride.
Proof.
  revert c ds stride.
  induction bins as [| cBins bins IH]; intros [| b c] ds stride Hc; simpl in *; try done.
  destruct Hc as [Hb Hc].
  replace (b + cBins * flatten bins c) with (b + flatten bins c * cBins) by lia.
  rewrite Z.mod_add, Z.div_add by lia.
  rewrite (Z.mod_small b cBins), (Z.div_small b cBins) by lia.
  by rewrite Z.add_0_l, IH.
Qed.

Lemma expand_source_lt (bins : list Z) (ds : list DimensionInfo) (stride n : Z) :
  Dimensions_ok bins ds -> 0 <= stride ->
  expand_source bins ds stride n + stride <= stride * slices_product (length bins) ds.
Proof.
  revert ds stride n.
  induction bins as [| cBins bins IH]; intros ds stride n Hok Hs; simpl in *; [lia |].
  destruct ds as [| d ds]; [done |]. destruct Hok as [Hd Hok]. simpl.
  pose proof (length_live_splits _ _ Hd) as Hlive.
  pose proof (Dimension_ok_slices_le _ _ Hd) as Hslices.
  pose proof (slice_of_range (live_splits d) (n mod cBins)) as Hk.
  specialize (IH ds (stride * m_cSlices d) (n / cBins) Hok ltac:(nia)).
  nia.
Qed.

(** C2. [Expand] on an expanded tensor returns [Error_None] and the tensor
    as it is. On a tensor that is not expanded it returns [Error_None] or
    [Error_OutOfMemory]; with [Error_None] the tensor is flagged expanded,
    every dimension has as many slices as its feature has bins, with the
    splits 1, 2, 3 and so on, and the scores sampled at any bin coordinates
    are the scores that the tensor gave there before. *)
Theorem Expand_preserves_samples (bins : list Z) (t : Tensor) :
  1 < sizeof_UIntSplit -> Tensor_ok bins t ->
  (m_bExpanded t = true -> Expand t (mkTerm bins) = Some (Error_None, t)) /\
  (m_bExpanded t = false ->
   exists error t',
     Expand t (mkTerm bins) = Some (error, t') /\
     (error = Error_None \/ error = Error_OutOfMemory) /\
     (error = Error_None ->
      m_bExpanded t' = true /\
      m_cScores t' = m_cScores t /\
      m_cDimensions t' = m_cDimensions t /\
      Dimensions_dense bins (m_aDimensions t') /\
      forall c j, coordinates_ok bins c -> 0 <= j < m_cScores t ->
        sample t' c j = sample t c j)).
Proof.
  intros Hsz Hok. unfold Expand. split; [by intros -> |]. intros ->.
  destruct (live_scores_spec _ _ Hok) as [_ Hlive].
  destruct Hok as (HS & HD & Hds & Hlen & Hfit & Hmax).
  unfold GetCountDimensions, GetCountTensorBins. simpl m_aTermFeatures.
  destruct bins as [| cBins bins'].
  { simpl. exists Error_None, (with_expanded t true).
    split; [done |]. split; [by left |]. intros _. repeat split; try done. }
  set (bins := cBins :: bins') in *.
  destruct (Z.eqb_spec 0 (Z.of_nat (length bins))) as [Hz | _]; [simpl in Hz; lia |].
  simpl negb. cbv iota.
  pose proof (bins_product_pos _ _ Hds) as Hprod.
  set (N := fold_right Z.mul 1 bins) in *.
  assert (m_cScores t * N <= SIZE_MAX) as HSN by (unfold sizeof_FloatScore in Hmax; lia).
  assert (1 <= m_cScores t * N) as HSN1 by nia.
  rewrite (Expand_count_spec bins (m_aDimensions t) (m_cScores t)) by done.
  fold N. rewrite size_mul_small by lia.
  destruct (EnsureTensorScoreCapacity_cases t (m_cScores t * N) ltac:(lia) Hmax Hlen)
    as [-> | (a1 & c1 & -> & Hlen1 & Hroom & Hkeep)].
  { exists Error_OutOfMemory, t. split; [done |]. split; [by right | done]. }
  simpl m_cScores. simpl m_aDimensions. simpl m_aTensorScores.
  destruct (Expand_scores_spec bins (m_aDimensions t) (m_cScores t) a1 Hds HS HSN Hroom
              (Z.to_nat (m_cScores t * N)) (N - 1) a1) as (a2 & E2 & Hlen2 & Hscores);
    try done; try nia.
  rewrite <- (expand_source_last bins (m_aDimensions t) (m_cScores t) Hds).
  fold N. replace (N - 1 + 1) with N in E2 by lia.
  rewrite E2.
  destruct (Expand_splits_spec bins (m_aDimensions t) [] 0
              (with_scores (with_score_buffer t a1 c1) a2) Hsz Hds)
    as (error & t2 & -> & Herr & Hs2 & HS2 & HD2 & Hdense); try done; [fold N; nia |].
  destruct Herr as [-> | ->].
  - exists Error_None, (with_expanded t2 true). split; [done |]. split; [by left |].
    intros _. destruct (Hdense eq_refl) as (ds' & Hds' & Hdense'). simpl in Hds'.
    repeat split; try done; [simpl; by rewrite Hds' |].
    intros c j Hc Hj. unfold sample. simpl. rewrite Hs2, HS2, Hds'. simpl.
    destruct (cell_offset_dense bins c ds' (m_cScores t) Hdense' Hc) as [-> _].
    pose proof (flatten_range bins c Hc) as Hn. fold N in Hn.
    rewrite Hscores by done.
    rewrite expand_source_flatten by done.
    apply Hkeep.
    pose proof (expand_source_lt bins (m_aDimensions t) (m_cScores t) (flatten bins c) Hds
                  ltac:(lia)) as Hlt.
    rewrite expand_source_flatten in Hlt by done.
    unfold live_scores in Hfit. rewrite HD, Nat2Z.id in Hfit. lia.
  - exists Error_OutOfMemory, t2. split; [done |]. split; [by right | done].
Qed.

(** ** Sorted unions *)

Lemma splits_ok_In (lo hi : Z) (l : list Z) (v : Z) :
  splits_ok lo hi l -> In v l -> lo < v < hi.
Proof.
  revert lo. induction l as [| s l IH]; intros lo H Hin; simpl in *; [done |].
  destruct H as [Hs H]. destruct Hin as [-> | Hin]; [done |].
  specialize (IH s H Hin). lia.
Qed.

Lemma splits_ok_weaken (lo hi lo' hi' : Z) (l : list Z) :
  splits_ok lo hi l -> lo' <= lo -> hi <= hi' -> splits_ok lo' hi' l.
Proof.
  revert lo lo'. induction l as [| s l IH]; intros lo lo' H Hlo Hhi; simpl in *; [done |].
  destruct H as [Hs H]. split; [lia |]. apply (IH s); [done | lia | done].
Qed.

Lemma merge_union_nil_l (l2 : list Z) : merge_union [] l2 = l2.
Proof. by destruct l2. Qed.

Lemma merge_union_nil_r (l1 : list Z) : merge_union l1 [] = l1.
Proof. by destruct l1. Qed.

Lemma merge_union_cons (a b : Z) (l1 l2 : list Z) :
  merge_union (a :: l1) (b :: l2)
  = if a <? b then a :: merge_union l1 (b :: l2)
    else if b <? a then b :: merge_union (a :: l1) l2
    else a :: merge_union l1 l2.
Proof. done. Qed.

Lemma merge_union_In (l1 l2 : list Z) (v : Z) :
  In v (merge_union l1 l2) <-> In v l1 \/ In v l2.
Proof.
  revert l2. induction l1 as [| a l1 IH1]; intros l2.
  { rewrite merge_union_nil_l. simpl. split; [by right | by intros [[] | Hv]]. }
  induction l2 as [| b l2 IH2].
  { rewrite merge_union_nil_r. simpl. split; [by left | by intros [Hv | []]]. }
  rewrite merge_union_cons.
  destruct (Z.ltb_spec a b); [| destruct (Z.ltb_spec b a)].
  - simpl. rewrite IH1. simpl. split; intros Hv; repeat (destruct Hv as [Hv | Hv]); auto 6.
  - simpl. rewrite IH2. simpl. split; intros Hv; repeat (destruct Hv as [Hv | Hv]); auto 6.
  - assert (a = b) as -> by lia. simpl. rewrite IH1. split; intros Hv; repeat (destruct Hv as [Hv | Hv]); auto 6.
Qed.

Lemma merge_union_ok (lo hi : Z) (l1 l2 : list Z) :
  splits_ok lo hi l1 -> splits_ok lo hi l2 -> splits_ok lo hi (merge_union l1 l2).
Proof.
  revert lo l2. induction l1 as [| a l1 IH1]; intros lo l2 H1 H2.
  { by rewrite merge_union_nil_l. }
  revert lo H1 H2. induction l2 as [| b l2 IH2]; intros lo H1 H2.
  { by rewrite merge_union_nil_r. }
  rewrite merge_union_cons. simpl in H1, H2.
  destruct H1 as [Ha H1], H2 as [Hb H2].
  destruct (Z.ltb_spec a b); [| destruct (Z.ltb_spec b a)].
  - split; [done |]. apply IH1; [done |]. simpl. split; [lia | done].
  - split; [done |]. apply IH2; [| done]. simpl. split; [lia | done].
  - assert (a = b) as -> by lia. split; [done |]. by apply IH1.
Qed.

Lemma merge_union_length (l1 l2 : list Z) :
  (length l1 <= length (merge_union l1 l2) <= length l1 + length l2)%nat /\
  (length l2 <= length (merge_union l1 l2))%nat.
Proof.
  revert l2. induction l1 as [| a l1 IH1]; intros l2.
  { rewrite merge_union_nil_l. simpl. lia. }
  induction l2 as [| b l2 IH2].
  { rewrite merge_union_nil_r. simpl. lia. }
  rewrite merge_union_cons.
  destruct (Z.ltb_spec a b); [| destruct (Z.ltb_spec b a)].
  - specialize (IH1 (b :: l2)). simpl in *. lia.
  - simpl in *. lia.
  - specialize (IH1 l2). simpl in *. lia.
Qed.

(** Two strictly increasing lists with the same elements are equal. *)
Lemma splits_ok_ext (lo hi lo' hi' : Z) (l l' : list Z) :
  splits_ok lo hi l -> splits_ok lo' hi' l' -> (forall v, In v l <-> In v l') -> l = l'.
Proof.
  revert lo lo' l'. induction l as [| s l IH]; intros lo lo' l' H H' Hin.
  - destruct l' as [| s' l']; [done |]. destruct (proj2 (Hin s') (or_introl eq_refl)).
  - destruct l' as [| s' l']; [destruct (proj1 (Hin s) (or_introl eq_refl)) |].
    simpl in H, H'. destruct H as [Hs H], H' as [Hs' H'].
    assert (s = s') as ->.
    { destruct (proj1 (Hin s) (or_introl eq_refl)) as [-> | Hs1]; [done |].
      destruct (proj2 (Hin s') (or_introl eq_refl)) as [-> | Hs2]; [done |].
      pose proof (splits_ok_In _ _ _ _ H' Hs1). pose proof (splits_ok_In _ _ _ _ H Hs2). lia. }
    f_equal. apply (IH s' s' l' H H').
    intros v. split; intros Hv.
    + destruct (proj1 (Hin v) (or_intror Hv)) as [-> | Hv']; [| done].
      pose proof (splits_ok_In _ _ _ _ H Hv). lia.
    + destruct (proj2 (Hin v) (or_intror Hv)) as [-> | Hv']; [| done].
      pose proof (splits_ok_In _ _ _ _ H' Hv). lia.
Qed.

(** ** Slices and elements *)

Lemma rd_In (l : list Z) (i : Z) : 0 <= i < Z.of_nat (length l) -> In (rd 0 l i) l.
Proof.
  intros H. apply list_elem_of_In, list_elem_of_lookup. exists (Z.to_nat i).
  by apply lookup_rd.
Qed.

Lemma slice_of_last (lo hi : Z) (s : list Z) (b : Z) :
  splits_ok lo hi s -> 0 < slice_of s b ->
  In (rd 0 s (slice_of s b - 1)) s /\
  rd 0 s (slice_of s b - 1) <= b /\
  forall v, In v s -> v <= b -> v <= rd 0 s (slice_of s b - 1).
Proof.
  revert lo. induction s as [| s0 s IH]; intros lo H Hk; simpl in *; [lia |].
  destruct H as [Hs H]. destruct (Z.leb_spec s0 b) as [Hle | Hgt]; [| lia].
  replace (1 + slice_of s b - 1) with (slice_of s b) by lia.
  pose proof (slice_of_range s b) as Hr.
  destruct (Z.eq_dec (slice_of s b) 0) as [Hz | Hnz].
  - rewrite Hz, rd_cons_0. split; [by left |]. split; [done |].
    intros v [-> | Hv] Hvb; [lia |]. exfalso.
    destruct s as [| s1 s']; [done |]. simpl in Hz, H.
    destruct (Z.leb_spec s1 b); [pose proof (slice_of_range s' b); lia |].
    destruct Hv as [-> | Hv]; [lia |].
    pose proof (splits_ok_In _ _ _ _ (proj2 H) Hv). lia.
  - rewrite rd_cons by lia.
    destruct (IH s0 H ltac:(lia)) as (Hin & Hle' & Hmax).
    split; [by right |]. split; [done |].
    intros v [-> | Hv] Hvb; [| by apply Hmax].
    pose proof (splits_ok_In _ _ _ _ H Hin). lia.
Qed.

Lemma slice_of_zero (lo hi : Z) (s : list Z) (b v : Z) :
  splits_ok lo hi s -> slice_of s b = 0 -> In v s -> b < v.
Proof.
  destruct s as [| s0 s]; simpl; [done |]. intros [Hs H] Hz Hv.
  destruct (Z.leb_spec s0 b); [pose proof (slice_of_range s b); lia |].
  destruct Hv as [-> | Hv]; [done |].
  pose proof (splits_ok_In _ _ _ _ H Hv). lia.
Qed.

Lemma slice_of_gap (s : list Z) (a b : Z) :
  (forall v, In v s -> ~ (a < v <= b)) -> a <= b -> slice_of s a = slice_of s b.
Proof.
  induction s as [| s0 s IH]; intros Hgap Hab; simpl; [done |].
  pose proof (Hgap s0 (or_introl eq_refl)).
  rewrite IH by (done || intros v Hv; apply Hgap; by right).
  destruct (Z.leb_spec s0 a), (Z.leb_spec s0 b); lia.
Qed.

Lemma slice_of_gap_in (lo hi : Z) (s : list Z) (a b : Z) :
  splits_ok lo hi s -> a < b -> In b s -> (forall v, In v s -> ~ (a < v < b)) ->
  slice_of s a = slice_of s b - 1.
Proof.
  revert lo. induction s as [| s0 s IH]; intros lo H Hab Hb Hgap; simpl in *; [done |].
  destruct H as [Hs H]. destruct Hb as [-> | Hb].
  - destruct (Z.leb_spec b a), (Z.leb_spec b b); try lia.
    rewrite (slice_of_below b hi s b H); lia.
  - pose proof (splits_ok_In _ _ _ _ H Hb).
    pose proof (Hgap s0 (or_introl eq_refl)).
    destruct (Z.leb_spec s0 a), (Z.leb_spec s0 b); try lia.
    rewrite (IH s0 H Hab Hb); [lia |]. intros v Hv. apply Hgap. by right.
Qed.

Lemma lower_edge_zero (splits : list Z) : lower_edge splits 0 = 0.
Proof. done. Qed.

(** Neighbouring slices of a partition: the first bin of a slice is a split,
    it lies above the first bin of the slice before, and no split lies
    strictly between the two. *)
Lemma lower_edge_adjacent (lo hi : Z) (splits : list Z) (x : Z) :
  splits_ok lo hi splits -> 0 <= lo -> 0 < x <= Z.of_nat (length splits) ->
  In (lower_edge splits x) splits /\
  (if x =? 1 then lo else lower_edge splits (x - 1)) < lower_edge splits x /\
  forall v, In v splits ->
    ~ ((if x =? 1 then lo else lower_edge splits (x - 1)) < v < lower_edge splits x).
Proof.
  unfold lower_edge. revert lo x.
  induction splits as [| s0 s IH]; intros lo x H Hlo Hx; simpl in *; [lia |].
  destruct H as [Hs H]. destruct (Z.eqb_spec x 1) as [-> | Hne].
  - change (1 - 1) with 0. rewrite rd_cons_0. split; [by left |]. split; [lia |].
    intros v [-> | Hv]; [lia |]. pose proof (splits_ok_In _ _ _ _ H Hv). lia.
  - rewrite !rd_cons by lia.
    pose proof (IH s0 (x - 1) H ltac:(lia) ltac:(lia)) as HIH. revert HIH.
    destruct (Z.eqb_spec (x - 1) 1) as [Hx2 | Hx2]; intros (Hin & Hlt & Hgap);
      (split; [by right |]).
    + replace (x - 1 - 1) with 0 in * by lia. rewrite rd_cons_0.
      split; [done |]. intros v [-> | Hv]; [lia | by apply Hgap].
    + rewrite rd_cons by lia. split; [done |].
      intros v [-> | Hv]; [| by apply Hgap].
      assert (In (rd 0 s (x - 1 - 1 - 1)) s) as Hprev by (apply rd_In; lia).
      pose proof (splits_ok_In _ _ _ _ H Hprev). lia.
Qed.

Lemma lower_edge_adjacent_0 (hi : Z) (splits : list Z) (x : Z) :
  splits_ok 0 hi splits -> 0 < x <= Z.of_nat (length splits) ->
  In (lower_edge splits x) splits /\
  lower_edge splits (x - 1) < lower_edge splits x /\
  forall v, In v splits -> ~ (lower_edge splits (x - 1) < v < lower_edge splits x).
Proof.
  intros H Hx. destruct (lower_edge_adjacent 0 hi splits x H ltac:(lia) Hx) as (Hin & Hlt & Hgap).
  destruct (Z.eqb_spec x 1) as [-> | Hne]; [| done].
  change (lower_edge splits (1 - 1)) with 0. done.
Qed.

(** ** One step back in one dimension of a sum *)

Lemma slice_of_In (lo hi : Z) (s : list Z) (v : Z) :
  splits_ok lo hi s -> In v s -> 0 < slice_of s v /\ rd 0 s (slice_of s v - 1) = v.
Proof.
  intros H Hv. pose proof (slice_of_range s v) as Hr.
  assert (0 < slice_of s v) as Hpos.
  { destruct (Z.eq_dec (slice_of s v) 0) as [Hz | Hnz]; [| lia].
    pose proof (slice_of_zero _ _ _ _ _ H Hz Hv). lia. }
  split; [done |].
  destruct (slice_of_last _ _ _ _ H Hpos) as (_ & Hle & Hmax).
  specialize (Hmax v Hv ltac:(lia)). lia.
Qed.

Lemma slice_of_not_In (lo hi : Z) (s : list Z) (v : Z) :
  splits_ok lo hi s -> ~ In v s -> 0 < slice_of s v -> rd 0 s (slice_of s v - 1) < v.
Proof.
  intros H Hv Hpos. destruct (slice_of_last _ _ _ _ H Hpos) as (Hin & Hle & _).
  destruct (Z.eq_dec (rd 0 s (slice_of s v - 1)) v) as [Heq | Hne]; [| lia].
  rewrite Heq in Hin. done.
Qed.

(** The cursors of the slice before slice [x] of the sum, from the cursors of
    slice [x] and the splits under them: these are the decisions that [Add]
    takes on [d2 <= d1] and [d1 <= d2]. *)
Lemma merged_step (hi : Z) (s1 s2 : list Z) (x : Z) :
  splits_ok 0 hi s1 -> splits_ok 0 hi s2 ->
  0 < x <= Z.of_nat (length (merge_union s1 s2)) ->
  let edge := lower_edge (merge_union s1 s2) x in
  let edge' := lower_edge (merge_union s1 s2) (x - 1) in
  let i1 := slice_of s1 edge in
  let i2 := slice_of s2 edge in
  let d1 := rd 0 s1 (i1 - 1) in
  let d2 := rd 0 s2 (i2 - 1) in
  (0 < i1 \/ 0 < i2) /\
  slice_of s1 edge'
  = (if 0 <? i1 then if 0 <? i2 then if d2 <=? d1 then i1 - 1 else i1 else i1 - 1 else i1) /\
  slice_of s2 edge'
  = (if 0 <? i1 then if 0 <? i2 then if d1 <=? d2 then i2 - 1 else i2 else i2 else i2 - 1).
Proof.
  intros H1 H2 Hx edge edge' i1 i2 d1 d2.
  pose proof (merge_union_ok 0 hi s1 s2 H1 H2) as HM.
  destruct (lower_edge_adjacent_0 hi _ x HM Hx) as (Hin & Hlt & Hgap).
  fold edge edge' in Hin, Hlt, Hgap.
  assert (Hstep : forall s, splits_ok 0 hi s -> (forall v, In v s -> In v (merge_union s1 s2)) ->
            (In edge s -> slice_of s edge' = slice_of s edge - 1) /\
            (~ In edge s -> slice_of s edge' = slice_of s edge)).
  { intros s Hs Hsub. split; intros He.
    - apply (slice_of_gap_in 0 hi); try done. intros v Hv. apply Hgap. by apply Hsub.
    - apply slice_of_gap; [| lia]. intros v Hv Hbetween.
      destruct (Z.eq_dec v edge) as [-> | Hne]; [done |].
      apply (Hgap v); [by apply Hsub | lia]. }
  destruct (Hstep s1 H1) as [Hin1 Hout1]; [intros v Hv; apply merge_union_In; by left |].
  destruct (Hstep s2 H2) as [Hin2 Hout2]; [intros v Hv; apply merge_union_In; by right |].
  pose proof (slice_of_range s1 edge) as Hr1. pose proof (slice_of_range s2 edge) as Hr2.
  fold i1 in Hr1, Hin1, Hout1. fold i2 in Hr2, Hin2, Hout2.
  apply merge_union_In in Hin.
  destruct (in_dec Z.eq_dec edge s1) as [He1 | He1]; destruct (in_dec Z.eq_dec edge s2) as [He2 | He2];
    try (by destruct Hin).
  - destruct (slice_of_In _ _ _ _ H1 He1) as [Hp1 Hd1].
    destruct (slice_of_In _ _ _ _ H2 He2) as [Hp2 Hd2].
    fold i1 in Hp1, Hd1. fold i2 in Hp2, Hd2. fold d1 in Hd1. fold d2 in Hd2.
    rewrite (Hin1 He1), (Hin2 He2).
    destruct (Z.ltb_spec 0 i1), (Z.ltb_spec 0 i2); try lia.
    destruct (Z.leb_spec d2 d1), (Z.leb_spec d1 d2); lia.
  - destruct (slice_of_In _ _ _ _ H1 He1) as [Hp1 Hd1].
    fold i1 in Hp1, Hd1. fold d1 in Hd1.
    rewrite (Hin1 He1), (Hout2 He2).
    destruct (Z.ltb_spec 0 i1); [| lia]. split; [by left |].
    destruct (Z.ltb_spec 0 i2) as [Hp2 | Hz2]; [| done].
    pose proof (slice_of_not_In _ _ _ _ H2 He2 Hp2) as Hd2. fold i2 d2 in Hd2.
    by destruct (Z.leb_spec d2 d1), (Z.leb_spec d1 d2); try lia.
  - destruct (slice_of_In _ _ _ _ H2 He2) as [Hp2 Hd2].
    fold i2 in Hp2, Hd2. fold d2 in Hd2.
    rewrite (Hout1 He1), (Hin2 He2).
    destruct (Z.ltb_spec 0 i2); [| lia]. split; [by right |].
    destruct (Z.ltb_spec 0 i1) as [Hp1 | Hz1]; [| done].
    pose proof (slice_of_not_In _ _ _ _ H1 He1 Hp1) as Hd1. fold i1 d1 in Hd1.
    by destruct (Z.leb_spec d2 d1), (Z.leb_spec d1 d2); try lia.
Qed.

Lemma slice_of_all (s : list Z) (b : Z) :
  (forall v, In v s -> v <= b) -> slice_of s b = Z.of_nat (length s).
Proof.
  induction s as [| s0 s IH]; intros Hall; simpl; [done |].
  pose proof (Hall s0 (or_introl eq_refl)).
  destruct (Z.leb_spec s0 b); [| lia].
  rewrite IH; [lia |]. intros v Hv. apply Hall. by right.
Qed.

Lemma splits_ok_last_max (lo hi : Z) (l : list Z) (v : Z) :
  splits_ok lo hi l -> In v l -> v <= rd 0 l (Z.of_nat (length l) - 1).
Proof.
  revert lo v. induction l as [| m l IH]; intros lo v H Hv; [done |].
  simpl in H. destruct H as [Hm H].
  destruct l as [| m' l'].
  - destruct Hv as [<- | []]. simpl. rewrite rd_cons_0. lia.
  - replace (Z.of_nat (length (m :: m' :: l')) - 1)
      with (Z.of_nat (length (m' :: l'))) by (simpl length; lia).
    rewrite rd_cons by (simpl length; lia).
    destruct Hv as [<- | Hv]; [| by apply (IH m)].
    specialize (IH m m' H (or_introl eq_refl)). simpl in H. lia.
Qed.

(** The cursors of the last slice of the sum are the ends of both split
    arrays. *)
Lemma merged_top (lo hi : Z) (s1 s2 s : list Z) :
  splits_ok lo hi s1 -> splits_ok lo hi s2 ->
  (forall v, In v s -> In v (merge_union s1 s2)) ->
  slice_of s (lower_edge (merge_union s1 s2) (Z.of_nat (length (merge_union s1 s2))))
  = Z.of_nat (length s).
Proof.
  intros H1 H2 Hsub. apply slice_of_all. intros v Hv. unfold lower_edge.
  apply (splits_ok_last_max lo hi); [by apply merge_union_ok | by apply Hsub].
Qed.

(** ** [Add]: counting the slices of the sum *)

Lemma drop_rd (l : list Z) (i : Z) :
  0 <= i < Z.of_nat (length l) ->
  drop (Z.to_nat i) l = rd 0 l i :: drop (Z.to_nat (i + 1)) l.
Proof.
  intros H. replace (Z.to_nat (i + 1)) with (S (Z.to_nat i)) by lia.
  apply drop_S. by apply lookup_rd.
Qed.

Lemma Add_count_slices_spec (a1 a2 s1 s2 : list Z) (fuel : nat) (i1 i2 c : Z) :
  (forall k, 0 <= k < Z.of_nat (length s1) -> rd 0 a1 k = rd 0 s1 k) ->
  (forall k, 0 <= k < Z.of_nat (length s2) -> rd 0 a2 k = rd 0 s2 k) ->
  0 <= i1 <= Z.of_nat (length s1) -> 0 <= i2 <= Z.of_nat (length s2) ->
  Z.of_nat (length s1) - i1 + (Z.of_nat (length s2) - i2) + 1 <= Z.of_nat fuel ->
  0 <= c ->
  c + Z.of_nat (length (merge_union (drop (Z.to_nat i1) s1) (drop (Z.to_nat i2) s2)))
  <= SIZE_MAX ->
  Add_count_slices fuel a1 a2 i1 i2 (Z.of_nat (length s1)) (Z.of_nat (length s2)) c
  = Some (c + Z.of_nat (length (merge_union (drop (Z.to_nat i1) s1) (drop (Z.to_nat i2) s2)))).
Proof.
  intros Ha1 Ha2. revert i1 i2 c.
  induction fuel as [| fuel IH]; intros i1 i2 c Hi1 Hi2 Hfuel Hc Hmax; [lia |].
  cbn [Add_count_slices].
  destruct (Z.eqb_spec (Z.of_nat (length s2)) i2) as [He2 | Hne2].
  { rewrite (drop_ge s2) in Hmax |- * by lia. rewrite merge_union_nil_r in Hmax |- *.
    rewrite length_drop in Hmax |- *. rewrite size_add_small by lia. f_equal. lia. }
  destruct (Z.eqb_spec (Z.of_nat (length s1)) i1) as [He1 | Hne1].
  { rewrite (drop_ge s1) in Hmax |- * by lia. rewrite merge_union_nil_l in Hmax |- *.
    rewrite length_drop in Hmax |- *. rewrite size_add_small by lia. f_equal. lia. }
  rewrite (drop_rd s1 i1), (drop_rd s2 i2), merge_union_cons in Hmax |- * by lia.
  rewrite Ha1, Ha2 by lia.
  pose proof (merge_union_length (drop (Z.to_nat (i1 + 1)) s1) (drop (Z.to_nat i2) s2)) as HL1.
  destruct (Z.ltb_spec (rd 0 s1 i1) (rd 0 s2 i2)) as [Hlt | Hge];
    [| destruct (Z.ltb_spec (rd 0 s2 i2) (rd 0 s1 i1)) as [Hgt | Heq]].
  - destruct (Z.leb_spec (rd 0 s1 i1) (rd 0 s2 i2)), (Z.leb_spec (rd 0 s2 i2) (rd 0 s1 i1));
      try lia.
    cbn [length] in Hmax |- *. rewrite size_add_small by lia.
    rewrite IH; try lia.
    + rewrite (drop_rd s2 i2) by lia. f_equal. lia.
    + rewrite (drop_rd s2 i2) by lia. lia.
  - destruct (Z.leb_spec (rd 0 s1 i1) (rd 0 s2 i2)), (Z.leb_spec (rd 0 s2 i2) (rd 0 s1 i1));
      try lia.
    cbn [length] in Hmax |- *. rewrite size_add_small by lia.
    rewrite IH; try lia.
    + rewrite (drop_rd s1 i1) by lia. f_equal. lia.
    + rewrite (drop_rd s1 i1) by lia. lia.
  - destruct (Z.leb_spec (rd 0 s1 i1) (rd 0 s2 i2)), (Z.leb_spec (rd 0 s2 i2) (rd 0 s1 i1));
      try lia.
    cbn [length] in Hmax |- *. rewrite size_add_small by lia.
    rewrite IH; try lia. f_equal. lia.
Qed.

(** The facts about one dimension of two tensors over the same bins that the
    proofs about [Add] rest on. *)
Lemma merged_dimension (cBins : Z) (d1 d2 : DimensionInfo) (ds1 ds2 : list DimensionInfo) :
  Dimension_ok cBins d1 -> Dimension_ok cBins d2 ->
  splits_ok 0 cBins (merged_splits (d1 :: ds1) (d2 :: ds2)) /\
  m_cSlices d1 <= merged_count (d1 :: ds1) (d2 :: ds2) /\
  m_cSlices d2 <= merged_count (d1 :: ds1) (d2 :: ds2) /\
  1 <= merged_count (d1 :: ds1) (d2 :: ds2) <= cBins /\
  merged_count (d1 :: ds1) (d2 :: ds2) <= m_cSlices d1 + m_cSlices d2 - 1.
Proof.
  intros Hd1 Hd2. unfold merged_count, merged_splits. simpl hd.
  pose proof (length_live_splits _ _ Hd1) as Hl1.
  pose proof (length_live_splits _ _ Hd2) as Hl2.
  pose proof (merge_union_length (live_splits d1) (live_splits d2)) as HL.
  destruct Hd1 as (HB & _ & _ & Hs1). destruct Hd2 as (_ & _ & _ & Hs2).
  pose proof (merge_union_ok 0 cBins _ _ Hs1 Hs2) as HM.
  pose proof (splits_ok_length 0 cBins _ ltac:(lia) HM).
  repeat split; try done; lia.
Qed.

Lemma merged_slices_product (bins : list Z) (ds1 ds2 : list DimensionInfo) :
  Dimensions_ok bins ds1 -> Dimensions_ok bins ds2 ->
  1 <= fold_right Z.mul 1 (merged_slices bins ds1 ds2) <= fold_right Z.mul 1 bins /\
  slices_product (length bins) ds1 <= fold_right Z.mul 1 (merged_slices bins ds1 ds2) /\
  slices_product (length bins) ds2 <= fold_right Z.mul 1 (merged_slices bins ds1 ds2).
Proof.
  revert ds1 ds2.
  induction bins as [| cBins bins IH]; intros ds1 ds2 H1 H2; simpl in *; [lia |].
  destruct ds1 as [| d1 ds1]; [done |]. destruct ds2 as [| d2 ds2]; [done |].
  destruct H1 as [Hd1 H1], H2 as [Hd2 H2]. simpl tl. simpl hd.
  destruct (merged_dimension cBins d1 d2 ds1 ds2 Hd1 Hd2) as (_ & Hc1 & Hc2 & HN & _).
  pose proof (Dimension_ok_slices_le _ _ Hd1). pose proof (Dimension_ok_slices_le _ _ Hd2).
  pose proof (slices_product_bounds _ _ H1). pose proof (slices_product_bounds _ _ H2).
  destruct (IH ds1 ds2 H1 H2) as (Hp & Hp1 & Hp2).
  set (N := merged_count (d1 :: ds1) (d2 :: ds2)) in *.
  set (P := fold_right Z.mul 1 (merged_slices bins ds1 ds2)) in *.
  repeat split.
  - nia.
  - apply Z.mul_le_mono_nonneg; lia.
  - apply Z.mul_le_mono_nonneg; lia.
  - apply Z.mul_le_mono_nonneg; lia.
Qed.

Lemma Add_count_spec (bins : list Z) (ds1 ds2 : list DimensionInfo) (c1 c2 c : Z) :
  Dimensions_ok bins ds1 -> Dimensions_ok bins ds2 ->
  1 <= c1 -> 1 <= c2 -> 1 <= c ->
  c1 * fold_right Z.mul 1 bins <= SIZE_MAX ->
  c2 * fold_right Z.mul 1 bins <= SIZE_MAX ->
  c * fold_right Z.mul 1 bins <= SIZE_MAX ->
  Add_count (length bins) ds1 ds2 c1 c2 c
  = Some (c1 * slices_product (length bins) ds1,
          c2 * slices_product (length bins) ds2,
          c * fold_right Z.mul 1 (merged_slices bins ds1 ds2),
          add_stack bins ds1 ds2 (fold_right Z.mul 1 (merged_slices bins ds1 ds2) - 1)).
Proof.
  revert ds1 ds2 c1 c2 c.
  induction bins as [| cBins bins IH]; intros ds1 ds2 c1 c2 c H1 H2 Hc1 Hc2 Hc Hm1 Hm2 Hm;
    simpl length; cbn [Add_count merged_slices add_stack fold_right slices_product].
  { repeat f_equal; lia. }
  destruct ds1 as [| d1 ds1]; [done |]. destruct ds2 as [| d2 ds2]; [done |].
  simpl in H1, H2. destruct H1 as [Hd1 H1], H2 as [Hd2 H2]. simpl hd. simpl tl.
  cbn [fold_right] in Hm1, Hm2, Hm.
  destruct (merged_dimension cBins d1 d2 ds1 ds2 Hd1 Hd2) as (HM & HcN1 & HcN2 & HN & _).
  destruct (merged_slices_product bins ds1 ds2 H1 H2) as (HP & _ & _).
  pose proof (bins_product_pos _ _ H1) as Hprod.
  pose proof (Dimension_ok_slices_le _ _ Hd1) as Hs1.
  pose proof (Dimension_ok_slices_le _ _ Hd2) as Hs2.
  pose proof (length_live_splits _ _ Hd1) as Hl1.
  pose proof (length_live_splits _ _ Hd2) as Hl2.
  pose proof (product_bounds c1 (m_cSlices d1) cBins _ Hc1 Hs1 Hprod) as (Ha0 & Ha1 & Ha2 & Ha3).
  pose proof (product_bounds c2 (m_cSlices d2) cBins _ Hc2 Hs2 Hprod) as (Hb0 & Hb1 & Hb2 & Hb3).
  pose proof (product_bounds c (merged_count (d1 :: ds1) (d2 :: ds2)) cBins _ Hc HN Hprod)
    as (Hn0 & Hn1 & Hn2 & Hn3).
  rewrite (size_mul_small c1 (m_cSlices d1)), (size_mul_small c2 (m_cSlices d2)),
    (size_sub_small (m_cSlices d1) 1), (size_sub_small (m_cSlices d2) 1) by lia.
  replace (m_cSlices d1 - 1) with (Z.of_nat (length (live_splits d1))) by lia.
  replace (m_cSlices d2 - 1) with (Z.of_nat (length (live_splits d2))) by lia.
  rewrite (Add_count_slices_spec (m_aSplits d1) (m_aSplits d2) (live_splits d1) (live_splits d2));
    try lia.
  2: { intros k Hk. unfold live_splits in *. rewrite length_take in Hk. symmetry.
       apply rd_take. lia. }
  2: { intros k Hk. unfold live_splits in *. rewrite length_take in Hk. symmetry.
       apply rd_take. lia. }
  2: { change (drop (Z.to_nat 0) (live_splits d1)) with (live_splits d1).
       change (drop (Z.to_nat 0) (live_splits d2)) with (live_splits d2).
       unfold merged_count, merged_splits in HN. simpl hd in HN. lia. }
  change (drop (Z.to_nat 0) (live_splits d1)) with (live_splits d1).
  change (drop (Z.to_nat 0) (live_splits d2)) with (live_splits d2).
  replace (1 + Z.of_nat (length (merge_union (live_splits d1) (live_splits d2))))
    with (merged_count (d1 :: ds1) (d2 :: ds2)) by (unfold merged_count, merged_splits; simpl; lia).
  set (N := merged_count (d1 :: ds1) (d2 :: ds2)) in *.
  set (P := fold_right Z.mul 1 (merged_slices bins ds1 ds2)) in *.
  rewrite size_mul_small by lia.
  rewrite IH by (done || lia).
  destruct (pred_mod_zero (N * P) N ltac:(lia)) as [-> ->].
  { rewrite Z.mul_comm. apply Z_mod_mult. }
  rewrite (Z.mul_comm N P), Z_div_mult by lia.
  assert (N - 1 = Z.of_nat (length (merged_splits (d1 :: ds1) (d2 :: ds2)))) as HN1
    by (unfold N, merged_count; lia).
  rewrite HN1, <- !Z.mul_assoc, (Z.mul_comm P N). subst N P. unfold merged_splits. simpl hd.
  destruct Hd1 as (_ & _ & _ & Hok1). destruct Hd2 as (_ & _ & _ & Hok2).
  rewrite (merged_top 0 cBins _ _ (live_splits d1)), (merged_top 0 cBins _ _ (live_splits d2));
    try done.
  - intros v Hv. apply merge_union_In. by right.
  - intros v Hv. apply merge_union_In. by left.
Qed.

(** ** [Add]: the scores *)

Lemma Add_cell_spec (fuel : nat) (a b : list FloatScore) (p1 p2 top topEnd : Z) :
  0 <= topEnd < top -> top - topEnd <= Z.of_nat fuel ->
  top <= Z.of_nat (length a) -> p1 <= top ->
  exists a',
    Add_cell fuel a b p1 p2 top topEnd = Some (a', topEnd) /\
    length a' = length a /\
    forall i,
      rd float_zero a' i
      = if (topEnd <=? i) && (i <? top)
        then float_add (rd float_zero a (i - (top - p1))) (rd float_zero b (i - (top - p2)))
        else rd float_zero a i.
Proof.
  revert a p1 p2 top.
  induction fuel as [| fuel IH]; intros a p1 p2 top Htop Hfuel Hlen Hp; [lia |].
  cbn [Add_cell]. destruct (Z.eqb_spec topEnd (top - 1)) as [-> | Hne]; simpl negb; cbv iota.
  - eexists. split; [done |]. split; [apply length_wr |].
    intros i. destruct (Z.eq_dec i (top - 1)) as [-> | Hi].
    + rewrite rd_wr_eq by lia.
      destruct (Z.leb_spec (top - 1) (top - 1)), (Z.ltb_spec (top - 1) top); try lia.
      cbn [andb]. f_equal; f_equal; lia.
    + rewrite rd_wr_ne by done.
      by destruct (Z.leb_spec (top - 1) i), (Z.ltb_spec i top); try lia.
  - edestruct (IH (wr a (top - 1)
                     (float_add (rd float_zero a (p1 - 1)) (rd float_zero b (p2 - 1))))
                 (p1 - 1) (p2 - 1) (top - 1))
      as (a' & -> & Hl & Hrd); rewrite ?length_wr; try lia.
    eexists. split; [done |]. split; [by rewrite Hl, length_wr |].
    intros i. rewrite Hrd.
    replace (top - 1 - (p1 - 1)) with (top - p1) by lia.
    replace (top - 1 - (p2 - 1)) with (top - p2) by lia.
    destruct (Z.leb_spec topEnd i), (Z.ltb_spec i (top - 1)), (Z.ltb_spec i top);
      try lia; cbn [andb].
    + f_equal. apply rd_wr_ne. lia.
    + assert (i = top - 1) as -> by lia. rewrite rd_wr_eq by lia. f_equal; f_equal; lia.
    + apply rd_wr_ne. lia.
    + apply rd_wr_ne. lia.
Qed.

(** The cursors of slice [x] of the sum are at most [x]. *)
Lemma merged_cursor_le (hi : Z) (s1 s2 : list Z) (x : Z) :
  splits_ok 0 hi s1 -> splits_ok 0 hi s2 ->
  0 <= x <= Z.of_nat (length (merge_union s1 s2)) ->
  slice_of s1 (lower_edge (merge_union s1 s2) x) <= x /\
  slice_of s2 (lower_edge (merge_union s1 s2) x) <= x.
Proof.
  intros H1 H2 Hx.
  assert (forall k : nat, Z.of_nat k <= Z.of_nat (length (merge_union s1 s2)) ->
            slice_of s1 (lower_edge (merge_union s1 s2) (Z.of_nat k)) <= Z.of_nat k /\
            slice_of s2 (lower_edge (merge_union s1 s2) (Z.of_nat k)) <= Z.of_nat k) as Hall.
  { induction k as [| k IH]; intros Hk.
    - change (Z.of_nat 0) with 0. rewrite lower_edge_zero.
      rewrite (slice_of_below 0 hi s1), (slice_of_below 0 hi s2) by (done || lia). lia.
    - specialize (IH ltac:(lia)).
      pose proof (merged_step hi s1 s2 (Z.of_nat (S k)) H1 H2 ltac:(lia)) as Hstep.
      cbv zeta in Hstep. destruct Hstep as (_ & E1 & E2).
      replace (Z.of_nat (S k) - 1) with (Z.of_nat k) in E1, E2 by lia.
      rewrite E1, E2 in IH. destruct IH as [IH1 IH2].
      split.
      + revert IH1. repeat case_match; lia.
      + revert IH2. repeat case_match; lia. }
  specialize (Hall (Z.to_nat x)). rewrite Z2Nat.id in Hall by lia. apply Hall. lia.
Qed.

Lemma Add_step_spec (bins : list Z) (ds1 ds2 : list DimensionInfo)
  (mult1 mult2 p1 p2 n : Z) :
  Dimensions_ok bins ds1 -> Dimensions_ok bins ds2 ->
  1 <= mult1 -> 1 <= mult2 ->
  mult1 * fold_right Z.mul 1 bins <= SIZE_MAX ->
  mult2 * fold_right Z.mul 1 bins <= SIZE_MAX ->
  0 < n < fold_right Z.mul 1 (merged_slices bins ds1 ds2) ->
  Add_step (add_stack bins ds1 ds2 n) ds1 ds2 mult1 mult2 p1 p2
  = Some (add_stack bins ds1 ds2 (n - 1),
          p1 + add_source bins ds1 ds1 ds2 mult1 (n - 1) - add_source bins ds1 ds1 ds2 mult1 n,
          p2 + add_source bins ds2 ds1 ds2 mult2 (n - 1) - add_source bins ds2 ds1 ds2 mult2 n).
Proof.
  revert ds1 ds2 mult1 mult2 p1 p2 n.
  induction bins as [| cBins bins IH];
    intros ds1 ds2 mult1 mult2 p1 p2 n H1 H2 Hm1 Hm2 Hmax1 Hmax2 Hn.
  { simpl in Hn. lia. }
  destruct ds1 as [| d1 ds1]; [done |]. destruct ds2 as [| d2 ds2]; [done |].
  simpl in H1, H2. destruct H1 as [Hd1 H1], H2 as [Hd2 H2].
  cbn [merged_slices fold_right tl] in Hn. cbn [fold_right] in Hmax1, Hmax2.
  cbn [add_stack add_source Add_step hd tl DimensionInfoStack.m_pSplit1
         DimensionInfoStack.m_pSplit2 DimensionInfoStack.m_cNewSlices].
  destruct (merged_dimension cBins d1 d2 ds1 ds2 Hd1 Hd2) as (HM & HcN1 & HcN2 & HN & _).
  destruct (merged_slices_product bins ds1 ds2 H1 H2) as (HP & _ & _).
  pose proof (bins_product_pos _ _ H1) as Hprod.
  pose proof (Dimension_ok_slices_le _ _ Hd1) as Hs1.
  pose proof (Dimension_ok_slices_le _ _ Hd2) as Hs2.
  pose proof (length_live_splits _ _ Hd1) as Hl1.
  pose proof (length_live_splits _ _ Hd2) as Hl2.
  pose proof (product_bounds mult1 (m_cSlices d1) cBins _ Hm1 Hs1 Hprod) as (Ha0 & Ha1 & Ha2 & Ha3).
  pose proof (product_bounds mult2 (m_cSlices d2) cBins _ Hm2 Hs2 Hprod) as (Hb0 & Hb1 & Hb2 & Hb3).
  destruct Hd1 as (HB & _ & _ & Hok1). destruct Hd2 as (_ & _ & _ & Hok2).
  assert (merged_count (d1 :: ds1) (d2 :: ds2) - 1
          = Z.of_nat (length (merge_union (live_splits d1) (live_splits d2)))) as HNM
    by (unfold merged_count, merged_splits; simpl hd; lia).
  change (merged_splits (d1 :: ds1) (d2 :: ds2))
    with (merge_union (live_splits d1) (live_splits d2)) in *.
  set (N := merged_count (d1 :: ds1) (d2 :: ds2)) in *.
  pose proof (Z.mod_pos_bound n N ltac:(lia)) as Hx.
  destruct (Z.eq_dec (n mod N) 0) as [Hx0 | Hxpos].
  - rewrite Hx0, lower_edge_zero.
    rewrite (slice_of_below 0 cBins (live_splits d1) 0),
      (slice_of_below 0 cBins (live_splits d2) 0) by (done || lia).
    change (0 <? 0) with false. cbv iota.
    destruct (pred_mod_zero n N ltac:(lia) Hx0) as [-> ->].
    pose proof (Z.div_mod n N ltac:(lia)) as Hdm.
    pose proof (div_range n N (fold_right Z.mul 1 (merged_slices bins ds1 ds2))
                  ltac:(lia) ltac:(lia)) as Hq.
    assert (0 < n / N) as Hq1 by nia.
    rewrite !size_mul_small, !size_sub_small by lia.
    rewrite IH by (done || lia).
    rewrite HNM.
    rewrite (merged_top 0 cBins _ _ (live_splits d1)), (merged_top 0 cBins _ _ (live_splits d2));
      try done.
    + rewrite Hl1, Hl2. f_equal. f_equal; [f_equal |]; lia.
    + intros v Hv. apply merge_union_In. by right.
    + intros v Hv. apply merge_union_In. by left.
  - destruct (pred_mod_pos n N ltac:(lia) ltac:(lia)) as [-> ->].
    pose proof (merged_step cBins (live_splits d1) (live_splits d2) (n mod N) Hok1 Hok2
                  ltac:(lia)) as Hstep.
    cbv zeta in Hstep. destruct Hstep as (Hany & E1 & E2). rewrite E1, E2.
    pose proof (slice_of_range (live_splits d1)
                  (lower_edge (merge_union (live_splits d1) (live_splits d2)) (n mod N))) as Hr1.
    pose proof (slice_of_range (live_splits d2)
                  (lower_edge (merge_union (live_splits d1) (live_splits d2)) (n mod N))) as Hr2.
    remember (slice_of (live_splits d1)
                (lower_edge (merge_union (live_splits d1) (live_splits d2)) (n mod N)))
      as i1 eqn:Ei1.
    remember (slice_of (live_splits d2)
                (lower_edge (merge_union (live_splits d1) (live_splits d2)) (n mod N)))
      as i2 eqn:Ei2.
    assert (0 < i1 -> rd 0 (live_splits d1) (i1 - 1) = rd 0 (m_aSplits d1) (i1 - 1)) as Hrd1.
    { intros Hp. unfold live_splits at 1. apply rd_take. lia. }
    assert (0 < i2 -> rd 0 (live_splits d2) (i2 - 1) = rd 0 (m_aSplits d2) (i2 - 1)) as Hrd2.
    { intros Hp. unfold live_splits at 1. apply rd_take. lia. }
    destruct (Z.ltb_spec 0 i1) as [Hp1 | Hz1], (Z.ltb_spec 0 i2) as [Hp2 | Hz2]; try lia.
    + rewrite (Hrd1 Hp1), (Hrd2 Hp2).
      destruct (rd 0 (m_aSplits d2) (i2 - 1) <=? rd 0 (m_aSplits d1) (i1 - 1)),
        (rd 0 (m_aSplits d1) (i1 - 1) <=? rd 0 (m_aSplits d2) (i2 - 1));
        (f_equal; f_equal; [f_equal |]; lia).
    + f_equal. f_equal; [f_equal |]; lia.
    + f_equal. f_equal; [f_equal |]; lia.
Qed.

Lemma add_source_bounds (bins : list Z) (ds1 ds2 : list DimensionInfo) (mult n : Z) :
  Dimensions_ok bins ds1 -> Dimensions_ok bins ds2 -> 0 <= mult -> 0 <= n ->
  0 <= add_source bins ds1 ds1 ds2 mult n <= mult * n /\
  0 <= add_source bins ds2 ds1 ds2 mult n.
Proof.
  revert ds1 ds2 mult n.
  induction bins as [| cBins bins IH]; intros ds1 ds2 mult n H1 H2 Hmult Hn.
  { simpl. lia. }
  destruct ds1 as [| d1 ds1]; [done |]. destruct ds2 as [| d2 ds2]; [done |].
  simpl in H1, H2. destruct H1 as [Hd1 H1], H2 as [Hd2 H2].
  cbn [add_source hd tl].
  destruct (merged_dimension cBins d1 d2 ds1 ds2 Hd1 Hd2) as (HM & HcN1 & HcN2 & HN & _).
  pose proof (Dimension_ok_slices_le _ _ Hd1) as Hs1.
  pose proof (Dimension_ok_slices_le _ _ Hd2) as Hs2.
  destruct Hd1 as (HB & _ & _ & Hok1). destruct Hd2 as (_ & _ & _ & Hok2).
  assert (merged_count (d1 :: ds1) (d2 :: ds2) - 1
          = Z.of_nat (length (merge_union (live_splits d1) (live_splits d2)))) as HNM
    by (unfold merged_count, merged_splits; simpl hd; lia).
  change (merged_splits (d1 :: ds1) (d2 :: ds2))
    with (merge_union (live_splits d1) (live_splits d2)) in *.
  set (N := merged_count (d1 :: ds1) (d2 :: ds2)) in *.
  pose proof (Z.mod_pos_bound n N ltac:(lia)) as Hx.
  pose proof (Z.div_mod n N ltac:(lia)) as Hdm.
  assert (0 <= n / N) as Hq by (apply Z.div_pos; lia).
  destruct (merged_cursor_le cBins (live_splits d1) (live_splits d2) (n mod N) Hok1 Hok2
              ltac:(lia)) as [Hc1 Hc2].
  pose proof (slice_of_range (live_splits d1)
                (lower_edge (merge_union (live_splits d1) (live_splits d2)) (n mod N))) as Hr1.
  pose proof (slice_of_range (live_splits d2)
                (lower_edge (merge_union (live_splits d1) (live_splits d2)) (n mod N))) as Hr2.
  remember (slice_of (live_splits d1)
              (lower_edge (merge_union (live_splits d1) (live_splits d2)) (n mod N)))
    as i1 eqn:Ei1.
  remember (slice_of (live_splits d2)
              (lower_edge (merge_union (live_splits d1) (live_splits d2)) (n mod N)))
    as i2 eqn:Ei2.
  assert (0 <= mult * m_cSlices d1) as Hm1 by (apply Z.mul_nonneg_nonneg; lia).
  assert (0 <= mult * m_cSlices d2) as Hm2 by (apply Z.mul_nonneg_nonneg; lia).
  destruct (IH ds1 ds2 (mult * m_cSlices d1) (n / N) H1 H2 Hm1 Hq) as [IH1 _].
  destruct (IH ds1 ds2 (mult * m_cSlices d2) (n / N) H1 H2 Hm2 Hq) as [_ IH2].
  assert (0 <= i1 * mult) by (apply Z.mul_nonneg_nonneg; lia).
  assert (0 <= i2 * mult) by (apply Z.mul_nonneg_nonneg; lia).
  assert (i1 * mult <= n mod N * mult) by (apply Z.mul_le_mono_nonneg_r; lia).
  assert (mult * m_cSlices d1 * (n / N) <= mult * N * (n / N))
    by (apply Z.mul_le_mono_nonneg_r; [lia | apply Z.mul_le_mono_nonneg_l; lia]).
  assert (mult * n = mult * (N * (n / N) + n mod N)) as Hmn by (f_equal; exact Hdm).
  lia.
Qed.

Lemma add_source_lt (bins : list Z) (ds ds1 ds2 : list DimensionInfo) (stride n : Z) :
  Dimensions_ok bins ds -> 0 <= stride ->
  add_source bins ds ds1 ds2 stride n + stride <= stride * slices_product (length bins) ds.
Proof.
  revert ds ds1 ds2 stride n.
  induction bins as [| cBins bins IH]; intros ds ds1 ds2 stride n Hok Hs.
  { simpl. lia. }
  destruct ds as [| d ds]; [done |]. simpl in Hok. destruct Hok as [Hd Hok].
  cbn [add_source slices_product length hd tl].
  pose proof (length_live_splits _ _ Hd) as Hlive.
  pose proof (Dimension_ok_slices_le _ _ Hd) as Hslices.
  pose proof (slice_of_range (live_splits d)
                (lower_edge (merged_splits ds1 ds2) (n mod merged_count ds1 ds2))) as Hk.
  assert (0 <= stride * m_cSlices d) as Hm by (apply Z.mul_nonneg_nonneg; lia).
  specialize (IH ds (tl ds1) (tl ds2) (stride * m_cSlices d) (n / merged_count ds1 ds2) Hok Hm).
  remember (slice_of (live_splits d)
              (lower_edge (merged_splits ds1 ds2) (n mod merged_count ds1 ds2))) as k eqn:Ek.
  assert (k * stride <= (m_cSlices d - 1) * stride) by (apply Z.mul_le_mono_nonneg_r; lia).
  lia.
Qed.

Lemma add_source_last (bins : list Z) (ds1 ds2 : list DimensionInfo) (mult : Z) :
  Dimensions_ok bins ds1 -> Dimensions_ok bins ds2 ->
  mult + add_source bins ds1 ds1 ds2 mult (fold_right Z.mul 1 (merged_slices bins ds1 ds2) - 1)
  = mult * slices_product (length bins) ds1 /\
  mult + add_source bins ds2 ds1 ds2 mult (fold_right Z.mul 1 (merged_slices bins ds1 ds2) - 1)
  = mult * slices_product (length bins) ds2.
Proof.
  revert ds1 ds2 mult.
  induction bins as [| cBins bins IH]; intros ds1 ds2 mult H1 H2.
  { simpl. lia. }
  destruct ds1 as [| d1 ds1]; [done |]. destruct ds2 as [| d2 ds2]; [done |].
  simpl in H1, H2. destruct H1 as [Hd1 H1], H2 as [Hd2 H2].
  cbn [add_source merged_slices fold_right slices_product length hd tl].
  destruct (merged_dimension cBins d1 d2 ds1 ds2 Hd1 Hd2) as (HM & HcN1 & HcN2 & HN & _).
  destruct (merged_slices_product bins ds1 ds2 H1 H2) as (HP & _ & _).
  pose proof (length_live_splits _ _ Hd1) as Hl1.
  pose proof (length_live_splits _ _ Hd2) as Hl2.
  destruct Hd1 as (HB & _ & _ & Hok1). destruct Hd2 as (_ & _ & _ & Hok2).
  assert (merged_count (d1 :: ds1) (d2 :: ds2) - 1
          = Z.of_nat (length (merge_union (live_splits d1) (live_splits d2)))) as HNM
    by (unfold merged_count, merged_splits; simpl hd; lia).
  change (merged_splits (d1 :: ds1) (d2 :: ds2))
    with (merge_union (live_splits d1) (live_splits d2)) in *.
  set (N := merged_count (d1 :: ds1) (d2 :: ds2)) in *.
  set (P := fold_right Z.mul 1 (merged_slices bins ds1 ds2)) in *.
  destruct (pred_mod_zero (N * P) N ltac:(lia)) as [-> ->].
  { rewrite Z.mul_comm. apply Z_mod_mult. }
  rewrite (Z.mul_comm N P), Z_div_mult by lia.
  rewrite HNM.
  rewrite (merged_top 0 cBins _ _ (live_splits d1)), (merged_top 0 cBins _ _ (live_splits d2));
    try done.
  - destruct (IH ds1 ds2 (mult * m_cSlices d1) H1 H2) as [IH1 _].
    destruct (IH ds1 ds2 (mult * m_cSlices d2) H1 H2) as [_ IH2].
    fold P in IH1, IH2. rewrite Hl1, Hl2. lia.
  - intros v Hv. apply merge_union_In. by right.
  - intros v Hv. apply merge_union_In. by left.
Qed.

Lemma Add_scores_spec (bins : list Z) (ds1 ds2 : list DimensionInfo) (cScores : Z)
  (a0 b : list FloatScore) :
  Dimensions_ok bins ds1 -> Dimensions_ok bins ds2 -> 1 <= cScores ->
  cScores * fold_right Z.mul 1 bins <= SIZE_MAX ->
  cScores * fold_right Z.mul 1 (merged_slices bins ds1 ds2) <= Z.of_nat (length a0) ->
  forall (fuel : nat) (n : Z) (a : list FloatScore),
    0 <= n < fold_right Z.mul 1 (merged_slices bins ds1 ds2) -> n + 1 <= Z.of_nat fuel ->
    length a = length a0 ->
    (forall i, i < cScores * (n + 1) -> rd float_zero a i = rd float_zero a0 i) ->
    (forall m j, n < m < fold_right Z.mul 1 (merged_slices bins ds1 ds2) -> 0 <= j < cScores ->
       rd float_zero a (cScores * m + j)
       = float_add (rd float_zero a0 (add_source bins ds1 ds1 ds2 cScores m + j))
                   (rd float_zero b (add_source bins ds2 ds1 ds2 cScores m + j))) ->
    exists a',
      Add_scores fuel cScores ds1 ds2 (add_stack bins ds1 ds2 n) a b
        (cScores + add_source bins ds1 ds1 ds2 cScores n)
        (cScores + add_source bins ds2 ds1 ds2 cScores n) (cScores * (n + 1)) = Some a' /\
      length a' = length a0 /\
      forall m j, 0 <= m < fold_right Z.mul 1 (merged_slices bins ds1 ds2) -> 0 <= j < cScores ->
        rd float_zero a' (cScores * m + j)
        = float_add (rd float_zero a0 (add_source bins ds1 ds1 ds2 cScores m + j))
                    (rd float_zero b (add_source bins ds2 ds1 ds2 cScores m + j)).
Proof.
  intros H1 H2 HS Hmax Hlen0.
  induction fuel as [| fuel IH]; intros n a Hn Hfuel Hlen Hlow Hhigh; [lia |].
  cbn [Add_scores].
  destruct (add_source_bounds bins ds1 ds2 cScores n H1 H2 ltac:(lia) ltac:(lia)) as [Hsrc1 Hsrc2].
  destruct (Add_cell_spec (Z.to_nat cScores) a b (cScores + add_source bins ds1 ds1 ds2 cScores n)
              (cScores + add_source bins ds2 ds1 ds2 cScores n)
              (cScores * (n + 1)) (cScores * (n + 1) - cScores))
    as (a1 & -> & Hl1 & Hrd1); try nia.
  assert (Hcell : forall j, 0 <= j < cScores ->
            rd float_zero a1 (cScores * n + j)
            = float_add (rd float_zero a0 (add_source bins ds1 ds1 ds2 cScores n + j))
                        (rd float_zero b (add_source bins ds2 ds1 ds2 cScores n + j))).
  { intros j Hj. rewrite Hrd1.
    destruct (Z.leb_spec (cScores * (n + 1) - cScores) (cScores * n + j)),
      (Z.ltb_spec (cScores * n + j) (cScores * (n + 1))); try nia.
    cbn [andb]. rewrite Hlow by nia. f_equal; f_equal; nia. }
  assert (Hother : forall i, i < cScores * n \/ cScores * (n + 1) <= i ->
            rd float_zero a1 i = rd float_zero a i).
  { intros i Hi. rewrite Hrd1.
    by destruct (Z.leb_spec (cScores * (n + 1) - cScores) i),
      (Z.ltb_spec i (cScores * (n + 1))); try nia. }
  assert (Hdone : forall m j, n <= m < fold_right Z.mul 1 (merged_slices bins ds1 ds2) ->
            0 <= j < cScores ->
            rd float_zero a1 (cScores * m + j)
            = float_add (rd float_zero a0 (add_source bins ds1 ds1 ds2 cScores m + j))
                        (rd float_zero b (add_source bins ds2 ds1 ds2 cScores m + j))).
  { intros m j Hm Hj. destruct (Z.eq_dec m n) as [-> | Hne]; [by apply Hcell |].
    rewrite Hother by nia. apply Hhigh; lia. }
  destruct (Z.eqb_spec 0 (cScores * (n + 1) - cScores)) as [Hlast | Hmore].
  - exists a1. split; [done |]. split; [congruence |].
    intros m j Hm Hj. apply Hdone; [nia | done].
  - rewrite Add_step_spec by (done || nia).
    replace (cScores + add_source bins ds1 ds1 ds2 cScores n
             + add_source bins ds1 ds1 ds2 cScores (n - 1)
             - add_source bins ds1 ds1 ds2 cScores n)
      with (cScores + add_source bins ds1 ds1 ds2 cScores (n - 1)) by lia.
    replace (cScores + add_source bins ds2 ds1 ds2 cScores n
             + add_source bins ds2 ds1 ds2 cScores (n - 1)
             - add_source bins ds2 ds1 ds2 cScores n)
      with (cScores + add_source bins ds2 ds1 ds2 cScores (n - 1)) by lia.
    replace (cScores * (n + 1) - cScores) with (cScores * (n - 1 + 1)) by lia.
    apply IH; try lia; try congruence.
    + intros i Hi. rewrite Hother by nia. apply Hlow. nia.
    + intros m j Hm Hj. apply Hdone; [lia | done].
Qed.

(** ** [Add]: the splits *)

Lemma memcpy_from_spec {A} (d : A) (n : nat) (i : Z) (dst src : list A) :
  0 <= i -> i + Z.of_nat n <= Z.of_nat (length dst) ->
  length (memcpy_from d n i dst src) = length dst /\
  forall k,
    rd d (memcpy_from d n i dst src) k
    = if (i <=? k) && (k <? i + Z.of_nat n) then rd d src k else rd d dst k.
Proof.
  revert i dst. induction n as [| n IH]; intros i dst Hi Hlen; cbn [memcpy_from].
  { split; [done |]. intros k.
    by destruct (Z.leb_spec i k), (Z.ltb_spec k (i + Z.of_nat 0)); try lia. }
  destruct (IH (i + 1) (wr dst i (rd d src i))) as [Hl Hrd]; rewrite ?length_wr; try lia.
  split; [by rewrite Hl, length_wr |].
  intros k. rewrite Hrd.
  destruct (Z.leb_spec (i + 1) k), (Z.ltb_spec k (i + 1 + Z.of_nat n)), (Z.leb_spec i k),
    (Z.ltb_spec k (i + Z.of_nat (S n))); try lia; cbn [andb]; try done;
    try (apply rd_wr_ne; lia).
  assert (k = i) as -> by lia. apply rd_wr_eq. lia.
Qed.

Lemma take_eq_rd (a l : list Z) :
  Z.of_nat (length l) <= Z.of_nat (length a) ->
  (forall k, 0 <= k < Z.of_nat (length l) -> rd 0 a k = rd 0 l k) ->
  take (length l) a = l.
Proof.
  intros Hlen Hrd. apply list_eq. intros i.
  destruct (decide (i < length l)%nat) as [Hi | Hi].
  - rewrite lookup_take_lt by done.
    specialize (Hrd (Z.of_nat i) ltac:(lia)).
    pose proof (lookup_rd 0 a (Z.of_nat i) ltac:(lia)) as Ea.
    pose proof (lookup_rd 0 l (Z.of_nat i) ltac:(lia)) as El.
    rewrite Nat2Z.id in Ea, El. rewrite Ea, El. by f_equal.
  - rewrite lookup_take_ge by lia. symmetry. apply lookup_ge_None_2. lia.
Qed.

(** One step back of the cursor of the splits [s] within a partition with
    the splits [M] that include them: the cursor moves when the first bin of
    the slice is a split of [s], and then this split is the one under the
    cursor. *)
Lemma cursor_step (hi : Z) (M s : list Z) (x : Z) :
  splits_ok 0 hi M -> splits_ok 0 hi s -> (forall v, In v s -> In v M) ->
  0 < x <= Z.of_nat (length M) ->
  (In (lower_edge M x) s /\ 0 < slice_of s (lower_edge M x) /\
   slice_of s (lower_edge M (x - 1)) = slice_of s (lower_edge M x) - 1 /\
   rd 0 s (slice_of s (lower_edge M x) - 1) = lower_edge M x) \/
  (~ In (lower_edge M x) s /\
   slice_of s (lower_edge M (x - 1)) = slice_of s (lower_edge M x) /\
   (0 < slice_of s (lower_edge M x) -> rd 0 s (slice_of s (lower_edge M x) - 1) < lower_edge M x)).
Proof.
  intros HM Hs Hsub Hx.
  destruct (lower_edge_adjacent_0 hi _ x HM Hx) as (Hin & Hlt & Hgap).
  destruct (in_dec Z.eq_dec (lower_edge M x) s) as [He | He]; [left | right].
  - destruct (slice_of_In _ _ _ _ Hs He) as [Hp Hd]. repeat split; try done.
    apply (slice_of_gap_in 0 hi); try done. intros v Hv. apply Hgap. by apply Hsub.
  - split; [done |]. split.
    + apply slice_of_gap; [| lia]. intros v Hv Hbetween.
      destruct (Z.eq_dec v (lower_edge M x)) as [-> | Hne]; [done |].
      apply (Hgap v); [by apply Hsub | lia].
    + intros Hp. by apply (slice_of_not_In 0 hi).
Qed.

Lemma cursor_le (hi : Z) (M s : list Z) (x : Z) :
  splits_ok 0 hi M -> splits_ok 0 hi s -> (forall v, In v s -> In v M) ->
  0 <= x <= Z.of_nat (length M) -> slice_of s (lower_edge M x) <= x.
Proof.
  intros HM Hs Hsub Hx.
  assert (forall n : nat, Z.of_nat n <= Z.of_nat (length M) ->
            slice_of s (lower_edge M (Z.of_nat n)) <= Z.of_nat n) as Hall.
  { induction n as [| n IH]; intros Hn.
    - change (Z.of_nat 0) with 0. rewrite lower_edge_zero.
      rewrite (slice_of_below 0 hi s) by (done || lia). lia.
    - specialize (IH ltac:(lia)).
      destruct (cursor_step hi M s (Z.of_nat (S n)) HM Hs Hsub ltac:(lia))
        as [(_ & _ & E & _) | (_ & E & _)];
        replace (Z.of_nat (S n) - 1) with (Z.of_nat n) in E by lia; lia. }
  specialize (Hall (Z.to_nat x)). rewrite Z2Nat.id in Hall by lia. apply Hall. lia.
Qed.

(** A cursor as large as the slice index: the splits under it are the
    splits of the partition. *)
Lemma cursor_full (hi : Z) (M s : list Z) (x : Z) :
  splits_ok 0 hi M -> splits_ok 0 hi s -> (forall v, In v s -> In v M) ->
  0 <= x <= Z.of_nat (length M) -> slice_of s (lower_edge M x) = x ->
  forall k, 0 <= k < x -> rd 0 s k = rd 0 M k.
Proof.
  intros HM Hs Hsub Hx.
  assert (forall n : nat, Z.of_nat n <= Z.of_nat (length M) ->
            slice_of s (lower_edge M (Z.of_nat n)) = Z.of_nat n ->
            forall k, 0 <= k < Z.of_nat n -> rd 0 s k = rd 0 M k) as Hall.
  { induction n as [| n IH]; intros Hn E k Hk; [lia |].
    pose proof (cursor_le hi M s (Z.of_nat n) HM Hs Hsub ltac:(lia)) as Hle.
    destruct (cursor_step hi M s (Z.of_nat (S n)) HM Hs Hsub ltac:(lia))
      as [(_ & _ & E' & Hd) | (_ & E' & _)];
      replace (Z.of_nat (S n) - 1) with (Z.of_nat n) in E' by lia; [| lia].
    destruct (Z.eq_dec k (Z.of_nat n)) as [-> | Hne].
    - rewrite E in Hd. unfold lower_edge in Hd.
      replace (Z.of_nat (S n) - 1) with (Z.of_nat n) in Hd by lia. done.
    - apply IH; lia. }
  intros E k Hk. apply (Hall (Z.to_nat x)); rewrite ?Z2Nat.id by lia; (lia || done).
Qed.

(** A cursor at the start: the other cursor is the slice index. *)
Lemma merged_cursor_zero (hi : Z) (s1 s2 : list Z) (x : Z) :
  splits_ok 0 hi s1 -> splits_ok 0 hi s2 ->
  0 <= x <= Z.of_nat (length (merge_union s1 s2)) ->
  (slice_of s1 (lower_edge (merge_union s1 s2) x) = 0 ->
   slice_of s2 (lower_edge (merge_union s1 s2) x) = x) /\
  (slice_of s2 (lower_edge (merge_union s1 s2) x) = 0 ->
   slice_of s1 (lower_edge (merge_union s1 s2) x) = x).
Proof.
  intros H1 H2 Hx.
  pose proof (merge_union_ok 0 hi s1 s2 H1 H2) as HM.
  assert (Hsub1 : forall v, In v s1 -> In v (merge_union s1 s2))
    by (intros v Hv; apply merge_union_In; by left).
  assert (Hsub2 : forall v, In v s2 -> In v (merge_union s1 s2))
    by (intros v Hv; apply merge_union_In; by right).
  assert (forall n : nat, Z.of_nat n <= Z.of_nat (length (merge_union s1 s2)) ->
            (slice_of s1 (lower_edge (merge_union s1 s2) (Z.of_nat n)) = 0 ->
             slice_of s2 (lower_edge (merge_union s1 s2) (Z.of_nat n)) = Z.of_nat n) /\
            (slice_of s2 (lower_edge (merge_union s1 s2) (Z.of_nat n)) = 0 ->
             slice_of s1 (lower_edge (merge_union s1 s2) (Z.of_nat n)) = Z.of_nat n)) as Hall.
  { induction n as [| n IH]; intros Hn.
    - change (Z.of_nat 0) with 0. rewrite lower_edge_zero.
      rewrite (slice_of_below 0 hi s1), (slice_of_below 0 hi s2) by (done || lia). done.
    - specialize (IH ltac:(lia)). destruct IH as [IH1 IH2].
      destruct (lower_edge_adjacent_0 hi _ (Z.of_nat (S n)) HM ltac:(lia)) as (Hin & _ & _).
      apply merge_union_In in Hin.
      destruct (cursor_step hi _ s1 (Z.of_nat (S n)) HM H1 Hsub1 ltac:(lia))
        as [(Hi1 & Hp1 & E1 & _) | (Hi1 & E1 & _)];
        destruct (cursor_step hi _ s2 (Z.of_nat (S n)) HM H2 Hsub2 ltac:(lia))
          as [(Hi2 & Hp2 & E2 & _) | (Hi2 & E2 & _)];
        replace (Z.of_nat (S n) - 1) with (Z.of_nat n) in E1, E2 by lia;
        try (by destruct Hin); split; intros Hz; lia. }
  specialize (Hall (Z.to_nat x)). rewrite Z2Nat.id in Hall by lia. apply Hall. lia.
Qed.

(** The split that [Add] writes for slice [x] of the sum. *)
Lemma merged_value (hi : Z) (s1 s2 : list Z) (x : Z) :
  splits_ok 0 hi s1 -> splits_ok 0 hi s2 ->
  0 < x <= Z.of_nat (length (merge_union s1 s2)) ->
  0 < slice_of s1 (lower_edge (merge_union s1 s2) x) ->
  0 < slice_of s2 (lower_edge (merge_union s1 s2) x) ->
  (if rd 0 s1 (slice_of s1 (lower_edge (merge_union s1 s2) x) - 1)
      <=? rd 0 s2 (slice_of s2 (lower_edge (merge_union s1 s2) x) - 1)
   then rd 0 s2 (slice_of s2 (lower_edge (merge_union s1 s2) x) - 1)
   else rd 0 s1 (slice_of s1 (lower_edge (merge_union s1 s2) x) - 1))
  = rd 0 (merge_union s1 s2) (x - 1).
Proof.
  intros H1 H2 Hx Hp1 Hp2.
  pose proof (merge_union_ok 0 hi s1 s2 H1 H2) as HM.
  assert (Hsub1 : forall v, In v s1 -> In v (merge_union s1 s2))
    by (intros v Hv; apply merge_union_In; by left).
  assert (Hsub2 : forall v, In v s2 -> In v (merge_union s1 s2))
    by (intros v Hv; apply merge_union_In; by right).
  destruct (lower_edge_adjacent_0 hi _ x HM Hx) as (Hin & _ & _).
  apply merge_union_In in Hin.
  change (rd 0 (merge_union s1 s2) (x - 1)) with (lower_edge (merge_union s1 s2) x).
  destruct (cursor_step hi _ s1 x HM H1 Hsub1 Hx) as [(Hi1 & _ & _ & Hd1) | (Hi1 & _ & Hd1)];
    destruct (cursor_step hi _ s2 x HM H2 Hsub2 Hx) as [(Hi2 & _ & _ & Hd2) | (Hi2 & _ & Hd2)];
    try (by destruct Hin).
  - rewrite Hd1, Hd2. by destruct (_ <=? _).
  - specialize (Hd2 Hp2). rewrite Hd1.
    destruct (Z.leb_spec (lower_edge (merge_union s1 s2) x)
                (rd 0 s2 (slice_of s2 (lower_edge (merge_union s1 s2) x) - 1))); [lia | done].
  - specialize (Hd1 Hp1). rewrite Hd2.
    destruct (Z.leb_spec (rd 0 s1 (slice_of s1 (lower_edge (merge_union s1 s2) x) - 1))
                (lower_edge (merge_union s1 s2) x)); [done | lia].
Qed.

Lemma Add_merge_splits_spec (hi : Z) (s1 s2 a2 : list Z) (fuel : nat) (x : Z) (a : list Z) :
  splits_ok 0 hi s1 -> splits_ok 0 hi s2 ->
  0 <= x <= Z.of_nat (length (merge_union s1 s2)) -> x + 1 <= Z.of_nat fuel ->
  Z.of_nat (length (merge_union s1 s2)) <= Z.of_nat (length a) ->
  (forall k, 0 <= k < Z.of_nat (length s2) -> rd 0 a2 k = rd 0 s2 k) ->
  (forall k, 0 <= k < slice_of s1 (lower_edge (merge_union s1 s2) x) ->
     rd 0 a k = rd 0 s1 k) ->
  (forall k, x <= k < Z.of_nat (length (merge_union s1 s2)) ->
     rd 0 a k = rd 0 (merge_union s1 s2) k) ->
  exists a',
    Add_merge_splits fuel a a2 (slice_of s1 (lower_edge (merge_union s1 s2) x))
      (slice_of s2 (lower_edge (merge_union s1 s2) x)) x = Some a' /\
    length a' = length a /\
    forall k, 0 <= k < Z.of_nat (length (merge_union s1 s2)) ->
      rd 0 a' k = rd 0 (merge_union s1 s2) k.
Proof.
  intros H1 H2.
  pose proof (merge_union_ok 0 hi s1 s2 H1 H2) as HM.
  assert (Hsub1 : forall v, In v s1 -> In v (merge_union s1 s2))
    by (intros v Hv; apply merge_union_In; by left).
  assert (Hsub2 : forall v, In v s2 -> In v (merge_union s1 s2))
    by (intros v Hv; apply merge_union_In; by right).
  revert x a. induction fuel as [| fuel IH]; intros x a Hx Hfuel Hlen Ha2 Hlow Hhigh; [lia |].
  cbn [Add_merge_splits].
  pose proof (slice_of_range s1 (lower_edge (merge_union s1 s2) x)) as Hr1.
  pose proof (slice_of_range s2 (lower_edge (merge_union s1 s2) x)) as Hr2.
  destruct (merged_cursor_le hi s1 s2 x H1 H2 Hx) as [Hc1 Hc2].
  destruct (merged_cursor_zero hi s1 s2 x H1 H2 Hx) as [Hz1 Hz2].
  destruct (Z.eqb_spec x (slice_of s1 (lower_edge (merge_union s1 s2) x))) as [E1 | N1].
  { exists a. split; [done |]. split; [done |]. intros k Hk.
    destruct (Z_lt_dec k x); [| apply Hhigh; lia].
    rewrite Hlow by lia. apply (cursor_full hi (merge_union s1 s2) s1 x); (done || lia). }
  destruct (Z.eqb_spec x (slice_of s2 (lower_edge (merge_union s1 s2) x))) as [E2 | N2].
  { destruct (memcpy_from_spec 0 (Z.to_nat x) 0 a a2) as [Hl Hrd]; try lia.
    exists (memcpy 0 a a2 x). split; [done |]. split; [done |]. intros k Hk.
    unfold memcpy. rewrite Hrd.
    destruct (Z.leb_spec 0 k), (Z.ltb_spec k (0 + Z.of_nat (Z.to_nat x))); try lia; cbn [andb].
    - rewrite Ha2 by lia. apply (cursor_full hi (merge_union s1 s2) s2 x); (done || lia).
    - apply Hhigh. lia. }
  assert (0 < x) as Hxpos by lia.
  pose proof (merged_step hi s1 s2 x H1 H2 ltac:(lia)) as Hstep.
  cbv zeta in Hstep. destruct Hstep as (_ & S1 & S2).
  pose proof (merged_value hi s1 s2 x H1 H2 ltac:(lia) ltac:(lia) ltac:(lia)) as Hval.
  destruct (merged_cursor_le hi s1 s2 (x - 1) H1 H2 ltac:(lia)) as [Hc1' Hc2'].
  remember (slice_of s1 (lower_edge (merge_union s1 s2) x)) as i1 eqn:Ei1.
  remember (slice_of s2 (lower_edge (merge_union s1 s2) x)) as i2 eqn:Ei2.
  destruct (Z.ltb_spec 0 i1); [| lia]. destruct (Z.ltb_spec 0 i2); [| lia].
  rewrite (Hlow (i1 - 1)), (Ha2 (i2 - 1)) by lia.
  rewrite Hval, <- S1, <- S2.
  assert (slice_of s1 (lower_edge (merge_union s1 s2) (x - 1)) <= i1) as Hmono
    by (rewrite S1; destruct (_ <=? _); lia).
  edestruct (IH (x - 1) (wr a (x - 1) (rd 0 (merge_union s1 s2) (x - 1))))
    as (a' & -> & Hl & Hrd); rewrite ?length_wr; try lia; try done.
  - intros k Hk. rewrite rd_wr_ne by lia. apply Hlow. lia.
  - intros k Hk. destruct (Z.eq_dec k (x - 1)) as [-> | Hne].
    + rewrite rd_wr_eq by lia. done.
    + rewrite rd_wr_ne by lia. apply Hhigh. lia.
  - eexists. split; [done |]. split; [by rewrite Hl, length_wr | done].
Qed.

Lemma Add_splits_spec (bins : list Z) (ds1 ds2 pre : list DimensionInfo) (i n : Z)
  (t : Tensor) :
  1 < sizeof_UIntSplit ->
  Dimensions_ok bins ds1 -> Dimensions_ok bins ds2 ->
  fold_right Z.mul 1 bins <= SIZE_MAX ->
  m_aDimensions t = pre ++ ds1 -> i = Z.of_nat (length pre) ->
  exists error t',
    Add_splits (add_stack bins ds1 ds2 n) ds2 i t = Some (error, t') /\
    (error = Error_None \/ error = Error_OutOfMemory) /\
    m_aTensorScores t' = m_aTensorScores t /\
    m_cScores t' = m_cScores t /\
    m_cDimensions t' = m_cDimensions t /\
    (error = Error_None ->
     exists ds', m_aDimensions t' = pre ++ ds' /\ Dimensions_merged bins ds1 ds2 ds').
Proof.
  intros Hsz. revert ds1 ds2 pre i n t.
  induction bins as [| cBins bins IH]; intros ds1 ds2 pre i n t H1 H2 Hmax Hds Hi.
  { simpl. exists Error_None, t. split; [done |]. split; [by left |]. repeat split; try done.
    intros _. by exists ds1. }
  destruct ds1 as [| d1 ds1]; [done |]. destruct ds2 as [| d2 ds2]; [done |].
  simpl in H1, H2. destruct H1 as [Hd1 H1], H2 as [Hd2 H2].
  cbn [fold_right] in Hmax.
  cbn [add_stack Add_splits hd tl DimensionInfoStack.m_cNewSlices].
  destruct (merged_dimension cBins d1 d2 ds1 ds2 Hd1 Hd2) as (HM & HcN1 & HcN2 & HN & Hsum).
  pose proof (bins_product_pos _ _ H1) as Hprod.
  pose proof (Dimension_ok_slices_le _ _ Hd1) as Hs1.
  pose proof (Dimension_ok_slices_le _ _ Hd2) as Hs2.
  pose proof (length_live_splits _ _ Hd1) as Hl1.
  pose proof (length_live_splits _ _ Hd2) as Hl2.
  assert (cBins <= SIZE_MAX) as HB by nia.
  assert (fold_right Z.mul 1 bins <= SIZE_MAX) as Hmax' by nia.
  destruct Hd1 as (HB1 & Hcap1 & Hlen1 & Hok1). destruct Hd2 as (_ & Hcap2 & Hlen2 & Hok2).
  assert (merged_count (d1 :: ds1) (d2 :: ds2) - 1
          = Z.of_nat (length (merge_union (live_splits d1) (live_splits d2)))) as HNM
    by (unfold merged_count, merged_splits; simpl hd; lia).
  change (merged_splits (d1 :: ds1) (d2 :: ds2))
    with (merge_union (live_splits d1) (live_splits d2)) in *.
  set (N := merged_count (d1 :: ds1) (d2 :: ds2)) in *.
  replace (GetDimension t i) with d1
    by (unfold GetDimension; rewrite Hds; symmetry; by apply rd_app_middle).
  destruct (SetCountSlices_cases t pre ds1 d1 i N Hsz Hds Hi Hlen1 ltac:(lia))
    as [-> | (d1' & -> & Hc1 & Hcap1' & Hlen1' & Hkeep)].
  { exists Error_OutOfMemory, t. split; [done |]. split; [by right |]. by repeat split. }
  unfold GetDimension. simpl m_aDimensions.
  rewrite (rd_app_middle _ d1' pre ds1 i Hi).
  rewrite !size_sub_small by lia.
  assert (slice_of (live_splits d1)
            (lower_edge (merge_union (live_splits d1) (live_splits d2))
               (Z.of_nat (length (merge_union (live_splits d1) (live_splits d2)))))
          = m_cSlices d1 - 1) as Ht1.
  { rewrite <- Hl1. apply (merged_top 0 cBins); try done.
    intros v Hv. apply merge_union_In. by left. }
  assert (slice_of (live_splits d2)
            (lower_edge (merge_union (live_splits d1) (live_splits d2))
               (Z.of_nat (length (merge_union (live_splits d1) (live_splits d2)))))
          = m_cSlices d2 - 1) as Ht2.
  { rewrite <- Hl2. apply (merged_top 0 cBins); try done.
    intros v Hv. apply merge_union_In. by right. }
  rewrite HNM, <- Ht1, <- Ht2.
  destruct (Add_merge_splits_spec cBins (live_splits d1) (live_splits d2) (m_aSplits d2)
              (Z.to_nat N) (Z.of_nat (length (merge_union (live_splits d1) (live_splits d2))))
              (m_aSplits d1') Hok1 Hok2) as (aSplits & -> & Hla & Hrda); try lia.
  { intros k Hk. unfold live_splits in *. rewrite length_take in Hk. symmetry.
    apply rd_take. lia. }
  { intros k Hk. rewrite Ht1 in Hk. rewrite Hkeep by lia.
    unfold live_splits. symmetry. apply rd_take. lia. }
  unfold with_dimension. simpl m_aDimensions.
  rewrite (wr_app_middle d1' _ pre ds1 i Hi).
  destruct (IH ds1 ds2 (pre ++ [with_aSplits d1' aSplits]) (i + 1) (n / N)
              (with_dimensions (with_dimensions t (pre ++ d1' :: ds1))
                 (pre ++ with_aSplits d1' aSplits :: ds1)) H1 H2 Hmax')
    as (error & t' & E & Herr & Hs & HS & HD & Hmerged).
  { simpl. by rewrite <- app_assoc. }
  { rewrite length_app. simpl. lia. }
  exists error, t'. repeat split; try done.
  intros He. destruct (Hmerged He) as (ds' & Hds' & Hmerged').
  exists (with_aSplits d1' aSplits :: ds'). split; [by rewrite Hds', <- app_assoc |].
  simpl. split; [| done].
  assert (live_splits (with_aSplits d1' aSplits)
          = merge_union (live_splits d1) (live_splits d2)) as Hlive.
  { unfold live_splits at 1. simpl. rewrite Hc1, HNM, Nat2Z.id.
    apply take_eq_rd; [lia | done]. }
  rewrite Hlive. repeat split; try done.
  - apply merge_union_In.
  - apply merge_union_In.
  - rewrite Hc1. lia.
Qed.

(** ** [Add] *)

(** The cursor of the slice of the sum that holds bin [b] is the slice of
    [b] in the summand. *)
Lemma cursor_cover (hi : Z) (M s : list Z) (b : Z) :
  splits_ok 0 hi M -> (forall v, In v s -> In v M) -> 0 <= b ->
  slice_of s (lower_edge M (slice_of M b)) = slice_of s b.
Proof.
  intros HM Hsub Hb. pose proof (slice_of_range M b) as Hr.
  destruct (Z.eq_dec (slice_of M b) 0) as [Hz | Hnz].
  - rewrite Hz, lower_edge_zero. apply slice_of_gap; [| done].
    intros v Hv Hbetween. pose proof (slice_of_zero _ _ _ _ _ HM Hz (Hsub v Hv)). lia.
  - destruct (slice_of_last 0 hi M b HM ltac:(lia)) as (_ & Hle & Hmax).
    unfold lower_edge. apply slice_of_gap; [| done].
    intros v Hv Hbetween. specialize (Hmax v (Hsub v Hv) ltac:(lia)). lia.
Qed.

(** The cell of the sum that covers the bin coordinates [c], and the cells
    of the summands that [Add] reads for it. *)
Lemma add_source_cell (bins c : list Z) (ds1 ds2 ds' : list DimensionInfo) :
  Dimensions_ok bins ds1 -> Dimensions_ok bins ds2 -> Dimensions_merged bins ds1 ds2 ds' ->
  coordinates_ok bins c ->
  exists n,
    0 <= n < fold_right Z.mul 1 (merged_slices bins ds1 ds2) /\
    forall stride,
      cell_offset c ds' stride = stride * n /\
      add_source bins ds1 ds1 ds2 stride n = cell_offset c ds1 stride /\
      add_source bins ds2 ds1 ds2 stride n = cell_offset c ds2 stride.
Proof.
  revert c ds1 ds2 ds'.
  induction bins as [| cBins bins IH]; intros [| b c] ds1 ds2 ds' H1 H2 Hm Hc; try done.
  { exists 0. split; [simpl; lia |]. intros stride. simpl. lia. }
  destruct ds1 as [| d1 ds1]; [done |]. destruct ds2 as [| d2 ds2]; [done |].
  destruct ds' as [| d' ds']; [done |].
  simpl in H1, H2, Hm, Hc.
  destruct H1 as [Hd1 H1], H2 as [Hd2 H2], Hm as [(Hok' & Hin' & Hc' & _) Hm],
    Hc as [Hb Hc].
  destruct (IH c ds1 ds2 ds' H1 H2 Hm Hc) as (n' & Hn' & Hcell).
  destruct (merged_dimension cBins d1 d2 ds1 ds2 Hd1 Hd2) as (HM & _ & _ & HN & _).
  destruct (merged_slices_product bins ds1 ds2 H1 H2) as (HP & _ & _).
  destruct Hd1 as (_ & _ & _ & Hok1). destruct Hd2 as (_ & _ & _ & Hok2).
  assert (merged_count (d1 :: ds1) (d2 :: ds2) - 1
          = Z.of_nat (length (merge_union (live_splits d1) (live_splits d2)))) as HNM
    by (unfold merged_count, merged_splits; simpl hd; lia).
  change (merged_splits (d1 :: ds1) (d2 :: ds2))
    with (merge_union (live_splits d1) (live_splits d2)) in *.
  assert (live_splits d' = merge_union (live_splits d1) (live_splits d2)) as Hlive.
  { apply (splits_ok_ext 0 cBins 0 cBins); [done | done |].
    intros v. rewrite Hin'. symmetry. apply merge_union_In. }
  pose proof (slice_of_range (merge_union (live_splits d1) (live_splits d2)) b) as Hx.
  cbn [merged_slices fold_right add_source cell_offset hd tl].
  change (merged_splits (d1 :: ds1) (d2 :: ds2))
    with (merge_union (live_splits d1) (live_splits d2)).
  set (N := merged_count (d1 :: ds1) (d2 :: ds2)) in *.
  remember (slice_of (merge_union (live_splits d1) (live_splits d2)) b) as x eqn:Ex.
  exists (x + n' * N).
  assert (n' * N + N <= N * fold_right Z.mul 1 (merged_slices bins ds1 ds2)) by nia.
  split; [nia |]. intros stride.
  rewrite Z.mod_add, Z.div_add by lia.
  rewrite (Z.mod_small x N), (Z.div_small x N) by lia. rewrite Z.add_0_l.
  destruct (Hcell (stride * m_cSlices d')) as (-> & _ & _).
  destruct (Hcell (stride * m_cSlices d1)) as (_ & -> & _).
  destruct (Hcell (stride * m_cSlices d2)) as (_ & _ & ->).
  rewrite Hlive, <- Ex, Hc', Hlive. rewrite Ex.
  rewrite !(cursor_cover cBins) by
    (done || lia || (intros v Hv; apply merge_union_In; by (left + right))).
  repeat split; lia.
Qed.

(** C1. [Add] on two tensors over the same features, with the same number
    of scores per cell and at least one dimension, returns [Error_None] or
    [Error_OutOfMemory]. With [Error_None] the result has the score and
    dimension counts of the left tensor, in every dimension its live splits
    are the sorted union of the live splits of both tensors, so that its
    slice count is at most the sum of their slice counts less one, and the
    scores sampled at any bin coordinates are the floating-point sums of the
    scores that the two tensors gave there. *)
Theorem Add_sums_samples (bins : list Z) (t rhs : Tensor) :
  1 < sizeof_UIntSplit -> Tensor_ok bins t -> Tensor_ok bins rhs ->
  m_cScores rhs = m_cScores t -> 1 <= m_cDimensions t ->
  exists error t',
    Add t rhs = Some (error, t') /\
    (error = Error_None \/ error = Error_OutOfMemory) /\
    (error = Error_None ->
     m_cScores t' = m_cScores t /\
     m_cDimensions t' = m_cDimensions t /\
     Dimensions_merged bins (m_aDimensions t) (m_aDimensions rhs) (m_aDimensions t') /\
     forall c j, coordinates_ok bins c -> 0 <= j < m_cScores t ->
       sample t' c j = float_add (sample t c j) (sample rhs c j)).
Proof.
  intros Hsz Hok1 Hok2 HSeq HD1. unfold Add.
  destruct Hok1 as (HS & HD & Hds1 & Hlen & Hfit & Hmax).
  destruct Hok2 as (_ & HD' & Hds2 & Hlen' & Hfit' & _).
  destruct (Z.eqb_spec 0 (m_cDimensions t)) as [Hz | _]; [lia |].
  rewrite HD, Nat2Z.id.
  pose proof (bins_product_pos _ _ Hds1) as Hprod.
  destruct (merged_slices_product bins _ _ Hds1 Hds2) as (HP & _ & _).
  remember (fold_right Z.mul 1 (merged_slices bins (m_aDimensions t) (m_aDimensions rhs)))
    as N eqn:EN.
  assert (m_cScores t * fold_right Z.mul 1 bins <= SIZE_MAX) as HSB
    by (unfold sizeof_FloatScore in Hmax; lia).
  assert (m_cScores t * N <= m_cScores t * fold_right Z.mul 1 bins) as HSN
    by (apply Z.mul_le_mono_nonneg_l; lia).
  assert (N <= m_cScores t * N) as HSN1 by nia.
  rewrite (Add_count_spec bins (m_aDimensions t) (m_aDimensions rhs)) by done.
  rewrite <- EN.
  destruct (EnsureTensorScoreCapacity_cases t (m_cScores t * N) ltac:(lia)
              ltac:(unfold sizeof_FloatScore in *; lia) Hlen)
    as [-> | (a1 & c1 & -> & Hlen1 & Hroom & Hkeep)].
  { exists Error_OutOfMemory, t. split; [done |]. split; [by right | done]. }
  simpl m_cScores. simpl m_aDimensions. simpl m_aTensorScores.
  destruct (add_source_last bins (m_aDimensions t) (m_aDimensions rhs) (m_cScores t) Hds1 Hds2)
    as [Hlast1 Hlast2].
  rewrite <- EN in Hlast1, Hlast2.
  destruct (Add_scores_spec bins (m_aDimensions t) (m_aDimensions rhs) (m_cScores t) a1
              (m_aTensorScores rhs) Hds1 Hds2 HS HSB ltac:(rewrite <- EN; lia)
              (Z.to_nat (m_cScores t * N)) (N - 1) a1) as (a2 & E2 & Hlen2 & Hscores);
    rewrite <- ?EN; try done; try lia.
  rewrite <- ?EN, Hlast1, Hlast2 in E2. replace (N - 1 + 1) with N in E2 by lia.
  rewrite E2.
  destruct (Add_splits_spec bins (m_aDimensions t) (m_aDimensions rhs) [] 0 (N - 1)
              (with_scores (with_score_buffer t a1 c1) a2) Hsz Hds1 Hds2)
    as (error & t2 & -> & Herr & Hs2 & HS2 & HD2 & Hmerged); try done; [nia |].
  exists error, t2. split; [done |]. split; [done |].
  intros He. destruct (Hmerged He) as (ds' & Hds' & Hmerged'). simpl in Hds'.
  rewrite Hds'. repeat split; try done; [simpl in HD2; congruence |].
  intros c j Hc Hj. unfold sample. rewrite Hs2, HS2, Hds', HSeq. simpl.
  destruct (add_source_cell bins c _ _ ds' Hds1 Hds2 Hmerged' Hc) as (n & Hn & Hcell).
  destruct (Hcell (m_cScores t)) as (-> & <- & <-).
  rewrite <- EN in Hn, Hscores. rewrite Hscores by done.
  f_equal. apply Hkeep.
  pose proof (add_source_lt bins (m_aDimensions t) (m_aDimensions t) (m_aDimensions rhs)
                (m_cScores t) n Hds1 ltac:(lia)) as Hlt.
  unfold live_scores in Hfit. rewrite HD, Nat2Z.id in Hfit. lia.
Qed.

(** ** [Reset] *)

Lemma Reset_slices_spec (n : nat) (pre ds : list DimensionInfo) (i : Z) :
  i = Z.of_nat (length pre) -> (n <= length ds)%nat ->
  Reset_slices n i (pre ++ ds)
  = pre ++ map (fun d => with_cSlices d 1) (take n ds) ++ drop n ds.
Proof.
  revert pre ds i. induction n as [| n IH]; intros pre ds i Hi Hn; [done |].
  destruct ds as [| d ds]; [simpl in Hn; lia |].
  cbn [Reset_slices]. rewrite (rd_app_middle _ d pre ds i Hi), (wr_app_middle d _ pre ds i Hi).
  replace (pre ++ with_cSlices d 1 :: ds) with ((pre ++ [with_cSlices d 1]) ++ ds)
    by (by rewrite <- app_assoc).
  rewrite IH; [| rewrite length_app; simpl; lia | simpl in Hn; lia].
  by rewrite <- app_assoc.
Qed.

Lemma Reset_scores_spec (n : nat) (i : Z) (a : list FloatScore) :
  0 <= i ->
  length (Reset_scores n i a) = length a /\
  forall k,
    rd float_zero (Reset_scores n i a) k
    = if (i <=? k) && (k <? i + Z.of_nat n) then float_zero else rd float_zero a k.
Proof.
  revert i a. induction n as [| n IH]; intros i a Hi; cbn [Reset_scores].
  { split; [done |]. intros k.
    by destruct (Z.leb_spec i k), (Z.ltb_spec k (i + Z.of_nat 0)); try lia. }
  destruct (IH (i + 1) (wr a i float_zero) ltac:(lia)) as [Hl Hrd].
  split; [by rewrite Hl, length_wr |].
  intros k. rewrite Hrd.
  destruct (Z.leb_spec (i + 1) k), (Z.ltb_spec k (i + 1 + Z.of_nat n)), (Z.leb_spec i k),
    (Z.ltb_spec k (i + Z.of_nat (S n))); try lia; cbn [andb]; try done;
    try (apply rd_wr_ne; lia).
  assert (k = i) as -> by lia.
  destruct (Z_lt_dec i (Z.of_nat (length a))) as [Hin | Hout].
  - apply rd_wr_eq. lia.
  - rewrite wr_out_of_range by lia. apply rd_out_of_range. lia.
Qed.

(** Dimensions reset to one slice keep the invariants, and every bin is in
    their first cell. *)
Lemma Dimensions_reset (bins : list Z) (ds : list DimensionInfo) :
  Dimensions_ok bins ds ->
  Dimensions_ok bins
    (map (fun d => with_cSlices d 1) (take (length bins) ds) ++ drop (length bins) ds) /\
  slices_product (length bins)
    (map (fun d => with_cSlices d 1) (take (length bins) ds) ++ drop (length bins) ds) = 1 /\
  Forall (fun d => m_cSlices d = 1)
    (take (length bins)
       (map (fun d => with_cSlices d 1) (take (length bins) ds) ++ drop (length bins) ds)) /\
  forall c stride,
    coordinates_ok bins c ->
    cell_offset c
      (map (fun d => with_cSlices d 1) (take (length bins) ds) ++ drop (length bins) ds) stride
    = 0.
Proof.
  revert ds. induction bins as [| cBins bins IH]; intros ds Hok.
  { simpl. repeat split; [constructor |]. by intros [| b c] stride Hc. }
  destruct ds as [| d ds]; [done |]. simpl in Hok. destruct Hok as [Hd Hok].
  destruct (IH ds Hok) as (IH1 & IH2 & IH3 & IH4).
  cbn [length take map app drop Dimensions_ok slices_product hd tl].
  destruct Hd as (HB & Hcap & Hlen & Hsplits).
  repeat split; try done; simpl; try lia.
  - constructor; [done | exact IH3].
  - intros [| b c] stride Hc; [done |]. destruct Hc as [Hb Hc].
    cbn [cell_offset hd tl]. rewrite IH4 by done.
    unfold live_splits. simpl. lia.
Qed.

Lemma Dimensions_ok_length (bins : list Z) (ds : list DimensionInfo) :
  Dimensions_ok bins ds -> (length bins <= length ds)%nat.
Proof.
  revert ds. induction bins as [| cBins bins IH]; intros ds H; simpl; [lia |].
  destruct ds as [| d ds]; [done |]. destruct H as [_ H]. specialize (IH ds H). simpl. lia.
Qed.

(** X1. [Reset] turns a tensor into the zero function: it keeps the
    invariants of the tensor, clears the flag, leaves one slice in every
    dimension and one live cell, and every sample is zero. *)
Theorem Reset_zero (bins : list Z) (t : Tensor) :
  Tensor_ok bins t ->
  Tensor_ok bins (Reset t) /\
  m_bExpanded (Reset t) = false /\
  Forall (fun d => m_cSlices d = 1) (take (length bins) (m_aDimensions (Reset t))) /\
  live_scores (Reset t) = m_cScores t /\
  forall c j, coordinates_ok bins c -> 0 <= j < m_cScores t ->
    sample (Reset t) c j = float_zero.
Proof.
  intros (HS & HD & Hds & Hlen & Hfit & Hmax).
  pose proof (Dimensions_ok_length _ _ Hds) as Hn.
  destruct (Dimensions_reset bins _ Hds) as (Hok' & Hprod & Hone & Hcell).
  destruct (Reset_scores_spec (Z.to_nat (m_cScores t)) 0 (m_aTensorScores t) ltac:(lia))
    as [Hl Hrd].
  pose proof (Reset_slices_spec (length bins) [] (m_aDimensions t) 0 eq_refl Hn) as Hslices.
  simpl in Hslices.
  assert (m_aDimensions (Reset t)
          = map (fun d => with_cSlices d 1) (take (length bins) (m_aDimensions t))
            ++ drop (length bins) (m_aDimensions t)) as Hdims.
  { unfold Reset. simpl. by rewrite HD, Nat2Z.id. }
  assert (live_scores (Reset t) = m_cScores t) as Hlive.
  { unfold live_scores. rewrite Hdims. simpl m_cScores. simpl m_cDimensions.
    rewrite HD, Nat2Z.id, Hprod. lia. }
  pose proof (slices_product_bounds _ _ Hds) as Hsp.
  unfold live_scores in Hfit. rewrite HD, Nat2Z.id in Hfit.
  repeat split; try done.
  - by rewrite Hdims.
  - simpl. by rewrite Hl.
  - rewrite Hlive. simpl. rewrite Hl. nia.
  - by rewrite Hdims.
  - intros c j Hc Hj. unfold sample. rewrite Hdims, Hcell by done. simpl. rewrite Hrd.
    by destruct (Z.leb_spec 0 (0 + j)), (Z.ltb_spec (0 + j) (0 + Z.of_nat (Z.to_nat (m_cScores t))));
      try lia.
Qed.

(** ** [MultiplyAndCheckForIssues] *)

Lemma cell_offset_bounds (bins c : list Z) (ds : list DimensionInfo) (stride : Z) :
  Dimensions_ok bins ds -> coordinates_ok bins c -> 0 <= stride ->
  0 <= cell_offset c ds stride /\
  cell_offset c ds stride + stride <= stride * slices_product (length bins) ds.
Proof.
  revert c ds stride.
  induction bins as [| cBins bins IH]; intros [| b c] ds stride Hok Hc Hs; try done.
  { simpl. lia. }
  destruct ds as [| d ds]; [done |]. simpl in Hok, Hc.
  destruct Hok as [Hd Hok], Hc as [Hb Hc].
  cbn [cell_offset slices_product length hd tl].
  pose proof (length_live_splits _ _ Hd) as Hlive.
  pose proof (Dimension_ok_slices_le _ _ Hd) as Hslices.
  pose proof (slice_of_range (live_splits d) b) as Hk.
  assert (0 <= stride * m_cSlices d) as Hm by (apply Z.mul_nonneg_nonneg; lia).
  destruct (IH c ds (stride * m_cSlices d) Hok Hc Hm) as [IH1 IH2].
  remember (slice_of (live_splits d) b) as k eqn:Ek.
  assert (0 <= k * stride) by (apply Z.mul_nonneg_nonneg; lia).
  assert (k * stride <= (m_cSlices d - 1) * stride) by (apply Z.mul_le_mono_nonneg_r; lia).
  lia.
Qed.

Lemma Multiply_loop_spec (v : FloatScore) (fuel : nat) (a : list FloatScore) (p pEnd : Z)
  (bBad : bool) :
  0 <= p < pEnd -> pEnd <= Z.of_nat (length a) -> pEnd - p <= Z.of_nat fuel ->
  exists a' bBad',
    Multiply_loop fuel v a p pEnd bBad = Some (a', bBad') /\
    length a' = length a /\
    (forall i,
       rd float_zero a' i
       = if (p <=? i) && (i <? pEnd) then float_mul (rd float_zero a i) v
         else rd float_zero a i) /\
    (bBad' = true <->
     bBad = true \/
     exists i, p <= i < pEnd /\
       isnan (float_mul (rd float_zero a i) v) || isinf (float_mul (rd float_zero a i) v)
       = true).
Proof.
  revert a p bBad. induction fuel as [| fuel IH]; intros a p bBad Hp Hlen Hfuel; [lia |].
  cbn [Multiply_loop].
  set (val := float_mul (rd float_zero a p) v).
  destruct (Z.eqb_spec pEnd (p + 1)) as [-> | Hne]; simpl negb; cbv iota.
  - eexists _, _. split; [reflexivity |]. split; [apply length_wr |]. split.
    + intros i. destruct (Z.eq_dec i p) as [-> | Hi].
      * rewrite rd_wr_eq by lia.
        by destruct (Z.leb_spec p p), (Z.ltb_spec p (p + 1)); try lia.
      * rewrite rd_wr_ne by done.
        by destruct (Z.leb_spec p i), (Z.ltb_spec i (p + 1)); try lia.
    + rewrite orb_true_iff. split.
      * intros [Hb | Hv]; [by left | right]. exists p. split; [lia | done].
      * intros [Hb | (i & Hi & Hv)]; [by left | right].
        by assert (i = p) as -> by lia.
  - destruct (IH (wr a p val) (p + 1) (bBad || (isnan val || isinf val)))
      as (a' & b' & -> & Hl & Hrd & Hb); rewrite ?length_wr; try lia.
    eexists _, _. split; [reflexivity |]. split; [by rewrite Hl, length_wr |]. split.
    + intros i. rewrite Hrd. destruct (Z.eq_dec i p) as [-> | Hi].
      * rewrite rd_wr_eq by lia.
        by destruct (Z.leb_spec (p + 1) p), (Z.leb_spec p p), (Z.ltb_spec p pEnd); try lia.
      * rewrite rd_wr_ne by done.
        by destruct (Z.leb_spec (p + 1) i), (Z.leb_spec p i), (Z.ltb_spec i pEnd); try lia.
    + rewrite Hb, orb_true_iff. split.
      * intros [[Hb0 | Hv] | (i & Hi & Hv)].
        -- by left.
        -- right. exists p. split; [lia | done].
        -- right. exists i. split; [lia |]. by rewrite rd_wr_ne in Hv by lia.
      * intros [Hb0 | (i & Hi & Hv)]; [by left; left |].
        destruct (Z.eq_dec i p) as [-> | Hi'].
        -- left. by right.
        -- right. exists i. split; [lia |]. by rewrite rd_wr_ne by lia.
Qed.

(** X2. [MultiplyAndCheckForIssues] multiplies every live score by the
    factor and touches nothing else, so every sample is scaled and the
    invariants are kept; it reports [true] exactly when one of the products
    it stored is NaN or an infinity. *)
Theorem MultiplyAndCheckForIssues_scales (bins : list Z) (t : Tensor) (v : spec_float) :
  Tensor_ok bins t ->
  exists bBad a,
    MultiplyAndCheckForIssues t v = Some (bBad, with_scores t a) /\
    Tensor_ok bins (with_scores t a) /\
    (forall i, live_scores t <= i -> rd float_zero a i = rd float_zero (m_aTensorScores t) i) /\
    (forall c j, coordinates_ok bins c -> 0 <= j < m_cScores t ->
       sample (with_scores t a) c j = float_mul (sample t c j) v) /\
    (bBad = true <->
     exists i, 0 <= i < live_scores t /\ isfinite (rd float_zero a i) = false).
Proof.
  intros Hok. destruct (live_scores_spec _ _ Hok) as [Hcount Hlive].
  destruct Hok as (HS & HD & Hds & Hlen & Hfit & Hmax).
  unfold MultiplyAndCheckForIssues. rewrite Hcount.
  destruct (Multiply_loop_spec v (Z.to_nat (live_scores t)) (m_aTensorScores t) 0
              (live_scores t) false) as (a & bBad & -> & Hl & Hrd & Hb); try lia.
  exists bBad, a. split; [done |].
  assert (Hin : forall i, 0 <= i < live_scores t ->
            rd float_zero a i = float_mul (rd float_zero (m_aTensorScores t) i) v).
  { intros i Hi. rewrite Hrd.
    by destruct (Z.leb_spec 0 i), (Z.ltb_spec i (live_scores t)); try lia. }
  split; [| split; [| split]].
  - repeat split; try done; simpl; rewrite ?Hl; try done.
  - intros i Hi. rewrite Hrd.
    by destruct (Z.leb_spec 0 i), (Z.ltb_spec i (live_scores t)); try lia.
  - intros c j Hc Hj. unfold sample. simpl.
    destruct (cell_offset_bounds bins c (m_aDimensions t) (m_cScores t) Hds Hc ltac:(lia))
      as [Hlo Hhi].
    apply Hin. unfold live_scores. rewrite HD, Nat2Z.id. lia.
  - rewrite Hb. split.
    + intros [Hf | (i & Hi & Hv)]; [done |]. exists i. split; [done |].
      rewrite Hin by done. unfold isfinite.
      destruct (isnan _), (isinf _); done.
    + intros (i & Hi & Hv). right. exists i. split; [done |].
      rewrite Hin in Hv by done. unfold isfinite in Hv.
      destruct (isnan _), (isinf _); done.
Qed.

(** ** [Add] without dimensions *)

Lemma Add_scalar_spec (aFrom : list FloatScore) (fuel : nat) (a : list FloatScore) (p pEnd : Z) :
  0 <= p < pEnd -> pEnd <= Z.of_nat (length a) -> pEnd - p <= Z.of_nat fuel ->
  exists a',
    Add_scalar fuel a aFrom p p pEnd = Some a' /\
    length a' = length a /\
    forall i,
      rd float_zero a' i
      = if (p <=? i) && (i <? pEnd)
        then float_add (rd float_zero a i) (rd float_zero aFrom i)
        else rd float_zero a i.
Proof.
  revert a p. induction fuel as [| fuel IH]; intros a p Hp Hlen Hfuel; [lia |].
  cbn [Add_scalar]. destruct (Z.eqb_spec pEnd (p + 1)) as [-> | Hne]; simpl negb; cbv iota.
  - eexists. split; [done |]. split; [apply length_wr |].
    intros i. destruct (Z.eq_dec i p) as [-> | Hi].
    + rewrite rd_wr_eq by lia.
      by destruct (Z.leb_spec p p), (Z.ltb_spec p (p + 1)); try lia.
    + rewrite rd_wr_ne by done.
      by destruct (Z.leb_spec p i), (Z.ltb_spec i (p + 1)); try lia.
  - edestruct (IH (wr a p (float_add (rd float_zero a p) (rd float_zero aFrom p))) (p + 1))
      as (a' & -> & Hl & Hrd); rewrite ?length_wr; try lia.
    eexists. split; [done |]. split; [by rewrite Hl, length_wr |].
    intros i. rewrite Hrd. destruct (Z.eq_dec i p) as [-> | Hi].
    + rewrite rd_wr_eq by lia.
      by destruct (Z.leb_spec (p + 1) p), (Z.leb_spec p p), (Z.ltb_spec p pEnd); try lia.
    + rewrite rd_wr_ne by done.
      by destruct (Z.leb_spec (p + 1) i), (Z.leb_spec p i), (Z.ltb_spec i pEnd); try lia.
Qed.

(** X3. On tensors without dimensions [Add] cannot fail: it returns
    [Error_None], adds the [m_cScores] scores of the right tensor to those
    of the left one in place, and changes nothing else. *)
Theorem Add_without_dimensions (t rhs : Tensor) :
  Tensor_ok [] t -> Tensor_ok [] rhs -> m_cScores rhs = m_cScores t ->
  exists a,
    Add t rhs = Some (Error_None, with_scores t a) /\
    Tensor_ok [] (with_scores t a) /\
    (forall i, m_cScores t <= i -> rd float_zero a i = rd float_zero (m_aTensorScores t) i) /\
    forall j, 0 <= j < m_cScores t ->
      sample (with_scores t a) [] j = float_add (sample t [] j) (sample rhs [] j).
Proof.
  intros (HS & HD & Hds & Hlen & Hfit & Hmax) _ HSeq. unfold Add.
  simpl in HD. rewrite HD. change (0 =? 0) with true. cbv iota.
  unfold live_scores in Hfit. rewrite HD in Hfit. simpl in Hfit.
  destruct (Add_scalar_spec (m_aTensorScores rhs) (Z.to_nat (m_cScores t)) (m_aTensorScores t)
              0 (m_cScores t)) as (a & -> & Hl & Hrd); try lia.
  exists a. split; [done |]. split; [| split].
  - unfold Tensor_ok, live_scores. simpl. rewrite Hl, HD. simpl. repeat split; try done; lia.
  - intros i Hi. rewrite Hrd.
    by destruct (Z.leb_spec 0 i), (Z.ltb_spec i (m_cScores t)); try lia.
  - intros j Hj. unfold sample. simpl. rewrite Hrd.
    by destruct (Z.leb_spec 0 (0 + j)), (Z.ltb_spec (0 + j) (m_cScores t)); try lia.
Qed.

(** ** [Copy] *)

Lemma memcpy_spec {A} (d : A) (dst src : list A) (n : Z) :
  n <= Z.of_nat (length dst) ->
  length (memcpy d dst src n) = length dst /\
  forall k,
    rd d (memcpy d dst src n) k = if (0 <=? k) && (k <? n) then rd d src k else rd d dst k.
Proof.
  intros Hn. unfold memcpy.
  destruct (memcpy_from_spec d (Z.to_nat n) 0 dst src) as [Hl Hrd]; try lia.
  split; [done |]. intros k. rewrite Hrd.
  by destruct (Z.leb_spec 0 k), (Z.ltb_spec k (0 + Z.of_nat (Z.to_nat n))), (Z.ltb_spec k n);
    try lia.
Qed.

Lemma take_ext_rd (a b : list Z) (n : nat) :
  (n <= length a)%nat -> (n <= length b)%nat ->
  (forall k, 0 <= k < Z.of_nat n -> rd 0 a k = rd 0 b k) ->
  take n a = take n b.
Proof.
  intros Ha Hb Hrd.
  assert (length (take n b) = n) as Hl by (rewrite length_take; lia).
  rewrite <- Hl at 1. apply take_eq_rd; [lia |].
  intros k Hk. rewrite Hl in Hk. rewrite rd_take by lia. by apply Hrd.
Qed.

Lemma Dimensions_same_cells (bins : list Z) (ds ds' : list DimensionInfo) :
  Dimensions_same (length bins) ds ds' ->
  slices_product (length bins) ds = slices_product (length bins) ds' /\
  forall c stride, coordinates_ok bins c -> cell_offset c ds stride = cell_offset c ds' stride.
Proof.
  revert ds ds'. induction bins as [| cBins bins IH]; intros ds ds' H.
  { split; [done |]. by intros [| b c] stride Hc. }
  destruct ds as [| d ds]; [done |]. destruct ds' as [| d' ds']; [done |].
  simpl in H. destruct H as [[Hs Hl] H]. destruct (IH ds ds' H) as [IH1 IH2].
  cbn [slices_product length hd tl]. split; [by rewrite Hs, IH1 |].
  intros [| b c] stride Hc; [done |]. destruct Hc as [_ Hc].
  cbn [cell_offset hd tl]. by rewrite Hl, Hs, IH2.
Qed.

Lemma Copy_dimensions_spec (bins : list Z) (ds1 ds2 pre1 pre2 : list DimensionInfo) (i c : Z)
  (t rhs : Tensor) :
  1 < sizeof_UIntSplit ->
  Dimensions_ok bins ds1 -> Dimensions_ok bins ds2 ->
  m_aDimensions t = pre1 ++ ds1 -> m_aDimensions rhs = pre2 ++ ds2 ->
  i = Z.of_nat (length pre1) -> i = Z.of_nat (length pre2) ->
  1 <= c -> c * fold_right Z.mul 1 bins <= SIZE_MAX ->
  exists error t' c',
    Copy_dimensions (length bins) i c t rhs = (error, (t', c')) /\
    (error = Error_None \/ error = Error_OutOfMemory) /\
    m_aTensorScores t' = m_aTensorScores t /\
    m_cTensorScoreCapacity t' = m_cTensorScoreCapacity t /\
    m_cScores t' = m_cScores t /\
    m_cDimensions t' = m_cDimensions t /\
    (error = Error_None ->
     c' = c * slices_product (length bins) ds2 /\
     exists ds', m_aDimensions t' = pre1 ++ ds' /\ Dimensions_ok bins ds' /\
       Dimensions_same (length bins) ds' ds2).
Proof.
  intros Hsz. revert ds1 ds2 pre1 pre2 i c t.
  induction bins as [| cBins bins IH];
    intros ds1 ds2 pre1 pre2 i c t H1 H2 Hds1 Hds2 Hi1 Hi2 Hc Hmax.
  { simpl. exists Error_None, t, c. split; [done |]. split; [by left |].
    repeat split; try done; [lia |]. by exists ds1. }
  destruct ds1 as [| d1 ds1]; [done |]. destruct ds2 as [| d2 ds2]; [done |].
  simpl in H1, H2. destruct H1 as [Hd1 H1], H2 as [Hd2 H2].
  cbn [fold_right] in Hmax. cbn [length Copy_dimensions].
  pose proof (bins_product_pos _ _ H1) as Hprod.
  pose proof (Dimension_ok_slices_le _ _ Hd2) as Hs2.
  pose proof (product_bounds c (m_cSlices d2) cBins _ Hc Hs2 Hprod) as (Hb0 & Hb1 & Hb2 & Hb3).
  destruct Hd1 as (HB & Hcap1 & Hlen1 & Hok1). destruct Hd2 as (_ & Hcap2 & Hlen2 & Hok2).
  replace (GetDimension rhs i) with d2
    by (unfold GetDimension; rewrite Hds2; symmetry; by apply rd_app_middle).
  rewrite size_mul_small by lia.
  destruct (SetCountSlices_cases t pre1 ds1 d1 i (m_cSlices d2) Hsz Hds1 Hi1 Hlen1 ltac:(lia))
    as [-> | (d1' & -> & Hc1 & Hcap1' & Hlen1' & Hkeep)].
  { eexists Error_OutOfMemory, t, _. split; [reflexivity |]. split; [by right |].
    by repeat split. }
  unfold GetDimension. simpl m_aDimensions.
  rewrite (rd_app_middle _ d1' pre1 ds1 i Hi1).
  rewrite size_sub_small by lia.
  destruct (memcpy_spec 0 (m_aSplits d1') (m_aSplits d2) (m_cSlices d2 - 1) ltac:(lia))
    as [Hlm Hrdm].
  unfold with_dimension. simpl m_aDimensions.
  rewrite (wr_app_middle d1' _ pre1 ds1 i Hi1).
  set (d'' := with_aSplits d1' (memcpy 0 (m_aSplits d1') (m_aSplits d2) (m_cSlices d2 - 1))).
  destruct (IH ds1 ds2 (pre1 ++ [d'']) (pre2 ++ [d2]) (i + 1) (c * m_cSlices d2)
              (with_dimensions (with_dimensions t (pre1 ++ d1' :: ds1)) (pre1 ++ d'' :: ds1))
              H1 H2)
    as (error & t' & c' & E & Herr & Hs & Hcp & HS & HD & Hpost); try lia.
  { simpl. by rewrite <- app_assoc. }
  { by rewrite Hds2, <- app_assoc. }
  { rewrite length_app. simpl. lia. }
  { rewrite length_app. simpl. lia. }
  exists error, t', c'. split; [exact E |]. split; [done |]. repeat split; try done.
  - destruct (Hpost H) as [-> _]. cbn [slices_product hd tl]. lia.
  - destruct (Hpost H) as (_ & ds' & Hds' & Hok' & Hsame).
    exists (d'' :: ds'). split; [by rewrite Hds', <- app_assoc |].
    assert (live_splits d'' = live_splits d2) as Hlive.
    { unfold live_splits, d''. simpl. rewrite Hc1. apply take_ext_rd; try lia.
      intros k Hk. rewrite Hrdm.
      by destruct (Z.leb_spec 0 k), (Z.ltb_spec k (m_cSlices d2 - 1)); try lia. }
    simpl. repeat split; try done; try (by rewrite Hlive);
      unfold d''; simpl; rewrite ?Hlm; lia.
Qed.

(** What [Copy] does on two tensors over the same features. *)
Lemma Copy_spec (bins : list Z) (t rhs : Tensor) :
  1 < sizeof_UIntSplit -> Tensor_ok bins t -> Tensor_ok bins rhs ->
  m_cScores rhs = m_cScores t ->
  exists error t',
    Copy t rhs = (error, t') /\
    (error = Error_None \/ error = Error_OutOfMemory) /\
    (error = Error_None ->
     Tensor_ok bins t' /\
     m_bExpanded t' = m_bExpanded rhs /\
     m_cScores t' = m_cScores t /\
     m_cDimensions t' = m_cDimensions t /\
     Dimensions_same (length bins) (m_aDimensions t') (m_aDimensions rhs) /\
     forall i, 0 <= i < live_scores rhs ->
       rd float_zero (m_aTensorScores t') i = rd float_zero (m_aTensorScores rhs) i).
Proof.
  intros Hsz Hok1 Hok2 HSeq. unfold Copy.
  destruct Hok1 as (HS & HD & Hds1 & Hlen & Hfit & Hmax).
  destruct Hok2 as (_ & HD' & Hds2 & Hlen' & Hfit' & _).
  rewrite HD, Nat2Z.id.
  pose proof (slices_product_bounds _ _ Hds2) as Hsp.
  assert (m_cScores t * fold_right Z.mul 1 bins <= SIZE_MAX) as HSB
    by (unfold sizeof_FloatScore in Hmax; nia).
  destruct (Copy_dimensions_spec bins (m_aDimensions t) (m_aDimensions rhs) [] [] 0
              (m_cScores t) t rhs Hsz Hds1 Hds2)
    as (error & t1 & c' & -> & Herr & Hs1 & Hcp1 & HS1 & HD1 & Hpost); try done.
  destruct Herr as [-> | ->];
    [| exists Error_OutOfMemory, t1; split; [done |]; split; [by right | done]].
  destruct (Hpost eq_refl) as (-> & ds' & Hds' & Hok' & Hsame). simpl in Hds'.
  assert (m_cScores t * slices_product (length bins) (m_aDimensions rhs)
          <= m_cScores t * fold_right Z.mul 1 bins) as Hle
    by (apply Z.mul_le_mono_nonneg_l; lia).
  assert (1 <= m_cScores t * slices_product (length bins) (m_aDimensions rhs)) as Hge by nia.
  destruct (EnsureTensorScoreCapacity_cases t1
              (m_cScores t * slices_product (length bins) (m_aDimensions rhs)) ltac:(lia)
              ltac:(unfold sizeof_FloatScore in *; lia) ltac:(by rewrite Hs1, Hcp1))
    as [-> | (a1 & c1 & -> & Hlen1 & Hroom & Hkeep)].
  { exists Error_OutOfMemory, t1. split; [done |]. split; [by right | done]. }
  simpl m_aTensorScores.
  destruct (memcpy_spec float_zero a1 (m_aTensorScores rhs)
              (m_cScores t * slices_product (length bins) (m_aDimensions rhs)) Hroom)
    as [Hlm Hrdm].
  eexists Error_None, _. split; [reflexivity |]. split; [by left |]. intros _.
  destruct (Dimensions_same_cells bins _ _ Hsame) as [Hprod _].
  unfold Tensor_ok, live_scores. simpl. rewrite Hlm, HS1, HD1, HD, Nat2Z.id, Hds', Hprod.
  repeat split; try done; try lia.
  intros i Hi. rewrite Hrdm. unfold live_scores in Hi. rewrite HD', Nat2Z.id, HSeq in Hi.
  by destruct (Z.leb_spec 0 i),
    (Z.ltb_spec i (m_cScores t * slices_product (length bins) (m_aDimensions rhs))); try lia.
Qed.

(** X4. [Copy] between two tensors over the same features returns
    [Error_None] or [Error_OutOfMemory]. With [Error_None] the left tensor
    keeps its invariants and is a copy of the right one: the same slice
    counts and live splits in every dimension, the same flag, and the same
    score at every bin coordinate. *)
Theorem Copy_copies (bins : list Z) (t rhs : Tensor) :
  1 < sizeof_UIntSplit -> Tensor_ok bins t -> Tensor_ok bins rhs ->
  m_cScores rhs = m_cScores t ->
  exists error t',
    Copy t rhs = (error, t') /\
    (error = Error_None \/ error = Error_OutOfMemory) /\
    (error = Error_None ->
     Tensor_ok bins t' /\
     m_bExpanded t' = m_bExpanded rhs /\
     Dimensions_same (length bins) (m_aDimensions t') (m_aDimensions rhs) /\
     forall c j, coordinates_ok bins c -> 0 <= j < m_cScores t ->
       sample t' c j = sample rhs c j).
Proof.
  intros Hsz Hok1 Hok2 HSeq.
  destruct (Copy_spec bins t rhs Hsz Hok1 Hok2 HSeq) as (error & t' & E & Herr & Hpost).
  exists error, t'. split; [done |]. split; [done |]. intros He.
  destruct (Hpost He) as (Hok' & Hflag & HS' & HD' & Hsame & Hscores).
  split; [done |]. split; [done |]. split; [done |].
  intros c j Hc Hj. unfold sample.
  destruct (Dimensions_same_cells bins _ _ Hsame) as [_ Hcell].
  rewrite HS', <- HSeq, Hcell by done. apply Hscores.
  destruct Hok2 as (_ & HD2 & Hds2 & _).
  destruct (cell_offset_bounds bins c (m_aDimensions rhs) (m_cScores rhs) Hds2 Hc ltac:(lia))
    as [Hlo Hhi].
  unfold live_scores. rewrite HD2, Nat2Z.id. lia.
Qed.

(** ** [IsEqual] *)

Lemma IsEqual_splits_spec (a1 a2 : list Z) (fuel : nat) (p pEnd : Z) :
  p < pEnd -> pEnd - p <= Z.of_nat fuel ->
  exists b,
    IsEqual_splits fuel a1 a2 p p pEnd = Some b /\
    (b = true <-> forall k, p <= k < pEnd -> rd 0 a1 k = rd 0 a2 k).
Proof.
  revert p. induction fuel as [| fuel IH]; intros p Hp Hfuel; [lia |].
  cbn [IsEqual_splits].
  destruct (Z.eqb_spec (rd 0 a1 p) (rd 0 a2 p)) as [Heq | Hne]; simpl negb; cbv iota.
  - destruct (Z.eqb_spec pEnd (p + 1)) as [-> | Hmore]; simpl negb; cbv iota.
    + exists true. split; [done |]. split; [| done].
      intros _ k Hk. by assert (k = p) as -> by lia.
    + destruct (IH (p + 1) ltac:(lia) ltac:(lia)) as (b & -> & Hb).
      exists b. split; [done |]. rewrite Hb. split.
      * intros H k Hk. destruct (Z.eq_dec k p) as [-> | Hkp]; [done | apply H; lia].
      * intros H k Hk. apply H. lia.
  - exists false. split; [done |]. split; [done |].
    intros H. destruct Hne. apply H. lia.
Qed.

Lemma live_splits_eq (d1 d2 : DimensionInfo) :
  m_cSlices d1 = m_cSlices d2 ->
  m_cSlices d1 - 1 <= Z.of_nat (length (m_aSplits d1)) ->
  m_cSlices d1 - 1 <= Z.of_nat (length (m_aSplits d2)) ->
  live_splits d1 = live_splits d2 <->
  forall k, 0 <= k < m_cSlices d1 - 1 -> rd 0 (m_aSplits d1) k = rd 0 (m_aSplits d2) k.
Proof.
  intros Hs Hl1 Hl2. unfold live_splits. rewrite <- Hs. split.
  - intros E k Hk.
    rewrite <- (rd_take 0 (m_aSplits d1) (Z.to_nat (m_cSlices d1 - 1)) k) by lia.
    rewrite <- (rd_take 0 (m_aSplits d2) (Z.to_nat (m_cSlices d1 - 1)) k) by lia.
    by rewrite E.
  - intros H. apply take_ext_rd; try lia. intros k Hk. apply H. lia.
Qed.

Lemma IsEqual_dimensions_spec (bins : list Z) (ds1 ds2 pre1 pre2 : list DimensionInfo)
  (i c : Z) (t rhs : Tensor) :
  Dimensions_ok bins ds1 -> Dimensions_ok bins ds2 ->
  m_aDimensions t = pre1 ++ ds1 -> m_aDimensions rhs = pre2 ++ ds2 ->
  i = Z.of_nat (length pre1) -> i = Z.of_nat (length pre2) ->
  1 <= c -> c * fold_right Z.mul 1 bins <= SIZE_MAX ->
  exists r,
    IsEqual_dimensions (length bins) i c t rhs = Some r /\
    match r with
    | Some c' =>
        Dimensions_same (length bins) ds1 ds2 /\ c' = c * slices_product (length bins) ds1
    | None => ~ Dimensions_same (length bins) ds1 ds2
    end.
Proof.
  revert ds1 ds2 pre1 pre2 i c.
  induction bins as [| cBins bins IH];
    intros ds1 ds2 pre1 pre2 i c H1 H2 Hds1 Hds2 Hi1 Hi2 Hc Hmax.
  { simpl. eexists. split; [reflexivity |]. split; [done | lia]. }
  destruct ds1 as [| d1 ds1]; [done |]. destruct ds2 as [| d2 ds2]; [done |].
  simpl in H1, H2. destruct H1 as [Hd1 H1], H2 as [Hd2 H2].
  cbn [fold_right] in Hmax. cbn [length IsEqual_dimensions Dimensions_same slices_product hd tl].
  pose proof (bins_product_pos _ _ H1) as Hprod.
  pose proof (Dimension_ok_slices_le _ _ Hd1) as Hs1.
  pose proof (product_bounds c (m_cSlices d1) cBins _ Hc Hs1 Hprod) as (Hb0 & Hb1 & Hb2 & Hb3).
  destruct Hd1 as (HB & Hcap1 & Hlen1 & Hok1). destruct Hd2 as (_ & Hcap2 & Hlen2 & Hok2).
  replace (GetDimension t i) with d1
    by (unfold GetDimension; rewrite Hds1; symmetry; by apply rd_app_middle).
  replace (GetDimension rhs i) with d2
    by (unfold GetDimension; rewrite Hds2; symmetry; by apply rd_app_middle).
  destruct (Z.eqb_spec (m_cSlices d1) (m_cSlices d2)) as [Hs | Hs]; simpl negb; cbv iota;
    [| eexists; split; [reflexivity |]; by intros [[? ?] ?]].
  assert (Hrec : forall c0, 1 <= c0 -> c0 * fold_right Z.mul 1 bins <= SIZE_MAX ->
            exists r,
              IsEqual_dimensions (length bins) (i + 1) c0 t rhs = Some r /\
              match r with
              | Some c' =>
                  Dimensions_same (length bins) ds1 ds2 /\
                  c' = c0 * slices_product (length bins) ds1
              | None => ~ Dimensions_same (length bins) ds1 ds2
              end).
  { intros c0 Hc0 Hmax0.
    apply (IH ds1 ds2 (pre1 ++ [d1]) (pre2 ++ [d2])); try done.
    - by rewrite Hds1, <- app_assoc.
    - by rewrite Hds2, <- app_assoc.
    - rewrite length_app. simpl. lia.
    - rewrite length_app. simpl. lia. }
  pose proof (live_splits_eq d1 d2 Hs ltac:(lia) ltac:(lia)) as Hlive.
  destruct (Z.ltb_spec 1 (m_cSlices d1)) as [Hmany | Hone].
  - rewrite size_mul_small by lia.
    destruct (IsEqual_splits_spec (m_aSplits d1) (m_aSplits d2) (Z.to_nat (m_cSlices d1)) 0
                (0 + m_cSlices d1 - 1)) as (b & -> & Hb); try lia.
    destruct b.
    + destruct (Hrec (c * m_cSlices d1) ltac:(lia) ltac:(lia)) as (r & -> & Hr).
      exists r. split; [done |].
      assert (live_splits d1 = live_splits d2) as Heq.
      { apply Hlive. intros k Hk. apply (proj1 Hb eq_refl). lia. }
      destruct r as [c' |].
      * destruct Hr as [Hsame ->]. repeat split; try done. lia.
      * intros [_ Hsame]. by apply Hr.
    + eexists. split; [reflexivity |]. intros [[_ Heq] _].
      assert (false = true); [| done]. apply Hb. intros k Hk.
      apply (proj1 Hlive Heq). lia.
  - assert (m_cSlices d1 = 1) as Hs1' by lia.
    destruct (Hrec c ltac:(lia) ltac:(nia)) as (r & -> & Hr).
    exists r. split; [done |].
    assert (live_splits d1 = live_splits d2) as Heq.
    { apply Hlive. intros k Hk. lia. }
    destruct r as [c' |].
    + destruct Hr as [Hsame ->]. repeat split; try done. rewrite Hs1'. lia.
    + intros [_ Hsame]. by apply Hr.
Qed.

Lemma IsEqual_scores_spec (a1 a2 : list FloatScore) (fuel : nat) (p pEnd : Z) :
  p < pEnd -> pEnd - p <= Z.of_nat fuel ->
  exists b,
    IsEqual_scores fuel a1 a2 p p pEnd = Some b /\
    (b = true <->
     forall k, p <= k < pEnd -> float_eq (rd float_zero a1 k) (rd float_zero a2 k) = true).
Proof.
  revert p. induction fuel as [| fuel IH]; intros p Hp Hfuel; [lia |].
  cbn [IsEqual_scores].
  destruct (float_eq (rd float_zero a1 p) (rd float_zero a2 p)) eqn:Heq; simpl negb; cbv iota.
  - destruct (Z.eqb_spec pEnd (p + 1)) as [-> | Hmore]; simpl negb; cbv iota.
    + exists true. split; [done |]. split; [| done].
      intros _ k Hk. by assert (k = p) as -> by lia.
    + destruct (IH (p + 1) ltac:(lia) ltac:(lia)) as (b & -> & Hb).
      exists b. split; [done |]. rewrite Hb. split.
      * intros H k Hk. destruct (Z.eq_dec k p) as [-> | Hkp]; [done | apply H; lia].
      * intros H k Hk. apply H. lia.
  - exists false. split; [done |]. split; [done |].
    intros H. rewrite H in Heq by lia. done.
Qed.

(** What [IsEqual] decides on two tensors over the same features. *)
Lemma IsEqual_cases (bins : list Z) (t rhs : Tensor) :
  Tensor_ok bins t -> Tensor_ok bins rhs -> m_cScores rhs = m_cScores t ->
  exists b,
    IsEqual t rhs = Some b /\
    (b = true <->
     Dimensions_same (length bins) (m_aDimensions t) (m_aDimensions rhs) /\
     forall i, 0 <= i < live_scores t ->
       float_eq (rd float_zero (m_aTensorScores t) i) (rd float_zero (m_aTensorScores rhs) i)
       = true).
Proof.
  intros Hok1 Hok2 HSeq. unfold IsEqual.
  destruct (live_scores_spec _ _ Hok1) as [_ Hlive].
  destruct Hok1 as (HS & HD & Hds1 & Hlen & Hfit & Hmax).
  destruct Hok2 as (_ & HD' & Hds2 & Hlen' & Hfit' & _).
  rewrite HD, HD', Z.eqb_refl, Nat2Z.id. simpl negb. cbv iota.
  pose proof (bins_product_pos _ _ Hds1) as Hprod.
  destruct (IsEqual_dimensions_spec bins (m_aDimensions t) (m_aDimensions rhs) [] [] 0
              (m_cScores t) t rhs Hds1 Hds2) as (r & -> & Hr); try done.
  { unfold sizeof_FloatScore in Hmax. nia. }
  destruct r as [c' |]; [| exists false; split; [done |]; split; [done | by intros [? _]]].
  destruct Hr as [Hsame ->].
  unfold live_scores in *. rewrite HD, Nat2Z.id in *.
  destruct (IsEqual_scores_spec (m_aTensorScores t) (m_aTensorScores rhs)
              (Z.to_nat (m_cScores t * slices_product (length bins) (m_aDimensions t))) 0
              (0 + m_cScores t * slices_product (length bins) (m_aDimensions t)))
    as (b & -> & Hb); try lia.
  exists b. split; [done |]. rewrite Hb. split.
  - intros H. split; [done |]. intros i Hi. apply H. lia.
  - intros [_ H] k Hk. apply H. lia.
Qed.

Lemma float_eq_refl (x : spec_float) : float_eq x x = negb (isnan x).
Proof.
  unfold float_eq, SFeqb. destruct x as [s | s | | s m e]; try done; try (by destruct s).
  simpl. rewrite Z.compare_refl.
  destruct s; simpl; by rewrite Pos.compare_cont_refl.
Qed.

(** X5. On two valid tensors over the same features [IsEqual] returns, and
    it returns [true] exactly when the slice counts and the live splits of
    every dimension agree and every live score of the left tensor compares
    equal, as floats, to the score at the same place on the right; the
    samples at every bin coordinate then compare equal too. *)
Theorem IsEqual_decides (bins : list Z) (t rhs : Tensor) :
  Tensor_ok bins t -> Tensor_ok bins rhs -> m_cScores rhs = m_cScores t ->
  exists b,
    IsEqual t rhs = Some b /\
    (b = true <->
     Dimensions_same (length bins) (m_aDimensions t) (m_aDimensions rhs) /\
     forall i, 0 <= i < live_scores t ->
       float_eq (rd float_zero (m_aTensorScores t) i) (rd float_zero (m_aTensorScores rhs) i)
       = true) /\
    (b = true ->
     forall c j, coordinates_ok bins c -> 0 <= j < m_cScores t ->
       float_eq (sample t c j) (sample rhs c j) = true).
Proof.
  intros Hok1 Hok2 HSeq.
  destruct (IsEqual_cases bins t rhs Hok1 Hok2 HSeq) as (b & E & Hb).
  exists b. split; [done |]. split; [done |].
  intros Htrue c j Hc Hj. destruct (proj1 Hb Htrue) as [Hsame Hscores].
  destruct (Dimensions_same_cells bins _ _ Hsame) as [_ Hcell].
  unfold sample. rewrite HSeq, <- Hcell by done. apply Hscores.
  destruct Hok1 as (HS & HD & Hds1 & _).
  destruct (cell_offset_bounds bins c (m_aDimensions t) (m_cScores t) Hds1 Hc ltac:(lia))
    as [Hlo Hhi].
  unfold live_scores. rewrite HD, Nat2Z.id. lia.
Qed.

Lemma Dimensions_same_refl (n : nat) (ds : list DimensionInfo) :
  (n <= length ds)%nat -> Dimensions_same n ds ds.
Proof.
  revert ds. induction n as [| n IH]; intros ds Hn; [done |].
  destruct ds as [| d ds]; [simpl in Hn; lia |]. simpl in *.
  split; [done |]. apply IH. lia.
Qed.

(** X6. A valid tensor equals itself, for [IsEqual], exactly when none of
    its live scores is NaN: the scores are compared with the [!=] of the
    floats. *)
Theorem IsEqual_self (bins : list Z) (t : Tensor) :
  Tensor_ok bins t ->
  exists b,
    IsEqual t t = Some b /\
    (b = true <->
     forall i, 0 <= i < live_scores t -> isnan (rd float_zero (m_aTensorScores t) i) = false).
Proof.
  intros Hok.
  destruct (IsEqual_cases bins t t Hok Hok eq_refl) as (b & E & Hb).
  exists b. split; [done |]. rewrite Hb.
  destruct Hok as (_ & _ & Hds & _). pose proof (Dimensions_ok_length _ _ Hds) as Hn.
  split.
  - intros [_ H] i Hi. specialize (H i Hi). rewrite float_eq_refl in H.
    by destruct (isnan _).
  - intros H. split; [by apply Dimensions_same_refl |].
    intros i Hi. rewrite float_eq_refl, H by done. done.
Qed.

(** X7. After a [Copy] that returned [Error_None], [IsEqual] on the copy and
    its source returns [true] exactly when no live score of the source is
    NaN. *)
Theorem Copy_then_IsEqual (bins : list Z) (t rhs t' : Tensor) :
  1 < sizeof_UIntSplit -> Tensor_ok bins t -> Tensor_ok bins rhs ->
  m_cScores rhs = m_cScores t ->
  Copy t rhs = (Error_None, t') ->
  exists b,
    IsEqual t' rhs = Some b /\
    (b = true <->
     forall i, 0 <= i < live_scores rhs ->
       isnan (rd float_zero (m_aTensorScores rhs) i) = false).
Proof.
  intros Hsz Hok1 Hok2 HSeq E.
  destruct (Copy_spec bins t rhs Hsz Hok1 Hok2 HSeq) as (error & t0 & E0 & _ & Hpost).
  rewrite E in E0. injection E0 as <- <-.
  destruct (Hpost eq_refl) as (Hok' & _ & HS' & HD' & Hsame & Hscores).
  destruct (IsEqual_cases bins t' rhs Hok' Hok2 ltac:(congruence)) as (b & Eb & Hb).
  exists b. split; [done |]. rewrite Hb.
  destruct (Dimensions_same_cells bins _ _ Hsame) as [Hprod _].
  assert (live_scores t' = live_scores rhs) as Hlive.
  { unfold live_scores. destruct Hok' as (_ & -> & _). destruct Hok2 as (_ & -> & _).
    rewrite Nat2Z.id, Hprod. congruence. }
  rewrite Hlive. split.
  - intros [_ H] i Hi. specialize (H i Hi). rewrite Hscores, float_eq_refl in H by done.
    by destruct (isnan _).
  - intros H. split; [done |]. intros i Hi.
    rewrite Hscores, float_eq_refl, H by done. done.
Qed.

(** ** [Expand] keeps the invariants *)

Lemma dense_splits_ok (l : list Z) (lo hi : Z) :
  Z.of_nat (length l) < hi - lo ->
  (forall k, 0 <= k < Z.of_nat (length l) -> rd 0 l k = lo + 1 + k) ->
  splits_ok lo hi l.
Proof.
  revert lo. induction l as [| s l IH]; intros lo Hlen Hrd; [done |].
  simpl length in *. pose proof (Hrd 0 ltac:(lia)) as H0. rewrite rd_cons_0 in H0.
  split; [lia |]. apply IH; [lia |].
  intros k Hk. specialize (Hrd (k + 1) ltac:(lia)). rewrite rd_cons in Hrd by lia.
  replace (k + 1 - 1) with k in Hrd by lia. lia.
Qed.

Lemma Dimension_dense_ok (cBins : Z) (d : DimensionInfo) :
  1 <= cBins -> m_cSlices d = cBins -> cBins <= m_cSliceCapacity d ->
  Z.of_nat (length (m_aSplits d)) = m_cSliceCapacity d - 1 ->
  (forall k, 0 <= k < cBins - 1 -> rd 0 (m_aSplits d) k = k + 1) ->
  Dimension_ok cBins d.
Proof.
  intros HB Hs Hcap Hlen Hrd. repeat split; try lia.
  apply dense_splits_ok; unfold live_splits; rewrite length_take; [lia |].
  intros k Hk. rewrite rd_take by lia. rewrite Hrd by lia. lia.
Qed.

Lemma Expand_splits_ok (bins : list Z) (ds pre : list DimensionInfo) (i : Z) (t : Tensor) :
  1 < sizeof_UIntSplit ->
  Dimensions_ok bins ds -> fold_right Z.mul 1 bins <= SIZE_MAX ->
  m_aDimensions t = pre ++ ds -> i = Z.of_nat (length pre) ->
  exists error t',
    Expand_splits bins i t = Some (error, t') /\
    (error = Error_None \/ error = Error_OutOfMemory) /\
    m_aTensorScores t' = m_aTensorScores t /\
    m_cTensorScoreCapacity t' = m_cTensorScoreCapacity t /\
    m_cScores t' = m_cScores t /\
    m_cDimensions t' = m_cDimensions t /\
    (error = Error_None ->
     exists ds', m_aDimensions t' = pre ++ ds' /\ Dimensions_dense bins ds' /\
       Dimensions_ok bins ds').
Proof.
  intros Hsz. revert ds pre i t.
  induction bins as [| cBins bins IH]; intros ds pre i t Hok Hmax Hds Hi; simpl in *.
  { exists Error_None, t. split; [done |]. split; [by left |]. repeat split; try done.
    intros _. by exists ds. }
  destruct ds as [| d ds]; [done |]. destruct Hok as [Hd Hok].
  pose proof (bins_product_pos _ _ Hok) as Hprod.
  pose proof (Dimension_ok_slices_le _ _ Hd) as Hslices.
  assert (cBins <= SIZE_MAX) as HB by nia.
  assert (fold_right Z.mul 1 bins <= SIZE_MAX) as Hmax' by nia.
  unfold GetDimension at 1. rewrite Hds, (rd_app_middle _ d pre ds i Hi).
  destruct (Z.eqb_spec cBins (m_cSlices d)) as [Heq | Hne]; simpl negb; cbv iota.
  - destruct (IH ds (pre ++ [d]) (i + 1) t Hok Hmax')
      as (error & t' & E & Herr & Hs & Hcp & HS & HD & Hdense).
    { by rewrite <- app_assoc. }
    { rewrite length_app. simpl. lia. }
    exists error, t'. repeat split; try done.
    intros He. destruct (Hdense He) as (ds' & Hds' & Hdense' & Hok').
    exists (d :: ds'). split; [by rewrite Hds', <- app_assoc |].
    simpl. split; [| done]. split; [| done]. split; [done |]. by apply Dimension_ok_dense.
  - destruct Hd as (HB1 & Hcap & Hlen & Hsplits).
    destruct (SetCountSlices_cases t pre ds d i cBins Hsz Hds Hi Hlen ltac:(lia))
      as [-> | (d1 & -> & Hc1 & Hcap1 & Hlen1 & Hkeep)].
    { exists Error_OutOfMemory, t. split; [done |]. split; [by right |]. by repeat split. }
    unfold GetDimension. simpl m_aDimensions.
    rewrite (rd_app_middle _ d1 pre ds i Hi).
    destruct (Expand_edges_spec cBins (Z.to_nat cBins) (m_aSplits d1) 1)
      as (aSplit & -> & Hl & Hrd); try lia.
    unfold with_dimension. simpl m_aDimensions.
    rewrite (wr_app_middle d1 _ pre ds i Hi).
    destruct (IH ds (pre ++ [with_aSplits d1 aSplit]) (i + 1)
                (with_dimensions (with_dimensions t (pre ++ d1 :: ds))
                   (pre ++ with_aSplits d1 aSplit :: ds)) Hok Hmax')
      as (error & t' & E & Herr & Hs & Hcp & HS & HD & Hdense).
    { simpl. by rewrite <- app_assoc. }
    { rewrite length_app. simpl. lia. }
    exists error, t'. repeat split; try done.
    intros He. destruct (Hdense He) as (ds' & Hds' & Hdense' & Hok').
    exists (with_aSplits d1 aSplit :: ds'). split; [by rewrite Hds', <- app_assoc |].
    assert (forall k, 0 <= k < cBins - 1 -> rd 0 aSplit k = k + 1) as Hedges.
    { intros k Hk. rewrite Hrd.
      by destruct (Z.leb_spec (1 - 1) k), (Z.ltb_spec k (cBins - 1)); try lia. }
    simpl. split; [split; [| done] | split; [| done]].
    + split; [done |]. split; [lia | done].
    + apply Dimension_dense_ok; simpl; try done; lia.
Qed.

Lemma Dimensions_dense_product (bins : list Z) (ds : list DimensionInfo) :
  Dimensions_dense bins ds -> slices_product (length bins) ds = fold_right Z.mul 1 bins.
Proof.
  revert ds. induction bins as [| cBins bins IH]; intros ds H; [done |].
  destruct ds as [| d ds]; [done |]. simpl in H. destruct H as [(Hs & _) H].
  cbn [slices_product length hd tl fold_right]. by rewrite Hs, IH.
Qed.

(** What [Expand] does on a tensor that is not expanded. *)
Lemma Expand_spec (bins : list Z) (t : Tensor) :
  1 < sizeof_UIntSplit -> Tensor_ok bins t -> m_bExpanded t = false ->
  exists error t',
    Expand t (mkTerm bins) = Some (error, t') /\
    (error = Error_None \/ error = Error_OutOfMemory) /\
    (error = Error_None ->
     Tensor_ok bins t' /\
     m_bExpanded t' = true /\
     m_cScores t' = m_cScores t /\
     Dimensions_dense bins (m_aDimensions t') /\
     forall c j, coordinates_ok bins c -> 0 <= j < m_cScores t ->
       sample t' c j = sample t c j).
Proof.
  intros Hsz Hok Hflag. unfold Expand. rewrite Hflag.
  destruct (live_scores_spec _ _ Hok) as [_ Hlive].
  destruct Hok as (HS & HD & Hds & Hlen & Hfit & Hmax).
  unfold GetCountDimensions, GetCountTensorBins. simpl m_aTermFeatures.
  destruct bins as [| cBins bins'].
  { simpl. exists Error_None, (with_expanded t true).
    split; [done |]. split; [by left |]. intros _. repeat split; try done. }
  set (bins := cBins :: bins') in *.
  destruct (Z.eqb_spec 0 (Z.of_nat (length bins))) as [Hz | _]; [simpl in Hz; lia |].
  simpl negb. cbv iota.
  pose proof (bins_product_pos _ _ Hds) as Hprod.
  set (N := fold_right Z.mul 1 bins) in *.
  assert (m_cScores t * N <= SIZE_MAX) as HSN by (unfold sizeof_FloatScore in Hmax; lia).
  assert (1 <= m_cScores t * N) as HSN1 by nia.
  rewrite (Expand_count_spec bins (m_aDimensions t) (m_cScores t)) by done.
  fold N. rewrite size_mul_small by lia.
  destruct (EnsureTensorScoreCapacity_cases t (m_cScores t * N) ltac:(lia) Hmax Hlen)
    as [-> | (a1 & c1 & -> & Hlen1 & Hroom & Hkeep)].
  { exists Error_OutOfMemory, t. split; [done |]. split; [by right | done]. }
  simpl m_cScores. simpl m_aDimensions. simpl m_aTensorScores.
  destruct (Expand_scores_spec bins (m_aDimensions t) (m_cScores t) a1 Hds HS HSN Hroom
              (Z.to_nat (m_cScores t * N)) (N - 1) a1) as (a2 & E2 & Hlen2 & Hscores);
    try done; try nia.
  rewrite <- (expand_source_last bins (m_aDimensions t) (m_cScores t) Hds).
  fold N. replace (N - 1 + 1) with N in E2 by lia.
  rewrite E2.
  destruct (Expand_splits_ok bins (m_aDimensions t) [] 0
              (with_scores (with_score_buffer t a1 c1) a2) Hsz Hds)
    as (error & t2 & -> & Herr & Hs2 & Hcp2 & HS2 & HD2 & Hdense); try done; [fold N; nia |].
  destruct Herr as [-> | ->].
  - exists Error_None, (with_expanded t2 true). split; [done |]. split; [by left |].
    intros _. destruct (Hdense eq_refl) as (ds' & Hds' & Hdense' & Hok'). simpl in Hds'.
    simpl in Hs2, Hcp2, HS2, HD2.
    split; [| split; [done |]; split; [done |]; split; [simpl; by rewrite Hds' |]].
    + unfold Tensor_ok, live_scores. simpl.
      rewrite Hs2, Hcp2, HS2, HD2, HD, Nat2Z.id, Hds', (Dimensions_dense_product _ _ Hdense').
      fold N. repeat split; try done; lia.
    + intros c j Hc Hj. unfold sample. simpl. rewrite Hs2, HS2, Hds'.
      destruct (cell_offset_dense bins c ds' (m_cScores t) Hdense' Hc) as [-> _].
      pose proof (flatten_range bins c Hc) as Hn. fold N in Hn.
      rewrite Hscores by done.
      rewrite expand_source_flatten by done.
      apply Hkeep.
      pose proof (expand_source_lt bins (m_aDimensions t) (m_cScores t) (flatten bins c) Hds
                    ltac:(lia)) as Hlt.
      rewrite expand_source_flatten in Hlt by done.
      unfold live_scores in Hfit. rewrite HD, Nat2Z.id in Hfit. lia.
  - exists Error_OutOfMemory, t2. split; [done |]. split; [by right | done].
Qed.

(** X8. [Expand] keeps the invariants of the tensor. Applied to a tensor
    that is not expanded, a successful [Expand] leaves one slice per bin in
    every dimension, so that the tensor has [S * prod bin_count] live
    scores, and sets the flag. *)
Theorem Expand_keeps_invariants (bins : list Z) (t t' : Tensor) :
  1 < sizeof_UIntSplit -> Tensor_ok bins t ->
  Expand t (mkTerm bins) = Some (Error_None, t') ->
  Tensor_ok bins t' /\
  m_bExpanded t' = true /\
  (m_bExpanded t = false ->
   Dimensions_dense bins (m_aDimensions t') /\
   live_scores t' = m_cScores t * fold_right Z.mul 1 bins).
Proof.
  intros Hsz Hok E. destruct (m_bExpanded t) eqn:Hflag.
  { unfold Expand in E. rewrite Hflag in E. injection E as <-.
    split; [done |]. split; [done |]. intros [=]. }
  destruct (Expand_spec bins t Hsz Hok Hflag) as (error & t0 & E0 & _ & Hpost).
  rewrite E in E0. injection E0 as <- <-.
  destruct (Hpost eq_refl) as (Hok' & Hflag' & HS' & Hdense & _).
  split; [done |]. split; [done |]. intros _. split; [done |].
  unfold live_scores. destruct Hok' as (_ & -> & _).
  by rewrite Nat2Z.id, (Dimensions_dense_product _ _ Hdense), HS'.
Qed.

(** X9. [Expand] followed by [AddExpandedWithBadValueProtection]: after a
    successful expansion the added scores are indexed by the flat index of
    the bin coordinates, first dimension fastest, and every sample becomes
    the clamped sum of the sample before the expansion and the added score
    of its bin. *)
Theorem Expand_then_AddExpanded (bins : list Z) (t t1 : Tensor)
  (aFromScores : list FloatScore) :
  1 < sizeof_UIntSplit -> Tensor_ok bins t -> m_bExpanded t = false ->
  Expand t (mkTerm bins) = Some (Error_None, t1) ->
  exists t2,
    AddExpandedWithBadValueProtection t1 aFromScores = Some t2 /\
    Tensor_ok bins t2 /\
    forall c j, coordinates_ok bins c -> 0 <= j < m_cScores t ->
      sample t2 c j
      = AddWithBadValueProtection (sample t c j)
          (rd float_zero aFromScores (m_cScores t * flatten bins c + j)).
Proof.
  intros Hsz Hok Hflag E.
  destruct (Expand_spec bins t Hsz Hok Hflag) as (error & t0 & E0 & _ & Hpost).
  rewrite E in E0. injection E0 as <- <-.
  destruct (Hpost eq_refl) as (Hok1 & Hflag1 & HS1 & Hdense & Hsample).
  destruct (live_scores_spec _ _ Hok1) as [Hcount Hlive].
  destruct Hok1 as (HS & HD & Hds & Hlen & Hfit & Hmax).
  unfold AddExpandedWithBadValueProtection. rewrite Hcount.
  destruct (AddExpanded_loop_spec aFromScores (Z.to_nat (live_scores t1)) (m_aTensorScores t1)
              0 (live_scores t1)) as (a & -> & Hl & Hrd); try lia.
  eexists. split; [reflexivity |]. split.
  { unfold Tensor_ok, live_scores in *. simpl. rewrite Hl. by repeat split. }
  intros c j Hc Hj. rewrite <- (Hsample c j Hc Hj). unfold sample. simpl.
  destruct (cell_offset_dense bins c (m_aDimensions t1) (m_cScores t1) Hdense Hc) as [-> Hprod].
  pose proof (flatten_range bins c Hc) as Hn.
  rewrite Hrd, HS1.
  assert (m_cScores t * flatten bins c + j < live_scores t1) as Hin.
  { unfold live_scores. rewrite HD, Nat2Z.id, Hprod, HS1. nia. }
  by destruct (Z.leb_spec 0 (m_cScores t * flatten bins c + j)),
    (Z.ltb_spec (m_cScores t * flatten bins c + j) (live_scores t1)); try nia.
Qed.

(** ** [Add] keeps the invariants *)

Lemma Add_splits_ok (bins : list Z) (ds1 ds2 pre : list DimensionInfo) (i n : Z)
  (t : Tensor) :
  1 < sizeof_UIntSplit ->
  Dimensions_ok bins ds1 -> Dimensions_ok bins ds2 ->
  fold_right Z.mul 1 bins <= SIZE_MAX ->
  m_aDimensions t = pre ++ ds1 -> i = Z.of_nat (length pre) ->
  exists error t',
    Add_splits (add_stack bins ds1 ds2 n) ds2 i t = Some (error, t') /\
    (error = Error_None \/ error = Error_OutOfMemory) /\
    m_aTensorScores t' = m_aTensorScores t /\
    m_cTensorScoreCapacity t' = m_cTensorScoreCapacity t /\
    m_bExpanded t' = m_bExpanded t /\
    m_cScores t' = m_cScores t /\
    m_cDimensions t' = m_cDimensions t /\
    (error = Error_None ->
     exists ds', m_aDimensions t' = pre ++ ds' /\ Dimensions_merged bins ds1 ds2 ds' /\
       Dimensions_ok bins ds' /\
       slices_product (length bins) ds' = fold_right Z.mul 1 (merged_slices bins ds1 ds2)).
Proof.
  intros Hsz. revert ds1 ds2 pre i n t.
  induction bins as [| cBins bins IH]; intros ds1 ds2 pre i n t H1 H2 Hmax Hds Hi.
  { simpl. exists Error_None, t. split; [done |]. split; [by left |]. repeat split; try done.
    intros _. by exists ds1. }
  destruct ds1 as [| d1 ds1]; [done |]. destruct ds2 as [| d2 ds2]; [done |].
  simpl in H1, H2. destruct H1 as [Hd1 H1], H2 as [Hd2 H2].
  cbn [fold_right] in Hmax.
  cbn [add_stack Add_splits hd tl DimensionInfoStack.m_cNewSlices].
  destruct (merged_dimension cBins d1 d2 ds1 ds2 Hd1 Hd2) as (HM & HcN1 & HcN2 & HN & Hsum).
  pose proof (bins_product_pos _ _ H1) as Hprod.
  pose proof (Dimension_ok_slices_le _ _ Hd1) as Hs1.
  pose proof (Dimension_ok_slices_le _ _ Hd2) as Hs2.
  pose proof (length_live_splits _ _ Hd1) as Hl1.
  pose proof (length_live_splits _ _ Hd2) as Hl2.
  assert (cBins <= SIZE_MAX) as HB by nia.
  assert (fold_right Z.mul 1 bins <= SIZE_MAX) as Hmax' by nia.
  destruct Hd1 as (HB1 & Hcap1 & Hlen1 & Hok1). destruct Hd2 as (_ & Hcap2 & Hlen2 & Hok2).
  assert (merged_count (d1 :: ds1) (d2 :: ds2) - 1
          = Z.of_nat (length (merge_union (live_splits d1) (live_splits d2)))) as HNM
    by (unfold merged_count, merged_splits; simpl hd; lia).
  change (merged_splits (d1 :: ds1) (d2 :: ds2))
    with (merge_union (live_splits d1) (live_splits d2)) in *.
  set (N := merged_count (d1 :: ds1) (d2 :: ds2)) in *.
  replace (GetDimension t i) with d1
    by (unfold GetDimension; rewrite Hds; symmetry; by apply rd_app_middle).
  destruct (SetCountSlices_cases t pre ds1 d1 i N Hsz Hds Hi Hlen1 ltac:(lia))
    as [-> | (d1' & -> & Hc1 & Hcap1' & Hlen1' & Hkeep)].
  { exists Error_OutOfMemory, t. split; [done |]. split; [by right |]. by repeat split. }
  unfold GetDimension. simpl m_aDimensions.
  rewrite (rd_app_middle _ d1' pre ds1 i Hi).
  rewrite !size_sub_small by lia.
  assert (slice_of (live_splits d1)
            (lower_edge (merge_union (live_splits d1) (live_splits d2))
               (Z.of_nat (length (merge_union (live_splits d1) (live_splits d2)))))
          = m_cSlices d1 - 1) as Ht1.
  { rewrite <- Hl1. apply (merged_top 0 cBins); try done.
    intros v Hv. apply merge_union_In. by left. }
  assert (slice_of (live_splits d2)
            (lower_edge (merge_union (live_splits d1) (live_splits d2))
               (Z.of_nat (length (merge_union (live_splits d1) (live_splits d2)))))
          = m_cSlices d2 - 1) as Ht2.
  { rewrite <- Hl2. apply (merged_top 0 cBins); try done.
    intros v Hv. apply merge_union_In. by right. }
  rewrite HNM, <- Ht1, <- Ht2.
  destruct (Add_merge_splits_spec cBins (live_splits d1) (live_splits d2) (m_aSplits d2)
              (Z.to_nat N) (Z.of_nat (length (merge_union (live_splits d1) (live_splits d2))))
              (m_aSplits d1') Hok1 Hok2) as (aSplits & -> & Hla & Hrda); try lia.
  { intros k Hk. unfold live_splits in *. rewrite length_take in Hk. symmetry.
    apply rd_take. lia. }
  { intros k Hk. rewrite Ht1 in Hk. rewrite Hkeep by lia.
    unfold live_splits. symmetry. apply rd_take. lia. }
  unfold with_dimension. simpl m_aDimensions.
  rewrite (wr_app_middle d1' _ pre ds1 i Hi).
  destruct (IH ds1 ds2 (pre ++ [with_aSplits d1' aSplits]) (i + 1) (n / N)
              (with_dimensions (with_dimensions t (pre ++ d1' :: ds1))
                 (pre ++ with_aSplits d1' aSplits :: ds1)) H1 H2 Hmax')
    as (error & t' & E & Herr & Hs & Hcp & Hflag & HS & HD & Hmerged).
  { simpl. by rewrite <- app_assoc. }
  { rewrite length_app. simpl. lia. }
  exists error, t'. repeat split; try done.
  intros He. destruct (Hmerged He) as (ds' & Hds' & Hmerged' & Hok' & Hprod').
  exists (with_aSplits d1' aSplits :: ds'). split; [by rewrite Hds', <- app_assoc |].
  assert (live_splits (with_aSplits d1' aSplits)
          = merge_union (live_splits d1) (live_splits d2)) as Hlive.
  { unfold live_splits at 1. simpl. rewrite Hc1, HNM, Nat2Z.id.
    apply take_eq_rd; [lia | done]. }
  cbn [Dimensions_merged Dimensions_ok slices_product merged_slices fold_right length hd tl].
  rewrite Hlive, Hprod'. fold N. simpl m_cSlices. rewrite Hc1.
  split; [split; [| done] | split; [split; [| done] | done]].
  - split; [done |]. split; [apply merge_union_In |]. lia.
  - unfold Dimension_ok. rewrite Hlive. simpl. rewrite Hc1, Hla.
    repeat split; try done; lia.
Qed.

(** What [Add] does on two tensors over the same features. *)
Lemma Add_spec (bins : list Z) (t rhs : Tensor) :
  1 < sizeof_UIntSplit -> Tensor_ok bins t -> Tensor_ok bins rhs ->
  m_cScores rhs = m_cScores t ->
  exists error t',
    Add t rhs = Some (error, t') /\
    (error = Error_None \/ error = Error_OutOfMemory) /\
    (error = Error_None ->
     Tensor_ok bins t' /\
     m_bExpanded t' = m_bExpanded t /\
     m_cScores t' = m_cScores t /\
     Dimensions_merged bins (m_aDimensions t) (m_aDimensions rhs) (m_aDimensions t') /\
     forall c j, coordinates_ok bins c -> 0 <= j < m_cScores t ->
       sample t' c j = float_add (sample t c j) (sample rhs c j)).
Proof.
  intros Hsz Hok1 Hok2 HSeq.
  destruct bins as [| cBins bins'].
  { destruct Hok1 as (HS & HD & Hds & Hlen & Hfit & Hmax). unfold Add.
    simpl in HD. rewrite HD. change (0 =? 0) with true. cbv iota.
    unfold live_scores in Hfit. rewrite HD in Hfit. simpl in Hfit.
    destruct (Add_scalar_spec (m_aTensorScores rhs) (Z.to_nat (m_cScores t))
                (m_aTensorScores t) 0 (m_cScores t)) as (a & -> & Hl & Hrd); try lia.
    eexists Error_None, _. split; [reflexivity |]. split; [by left |]. intros _.
    split; [| split; [done |]; split; [done |]; split; [done |]].
    - unfold Tensor_ok, live_scores. simpl. rewrite Hl, HD. simpl. repeat split; try done; lia.
    - intros [| b c] j Hc Hj; [| done]. unfold sample. simpl. rewrite Hrd.
      by destruct (Z.leb_spec 0 (0 + j)), (Z.ltb_spec (0 + j) (m_cScores t)); try lia. }
  set (bins := cBins :: bins') in *.
  unfold Add.
  destruct Hok1 as (HS & HD & Hds1 & Hlen & Hfit & Hmax).
  destruct Hok2 as (_ & HD' & Hds2 & Hlen' & Hfit' & _).
  destruct (Z.eqb_spec 0 (m_cDimensions t)) as [Hz | _]; [simpl in HD; lia |].
  rewrite HD, Nat2Z.id.
  pose proof (bins_product_pos _ _ Hds1) as Hprod.
  destruct (merged_slices_product bins _ _ Hds1 Hds2) as (HP & _ & _).
  remember (fold_right Z.mul 1 (merged_slices bins (m_aDimensions t) (m_aDimensions rhs)))
    as N eqn:EN.
  assert (m_cScores t * fold_right Z.mul 1 bins <= SIZE_MAX) as HSB
    by (unfold sizeof_FloatScore in Hmax; lia).
  assert (m_cScores t * N <= m_cScores t * fold_right Z.mul 1 bins) as HSN
    by (apply Z.mul_le_mono_nonneg_l; lia).
  assert (N <= m_cScores t * N) as HSN1 by nia.
  rewrite (Add_count_spec bins (m_aDimensions t) (m_aDimensions rhs)) by done.
  rewrite <- EN.
  destruct (EnsureTensorScoreCapacity_cases t (m_cScores t * N) ltac:(lia)
              ltac:(unfold sizeof_FloatScore in *; lia) Hlen)
    as [-> | (a1 & c1 & -> & Hlen1 & Hroom & Hkeep)].
  { exists Error_OutOfMemory, t. split; [done |]. split; [by right | done]. }
  simpl m_cScores. simpl m_aDimensions. simpl m_aTensorScores.
  destruct (add_source_last bins (m_aDimensions t) (m_aDimensions rhs) (m_cScores t) Hds1 Hds2)
    as [Hlast1 Hlast2].
  rewrite <- EN in Hlast1, Hlast2.
  destruct (Add_scores_spec bins (m_aDimensions t) (m_aDimensions rhs) (m_cScores t) a1
              (m_aTensorScores rhs) Hds1 Hds2 HS HSB ltac:(rewrite <- EN; lia)
              (Z.to_nat (m_cScores t * N)) (N - 1) a1) as (a2 & E2 & Hlen2 & Hscores);
    rewrite <- ?EN; try done; try lia.
  rewrite <- ?EN, Hlast1, Hlast2 in E2. replace (N - 1 + 1) with N in E2 by lia.
  rewrite E2.
  destruct (Add_splits_ok bins (m_aDimensions t) (m_aDimensions rhs) [] 0 (N - 1)
              (with_scores (with_score_buffer t a1 c1) a2) Hsz Hds1 Hds2)
    as (error & t2 & -> & Herr & Hs2 & Hcp2 & Hflag2 & HS2 & HD2 & Hmerged); try done; [nia |].
  exists error, t2. split; [done |]. split; [done |].
  intros He. destruct (Hmerged He) as (ds' & Hds' & Hmerged' & Hok' & Hprod'). simpl in Hds'.
  simpl in Hs2, Hcp2, Hflag2, HS2, HD2.
  split; [| split; [done |]; split; [done |]; split; [by rewrite Hds' |]].
  - unfold Tensor_ok, live_scores.
    rewrite Hs2, Hcp2, HS2, HD2, HD, Nat2Z.id, Hds', Hprod', <- EN.
    repeat split; try done; lia.
  - intros c j Hc Hj. unfold sample. rewrite Hs2, HS2, Hds', HSeq. simpl.
    destruct (add_source_cell bins c _ _ ds' Hds1 Hds2 Hmerged' Hc) as (n & Hn & Hcell).
    destruct (Hcell (m_cScores t)) as (-> & <- & <-).
    rewrite <- EN in Hn, Hscores. rewrite Hscores by done.
    f_equal. apply Hkeep.
    pose proof (add_source_lt bins (m_aDimensions t) (m_aDimensions t) (m_aDimensions rhs)
                  (m_cScores t) n Hds1 ltac:(lia)) as Hlt.
    unfold live_scores in Hfit. rewrite HD, Nat2Z.id in Hfit. lia.
Qed.

(** X10. [Add] keeps the invariants of the left tensor and its flag: after
    [Error_None] the result is again a valid tensor over the same features,
    for tensors with or without dimensions. *)
Theorem Add_keeps_invariants (bins : list Z) (t rhs t' : Tensor) :
  1 < sizeof_UIntSplit -> Tensor_ok bins t -> Tensor_ok bins rhs ->
  m_cScores rhs = m_cScores t ->
  Add t rhs = Some (Error_None, t') ->
  Tensor_ok bins t' /\ m_bExpanded t' = m_bExpanded t /\ m_cScores t' = m_cScores t.
Proof.
  intros Hsz Hok1 Hok2 HSeq E.
  destruct (Add_spec bins t rhs Hsz Hok1 Hok2 HSeq) as (error & t0 & E0 & _ & Hpost).
  rewrite E in E0. injection E0 as <- <-.
  by destruct (Hpost eq_refl) as (Hok' & Hflag & HS' & _).
Qed.

(** ** [Expand] and [Add] together *)

Lemma Expand_samples (bins : list Z) (t t' : Tensor) :
  1 < sizeof_UIntSplit -> Tensor_ok bins t ->
  Expand t (mkTerm bins) = Some (Error_None, t') ->
  Tensor_ok bins t' /\ m_cScores t' = m_cScores t /\
  forall c j, coordinates_ok bins c -> 0 <= j < m_cScores t -> sample t' c j = sample t c j.
Proof.
  intros Hsz Hok E. destruct (m_bExpanded t) eqn:Hflag.
  { unfold Expand in E. rewrite Hflag in E. by injection E as <-. }
  destruct (Expand_spec bins t Hsz Hok Hflag) as (error & t0 & E0 & _ & Hpost).
  rewrite E in E0. injection E0 as <- <-.
  by destruct (Hpost eq_refl) as (Hok' & _ & HS' & _ & Hsample).
Qed.

(** X11. [Expand] and [Add] commute on the samples: adding two tensors and
    adding their expansions give results with the same score at every bin
    coordinate, whenever the four operations return [Error_None]. *)
Theorem Expand_Add_commute (bins : list Z) (a b a1 b1 r r1 : Tensor) :
  1 < sizeof_UIntSplit -> Tensor_ok bins a -> Tensor_ok bins b ->
  m_cScores b = m_cScores a ->
  Expand a (mkTerm bins) = Some (Error_None, a1) ->
  Expand b (mkTerm bins) = Some (Error_None, b1) ->
  Add a1 b1 = Some (Error_None, r1) ->
  Add a b = Some (Error_None, r) ->
  forall c j, coordinates_ok bins c -> 0 <= j < m_cScores a ->
    sample r1 c j = sample r c j.
Proof.
  intros Hsz Hoka Hokb HSeq Ea Eb E1 E c j Hc Hj.
  destruct (Expand_samples bins a a1 Hsz Hoka Ea) as (Hoka1 & HSa & Hsa).
  destruct (Expand_samples bins b b1 Hsz Hokb Eb) as (Hokb1 & HSb & Hsb).
  destruct (Add_spec bins a b Hsz Hoka Hokb HSeq) as (e & r' & E' & _ & Hpost).
  rewrite E in E'. injection E' as <- <-.
  destruct (Hpost eq_refl) as (_ & _ & _ & _ & Hsum).
  destruct (Add_spec bins a1 b1 Hsz Hoka1 Hokb1 ltac:(congruence))
    as (e1 & r1' & E1' & _ & Hpost1).
  rewrite E1 in E1'. injection E1' as <- <-.
  destruct (Hpost1 eq_refl) as (_ & _ & _ & _ & Hsum1).
  rewrite Hsum1, Hsum by (done || lia).
  rewrite Hsa by done. rewrite Hsb by (done || lia). done.
Qed.

(** ** [Add] on tensors with the same partition *)

Lemma merge_union_same (l : list Z) : merge_union l l = l.
Proof.
  induction l as [| a l IH]; [done |].
  rewrite merge_union_cons, Z.ltb_irrefl. by rewrite IH.
Qed.

Lemma Dimensions_same_merged (bins : list Z) (ds1 ds2 : list DimensionInfo) :
  Dimensions_ok bins ds1 -> Dimensions_same (length bins) ds1 ds2 ->
  fold_right Z.mul 1 (merged_slices bins ds1 ds2) = slices_product (length bins) ds1.
Proof.
  revert ds1 ds2. induction bins as [| cBins bins IH]; intros ds1 ds2 H1 Hsame; [done |].
  destruct ds1 as [| d1 ds1]; [done |]. destruct ds2 as [| d2 ds2]; [done |].
  simpl in H1, Hsame. destruct H1 as [Hd1 H1], Hsame as [[Hs Hl] Hsame].
  cbn [merged_slices fold_right slices_product length hd tl].
  rewrite (IH ds1 ds2 H1 Hsame). f_equal.
  unfold merged_count, merged_splits. simpl hd. rewrite <- Hl, merge_union_same.
  pose proof (length_live_splits _ _ Hd1). lia.
Qed.

Lemma EnsureTensorScoreCapacity_enough (t : Tensor) (cTensorScores : Z) :
  0 <= cTensorScores -> cTensorScores <= Z.of_nat (length (m_aTensorScores t)) ->
  Z.of_nat (length (m_aTensorScores t)) = m_cTensorScoreCapacity t / sizeof_FloatScore ->
  sizeof_FloatScore * cTensorScores <= SIZE_MAX ->
  EnsureTensorScoreCapacity t cTensorScores = (Error_None, t).
Proof.
  intros Hk Hroom Hlen Hfit. unfold EnsureTensorScoreCapacity, IsMultiplyError, AlignedGrow.
  destruct (Z.ltb_spec SIZE_MAX (sizeof_FloatScore * cTensorScores)); [lia |].
  rewrite size_mul_small by (unfold sizeof_FloatScore in *; lia).
  unfold sizeof_FloatScore in *.
  assert (8 * (m_cTensorScoreCapacity t / 8) <= m_cTensorScoreCapacity t)
    by (apply Z.mul_div_le; lia).
  destruct (Z.ltb_spec (m_cTensorScoreCapacity t) (8 * cTensorScores)); [lia |].
  by destruct t.
Qed.

Lemma Add_splits_same (bins : list Z) (ds1 ds2 pre : list DimensionInfo) (i n : Z)
  (t : Tensor) (r : ErrorEbm * Tensor) :
  Dimensions_ok bins ds1 -> Dimensions_same (length bins) ds1 ds2 ->
  m_aDimensions t = pre ++ ds1 -> i = Z.of_nat (length pre) ->
  Add_splits (add_stack bins ds1 ds2 n) ds2 i t = Some r ->
  fst r = Error_None /\ m_cTensorScoreCapacity (snd r) = m_cTensorScoreCapacity t /\
  forall j, m_cSliceCapacity (GetDimension (snd r) j) = m_cSliceCapacity (GetDimension t j).
Proof.
  revert ds1 ds2 pre i n t.
  induction bins as [| cBins bins IH]; intros ds1 ds2 pre i n t H1 Hsame Hds Hi E.
  { simpl in E. by injection E as <-. }
  destruct ds1 as [| d1 ds1]; [done |]. destruct ds2 as [| d2 ds2]; [done |].
  simpl in H1, Hsame. destruct H1 as [Hd1 H1], Hsame as [[Hs Hl] Hsame].
  cbn [add_stack Add_splits hd tl DimensionInfoStack.m_cNewSlices] in E.
  pose proof (length_live_splits _ _ Hd1) as Hl1.
  assert (merged_count (d1 :: ds1) (d2 :: ds2) = m_cSlices d1) as HN.
  { unfold merged_count, merged_splits. simpl hd. rewrite <- Hl, merge_union_same. lia. }
  rewrite HN in E.
  destruct Hd1 as (HB1 & Hcap1 & Hlen1 & Hok1).
  assert (GetDimension t i = d1) as Hget
    by (unfold GetDimension; rewrite Hds; by apply rd_app_middle).
  unfold SetCountSlices in E. rewrite Hget in E.
  destruct (Z.ltb_spec (m_cSliceCapacity d1) (m_cSlices d1)); [lia |].
  unfold with_dimension in E. rewrite Hds, (wr_app_middle d1 _ pre ds1 i Hi) in E.
  unfold GetDimension in E. simpl m_aDimensions in E.
  rewrite (rd_app_middle _ _ pre ds1 i Hi) in E.
  destruct (Add_merge_splits _ _ _ _ _ _) as [aSplits |]; [| done].
  rewrite (wr_app_middle _ _ pre ds1 i Hi) in E.
  apply (IH ds1 ds2 (pre ++ [with_aSplits (with_cSlices d1 (m_cSlices d1)) aSplits]) (i + 1))
    in E; try done.
  - destruct E as (E1 & E2 & E3). split; [done |]. split; [done |].
    intros j. rewrite E3. unfold GetDimension. simpl m_aDimensions. rewrite Hds.
    destruct (Z.eq_dec j i) as [-> | Hne].
    + by rewrite !(rd_app_middle _ _ pre ds1 i Hi).
    + rewrite <- (wr_app_middle d1 (with_aSplits (with_cSlices d1 (m_cSlices d1)) aSplits)
                    pre ds1 i Hi).
      by rewrite rd_wr_ne by done.
  - simpl. by rewrite <- app_assoc.
  - rewrite length_app. simpl. lia.
Qed.

(** X12. [Add] of a tensor whose slice counts and live splits are those of
    the left tensor, as for two expanded tensors, cannot fail: it returns
    [Error_None] without growing a buffer, leaves the partition as it is,
    and adds the scores sample by sample. *)
Theorem Add_same_partition (bins : list Z) (t rhs : Tensor) :
  1 < sizeof_UIntSplit -> Tensor_ok bins t -> Tensor_ok bins rhs ->
  m_cScores rhs = m_cScores t ->
  Dimensions_same (length bins) (m_aDimensions t) (m_aDimensions rhs) ->
  exists t',
    Add t rhs = Some (Error_None, t') /\
    Tensor_ok bins t' /\
    m_cTensorScoreCapacity t' = m_cTensorScoreCapacity t /\
    (forall j, m_cSliceCapacity (GetDimension t' j) = m_cSliceCapacity (GetDimension t j)) /\
    live_scores t' = live_scores t /\
    forall c j, coordinates_ok bins c -> 0 <= j < m_cScores t ->
      sample t' c j = float_add (sample t c j) (sample rhs c j).
Proof.
  intros Hsz Hok1 Hok2 HSeq Hsame.
  destruct (Add_spec bins t rhs Hsz Hok1 Hok2 HSeq) as (error & t' & E & _ & Hpost).
  assert (error = Error_None /\ m_cTensorScoreCapacity t' = m_cTensorScoreCapacity t /\
          forall j, m_cSliceCapacity (GetDimension t' j) = m_cSliceCapacity (GetDimension t j))
    as (-> & Hcp & Hsl).
  { destruct bins as [| cBins bins'].
    { destruct Hok1 as (_ & HD & _). simpl in HD. unfold Add in E. rewrite HD in E.
      change (0 =? 0) with true in E. cbv iota in E.
      destruct (Add_scalar _ _ _ _ _ _); [| done]. by injection E as <- <-. }
    set (bins := cBins :: bins') in *.
    pose proof Hok1 as (HS & HD & Hds1 & Hlen & Hfit & Hmax).
    destruct Hok2 as (_ & HD' & Hds2 & _).
    unfold Add in E.
    destruct (Z.eqb_spec 0 (m_cDimensions t)) as [Hz | _]; [simpl in HD; lia |].
    rewrite HD, Nat2Z.id in E.
    pose proof (bins_product_pos _ _ Hds1) as Hprod.
    pose proof (slices_product_bounds _ _ Hds1) as Hsp.
    assert (m_cScores t * fold_right Z.mul 1 bins <= SIZE_MAX) as HSB
      by (unfold sizeof_FloatScore in Hmax; lia).
    rewrite (Add_count_spec bins (m_aDimensions t) (m_aDimensions rhs)) in E by done.
    rewrite (Dimensions_same_merged bins _ _ Hds1 Hsame) in E.
    unfold live_scores in Hfit. rewrite HD, Nat2Z.id in Hfit.
    rewrite EnsureTensorScoreCapacity_enough in E;
      try done; try nia; try (unfold sizeof_FloatScore in *; nia).
    destruct (Add_scores _ _ _ _ _ _ _ _ _ _) as [a |]; [| done].
    by apply (Add_splits_same bins (m_aDimensions t) (m_aDimensions rhs) []) in E. }
  exists t'. split; [done |].
  destruct (Hpost eq_refl) as (Hok' & _ & HS' & Hmerged & Hsum).
  split; [done |]. split; [done |]. split; [done |]. split; [| done].
  destruct Hok1 as (_ & HD & Hds1 & _). destruct Hok2 as (_ & _ & Hds2 & _).
  pose proof Hok' as (_ & HD' & Hds' & _).
  unfold live_scores. rewrite HD', HD, Nat2Z.id, HS'. f_equal.
  clear - Hds1 Hds2 Hds' Hmerged Hsame.
  revert Hds1 Hds2 Hds' Hmerged Hsame.
  generalize (m_aDimensions t) (m_aDimensions rhs) (m_aDimensions t').
  induction bins as [| cBins bins IH]; intros ds1 ds2 ds' H1 H2 H' Hm Hsame; [done |].
  destruct ds1 as [| d1 ds1]; [done |]. destruct ds2 as [| d2 ds2]; [done |].
  destruct ds' as [| d' ds']; [done |].
  simpl in H1, H2, H', Hm, Hsame.
  destruct H1 as [Hd1 H1], H2 as [Hd2 H2], H' as [Hd' H'],
    Hm as [(Hok & Hin & Hc & _) Hm], Hsame as [[Hs Hl] Hsame].
  cbn [slices_product length hd tl]. rewrite (IH ds1 ds2 ds') by done. f_equal.
  rewrite Hc. pose proof (length_live_splits _ _ Hd1) as Hl1.
  destruct Hd1 as (_ & _ & _ & Hok1).
  assert (live_splits d' = live_splits d1) as ->; [| lia].
  apply (splits_ok_ext 0 cBins 0 cBins); try done.
  intros v. rewrite Hin, <- Hl. split; [by intros [? | ?] | by left].
Qed.

(** ** Bad addends of [AddExpandedWithBadValueProtection] *)

Lemma float_le_finite_neg (m1 m2 : positive) (e1 e2 : Z) :
  e2 < e1 \/ (e1 = e2 /\ Z.pos m2 <= Z.pos m1) ->
  float_le (S754_finite true m1 e1) (S754_finite true m2 e2) = true.
Proof.
  unfold float_le, SFleb, SFcompare. intros [Hlt | [-> Hle]].
  - by rewrite (proj2 (Z.compare_gt_iff e1 e2) Hlt).
  - rewrite Z.compare_refl.
    change (Pos.compare_cont Eq m1 m2) with (m1 ?= m2)%positive.
    by destruct (Pos.compare_spec m1 m2); [| lia |].
Qed.

Lemma float_lowest_eq : float_lowest = S754_finite true 9007199254740991 971.
Proof. reflexivity. Qed.

(** A valid finite [double] is at least [lowest]. *)
Lemma valid_float_lowest_le (x : spec_float) :
  valid_binary prec emax x = true -> isfinite x = true -> float_le float_lowest x = true.
Proof.
  rewrite float_lowest_eq.
  destruct x as [s | s | | s m e]; try done; intros Hv _.
  destruct s; [| done].
  unfold valid_binary, bounded, canonical_mantissa, fexp, emin in Hv.
  apply andb_true_iff in Hv as [Hc He].
  apply Z.eqb_eq in Hc. apply Z.leb_le in He.
  change (emax - prec) with 971 in He. change (3 - emax - prec) with (-1074) in Hc.
  unfold prec in Hc.
  apply float_le_finite_neg.
  destruct (Z.eq_dec e 971) as [-> | Hne]; [right | left; lia].
  split; [done |].
  assert (Hd : Z.pos (digits2_pos m) = 53) by lia.
  pose proof (digits2_pos_bound m) as Hb. rewrite Hd in Hb.
  clear Hc He Hd. change (2 ^ 53) with (9007199254740991 + 1) in Hb.
  by apply Z.lt_succ_r.
Qed.

Lemma SFcompare_finite_Eq (s : bool) (m : positive) (e : Z) (y : spec_float) :
  SFcompare (S754_finite s m e) y = Some Eq -> y = S754_finite s m e.
Proof.
  destruct y as [sy | sy | | sy my ey]; try done; try (by destruct s); try (by destruct s, sy).
  simpl. intros H. injection H as H.
  destruct s, sy; try done; destruct (Z.compare_spec e ey) as [-> | ? | ?]; try done.
  - apply CompOpp_iff in H. simpl in H. apply Pos.compare_eq in H. by subst.
  - apply Pos.compare_eq in H. by subst.
Qed.

Lemma float_le_antisym (s : bool) (m : positive) (e : Z) (y : spec_float) :
  float_le (S754_finite s m e) y = true -> float_le y (S754_finite s m e) = true ->
  y = S754_finite s m e.
Proof.
  unfold float_le, SFleb. rewrite (SFcompare_antisym (S754_finite s m e) y).
  destruct (SFcompare (S754_finite s m e) y) as [[] |] eqn:E; try done.
  intros _ _. by apply SFcompare_finite_Eq.
Qed.

(** A valid finite score that is not zero passes the two clamps unchanged. *)
Lemma clamps_keep (s : bool) (m : positive) (e : Z) :
  valid_binary prec emax (S754_finite s m e) = true ->
  (let score := S754_finite s m e in
   let score := if float_le score float_lowest then float_lowest else score in
   let score := if float_le float_max score then float_max else score in
   score) = S754_finite s m e.
Proof.
  intros Hv. cbv zeta.
  pose proof (valid_float_lowest_le _ Hv eq_refl) as Hlow.
  pose proof (valid_le_float_max _ Hv eq_refl) as Hhigh.
  destruct (float_le (S754_finite s m e) float_lowest) eqn:E1.
  - assert (float_lowest = S754_finite s m e) as <- by (by apply float_le_antisym).
    by vm_compute.
  - destruct (float_le float_max (S754_finite s m e)) eqn:E2; [| done].
    by apply float_le_antisym.
Qed.

Lemma AddWithBadValueProtection_nan (toScore fromScore : FloatScore) :
  isnan fromScore = true ->
  valid_binary prec emax toScore = true -> isfinite toScore = true ->
  float_eq (AddWithBadValueProtection toScore fromScore) toScore = true /\
  (toScore <> S754_zero true -> AddWithBadValueProtection toScore fromScore = toScore).
Proof.
  intros Hnan Hv Hfin. unfold AddWithBadValueProtection. rewrite Hnan.
  destruct toScore as [[] | | | s m e]; try done.
  unfold float_add, float_zero. cbn [SFadd].
  pose proof (clamps_keep s m e Hv) as Hkeep. cbv zeta in Hkeep. rewrite Hkeep.
  split; [| done]. rewrite float_eq_refl. done.
Qed.

Lemma AddWithBadValueProtection_infinity (toScore : FloatScore) (sign : bool) :
  isnan toScore = false -> toScore <> S754_infinity (negb sign) ->
  AddWithBadValueProtection toScore (S754_infinity sign)
  = if sign then float_lowest else float_max.
Proof.
  intros Hnan Hopp. unfold AddWithBadValueProtection.
  destruct toScore as [s | s | | s m e], sign; try done; try (by destruct s).
Qed.

(** X13. The bad addends of [AddExpandedWithBadValueProtection], live score
    by live score. A NaN addend is a no-op on a valid finite score: the
    score stays what it was, except that [-0] becomes [+0]. An addend of
    [+infinity] stores [max] and one of [-infinity] stores [lowest], unless
    the stored score is NaN or the opposite infinity. *)
Theorem AddExpandedWithBadValueProtection_bad_addends (bins : list Z) (t : Tensor)
  (aFromScores : list FloatScore) :
  Tensor_ok bins t -> m_bExpanded t = true ->
  exists a,
    AddExpandedWithBadValueProtection t aFromScores = Some (with_scores t a) /\
    forall i, 0 <= i < live_scores t ->
      let stored := rd float_zero (m_aTensorScores t) i in
      let addend := rd float_zero aFromScores i in
      (isnan addend = true -> valid_binary prec emax stored = true -> isfinite stored = true ->
       float_eq (rd float_zero a i) stored = true /\
       (stored <> S754_zero true -> rd float_zero a i = stored)) /\
      (forall sign, addend = S754_infinity sign ->
       isnan stored = false -> stored <> S754_infinity (negb sign) ->
       rd float_zero a i = if sign then float_lowest else float_max).
Proof.
  intros Hok _. destruct (live_scores_spec _ _ Hok) as [Hcount Hlive].
  destruct Hok as (HS & HD & Hds & Hlen & Hfit & Hmax).
  unfold AddExpandedWithBadValueProtection. rewrite Hcount.
  destruct (AddExpanded_loop_spec aFromScores (Z.to_nat (live_scores t)) (m_aTensorScores t)
              0 (live_scores t)) as (a & -> & Hl & Hrd); try lia.
  exists a. split; [done |]. intros i Hi. cbv zeta.
  assert (rd float_zero a i
          = AddWithBadValueProtection (rd float_zero (m_aTensorScores t) i)
              (rd float_zero aFromScores i)) as ->.
  { rewrite Hrd. by destruct (Z.leb_spec 0 i), (Z.ltb_spec i (live_scores t)); try lia. }
  split.
  - intros Hnan Hv Hfin. by apply AddWithBadValueProtection_nan.
  - intros sign Einf Hnan Hopp. rewrite Einf. by apply AddWithBadValueProtection_infinity.
Qed.

(** ** Early returns of [CalcInteractionStrength] *)

Lemma CollectFeatures_single_bin (pInteractionCore : InteractionCore) (featureIndexes : list Z)
  (pEnd i : Z) (out : option spec_float) (fuel : nat) (p : Z) (entries : list Feature) :
  0 <= p <= i -> i - p < Z.of_nat fuel -> i < pEnd ->
  (forall k, p <= k < i -> index_ok pInteractionCore (rd 0 featureIndexes k)) ->
  0 <= rd 0 featureIndexes i < GetCountFeatures pInteractionCore ->
  GetCountBins (feature_at pInteractionCore (rd 0 featureIndexes i)) <= 1 ->
  CollectFeatures fuel pInteractionCore featureIndexes p pEnd entries out
  = Some (inl (Error_None, store out float_zero)).
Proof.
  revert p entries.
  induction fuel as [| fuel IH]; intros p entries Hp Hfuel Hend Hok Hrange Hbins; [lia |].
  cbn [CollectFeatures]. destruct (Z.eq_dec p i) as [-> | Hne].
  - destruct (Z.ltb_spec (rd 0 featureIndexes i) 0); [lia |].
    destruct (Z.leb_spec (GetCountFeatures pInteractionCore) (rd 0 featureIndexes i)); [lia |].
    unfold feature_at in Hbins.
    destruct (Z.leb_spec
                (GetCountBins (rd (mkFeature 0) (GetFeatures pInteractionCore)
                                 (rd 0 featureIndexes i))) 1); [done | lia].
  - destruct (Hok p ltac:(lia)) as [Hrange' Hbins']. unfold feature_at in Hbins'.
    destruct (Z.ltb_spec (rd 0 featureIndexes p) 0); [lia |].
    destruct (Z.leb_spec (GetCountFeatures pInteractionCore) (rd 0 featureIndexes p)); [lia |].
    destruct (Z.leb_spec
                (GetCountBins (rd (mkFeature 0) (GetFeatures pInteractionCore)
                                 (rd 0 featureIndexes p))) 1); [lia |].
    destruct (Z.eqb_spec pEnd (p + 1)); [lia |]. simpl negb. cbv iota.
    apply IH; try lia; try done. intros k Hk. apply Hok. lia.
Qed.

(** X14. The short circuit on a feature with a single bin: when the first
    index that is not of a feature with two bins or more is in range, and
    its feature has at most one bin, [CalcInteractionStrength] returns
    [Error_None] and stores zero, whatever the indexes behind it are, and
    without looking at the data set or sizing the buckets. *)
Theorem CalcInteractionStrength_single_bin (pInteractionShell : InteractionShell)
  (countDimensions : Z) (featureIndexes : list Z) (options countSamplesMin : Z)
  (out : option spec_float) (i : Z) :
  0 <= i < countDimensions -> countDimensions <= k_cDimensionsMax ->
  (forall k, 0 <= k < i ->
     index_ok (GetInteractionCore pInteractionShell) (rd 0 featureIndexes k)) ->
  0 <= rd 0 featureIndexes i < GetCountFeatures (GetInteractionCore pInteractionShell) ->
  GetCountBins (feature_at (GetInteractionCore pInteractionShell) (rd 0 featureIndexes i)) <= 1 ->
  CalcInteractionStrength (Some pInteractionShell) countDimensions (Some featureIndexes)
    options countSamplesMin out
  = Some (Error_None, store out float_zero).
Proof.
  intros Hi Hmax Hok Hrange Hbins. unfold CalcInteractionStrength.
  destruct (Z.leb_spec countDimensions 0); [lia |].
  destruct (Z.ltb_spec k_cDimensionsMax countDimensions); [lia |].
  fold (store out k_illegalGainDouble).
  rewrite (CollectFeatures_single_bin _ _ countDimensions i) by (done || lia).
  by destruct out.
Qed.

(** X15. With valid indexes of features with two bins or more, a data set
    without samples, or a target with a single class, makes
    [CalcInteractionStrength] return [Error_None] and store zero; the
    buckets are not sized, so the call succeeds even for a feature group
    whose bucket count would overflow. *)
Theorem CalcInteractionStrength_nothing_to_learn (pInteractionShell : InteractionShell)
  (featureIndexes : list Z) (options countSamplesMin : Z) (out : option spec_float) :
  let pInteractionCore := GetInteractionCore pInteractionShell in
  let countDimensions := Z.of_nat (length featureIndexes) in
  0 < countDimensions <= k_cDimensionsMax ->
  Forall (index_ok pInteractionCore) featureIndexes ->
  GetCountSamples (GetDataSetInteraction pInteractionCore) = 0 \/
  GetRuntimeLearningTypeOrCountTargetClasses pInteractionCore = 1 ->
  CalcInteractionStrength (Some pInteractionShell) countDimensions (Some featureIndexes)
    options countSamplesMin out
  = Some (Error_None, store out float_zero).
Proof.
  intros pInteractionCore countDimensions Hdim Hok Hcase.
  unfold CalcInteractionStrength. fold pInteractionCore.
  destruct (Z.leb_spec countDimensions 0); [lia |].
  destruct (Z.ltb_spec k_cDimensionsMax countDimensions); [lia |].
  unfold countDimensions at 2.
  rewrite CollectFeatures_valid by (done || lia).
  destruct (Z.eqb_spec 0 (GetCountSamples (GetDataSetInteraction pInteractionCore)));
    [by destruct out |].
  destruct (Z.eqb_spec 1 (GetRuntimeLearningTypeOrCountTargetClasses pInteractionCore));
    [by destruct out |].
  destruct Hcase; congruence.
Qed.

(** ** The output pointer *)

Lemma CollectFeatures_null (pInteractionCore : InteractionCore) (featureIndexes : list Z)
  (pEnd : Z) (v : spec_float) (fuel : nat) (p : Z) (entries : list Feature) :
  CollectFeatures fuel pInteractionCore featureIndexes p pEnd entries None
  = match CollectFeatures fuel pInteractionCore featureIndexes p pEnd entries (Some v) with
    | None => None
    | Some (inl (error, _)) => Some (inl (error, None))
    | Some (inr entries') => Some (inr entries')
    end.
Proof.
  revert p entries. induction fuel as [| fuel IH]; intros p entries; [done |].
  cbn [CollectFeatures].
  destruct (rd 0 featureIndexes p <? 0); [done |].
  destruct (GetCountFeatures pInteractionCore <=? rd 0 featureIndexes p); [done |].
  destruct (GetCountBins _ <=? 1); [done |].
  destruct (negb (pEnd =? p + 1)); [apply IH | done].
Qed.

(** X16. The output pointer has no part in the control flow: with a null
    pointer [CalcInteractionStrength] returns the error code that it
    returns with a pointer to a cell, and it returns in the same cases. *)
Theorem CalcInteractionStrength_null_output (interactionHandle : option InteractionShell)
  (countDimensions : Z) (featureIndexes : option (list Z)) (options countSamplesMin : Z)
  (old : spec_float) :
  CalcInteractionStrength interactionHandle countDimensions featureIndexes options
    countSamplesMin None
  = match CalcInteractionStrength interactionHandle countDimensions featureIndexes options
            countSamplesMin (Some old) with
    | Some (error, _) => Some (error, None)
    | None => None
    end.
Proof.
  unfold CalcInteractionStrength.
  destruct interactionHandle as [pInteractionShell |]; [| done].
  destruct (countDimensions <=? 0); [by destruct (0 =? countDimensions) |].
  destruct featureIndexes as [aFeatureIndexes |]; [| done].
  destruct (k_cDimensionsMax <? countDimensions); [done |].
  rewrite (CollectFeatures_null _ _ _ k_illegalGainDouble).
  destruct (CollectFeatures _ _ _ _ _ _ (Some k_illegalGainDouble)) as [[[error out] | entries] |];
    try done.
  destruct (0 =? GetCountSamples _); [done |].
  destruct (1 =? GetRuntimeLearningTypeOrCountTargetClasses _); [done |].
  unfold CalcInteractionStrengthInternal.
  destruct (SizeBuckets _ _) as [sizes |]; [| done].
  destruct (negb (GetHistogramBucketBase_ok (cBytesBuffer sizes))); [done |].
  destruct (2 =? FeatureGroup.GetCountSignificantDimensions _); [done |].
  by destruct (negb NDEBUG).
Qed.

(** X17. A valid call for a pair, end to end: with two valid indexes, a data
    set with samples, a target that is not of a single class, and buckets
    that can be sized and allocated, [CalcInteractionStrength] returns
    [Error_None]. The partitioner is called on the two features in the order
    of their indexes, with the options as given and with the minimum count
    of samples brought into the range from 1 to [SIZE_MAX]; its gain,
    divided by the total weight, is stored when it is between zero and
    [max], zero is stored for a negative quotient down to [lowest], and the
    sentinel otherwise. *)
Theorem CalcInteractionStrength_pair (pInteractionShell : InteractionShell)
  (i0 i1 options countSamplesMin : Z) (old : spec_float) (sizes : BucketSizes) :
  let pInteractionCore := GetInteractionCore pInteractionShell in
  let featureGroup :=
    FeatureGroup.mk 2 2 [feature_at pInteractionCore i0; feature_at pInteractionCore i1] in
  let bestGain :=
    float_div
      (PartitionTwoDimensionalInteraction pInteractionCore featureGroup options
         (Z.max 1 (Z.min countSamplesMin SIZE_MAX)))
      (GetWeightTotal (GetDataSetInteraction pInteractionCore)) in
  2 <= k_cDimensionsMax ->
  index_ok pInteractionCore i0 -> index_ok pInteractionCore i1 ->
  GetCountSamples (GetDataSetInteraction pInteractionCore) <> 0 ->
  GetRuntimeLearningTypeOrCountTargetClasses pInteractionCore <> 1 ->
  SizeBuckets pInteractionCore featureGroup = Some sizes ->
  GetHistogramBucketBase_ok (cBytesBuffer sizes) = true ->
  CalcInteractionStrength (Some pInteractionShell) 2 (Some [i0; i1]) options countSamplesMin
    (Some old)
  = Some (Error_None,
          Some (if float_le bestGain float_max
                then if float_lt bestGain float_zero
                     then if float_le float_lowest bestGain then float_zero
                          else k_illegalGainDouble
                     else bestGain
                else k_illegalGainDouble)).
Proof.
  intros pInteractionCore featureGroup bestGain Hmax H0 H1 Hsamples Hclasses Hsize Halloc.
  unfold CalcInteractionStrength. fold pInteractionCore.
  change (2 <=? 0) with false. cbv iota.
  destruct (Z.ltb_spec k_cDimensionsMax 2); [lia |].
  pose proof (CollectFeatures_valid pInteractionCore [i0; i1] (Some k_illegalGainDouble)
                (Z.to_nat 2) 0 []) as Hvalid.
  cbv zeta in Hvalid. change (Z.of_nat (length [i0; i1])) with 2 in Hvalid.
  change (drop (Z.to_nat 0) [i0; i1]) with [i0; i1] in Hvalid.
  rewrite Hvalid; [| lia | lia | constructor; [done | constructor; [done | constructor]]].
  cbn [app map].
  fold featureGroup.
  destruct (Z.eqb_spec 0 (GetCountSamples (GetDataSetInteraction pInteractionCore)));
    [congruence |].
  destruct (Z.eqb_spec 1 (GetRuntimeLearningTypeOrCountTargetClasses pInteractionCore));
    [congruence |].
  unfold CalcInteractionStrengthInternal. rewrite Hsize, Halloc. simpl negb. cbv iota.
  change (2 =? FeatureGroup.GetCountSignificantDimensions featureGroup) with true. cbv iota.
  assert ((if 1 <=? countSamplesMin
           then if IsConvertError_size_t countSamplesMin then SIZE_MAX else countSamplesMin
           else 1) = Z.max 1 (Z.min countSamplesMin SIZE_MAX)) as ->.
  { unfold IsConvertError_size_t. rewrite SIZE_MAX_eq.
    destruct (Z.leb_spec 1 countSamplesMin); [| lia].
    destruct (Z.ltb_spec countSamplesMin 0); [lia |].
    destruct (Z.ltb_spec 18446744073709551615 countSamplesMin); simpl; lia. }
  fold bestGain. by destruct (float_le bestGain float_max).
Qed.

Lemma memset_zero_from_spec (n : nat) (i : Z) (a : list FloatScore) :
  0 <= i ->
  length (memset_zero_from n i a) = length a /\
  forall k,
    rd float_zero (memset_zero_from n i a) k
    = if (i <=? k) && (k <? i + Z.of_nat n) then float_zero else rd float_zero a k.
Proof.
  revert i a. induction n as [| n IH]; intros i a Hi; cbn [memset_zero_from].
  { split; [done |]. intros k.
    by destruct (Z.leb_spec i k), (Z.ltb_spec k (i + Z.of_nat 0)); try lia. }
  destruct (IH (i + 1) (wr a i float_zero) ltac:(lia)) as [Hl Hrd].
  split; [by rewrite Hl, length_wr |].
  intros k. rewrite Hrd.
  destruct (Z.leb_spec (i + 1) k), (Z.ltb_spec k (i + 1 + Z.of_nat n)), (Z.leb_spec i k),
    (Z.ltb_spec k (i + Z.of_nat (S n))); try lia; cbn [andb]; try done;
    try (apply rd_wr_ne; lia).
  assert (k = i) as -> by lia.
  destruct (Z_lt_dec i (Z.of_nat (length a))) as [Hin | Hout].
  - apply rd_wr_eq. lia.
  - rewrite wr_out_of_range by lia. apply rd_out_of_range. lia.
Qed.

Lemma Allocate_slices_spec (fuel : nat) (pre ds : list DimensionInfo) (i N : Z) :
  i = Z.of_nat (length pre) -> i + Z.of_nat (length ds) = N -> N <= SIZE_MAX ->
  (1 <= length ds <= fuel)%nat ->
  Allocate_slices fuel i i N (pre ++ ds)
  = Some (pre ++ map (fun _ => mkDimensionInfo 1 k_initialSliceCapacity []) ds).
Proof.
  revert pre ds i. induction fuel as [| fuel IH]; intros pre ds i Hi HN Hmax Hf; [lia |].
  destruct ds as [| d ds]; [simpl in Hf; lia |].
  cbn [Allocate_slices]. cbv zeta. rewrite (wr_app_middle d _ pre ds i Hi).
  cbn [length] in HN, Hf. rewrite size_add_small by lia.
  replace (pre ++ mkDimensionInfo 1 k_initialSliceCapacity [] :: ds)
    with ((pre ++ [mkDimensionInfo 1 k_initialSliceCapacity []]) ++ ds)
    by (by rewrite <- app_assoc).
  destruct (Z.ltb_spec (i + 1) N) as [Hlt | Hge].
  - rewrite IH; [| rewrite length_app; simpl; lia | lia | lia | lia].
    by rewrite <- app_assoc.
  - destruct ds; [| simpl in HN; lia]. by rewrite <- app_assoc.
Qed.

Lemma Allocate_splits_spec (fuel : nat) (pre ds : list DimensionInfo) (i N : Z) :
  i = Z.of_nat (length pre) -> i + Z.of_nat (length ds) = N -> N <= SIZE_MAX ->
  (1 <= length ds <= fuel)%nat ->
  exists r,
    Allocate_splits fuel i i N (pre ++ ds) = Some r /\
    (r = None <->
     exists k, i <= k < N /\
       malloc_ok (k + 1) (size_mul sizeof_UIntSplit (size_sub k_initialSliceCapacity 1))
       = false) /\
    forall ds', r = Some ds' ->
      ds' = pre ++ map (fun d => with_aSplits d
                          (replicate
                             (Z.to_nat (size_mul sizeof_UIntSplit
                                          (size_sub k_initialSliceCapacity 1)
                                        / sizeof_UIntSplit)) fresh_split)) ds.
Proof.
  revert pre ds i. induction fuel as [| fuel IH]; intros pre ds i Hi HN Hmax Hf; [lia |].
  destruct ds as [| d ds]; [simpl in Hf; lia |].
  cbn [Allocate_splits]. cbv zeta.
  set (cBytes := size_mul sizeof_UIntSplit (size_sub k_initialSliceCapacity 1)).
  cbn [length] in HN, Hf.
  destruct (malloc_ok (i + 1) cBytes) eqn:Em; cbn [negb].
  2: { exists None. split; [done |]. split; [| done].
       split; [| done]. intros _. exists i. split; [lia | done]. }
  rewrite (rd_app_middle _ d pre ds i Hi), (wr_app_middle d _ pre ds i Hi).
  rewrite size_add_small by lia.
  set (arr := replicate (Z.to_nat (cBytes / sizeof_UIntSplit)) fresh_split).
  replace (pre ++ with_aSplits d arr :: ds) with ((pre ++ [with_aSplits d arr]) ++ ds)
    by (by rewrite <- app_assoc).
  destruct (Z.ltb_spec (i + 1) N) as [Hlt | Hge].
  - destruct (IH (pre ++ [with_aSplits d arr]) ds (i + 1)) as (r & E & Hnone & Hsome);
      [rewrite length_app; simpl; lia | lia | lia | lia |].
    exists r. split; [exact E |]. split.
    + rewrite Hnone. split; intros (k & Hk & Ek).
      * exists k. split; [lia | done].
      * exists k. split; [| done].
        destruct (Z.eq_dec k i) as [-> | Hne]; [congruence | lia].
    + intros ds' Hr. rewrite (Hsome ds' Hr). by rewrite <- app_assoc.
  - destruct ds; [| simpl in HN; lia].
    exists (Some ((pre ++ [with_aSplits d arr]) ++ [])). split; [done |]. split.
    + split; [done |]. intros (k & Hk & Ek). assert (k = i) as -> by lia. congruence.
    + intros ds' [= <-]. by rewrite <- app_assoc.
Qed.

(** Dimensions of one slice: every bin is in the first cell. *)
Lemma Dimensions_single (bins : list Z) (d : DimensionInfo) :
  Forall (fun cBins => 1 <= cBins) bins ->
  m_cSlices d = 1 -> 1 <= m_cSliceCapacity d ->
  Z.of_nat (length (m_aSplits d)) = m_cSliceCapacity d - 1 ->
  Dimensions_ok bins (replicate (length bins) d) /\
  slices_product (length bins) (replicate (length bins) d) = 1 /\
  forall c stride,
    coordinates_ok bins c -> cell_offset c (replicate (length bins) d) stride = 0.
Proof.
  intros Hbins Hs Hcap Hlen.
  induction Hbins as [| cBins bins HB Hbins (IH1 & IH2 & IH3)].
  { simpl. split; [done |]. split; [done |]. by intros [| b c] stride Hc. }
  cbn [length replicate Dimensions_ok slices_product hd tl].
  split; [| split].
  - split; [| exact IH1]. unfold Dimension_ok, live_splits. rewrite Hs.
    split; [done |]. split; [lia |]. split; [done |]. done.
  - rewrite IH2. lia.
  - intros [| b c] stride Hc; [done |]. destruct Hc as [Hb Hc].
    cbn [cell_offset hd tl]. rewrite IH3 by done.
    unfold live_splits. rewrite Hs. simpl. lia.
Qed.

(** X18. [Allocate] returns the zero tensor or nothing. With capacities that
    do not wrap it returns [nullptr] exactly when one of its allocations
    fails (the tensor, the score array, or the splits of one dimension);
    otherwise the tensor has [cScores] scores per cell and [cDimensionsMax]
    dimensions, is not expanded, satisfies the invariants over any bin
    counts that fit the address space, and every sample of it is zero. *)
Theorem Allocate_zero (cDimensionsMax cScores : Z) :
  1 <= cScores -> 0 <= cDimensionsMax <= SIZE_MAX ->
  1 <= k_initialTensorCapacity -> 1 <= k_initialSliceCapacity <= SIZE_MAX ->
  0 < sizeof_UIntSplit ->
  sizeof_UIntSplit * (k_initialSliceCapacity - 1) <= SIZE_MAX ->
  sizeof_FloatScore * k_initialTensorCapacity * cScores <= SIZE_MAX ->
  exists r,
    Allocate cDimensionsMax cScores = Some r /\
    (r = None <->
     malloc_ok 0 (size_add offsetof_m_aDimensions (size_mul sizeof_DimensionInfo cDimensionsMax))
     = false \/
     aligned_alloc_ok (sizeof_FloatScore * k_initialTensorCapacity * cScores) = false \/
     exists k, 1 <= k <= cDimensionsMax /\
       malloc_ok k (sizeof_UIntSplit * (k_initialSliceCapacity - 1)) = false) /\
    forall t, r = Some t ->
      m_cScores t = cScores /\ m_cDimensions t = cDimensionsMax /\
      m_cDimensionsMax t = cDimensionsMax /\ m_bExpanded t = false /\
      forall bins,
        Z.of_nat (length bins) = cDimensionsMax ->
        Forall (fun cBins => 1 <= cBins) bins ->
        sizeof_FloatScore * (cScores * fold_right Z.mul 1 bins) <= SIZE_MAX ->
        Tensor_ok bins t /\
        forall c j, coordinates_ok bins c -> 0 <= j < cScores ->
          sample t c j = float_zero.
Proof.
  intros HS HD HkT HkS Hsz Hsplit Hcap. unfold Allocate, IsMultiplyError.
  unfold sizeof_FloatScore in *.
  destruct (Z.ltb_spec SIZE_MAX (k_initialTensorCapacity * cScores)) as [Hbad | _]; [nia |].
  cbv zeta. rewrite (size_mul_small 8 k_initialTensorCapacity) by nia.
  rewrite (size_mul_small (8 * k_initialTensorCapacity) cScores) by nia.
  rewrite (size_mul_small 8 cScores) by nia.
  set (cBytesTensor := size_add offsetof_m_aDimensions _).
  set (cap := 8 * k_initialTensorCapacity * cScores).
  destruct (malloc_ok 0 cBytesTensor) eqn:Em0; cbn [negb].
  2: { exists None. split; [done |]. split; [| done]. split; [by left | done]. }
  destruct (aligned_alloc_ok cap) eqn:Ea; cbn [negb].
  2: { exists None. split; [done |]. split; [| done]. split; [by right; left | done]. }
  set (fresh := replicate (Z.to_nat (cap / 8)) fresh_score).
  destruct (memset_zero_from_spec (Z.to_nat (8 * cScores / 8)) 0 fresh ltac:(lia))
    as [Hlen Hrd].
  change (memset_zero_from (Z.to_nat (8 * cScores / 8)) 0 fresh)
    with (memset_zero fresh (8 * cScores)) in Hlen, Hrd.
  assert (8 * cScores / 8 = cScores) as Hdiv by (rewrite Z.mul_comm; by apply Z.div_mul).
  assert (cap / 8 = k_initialTensorCapacity * cScores) as Hcapdiv.
  { unfold cap. rewrite <- Z.mul_assoc, Z.mul_comm. by apply Z.div_mul. }
  assert (length fresh = Z.to_nat (k_initialTensorCapacity * cScores)) as Hfresh
    by (unfold fresh; by rewrite length_replicate, Hcapdiv).
  rewrite Hdiv in Hrd.
  set (arr := replicate (Z.to_nat (sizeof_UIntSplit * (k_initialSliceCapacity - 1)
                                   / sizeof_UIntSplit)) fresh_split).
  assert (Z.of_nat (length arr) = k_initialSliceCapacity - 1) as Harr.
  { unfold arr. rewrite length_replicate, Z.mul_comm, Z.div_mul by lia. lia. }
  set (d := mkDimensionInfo 1 k_initialSliceCapacity arr).
  (* the part common to both shapes of the result *)
  assert (forall t,
            m_cScores t = cScores -> m_cDimensions t = cDimensionsMax ->
            m_cTensorScoreCapacity t = cap ->
            m_aTensorScores t = memset_zero fresh (8 * cScores) ->
            m_aDimensions t = replicate (Z.to_nat cDimensionsMax) d ->
            forall bins,
              Z.of_nat (length bins) = cDimensionsMax ->
              Forall (fun cBins => 1 <= cBins) bins ->
              8 * (cScores * fold_right Z.mul 1 bins) <= SIZE_MAX ->
              Tensor_ok bins t /\
              forall c j, coordinates_ok bins c -> 0 <= j < cScores ->
                sample t c j = float_zero) as Hfinal.
  { intros t HtS HtD Htcap Hta Htd bins Hbl Hbins Hfit.
    assert (Z.to_nat cDimensionsMax = length bins) as HDn by lia.
    rewrite HDn in Htd.
    destruct (Dimensions_single bins d Hbins eq_refl ltac:(simpl; lia) Harr)
      as (Hok & Hprod & Hoff).
    split.
    - unfold Tensor_ok, live_scores, sizeof_FloatScore.
      rewrite HtS, HtD, Htcap, Hta, Htd, Hlen, Hfresh, <- Hbl, Nat2Z.id, Hprod, Hcapdiv.
      split; [done |]. split; [done |]. split; [done |]. split; [lia |]. split; [nia | done].
    - intros c j Hc Hj. unfold sample. rewrite Hta, Htd, HtS, Hoff, Hrd by done.
      destruct (Z.leb_spec 0 (0 + j)), (Z.ltb_spec (0 + j) (0 + Z.of_nat (Z.to_nat cScores)));
        try lia; done. }
  destruct (Z.eqb_spec 0 cDimensionsMax) as [HD0 | HDn]; cbn [negb].
  { eexists. split; [reflexivity |]. split.
    - split; [done |]. intros [Hf | [Hf | (k & Hk & _)]]; try congruence. lia.
    - intros t [= <-]. cbn [m_cScores m_cDimensions m_cDimensionsMax m_bExpanded].
      split; [done |]. split; [done |]. split; [done |]. split; [done |].
      apply Hfinal; try done. by rewrite <- HD0. }
  pose proof (Allocate_slices_spec (Z.to_nat cDimensionsMax) []
                (replicate (Z.to_nat cDimensionsMax) fresh_dimension) 0 cDimensionsMax) as E1.
  rewrite length_replicate in E1. cbn [app] in E1.
  rewrite E1; [| done | lia | lia | lia]. clear E1.
  destruct (Allocate_splits_spec (Z.to_nat cDimensionsMax) []
              (map (fun _ => mkDimensionInfo 1 k_initialSliceCapacity [])
                 (replicate (Z.to_nat cDimensionsMax) fresh_dimension)) 0 cDimensionsMax)
    as (r & E2 & Hnone & Hsome);
    [done | rewrite length_map, length_replicate; lia | lia
    | rewrite length_map, length_replicate; lia |].
  cbn [app] in E2, Hsome. rewrite E2.
  rewrite size_sub_small, size_mul_small in Hnone, Hsome by lia.
  fold arr in Hsome.
  assert (r = None <->
          exists k, 1 <= k <= cDimensionsMax /\
            malloc_ok k (sizeof_UIntSplit * (k_initialSliceCapacity - 1)) = false) as Hnone'.
  { rewrite Hnone. split; intros (k & Hk & Ek).
    - exists (k + 1). split; [lia | done].
    - exists (k - 1). split; [lia |]. by replace (k - 1 + 1) with k by lia. }
  destruct r as [ds' |].
  - eexists. split; [reflexivity |]. split.
    + split; [done |]. intros [Hf | [Hf | Hf]]; try congruence.
      by apply Hnone' in Hf.
    + intros t [= <-]. cbn [with_dimensions m_cScores m_cDimensions m_cDimensionsMax m_bExpanded].
      split; [done |]. split; [done |]. split; [done |]. split; [done |].
      apply Hfinal; try done. cbn [with_dimensions m_aDimensions].
      rewrite (Hsome ds' eq_refl), map_map.
      generalize (Z.to_nat cDimensionsMax). intros n. induction n as [| n IH]; [done |].
      cbn [replicate map]. by rewrite IH.
  - exists None. split; [done |]. split; [| done]. split; [| done].
    intros _. right. right. by apply Hnone'.
Qed.

(** [==] on doubles holds between two zeros of any sign and between a value
    that is not NaN and itself, and in no other case. *)
Lemma float_eq_cases (x y : spec_float) :
  float_eq x y = true <->
  (exists s s', x = S754_zero s /\ y = S754_zero s') \/ (x = y /\ isnan x = false).
Proof.
  split.
  - intros H. destruct x as [s | s | | s m e].
    + destruct y as [s' | s' | | s' m' e']; try (by destruct s'); try done.
      left. by exists s, s'.
    + destruct y as [s' | s' | | s' m' e']; try (by destruct s); try (by destruct s, s').
      by destruct s, s'; try done; right.
    + done.
    + right. split; [| done]. symmetry. apply SFcompare_finite_Eq.
      unfold float_eq, SFeqb in H.
      by destruct (SFcompare (S754_finite s m e) y) as [[] |].
  - intros [(s & s' & -> & ->) | [<- Hn]]; [done |].
    rewrite float_eq_refl. by rewrite Hn.
Qed.

Lemma float_eq_sym (x y : spec_float) : float_eq x y = float_eq y x.
Proof.
  assert (forall a b, float_eq a b = true -> float_eq b a = true) as H.
  { intros a b. rewrite !float_eq_cases.
    intros [(s & s' & -> & ->) | [<- Hn]]; [left; by exists s', s | by right]. }
  destruct (float_eq x y) eqn:E1, (float_eq y x) eqn:E2; try done.
  - apply H in E1. congruence.
  - apply H in E2. congruence.
Qed.

Lemma float_eq_trans (x y z : spec_float) :
  float_eq x y = true -> float_eq y z = true -> float_eq x z = true.
Proof.
  rewrite !float_eq_cases.
  intros [(s & s' & -> & ->) | [<- Hn]] [(s1 & s2 & E & ->) | [<- Hn']].
  - left. by exists s, s2.
  - left. by exists s, s'.
  - left. by exists s1, s2.
  - by right.
Qed.

Lemma Dimensions_same_sym (n : nat) (ds1 ds2 : list DimensionInfo) :
  Dimensions_same n ds1 ds2 -> Dimensions_same n ds2 ds1.
Proof.
  revert ds1 ds2. induction n as [| n IH]; intros ds1 ds2 H; [done |].
  destruct ds1 as [| d1 ds1], ds2 as [| d2 ds2]; try done.
  destruct H as [[H1 H2] H]. split; [by split |]. by apply IH.
Qed.

Lemma Dimensions_same_trans (n : nat) (ds1 ds2 ds3 : list DimensionInfo) :
  Dimensions_same n ds1 ds2 -> Dimensions_same n ds2 ds3 -> Dimensions_same n ds1 ds3.
Proof.
  revert ds1 ds2 ds3. induction n as [| n IH]; intros ds1 ds2 ds3 H H'; [done |].
  destruct ds1 as [| d1 ds1], ds2 as [| d2 ds2], ds3 as [| d3 ds3]; try done.
  destruct H as [[H1 H2] H], H' as [[H1' H2'] H'].
  split; [split; congruence |]. by apply (IH ds1 ds2 ds3).
Qed.

(** X19. On tensors over the same features [IsEqual] is symmetric and
    transitive (it is not reflexive: a tensor with a live NaN differs from
    itself). *)
Theorem IsEqual_symmetric_transitive (bins : list Z) (a b c : Tensor) :
  Tensor_ok bins a -> Tensor_ok bins b -> Tensor_ok bins c ->
  m_cScores b = m_cScores a -> m_cScores c = m_cScores a ->
  IsEqual a b = IsEqual b a /\
  (IsEqual a b = Some true -> IsEqual b c = Some true -> IsEqual a c = Some true).
Proof.
  intros Ha Hb Hc HSb HSc.
  assert (forall x y,
            Tensor_ok bins x -> Tensor_ok bins y ->
            Dimensions_same (length bins) (m_aDimensions x) (m_aDimensions y) ->
            m_cScores y = m_cScores x -> live_scores y = live_scores x) as Hlive.
  { intros x y Hx Hy Hsame HS. unfold live_scores.
    destruct Hx as (_ & -> & _), Hy as (_ & -> & _). rewrite Nat2Z.id, HS.
    by rewrite (proj1 (Dimensions_same_cells bins _ _ Hsame)). }
  destruct (IsEqual_cases bins a b Ha Hb HSb) as (ab & Eab & Hab).
  destruct (IsEqual_cases bins b a Hb Ha (eq_sym HSb)) as (ba & Eba & Hba).
  destruct (IsEqual_cases bins b c Hb Hc ltac:(congruence)) as (bc & Ebc & Hbc).
  destruct (IsEqual_cases bins a c Ha Hc HSc) as (ac & Eac & Hac).
  split.
  - rewrite Eab, Eba. f_equal.
    destruct ab, ba; try done.
    + destruct (proj1 Hab eq_refl) as [Hsame Hscores].
      symmetry. apply Hba. split; [by apply Dimensions_same_sym |].
      intros i Hi. rewrite float_eq_sym. apply Hscores.
      by rewrite <- (Hlive a b Ha Hb Hsame HSb).
    + destruct (proj1 Hba eq_refl) as [Hsame Hscores].
      apply Hab. split; [by apply Dimensions_same_sym |].
      intros i Hi. rewrite float_eq_sym. apply Hscores.
      by rewrite <- (Hlive b a Hb Ha Hsame (eq_sym HSb)).
  - rewrite Eab, Ebc, Eac. intros [= ->] [= ->]. f_equal.
    destruct (proj1 Hab eq_refl) as [Hsame1 Hscores1].
    destruct (proj1 Hbc eq_refl) as [Hsame2 Hscores2].
    apply Hac. split; [by apply (Dimensions_same_trans _ _ (m_aDimensions b)) |].
    intros i Hi.
    apply (float_eq_trans _ (rd float_zero (m_aTensorScores b) i)); [by apply Hscores1 |].
    apply Hscores2. by rewrite (Hlive a b Ha Hb Hsame1 HSb).
Qed.

End Model.

(** * Instances

    The theorems above at concrete tensors and concrete calls, on a platform
    with 8-byte splits whose allocators always succeed and, where nothing
    else is said, in a build with [NDEBUG], and the inputs at which a
    statement of the design document fails. *)

Lemma SetCountSlices_grow_or_unchanged_witness :
  exists t',
    SetCountSlices 8 (fun _ => true) 0 example_a 0 5 = (Error_None, t') /\
    Z.of_nat (length (m_aSplits (GetDimension t' 0))) = 6 /\
    m_cSliceCapacity (GetDimension t' 0) = 7.
Proof.
  pose proof (SetCountSlices_grow_or_unchanged 8 (fun _ => true) 0 example_a 0 5) as H.
  destruct H as (t' & E & Hlen & Hcap & _);
    [lia | simpl; lia | simpl; lia | rewrite SIZE_MAX_eq; lia |].
  exists t'. by repeat split.
Defined.

Lemma example_expanded_ok : Tensor_ok [2; 2] example_expanded.
Proof.
  unfold Tensor_ok, live_scores. simpl.
  repeat split; try lia; try (rewrite SIZE_MAX_eq; lia); by vm_compute.
Qed.

Lemma AddExpandedWithBadValueProtection_clamps_witness :
  exists a,
    AddExpandedWithBadValueProtection example_expanded
      [float_half_lowest; float_half_lowest; float_half_lowest; float_half_lowest]
    = Some (with_scores example_expanded a) /\
    isfinite (rd float_zero a 0) = true.
Proof.
  destruct (AddExpandedWithBadValueProtection_clamps [2; 2] example_expanded
              [float_half_lowest; float_half_lowest; float_half_lowest; float_half_lowest]
              example_expanded_ok eq_refl) as (a & E & _ & _ & _ & Hfinite).
  exists a. split; [exact E |].
  apply (Hfinite 0); [by vm_compute | reflexivity | reflexivity].
Defined.

(** C3, as stated, fails: a stored [+infinity] that meets an added
    [-infinity] becomes NaN, and the clamps keep a NaN. *)
Lemma AddExpandedWithBadValueProtection_stores_nan :
  Tensor_ok [] example_infinite /\
  m_bExpanded example_infinite = true /\
  AddExpandedWithBadValueProtection example_infinite [S754_infinity true]
  = Some (with_scores example_infinite [S754_nan]).
Proof.
  split; [| by split].
  unfold Tensor_ok, live_scores. simpl.
  repeat split; try lia; try (rewrite SIZE_MAX_eq; lia); by vm_compute.
Qed.


Lemma CalcInteractionStrengthInternal_classifies_witness :
  exists stored,
    CalcInteractionStrengthInternal float_lowest (fun c => 0 <=? c) (fun c => c)
      (fun _ _ => false) (fun _ v => 16 + 16 * v) (fun _ => true)
      (fun _ _ _ _ => float_of_Z 12) true
      example_core (FeatureGroup.mk 2 2 [mkFeature 3; mkFeature 2]) 0 1 (Some S754_nan)
    = Some (Error_None, Some stored) /\
    stored = float_of_Z 2.
Proof.
  destruct (CalcInteractionStrengthInternal_classifies float_lowest (fun c => 0 <=? c)
              (fun c => c) (fun _ _ => false) (fun _ v => 16 + 16 * v) (fun _ => true)
              (fun _ _ _ _ => float_of_Z 12) true
              example_core (FeatureGroup.mk 2 2 [mkFeature 3; mkFeature 2]) 0 1
              (mkBucketSizes 4 6 4 10 48 480) S754_nan
              ltac:(by vm_compute) eq_refl eq_refl) as (stored & E & _ & _ & _ & Hgain).
  exists stored. split; [exact E |].
  rewrite Hgain; by vm_compute.
Defined.

Lemma CalcInteractionStrength_index_out_of_range_witness :
  CalcInteractionStrength 64 float_lowest (fun c => 0 <=? c) (fun c => c)
    (fun _ _ => false) (fun _ v => 16 + 16 * v) (fun _ => true)
    (fun _ _ _ _ => float_of_Z 12) true
    (Some example_shell) 2 (Some [1; 7]) 0 1 (Some S754_nan)
  = Some (Error_IllegalParamValue, Some float_lowest).
Proof.
  apply (CalcInteractionStrength_index_out_of_range 64 float_lowest (fun c => 0 <=? c)
           (fun c => c) (fun _ _ => false) (fun _ v => 16 + 16 * v) (fun _ => true)
           (fun _ _ _ _ => float_of_Z 12) true
           example_shell 2 [1; 7] 0 1 (Some S754_nan) 1); [lia | lia | |].
  - intros k Hk. assert (k = 0) as -> by lia. by vm_compute.
  - right. by vm_compute.
Defined.

(** C5, as stated, fails: the loop checks the range and the bin count of one
    index before it looks at the next, so that a single-bin feature ahead of
    an index out of range ends the call with [Error_None] and zero. *)
Lemma CalcInteractionStrength_single_bin_before_out_of_range :
  index_out_of_range example_core (rd 0 [2; 7] 1) /\
  CalcInteractionStrength 64 float_lowest (fun c => 0 <=? c) (fun c => c)
    (fun _ _ => false) (fun _ v => 16 + 16 * v) (fun _ => true)
    (fun _ _ _ _ => float_of_Z 12) true
    (Some example_shell) 2 (Some [2; 7]) 0 1 (Some S754_nan)
  = Some (Error_None, Some float_zero).
Proof. split; [right; by vm_compute | by vm_compute]. Qed.

(** A call for a pair returns in a build with assertions too. *)
Lemma CalcInteractionStrength_output_witness :
  exists error stored,
    CalcInteractionStrength 64 float_lowest (fun c => 0 <=? c) (fun c => c)
      (fun _ _ => false) (fun _ v => 16 + 16 * v) (fun _ => true)
      (fun _ _ _ _ => float_of_Z 12) false
      (Some example_shell) 2 (Some [0; 1]) 0 1 (Some S754_nan)
    = Some (error, Some stored) /\
    isfinite stored = true.
Proof.
  destruct (CalcInteractionStrength_output 64 float_lowest (fun c => 0 <=? c) (fun c => c)
              (fun _ _ => false) (fun _ v => 16 + 16 * v) (fun _ => true)
              (fun _ _ _ _ => float_of_Z 12) false
              (Some example_shell) 2 (Some [0; 1]) 0 1 S754_nan eq_refl)
    as [(error & stored & E & _ & _ & Hfinite) | (_ & Hpair & _)].
  - by exists error, stored.
  - by destruct Hpair.
Defined.

(** A call for three features: the sentinel with [NDEBUG], no return in a
    build with assertions. *)
Lemma CalcInteractionStrength_not_a_pair_witness :
  CalcInteractionStrength 64 float_lowest (fun c => 0 <=? c) (fun c => c)
    (fun _ _ => false) (fun _ v => 16 + 16 * v) (fun _ => true)
    (fun _ _ _ _ => float_of_Z 12) true
    (Some example_shell) 3 (Some [0; 1; 3]) 0 1 (Some S754_nan)
  = Some (Error_None, Some float_lowest) /\
  CalcInteractionStrength 64 float_lowest (fun c => 0 <=? c) (fun c => c)
    (fun _ _ => false) (fun _ v => 16 + 16 * v) (fun _ => true)
    (fun _ _ _ _ => float_of_Z 12) false
    (Some example_shell) 3 (Some [0; 1; 3]) 0 1 (Some S754_nan)
  = None.
Proof.
  split.
  - apply (CalcInteractionStrength_not_a_pair 64 float_lowest (fun c => 0 <=? c) (fun c => c)
             (fun _ _ => false) (fun _ v => 16 + 16 * v) (fun _ => true)
             (fun _ _ _ _ => float_of_Z 12) true
             example_shell [0; 1; 3] 0 1 S754_nan (mkBucketSizes 10 12 10 22 48 1056));
      try (simpl; lia); try (by vm_compute).
    repeat constructor; by vm_compute.
  - apply (CalcInteractionStrength_not_a_pair 64 float_lowest (fun c => 0 <=? c) (fun c => c)
             (fun _ _ => false) (fun _ v => 16 + 16 * v) (fun _ => true)
             (fun _ _ _ _ => float_of_Z 12) false
             example_shell [0; 1; 3] 0 1 S754_nan (mkBucketSizes 10 12 10 22 48 1056));
      try (simpl; lia); try (by vm_compute).
    repeat constructor; by vm_compute.
Defined.

(** C7, as stated, fails: three features of [2^22] bins each pass the
    validation, yet the product of their bin counts does not fit [size_t],
    and the call returns [Error_OutOfMemory], before it reaches the
    assertion. *)
Lemma CalcInteractionStrength_triple_out_of_memory :
  Forall (index_ok example_wide_core) [0; 1; 2] /\
  CalcInteractionStrength 64 float_lowest (fun c => 0 <=? c) (fun c => c)
    (fun _ _ => false) (fun _ v => 16 + 16 * v) (fun _ => true)
    (fun _ _ _ _ => float_of_Z 12) true
    (Some example_wide_shell) 3 (Some [0; 1; 2]) 0 1 (Some S754_nan)
  = Some (Error_OutOfMemory, Some float_lowest).
Proof. split; [repeat constructor; by vm_compute | by vm_compute]. Qed.

Lemma example_sparse_ok : Tensor_ok [3; 2] example_sparse.
Proof.
  unfold Tensor_ok, live_scores. simpl.
  repeat split; try lia; try (rewrite SIZE_MAX_eq; lia); by vm_compute.
Qed.

Lemma Expand_preserves_samples_witness :
  exists t',
    Expand 8 (fun _ => true) (fun _ => true) 0 S754_nan (fun cBytes => Z.max cBytes (2 * cBytes))
      example_sparse (mkTerm [3; 2]) = Some (Error_None, t') /\
    sample t' [2; 1] 0 = sample example_sparse [2; 1] 0.
Proof.
  destruct (Expand_preserves_samples 8 (fun _ => true) (fun _ => true) 0 S754_nan
              (fun cBytes => Z.max cBytes (2 * cBytes)) ltac:(intros; simpl; lia)
              [3; 2] example_sparse ltac:(lia) example_sparse_ok) as [_ H].
  destruct (H eq_refl) as (error & t' & E & _ & Hpost).
  assert (error = Error_None) as ->.
  { assert (fst <$> Expand 8 (fun _ => true) (fun _ => true) 0 S754_nan
                      (fun cBytes => Z.max cBytes (2 * cBytes)) example_sparse (mkTerm [3; 2])
            = Some Error_None) as E' by (by vm_compute).
    rewrite E in E'. by injection E'. }
  exists t'. split; [exact E |].
  apply (Hpost eq_refl); [simpl; lia | simpl; lia].
Defined.

Lemma capacity_never_shrinks_witness :
  capacity_le example_a
    (snd (SetCountSlices 8 (fun _ => true) 0 example_a 0 5)).
Proof.
  apply (capacity_never_shrinks 8 (fun _ => true) (fun _ => true) 0 S754_nan
           (fun cBytes => Z.max cBytes (2 * cBytes)) ltac:(intros; simpl; lia)
           example_a ltac:(lia)).
  unfold is_size_t. rewrite SIZE_MAX_eq. lia.
Defined.

Lemma example_a_ok : Tensor_ok [4] example_a.
Proof.
  unfold Tensor_ok, live_scores. simpl.
  repeat split; try lia; try (rewrite SIZE_MAX_eq; lia); by vm_compute.
Qed.

Lemma example_b_ok : Tensor_ok [4] example_b.
Proof.
  unfold Tensor_ok, live_scores. simpl.
  repeat split; try lia; try (rewrite SIZE_MAX_eq; lia); by vm_compute.
Qed.

(** Scenario 3 of the design document: [a] split at 2 plus [b] split at 3
    gives 2 + 10 = 12 in bin 2. *)
Lemma Add_sums_samples_witness :
  exists t',
    Add 8 (fun _ => true) (fun _ => true) 0 S754_nan (fun cBytes => Z.max cBytes (2 * cBytes))
      example_a example_b = Some (Error_None, t') /\
    sample t' [2] 0 = float_add (sample example_a [2] 0) (sample example_b [2] 0) /\
    sample t' [2] 0 = float_of_Z 12.
Proof.
  destruct (Add_sums_samples 8 (fun _ => true) (fun _ => true) 0 S754_nan
              (fun cBytes => Z.max cBytes (2 * cBytes)) ltac:(intros; simpl; lia)
              [4] example_a example_b ltac:(lia) example_a_ok example_b_ok eq_refl
              ltac:(simpl; lia)) as (error & t' & E & _ & Hpost).
  assert (error = Error_None) as ->.
  { assert (fst <$> Add 8 (fun _ => true) (fun _ => true) 0 S754_nan
                      (fun cBytes => Z.max cBytes (2 * cBytes)) example_a example_b
            = Some Error_None) as E' by (by vm_compute).
    rewrite E in E'. by injection E'. }
  destruct (Hpost eq_refl) as (_ & _ & _ & Hsample).
  exists t'. split; [exact E |].
  assert (sample t' [2] 0 = float_add (sample example_a [2] 0) (sample example_b [2] 0)) as Hs
    by (apply Hsample; simpl; lia).
  split; [exact Hs |]. rewrite Hs. by vm_compute.
Defined.

Lemma example_infinite_ok : Tensor_ok [] example_infinite.
Proof.
  unfold Tensor_ok, live_scores. simpl.
  repeat split; try lia; try (rewrite SIZE_MAX_eq; lia); by vm_compute.
Qed.

Lemma Reset_zero_witness : sample (Reset example_sparse) [2; 1] 0 = float_zero.
Proof.
  exact (proj2 (proj2 (proj2 (proj2 (Reset_zero [3; 2] example_sparse example_sparse_ok))))
           [2; 1] 0 ltac:(simpl; lia) ltac:(simpl; lia)).
Defined.

Lemma MultiplyAndCheckForIssues_scales_witness :
  exists bBad a,
    MultiplyAndCheckForIssues example_sparse (float_of_Z 3)
    = Some (bBad, with_scores example_sparse a) /\
    sample (with_scores example_sparse a) [2; 1] 0 = float_of_Z 12.
Proof.
  destruct (MultiplyAndCheckForIssues_scales [3; 2] example_sparse (float_of_Z 3)
              example_sparse_ok) as (bBad & a & E & _ & _ & Hsample & _).
  exists bBad, a. split; [exact E |].
  rewrite Hsample; [by vm_compute | simpl; lia | simpl; lia].
Defined.

Lemma Add_without_dimensions_witness :
  exists a,
    Add 8 (fun _ => true) (fun _ => true) 0 S754_nan (fun cBytes => Z.max cBytes (2 * cBytes))
      example_infinite example_infinite
    = Some (Error_None, with_scores example_infinite a) /\
    sample (with_scores example_infinite a) [] 0 = S754_infinity false.
Proof.
  destruct (Add_without_dimensions 8 (fun _ => true) (fun _ => true) 0 S754_nan
              (fun cBytes => Z.max cBytes (2 * cBytes))
              example_infinite example_infinite example_infinite_ok example_infinite_ok
              eq_refl) as (a & E & _ & _ & Hsample).
  exists a. split; [exact E |].
  rewrite Hsample; [by vm_compute | simpl; lia].
Defined.

Lemma Copy_copies_witness :
  exists t',
    Copy 8 (fun _ => true) (fun _ => true) 0 S754_nan (fun cBytes => Z.max cBytes (2 * cBytes))
      example_a example_b = (Error_None, t') /\
    sample t' [3] 0 = float_of_Z 20.
Proof.
  destruct (Copy_copies 8 (fun _ => true) (fun _ => true) 0 S754_nan
              (fun cBytes => Z.max cBytes (2 * cBytes)) ltac:(intros; simpl; lia)
              [4] example_a example_b ltac:(lia) example_a_ok example_b_ok eq_refl)
    as (error & t' & E & _ & Hpost).
  assert (error = Error_None) as ->.
  { assert (fst (Copy 8 (fun _ => true) (fun _ => true) 0 S754_nan
                   (fun cBytes => Z.max cBytes (2 * cBytes)) example_a example_b)
            = Error_None) as E' by (by vm_compute).
    by rewrite E in E'. }
  destruct (Hpost eq_refl) as (_ & _ & _ & Hsample).
  exists t'. split; [exact E |].
  rewrite Hsample; [by vm_compute | simpl; lia | simpl; lia].
Defined.

Lemma IsEqual_decides_witness :
  exists b,
    IsEqual example_a example_b = Some b /\
    (b = true -> float_eq (sample example_a [3] 0) (sample example_b [3] 0) = true).
Proof.
  destruct (IsEqual_decides [4] example_a example_b example_a_ok example_b_ok eq_refl)
    as (b & E & _ & Hsamples).
  exists b. split; [exact E |].
  intros Hb. apply (Hsamples Hb); simpl; lia.
Defined.

Lemma IsEqual_self_witness : IsEqual example_sparse example_sparse = Some true.
Proof.
  destruct (IsEqual_self [3; 2] example_sparse example_sparse_ok) as (b & E & Hb).
  rewrite E. f_equal. apply Hb.
  intros i Hi. change (live_scores example_sparse) with 4 in Hi.
  assert (i = 0 \/ i = 1 \/ i = 2 \/ i = 3) as [-> | [-> | [-> | ->]]] by lia; reflexivity.
Defined.

Lemma Copy_then_IsEqual_witness :
  IsEqual
    (snd (Copy 8 (fun _ => true) (fun _ => true) 0 S754_nan
            (fun cBytes => Z.max cBytes (2 * cBytes)) example_a example_b))
    example_b
  = Some true.
Proof.
  destruct (Copy_then_IsEqual 8 (fun _ => true) (fun _ => true) 0 S754_nan
              (fun cBytes => Z.max cBytes (2 * cBytes)) ltac:(intros; simpl; lia)
              [4] example_a example_b
              (snd (Copy 8 (fun _ => true) (fun _ => true) 0 S754_nan
                      (fun cBytes => Z.max cBytes (2 * cBytes)) example_a example_b))
              ltac:(lia) example_a_ok example_b_ok eq_refl ltac:(by vm_compute))
    as (b & E & Hb).
  rewrite E. f_equal. apply Hb.
  intros i Hi. change (live_scores example_b) with 2 in Hi.
  assert (i = 0 \/ i = 1) as [-> | ->] by lia; reflexivity.
Defined.

Lemma Expand_keeps_invariants_witness :
  exists t',
    Expand 8 (fun _ => true) (fun _ => true) 0 S754_nan (fun cBytes => Z.max cBytes (2 * cBytes))
      example_sparse (mkTerm [3; 2]) = Some (Error_None, t') /\
    Tensor_ok [3; 2] t' /\ m_bExpanded t' = true /\ live_scores t' = 6.
Proof.
  eexists. split; [by vm_compute |].
  destruct (Expand_keeps_invariants 8 (fun _ => true) (fun _ => true) 0 S754_nan
              (fun cBytes => Z.max cBytes (2 * cBytes)) ltac:(intros; simpl; lia)
              [3; 2] example_sparse _ ltac:(lia) example_sparse_ok ltac:(by vm_compute))
    as (Hok & Hflag & Hdense).
  split; [exact Hok |]. split; [exact Hflag |].
  by destruct (Hdense eq_refl) as [_ ->].
Defined.

Lemma Expand_then_AddExpanded_witness :
  exists t1 t2,
    Expand 8 (fun _ => true) (fun _ => true) 0 S754_nan (fun cBytes => Z.max cBytes (2 * cBytes))
      example_sparse (mkTerm [3; 2]) = Some (Error_None, t1) /\
    AddExpandedWithBadValueProtection t1
      [float_of_Z 10; float_of_Z 20; float_of_Z 30; float_of_Z 40; float_of_Z 50; float_of_Z 60]
    = Some t2 /\
    sample t2 [2; 1] 0 = float_of_Z 64.
Proof.
  eexists.
  destruct (Expand_then_AddExpanded 8 (fun _ => true) (fun _ => true) 0 S754_nan
              (fun cBytes => Z.max cBytes (2 * cBytes)) ltac:(intros; simpl; lia)
              [3; 2] example_sparse _
              [float_of_Z 10; float_of_Z 20; float_of_Z 30; float_of_Z 40; float_of_Z 50;
               float_of_Z 60]
              ltac:(lia) example_sparse_ok eq_refl ltac:(by vm_compute))
    as (t2 & E & _ & Hsample).
  exists t2. split; [by vm_compute |]. split; [exact E |].
  rewrite Hsample; [by vm_compute | simpl; lia | simpl; lia].
Defined.

Lemma Add_keeps_invariants_witness :
  exists t',
    Add 8 (fun _ => true) (fun _ => true) 0 S754_nan (fun cBytes => Z.max cBytes (2 * cBytes))
      example_a example_b = Some (Error_None, t') /\
    Tensor_ok [4] t' /\ m_bExpanded t' = false.
Proof.
  eexists. split; [by vm_compute |].
  destruct (Add_keeps_invariants 8 (fun _ => true) (fun _ => true) 0 S754_nan
              (fun cBytes => Z.max cBytes (2 * cBytes)) ltac:(intros; simpl; lia)
              [4] example_a example_b _ ltac:(lia) example_a_ok example_b_ok eq_refl
              ltac:(by vm_compute)) as (Hok & Hflag & _).
  by split.
Defined.

Lemma Expand_Add_commute_witness :
  exists a1 b1 r1 r,
    Expand 8 (fun _ => true) (fun _ => true) 0 S754_nan (fun cBytes => Z.max cBytes (2 * cBytes))
      example_a (mkTerm [4]) = Some (Error_None, a1) /\
    Expand 8 (fun _ => true) (fun _ => true) 0 S754_nan (fun cBytes => Z.max cBytes (2 * cBytes))
      example_b (mkTerm [4]) = Some (Error_None, b1) /\
    Add 8 (fun _ => true) (fun _ => true) 0 S754_nan (fun cBytes => Z.max cBytes (2 * cBytes))
      a1 b1 = Some (Error_None, r1) /\
    Add 8 (fun _ => true) (fun _ => true) 0 S754_nan (fun cBytes => Z.max cBytes (2 * cBytes))
      example_a example_b = Some (Error_None, r) /\
    sample r1 [2] 0 = sample r [2] 0.
Proof.
  do 4 eexists.
  split; [by vm_compute |]. split; [by vm_compute |].
  split; [by vm_compute |]. split; [by vm_compute |].
  apply (Expand_Add_commute 8 (fun _ => true) (fun _ => true) 0 S754_nan
           (fun cBytes => Z.max cBytes (2 * cBytes)) ltac:(intros; simpl; lia)
           [4] example_a example_b _ _ _ _ ltac:(lia) example_a_ok example_b_ok eq_refl
           ltac:(by vm_compute) ltac:(by vm_compute) ltac:(by vm_compute)
           ltac:(by vm_compute));
    simpl; lia.
Defined.

Lemma Add_same_partition_witness :
  exists t',
    Add 8 (fun _ => true) (fun _ => true) 0 S754_nan (fun cBytes => Z.max cBytes (2 * cBytes))
      example_sparse example_sparse = Some (Error_None, t') /\
    live_scores t' = 4 /\
    sample t' [2; 1] 0 = float_of_Z 8.
Proof.
  destruct (Add_same_partition 8 (fun _ => true) (fun _ => true) 0 S754_nan
              (fun cBytes => Z.max cBytes (2 * cBytes)) ltac:(intros; simpl; lia)
              [3; 2] example_sparse example_sparse ltac:(lia) example_sparse_ok
              example_sparse_ok eq_refl ltac:(by simpl))
    as (t' & E & _ & _ & _ & Hlive & Hsample).
  exists t'. split; [exact E |]. split; [by rewrite Hlive |].
  rewrite Hsample; [by vm_compute | simpl; lia | simpl; lia].
Defined.

Lemma AddExpandedWithBadValueProtection_bad_addends_witness :
  exists a,
    AddExpandedWithBadValueProtection example_expanded
      [S754_nan; S754_infinity true; S754_infinity false; float_zero]
    = Some (with_scores example_expanded a) /\
    rd float_zero a 0 = float_half_lowest /\
    rd float_zero a 1 = float_lowest /\
    rd float_zero a 2 = float_max.
Proof.
  destruct (AddExpandedWithBadValueProtection_bad_addends [2; 2] example_expanded
              [S754_nan; S754_infinity true; S754_infinity false; float_zero]
              example_expanded_ok eq_refl) as (a & E & H).
  exists a. split; [exact E |].
  split; [| split].
  - apply (proj1 (H 0 ltac:(by vm_compute))); [reflexivity | by vm_compute | by vm_compute |].
    by vm_compute.
  - apply (proj2 (H 1 ltac:(by vm_compute)) true); [reflexivity | reflexivity |].
    by vm_compute.
  - apply (proj2 (H 2 ltac:(by vm_compute)) false); [reflexivity | reflexivity |].
    by vm_compute.
Defined.

Lemma CalcInteractionStrength_single_bin_witness :
  CalcInteractionStrength 64 float_lowest (fun c => 0 <=? c) (fun c => c)
    (fun _ _ => false) (fun _ v => 16 + 16 * v) (fun _ => true)
    (fun _ _ _ _ => float_of_Z 12) true
    (Some example_shell) 2 (Some [0; 2]) 0 1 (Some S754_nan)
  = Some (Error_None, Some float_zero).
Proof.
  apply (CalcInteractionStrength_single_bin 64 float_lowest (fun c => 0 <=? c)
           (fun c => c) (fun _ _ => false) (fun _ v => 16 + 16 * v) (fun _ => true)
           (fun _ _ _ _ => float_of_Z 12) true
           example_shell 2 [0; 2] 0 1 (Some S754_nan) 1); [lia | lia | | by vm_compute | ].
  - intros k Hk. assert (k = 0) as -> by lia. by vm_compute.
  - by vm_compute.
Defined.

Lemma CalcInteractionStrength_nothing_to_learn_witness :
  CalcInteractionStrength 64 float_lowest (fun c => 0 <=? c) (fun c => c)
    (fun _ _ => false) (fun _ v => 16 + 16 * v) (fun _ => true)
    (fun _ _ _ _ => float_of_Z 12) true
    (Some example_empty_shell) 2 (Some [0; 1]) 0 1 (Some S754_nan)
  = Some (Error_None, Some float_zero).
Proof.
  apply (CalcInteractionStrength_nothing_to_learn 64 float_lowest (fun c => 0 <=? c)
           (fun c => c) (fun _ _ => false) (fun _ v => 16 + 16 * v) (fun _ => true)
           (fun _ _ _ _ => float_of_Z 12) true
           example_empty_shell [0; 1] 0 1 (Some S754_nan)).
  - simpl. lia.
  - constructor; [by vm_compute | constructor; [by vm_compute | constructor]].
  - by left.
Defined.

Lemma CalcInteractionStrength_pair_witness :
  CalcInteractionStrength 64 float_lowest (fun c => 0 <=? c) (fun c => c)
    (fun _ _ => false) (fun _ v => 16 + 16 * v) (fun _ => true)
    (fun _ _ _ _ => float_of_Z 12) true
    (Some example_shell) 2 (Some [0; 1]) 0 (-5) (Some S754_nan)
  = Some (Error_None, Some (float_of_Z 2)).
Proof.
  rewrite (CalcInteractionStrength_pair 64 float_lowest (fun c => 0 <=? c)
             (fun c => c) (fun _ _ => false) (fun _ v => 16 + 16 * v) (fun _ => true)
             (fun _ _ _ _ => float_of_Z 12) true
             example_shell 0 1 0 (-5) S754_nan (mkBucketSizes 4 6 4 10 48 480));
    by vm_compute.
Defined.

Lemma Allocate_zero_witness :
  exists t,
    Allocate 8 (fun _ => true) 0 S754_nan 2 2 48 24 DimensionInfo_null (fun _ _ => true) 2 1
    = Some (Some t) /\
    Tensor_ok [3; 2] t /\
    sample t [2; 1] 0 = float_zero.
Proof.
  destruct (Allocate_zero 8 (fun _ => true) 0 S754_nan 2 2 48 24 DimensionInfo_null
              (fun _ _ => true) 2 1)
    as (r & E & Hnone & Hsome);
    [lia | rewrite SIZE_MAX_eq; lia | lia | rewrite SIZE_MAX_eq; lia | lia
    | rewrite SIZE_MAX_eq; lia | rewrite SIZE_MAX_eq; unfold sizeof_FloatScore; lia |].
  destruct r as [t |].
  - exists t. split; [exact E |].
    destruct (Hsome t eq_refl) as (_ & _ & _ & _ & H).
    destruct (H [3; 2]) as [Hok Hzero];
      [reflexivity | repeat constructor; lia
      | rewrite SIZE_MAX_eq; unfold sizeof_FloatScore; simpl; lia |].
    split; [exact Hok |]. apply Hzero; simpl; lia.
  - exfalso. destruct (proj1 Hnone eq_refl) as [Hf | [Hf | (k & _ & Hf)]]; done.
Defined.

Lemma IsEqual_symmetric_transitive_witness :
  IsEqual example_a example_b = IsEqual example_b example_a.
Proof.
  exact (proj1 (IsEqual_symmetric_transitive [4] example_a example_b example_a
                  example_a_ok example_b_ok example_a_ok eq_refl eq_refl)).
Defined.
